(** * The n8n MCP server: catalog builder, query service, workflow service and tools

    A shallow embedding of
    - [loaders/node-loader.ts]   (the package scanner, [N8nNodeLoader]),
    - the rebuild script         ([rebuild], [extractNodeType], [extractVersion],
                                  [extractDocumentation], ...),
    - [services/node-service.ts] (the query service, [N8nNodeService]),
    - [services/workflow-service.ts] (the client of the n8n API,
                                  [N8nWorkflowService]),
    - [utils/logger.ts]          ([shouldLog], [log]),
    - [index.ts]                 (the start of the server and the handler of
                                  the tools),
    together with the fragments of JavaScript, JSON and SQLite they rely on.

    Conventions of the model.
    - A JavaScript string is a [string] of bytes (its UTF-8 encoding, which is
      also what SQLite stores in a TEXT column).
    - A JavaScript number is an exact decimal [m * 10^e]; binary64 rounding is
      not modelled, so the model is exact for numbers with at most 15
      significant digits, which covers node versions such as [2.6].
    - Values read from a node description are JSON data ([json]); a property
      that is absent reads as [None], JavaScript's [undefined].
    - A JavaScript exception is [None] in the [option] monad; console output
      is an explicit list of [console_msg].  The workflow service and the
      handler of the tools, whose errors are read for their message, return
      [failure + A].
    - A table is the list of its rows in rowid order. *)

From Stdlib Require Import ZArith QArith Qpower Ascii String List Lia.
From Stdlib Require Import Sorting.Sorted Sorting.Permutation.
From stdpp Require Import base option list gmap strings.

Local Open Scope Z_scope.

(** ** Exceptions *)

(** A JavaScript exception is [None]; sequencing is stdpp's [x ← a; b]. *)

(** ** Characters and strings *)

Definition chars_of (s : string) : list ascii := list_ascii_of_string s.
Definition string_of (cs : list ascii) : string := string_of_list_ascii cs.

Definition char_code (c : ascii) : Z := Z.of_nat (nat_of_ascii c).
Definition char_of_code (n : Z) : ascii := ascii_of_nat (Z.to_nat n).

Definition quote_char : ascii := "034"%char.
Definition backslash_char : ascii := "092"%char.

Definition is_digit (c : ascii) : bool :=
  (48 <=? char_code c) && (char_code c <=? 57).

(** JSON white space: space, [\t], [\n], [\r]. *)
Definition is_json_space (c : ascii) : bool :=
  (char_code c =? 32) || (char_code c =? 9) || (char_code c =? 10) || (char_code c =? 13).

Fixpoint skip_while (p : ascii -> bool) (cs : list ascii) : list ascii :=
  match cs with
  | c :: r => if p c then skip_while p r else cs
  | [] => []
  end.

Fixpoint span_while (p : ascii -> bool) (cs : list ascii) : list ascii * list ascii :=
  match cs with
  | c :: r => if p c then let '(a, b) := span_while p r in (c :: a, b) else ([], cs)
  | [] => ([], [])
  end.

Fixpoint strip_prefix (p cs : list ascii) : option (list ascii) :=
  match p, cs with
  | [], _ => Some cs
  | a :: p', c :: r => if Ascii.eqb a c then strip_prefix p' r else None
  | _ :: _, [] => None
  end.

(** The characters of JavaScript's [StrWhiteSpaceChar], each as the bytes of
    its encoding: the white space and the line terminators of ASCII, U+00A0,
    U+1680, U+2000 to U+200A, U+2028, U+2029, U+202F, U+205F, U+3000 and
    U+FEFF. *)
Definition js_white_space : list (list ascii) :=
  (fun codes : list Z => char_of_code <$> codes)
    <$> [[9]; [10]; [11]; [12]; [13]; [32]; [194; 160]; [225; 154; 128];
         [226; 128; 128]; [226; 128; 129]; [226; 128; 130]; [226; 128; 131];
         [226; 128; 132]; [226; 128; 133]; [226; 128; 134]; [226; 128; 135];
         [226; 128; 136]; [226; 128; 137]; [226; 128; 138]; [226; 128; 168];
         [226; 128; 169]; [226; 128; 175]; [226; 129; 159]; [227; 128; 128];
         [239; 187; 191]].

(** [cs] without the sequences of [seqs] it starts with. *)
Fixpoint skip_any (fuel : nat) (seqs : list (list ascii)) (cs : list ascii) : list ascii :=
  match fuel with
  | O => cs
  | S f =>
      match head (omap (fun p => strip_prefix p cs) seqs) with
      | Some r => skip_any f seqs r
      | None => cs
      end
  end.

(** [cs] without the white space it starts with. *)
Definition skip_js_space (cs : list ascii) : list ascii :=
  skip_any (length cs) js_white_space cs.

Fixpoint strip_suffix_aux (n : nat) (suf cs : list ascii) : option (list ascii) :=
  match n with
  | O => if decide (cs = suf) then Some [] else None
  | S n' => match cs with
            | c :: r => option_map (cons c) (strip_suffix_aux n' suf r)
            | [] => None
            end
  end.

(** [strip_suffix suf cs = Some pre] when [cs = pre ++ suf]. *)
Definition strip_suffix (suf cs : list ascii) : option (list ascii) :=
  if (length suf <=? length cs)%nat
  then strip_suffix_aux (length cs - length suf) suf cs
  else None.

(** [String.prototype.includes]: [needle] occurs in [hay]. *)
Fixpoint includes_chars (needle hay : list ascii) : bool :=
  match strip_prefix needle hay with
  | Some _ => true
  | None => match hay with
            | _ :: r => includes_chars needle r
            | [] => false
            end
  end.

Definition includes (hay needle : string) : bool :=
  includes_chars (chars_of needle) (chars_of hay).

Fixpoint replace_first_chars (pat rep cs : list ascii) : list ascii :=
  match strip_prefix pat cs with
  | Some r => rep ++ r
  | None => match cs with
            | c :: r => c :: replace_first_chars pat rep r
            | [] => []
            end
  end.

(** [String.prototype.replace] with a string pattern: the first occurrence
    only.  (No replacement string used by the program contains a [$].) *)
Definition replace (s pat rep : string) : string :=
  string_of (replace_first_chars (chars_of pat) (chars_of rep) (chars_of s)).

(** The bytes that continue a UTF-8 character. *)
Definition is_utf8_cont (c : ascii) : bool :=
  (128 <=? char_code c) && (char_code c <? 192).

(** The characters of a string, each with the bytes of its encoding. *)
Fixpoint utf8_chars (cs : list ascii) : list (list ascii) :=
  match cs with
  | [] => []
  | c :: r =>
      match utf8_chars r with
      | (d :: ch) :: chars => if is_utf8_cont d then (c :: d :: ch) :: chars
                              else [c] :: (d :: ch) :: chars
      | chars => [c] :: chars
      end
  end.

(** U+FFFD, which is what a lone surrogate becomes when a JavaScript string
    is written out as UTF-8. *)
Definition replacement_char : list ascii := ["239"; "191"; "189"]%char.

(** The UTF-16 code units of a string, each as the string it is when taken
    alone: a character of four bytes has two units, both lone surrogates. *)
Definition utf16_units (cs : list ascii) : list (list ascii) :=
  flat_map (fun ch => match ch with
                      | c :: _ => if 240 <=? char_code c
                                  then [replacement_char; replacement_char] else [ch]
                      | [] => []
                      end) (utf8_chars cs).

(** [s.length] *)
Definition utf16_length (s : string) : nat := length (utf16_units (chars_of s)).

(** [Array.prototype.join] on strings. *)
Fixpoint join (sep : string) (l : list string) : string :=
  match l with
  | [] => ""
  | [x] => x
  | x :: r => x +:+ sep +:+ join sep r
  end.

Definition nl : string := String "010"%char "".

(** ** Numbers *)

(** [Fin m e] is the number [m * 10^e]. *)
Inductive jsnum :=
  | NaN
  | Inf (neg : bool)
  | Fin (m e : Z).

Global Instance jsnum_eq_dec : EqDecision jsnum.
Proof. solve_decision. Defined.

Fixpoint strip10 (fuel : nat) (m e : Z) : Z * Z :=
  match fuel with
  | O => (m, e)
  | S f => if m mod 10 =? 0 then strip10 f (m / 10) (e + 1) else (m, e)
  end.

(** The representation with the shortest mantissa; zero is [Fin 0 0]. *)
Definition normalise (m e : Z) : jsnum :=
  if m =? 0 then Fin 0 0
  else let '(m', e') := strip10 (S (Z.to_nat (Z.log2 (Z.abs m)))) m e in Fin m' e'.

Definition canonical (x : jsnum) : bool :=
  match x with
  | Fin m e => if m =? 0 then e =? 0 else negb (m mod 10 =? 0)
  | _ => true
  end.

Definition value (x : jsnum) : Q :=
  match x with
  | Fin m e => (inject_Z m * Qpower 10 e)%Q
  | _ => 0%Q
  end.

Definition is_finite (x : jsnum) : bool :=
  match x with Fin _ _ => true | _ => false end.

(** [a - b]. *)
Definition js_sub (a b : jsnum) : jsnum :=
  match a, b with
  | Fin m1 e1, Fin m2 e2 =>
      let e := Z.min e1 e2 in
      normalise (m1 * 10 ^ (e1 - e) - m2 * 10 ^ (e2 - e)) e
  | NaN, _ | _, NaN => NaN
  | Inf s1, Inf s2 => if Bool.eqb s1 s2 then NaN else Inf s1
  | Inf s, Fin _ _ => Inf s
  | Fin _ _, Inf s => Inf (negb s)
  end.

(** The sign of a number as [-1], [0] or [1]; [NaN] counts as [0], which is
    how [Array.prototype.sort] reads a comparator's result. *)
Definition js_sign (x : jsnum) : Z :=
  match x with
  | NaN => 0
  | Inf neg => if neg then -1 else 1
  | Fin m _ => Z.sgn m
  end.

Definition digit_char (d : Z) : ascii := char_of_code (48 + d).
Definition digit_val (c : ascii) : Z := char_code c - 48.

Fixpoint digits_aux (fuel : nat) (n : Z) (acc : list ascii) : list ascii :=
  match fuel with
  | O => acc
  | S f => let acc' := digit_char (n mod 10) :: acc in
           if n / 10 =? 0 then acc' else digits_aux f (n / 10) acc'
  end.

(** The decimal digits of [n >= 0], most significant first. *)
Definition digits (n : Z) : list ascii :=
  digits_aux (S (Z.to_nat (Z.log2 n))) n [].

Definition digits_val_from (acc : Z) (cs : list ascii) : Z :=
  fold_left (fun a c => a * 10 + digit_val c) cs acc.

Definition digits_val (cs : list ascii) : Z := digits_val_from 0 cs.

Definition zeros (k : Z) : list ascii := repeat "0"%char (Z.to_nat k).

(** [Number::toString] in radix 10 for a finite non-zero number with mantissa
    digits [ds] and decimal exponent [e]. *)
Definition plain_or_exp (ds : list ascii) (e : Z) : list ascii :=
  let k := Z.of_nat (length ds) in
  let n := k + e in
  if (k <=? n) && (n <=? 21) then ds ++ zeros (n - k)
  else if (0 <? n) && (n <=? 21) then
    take (Z.to_nat n) ds ++ "."%char :: drop (Z.to_nat n) ds
  else if (-6 <? n) && (n <=? 0) then
    "0"%char :: "."%char :: zeros (- n) ++ ds
  else
    let ex := (if n - 1 <? 0 then "-"%char else "+"%char) :: digits (Z.abs (n - 1)) in
    match ds with
    | [d] => d :: "e"%char :: ex
    | d :: r => d :: "."%char :: r ++ "e"%char :: ex
    | [] => []
    end.

Definition number_chars (x : jsnum) : list ascii :=
  match x with
  | NaN => chars_of "NaN"
  | Inf neg => (if neg then ["-"%char] else []) ++ chars_of "Infinity"
  | Fin m e =>
      match normalise m e with
      | Fin m' e' =>
          if m' =? 0 then ["0"%char]
          else (if m' <? 0 then ["-"%char] else []) ++ plain_or_exp (digits (Z.abs m')) e'
      | _ => []
      end
  end.

(** [Number.prototype.toString()]. *)
Definition number_to_string (x : jsnum) : string := string_of (number_chars x).

(** An optional exponent part [e[+-]ddd]; it is consumed only when complete. *)
Definition scan_exponent (cs : list ascii) : Z * list ascii :=
  match cs with
  | c :: r =>
      if Ascii.eqb c "e" || Ascii.eqb c "E" then
        let '(neg, r1) := match r with
                          | s :: r' => if Ascii.eqb s "-" then (true, r')
                                       else if Ascii.eqb s "+" then (false, r')
                                       else (false, r)
                          | [] => (false, r)
                          end in
        let '(ds, r2) := span_while is_digit r1 in
        match ds with
        | [] => (0, cs)
        | _ => ((if neg then -1 else 1) * digits_val ds, r2)
        end
      else (0, cs)
  | [] => (0, cs)
  end.

(** A JSON number without its sign at the head of [r0]: an integer part
    without a leading zero (or a lone zero), an optional fraction with at
    least one digit, an optional exponent with at least one digit. *)
Definition parse_unsigned (neg : bool) (r0 : list ascii) : option (jsnum * list ascii) :=
  let '(ds1, r1) := span_while is_digit r0 in
  match ds1 with
  | [] => None
  | d :: ds1' =>
      if Ascii.eqb d "0" && negb (bool_decide (ds1' = [])) then None
      else
        '(ds2, r2) ←
          match r1 with
          | c :: r =>
              if Ascii.eqb c "." then
                let '(ds2, r2) := span_while is_digit r in
                match ds2 with [] => None | _ => Some (ds2, r2) end
              else Some ([], r1)
          | [] => Some ([], r1)
          end;
        r3 ←
          match r2 with
          | c :: _ =>
              if Ascii.eqb c "e" || Ascii.eqb c "E" then
                let '(_, r3) := scan_exponent r2 in
                if bool_decide (r3 = r2) then None else Some r3
              else Some r2
          | [] => Some r2
          end;
        let ex := fst (scan_exponent r2) in
        let m := digits_val (ds1 ++ ds2) in
        Some (normalise (if neg then - m else m) (ex - Z.of_nat (length ds2)), r3)
  end.

(** A JSON number at the head of [cs], with its optional minus sign. *)
Definition parse_number (cs : list ascii) : option (jsnum * list ascii) :=
  match cs with
  | c :: r => if Ascii.eqb c "-" then parse_unsigned true r else parse_unsigned false cs
  | [] => None
  end.

(** A [StrDecimalLiteral] at the head of [cs], as [parseFloat] and [Number]
    read it: an optional sign, then [Infinity] or digits with an optional
    point (digits are needed on one side of it at least) and an optional
    exponent. *)
Definition scan_decimal_literal (cs : list ascii) : option (jsnum * list ascii) :=
  let '(neg, r0) := match cs with
                    | c :: r => if Ascii.eqb c "-" then (true, r)
                                else if Ascii.eqb c "+" then (false, r)
                                else (false, cs)
                    | [] => (false, cs)
                    end in
  match strip_prefix (chars_of "Infinity") r0 with
  | Some r => Some (Inf neg, r)
  | None =>
      let '(ds1, r1) := span_while is_digit r0 in
      let '(ds2, r2) := match r1 with
                        | c :: r => if Ascii.eqb c "." then span_while is_digit r else ([], r1)
                        | [] => ([], r1)
                        end in
      match ds1 ++ ds2 with
      | [] => None
      | ds =>
          let '(ex, r3) := scan_exponent r2 in
          let m := digits_val ds in
          Some (normalise (if neg then - m else m) (ex - Z.of_nat (length ds2)), r3)
      end
  end.

(** [parseFloat]: the decimal literal at the start of the text, after white
    space, read exactly. *)
Definition parseFloat (s : string) : jsnum :=
  match scan_decimal_literal (skip_js_space (chars_of s)) with
  | Some (x, _) => x
  | None => NaN
  end.

Definition radix_digit_val (c : ascii) : option Z :=
  let n := char_code c in
  if (48 <=? n) && (n <=? 57) then Some (n - 48)
  else if (97 <=? n) && (n <=? 102) then Some (n - 87)
  else if (65 <=? n) && (n <=? 70) then Some (n - 55)
  else None.

Fixpoint radix_val (radix acc : Z) (cs : list ascii) : option Z :=
  match cs with
  | [] => Some acc
  | c :: r => match radix_digit_val c with
              | Some d => if d <? radix then radix_val radix (acc * radix + d) r else None
              | None => None
              end
  end.

(** [cs] without the white space at its two ends. *)
Definition trim_js (cs : list ascii) : list ascii :=
  rev (skip_any (length cs) ((fun p : list ascii => rev p) <$> js_white_space)
                (rev (skip_js_space cs))).

(** [Number(s)] on a string (the abstract operation StringToNumber). *)
Definition string_to_number (s : string) : jsnum :=
  match trim_js (chars_of s) with
  | [] => Fin 0 0
  | cs =>
      let radix_literal :=
        match cs with
        | z :: x :: ((_ :: _) as r) =>
            if Ascii.eqb z "0" then
              if Ascii.eqb x "x" || Ascii.eqb x "X" then Some (16, r)
              else if Ascii.eqb x "o" || Ascii.eqb x "O" then Some (8, r)
              else if Ascii.eqb x "b" || Ascii.eqb x "B" then Some (2, r)
              else None
            else None
        | _ => None
        end in
      match radix_literal with
      | Some (radix, r) =>
          match radix_val radix 0 r with
          | Some v => normalise v 0
          | None => NaN
          end
      | None =>
          match scan_decimal_literal cs with
          | Some (x, []) => x
          | _ => NaN
          end
      end
  end.

(** ** JSON values *)

#[local] Set Warnings "-register-all".

(** JavaScript data without functions.  A property list is in the order in
    which JavaScript enumerates the object's own properties. *)
Inductive json :=
  | JNull
  | JBool (b : bool)
  | JNum (x : jsnum)
  | JStr (s : string)
  | JArr (l : list json)
  | JObj (fields : list (string * json)).

(** A value that may be [undefined] is an [option json]. *)

Definition truthy (v : option json) : bool :=
  match v with
  | None | Some JNull => false
  | Some (JBool b) => b
  | Some (JNum NaN) => false
  | Some (JNum (Inf _)) => true
  | Some (JNum (Fin m _)) => negb (m =? 0)
  | Some (JStr s) => negb (String.eqb s "")
  | Some (JArr _) | Some (JObj _) => true
  end.

(** [a || b]. *)
Definition js_or (a b : option json) : option json := if truthy a then a else b.

Fixpoint assoc {A} (k : string) (l : list (string * A)) : option A :=
  match l with
  | [] => None
  | (k', v) :: r => if String.eqb k k' then Some v else assoc k r
  end.

(** [v.k] for a value [v] that is neither [null] nor [undefined]: an own data
    property of an object; the names read by the program ([name],
    [description], [version], ...) are not defined on arrays, strings,
    numbers or booleans. *)
Definition prop (k : string) (v : json) : option json :=
  match v with
  | JObj fields => assoc k fields
  | _ => None
  end.

(** [v.k] for any [v]: reading a property of [null] or [undefined] throws. *)
Definition prop_of (k : string) (v : option json) : option (option json) :=
  match v with
  | None | Some JNull => None
  | Some j => Some (prop k j)
  end.

(** [v?.k]. *)
Definition opt_prop (k : string) (v : option json) : option json :=
  match v with
  | None | Some JNull => None
  | Some j => prop k j
  end.

Definition is_array (v : option json) : bool :=
  match v with Some (JArr _) => true | _ => false end.

(** ToString. *)
Fixpoint to_str (v : json) : string :=
  match v with
  | JNull => "null"
  | JBool b => if b then "true" else "false"
  | JNum x => number_to_string x
  | JStr s => s
  | JArr l => join "," (map (fun e => match e with JNull => "" | _ => to_str e end) l)
  | JObj _ => "[object Object]"
  end.

(** A value inside a template literal. *)
Definition template (v : option json) : string :=
  match v with
  | None => "undefined"
  | Some j => to_str j
  end.

(** [Array.prototype.join]. *)
Definition array_join (sep : string) (l : list json) : string :=
  join sep (map (fun e => match e with JNull => "" | _ => to_str e end) l).

(** ToNumber. *)
Definition to_number (v : option json) : jsnum :=
  match v with
  | None => NaN
  | Some JNull => Fin 0 0
  | Some (JBool b) => if b then Fin 1 0 else Fin 0 0
  | Some (JNum x) => x
  | Some (JStr s) => string_to_number s
  | Some (JArr l) => string_to_number (to_str (JArr l))
  | Some (JObj _) => NaN
  end.

Definition is_index_key (k : string) : bool :=
  let cs := chars_of k in
  forallb is_digit cs && bool_decide (digits (digits_val cs) = cs)
  && (digits_val cs <? 4294967295).

(** [Object.keys]. *)
Definition object_keys (v : json) : list string :=
  match v with
  | JObj fields => map fst fields
  | JArr l => map (fun i => string_of (digits (Z.of_nat i))) (seq 0 (length l))
  | JStr s => map (fun i => string_of (digits (Z.of_nat i))) (seq 0 (utf16_length s))
  | _ => []
  end.

(** [Object.entries]. *)
Definition object_entries (v : json) : list (string * json) :=
  match v with
  | JObj fields => fields
  | JArr l => combine (object_keys v) l
  | JStr s => combine (object_keys v) (map (fun u => JStr (string_of u)) (utf16_units (chars_of s)))
  | _ => []
  end.

(** ** [Array.prototype.sort] *)

Section Sort.
Context {A : Type} (cmp : A -> A -> jsnum).

(** [x] precedes the elements it is not greater than, and in particular
    those it compares equal to: the sort is stable.  For a comparator that
    answers [NaN] JavaScript leaves the order to the implementation; the
    statements about sorted versions keep to finite numbers. *)
Fixpoint sort_insert (x : A) (l : list A) : list A :=
  match l with
  | [] => [x]
  | y :: r => if 0 <? js_sign (cmp x y) then y :: sort_insert x r else x :: y :: r
  end.

Definition js_sort (l : list A) : list A := foldr sort_insert [] l.
End Sort.

(** ** [JSON.stringify] *)

Definition hex_char (d : Z) : ascii :=
  if d <? 10 then char_of_code (48 + d) else char_of_code (87 + d).

Definition quote_chars_of (c : ascii) : list ascii :=
  let n := char_code c in
  if Ascii.eqb c quote_char then [backslash_char; quote_char]
  else if Ascii.eqb c backslash_char then [backslash_char; backslash_char]
  else if n =? 8 then [backslash_char; "b"%char]
  else if n =? 12 then [backslash_char; "f"%char]
  else if n =? 10 then [backslash_char; "n"%char]
  else if n =? 13 then [backslash_char; "r"%char]
  else if n =? 9 then [backslash_char; "t"%char]
  else if n <? 32 then
    [backslash_char; "u"%char; "0"%char; "0"%char; hex_char (n / 16); hex_char (n mod 16)]
  else [c].

Definition quote_string (s : string) : list ascii :=
  quote_char :: flat_map quote_chars_of (chars_of s) ++ [quote_char].

Fixpoint sep_by (sep : list ascii) (l : list (list ascii)) : list ascii :=
  match l with
  | [] => []
  | [x] => x
  | x :: r => x ++ sep ++ sep_by sep r
  end.

Fixpoint json_chars (v : json) : list ascii :=
  match v with
  | JNull => chars_of "null"
  | JBool b => chars_of (if b then "true" else "false")
  | JNum x => if is_finite x then number_chars x else chars_of "null"
  | JStr s => quote_string s
  | JArr l => "["%char :: sep_by [","%char] (map json_chars l) ++ ["]"%char]
  | JObj fields =>
      "{"%char ::
        sep_by [","%char]
          (map (fun kv => quote_string (fst kv) ++ ":"%char :: json_chars (snd kv)) fields)
        ++ ["}"%char]
  end.

(** [JSON.stringify(v)] for a value that is not [undefined]. *)
Definition JSON_stringify (v : json) : string := string_of (json_chars v).

(** ** [JSON.parse] *)

Definition utf8_encode (cp : Z) : list ascii :=
  if cp <? 128 then [char_of_code cp]
  else if cp <? 2048 then
    [char_of_code (192 + cp / 64); char_of_code (128 + cp mod 64)]
  else if cp <? 65536 then
    [char_of_code (224 + cp / 4096); char_of_code (128 + (cp / 64) mod 64);
     char_of_code (128 + cp mod 64)]
  else
    [char_of_code (240 + cp / 262144); char_of_code (128 + (cp / 4096) mod 64);
     char_of_code (128 + (cp / 64) mod 64); char_of_code (128 + cp mod 64)].

Definition hex4 (a b c d : ascii) : option Z :=
  x1 ← radix_digit_val a; x2 ← radix_digit_val b;
  x3 ← radix_digit_val c; x4 ← radix_digit_val d;
  Some (((x1 * 16 + x2) * 16 + x3) * 16 + x4).

(** The characters of a string literal after its opening quote.  A [\u] escape
    becomes the UTF-8 bytes of its code point; a surrogate pair is combined. *)
Fixpoint parse_string_body (cs : list ascii) : option (list ascii * list ascii) :=
  match cs with
  | [] => None
  | c :: r =>
      if Ascii.eqb c quote_char then Some ([], r)
      else if Ascii.eqb c backslash_char then
        match r with
        | e :: r1 =>
            let simple (x : ascii) :=
              '(s, r') ← parse_string_body r1; Some (x :: s, r') in
            if Ascii.eqb e quote_char then simple quote_char
            else if Ascii.eqb e backslash_char then simple backslash_char
            else if Ascii.eqb e "/" then simple "/"%char
            else if Ascii.eqb e "b" then simple "008"%char
            else if Ascii.eqb e "f" then simple "012"%char
            else if Ascii.eqb e "n" then simple "010"%char
            else if Ascii.eqb e "r" then simple "013"%char
            else if Ascii.eqb e "t" then simple "009"%char
            else if Ascii.eqb e "u" then
              match r1 with
              | h1 :: h2 :: h3 :: h4 :: r2 =>
                  hi ← hex4 h1 h2 h3 h4;
                  let single := '(s, r') ← parse_string_body r2; Some (utf8_encode hi ++ s, r') in
                  if (55296 <=? hi) && (hi <=? 56319) then
                    match r2 with
                    | b' :: u' :: l1 :: l2 :: l3 :: l4 :: r3 =>
                        if Ascii.eqb b' backslash_char && Ascii.eqb u' "u" then
                          match hex4 l1 l2 l3 l4 with
                          | Some lo =>
                              if (56320 <=? lo) && (lo <=? 57343) then
                                '(s, r') ← parse_string_body r3;
                                Some (utf8_encode (65536 + (hi - 55296) * 1024 + (lo - 56320)) ++ s, r')
                              else single
                          | None => single
                          end
                        else single
                    | _ => single
                    end
                  else single
              | _ => None
              end
            else None
        | [] => None
        end
      else if char_code c <? 32 then None
      else '(s, r') ← parse_string_body r; Some (c :: s, r')
  end.

Fixpoint has_key {A} (k : string) (l : list (string * A)) : bool :=
  match l with
  | [] => false
  | (k', _) :: r => String.eqb k k' || has_key k r
  end.

Fixpoint insert_index_key {A} (k : string) (v : A) (l : list (string * A)) : list (string * A) :=
  match l with
  | [] => [(k, v)]
  | (k', v') :: r =>
      if is_index_key k' && (digits_val (chars_of k') <? digits_val (chars_of k))
      then (k', v') :: insert_index_key k v r
      else (k, v) :: l
  end.

(** [o[k] = v]: an existing property keeps its place; a new array index goes
    among the indices, in numeric order; any other new key goes last. *)
Definition obj_set {A} (k : string) (v : A) (l : list (string * A)) : list (string * A) :=
  if has_key k l then map (fun kv => if String.eqb k (fst kv) then (k, v) else kv) l
  else if is_index_key k then insert_index_key k v l
  else l ++ [(k, v)].

Fixpoint parse_value (fuel : nat) (cs : list ascii) {struct fuel} : option (json * list ascii) :=
  match fuel with
  | O => None
  | S f =>
      match skip_while is_json_space cs with
      | [] => None
      | (c :: r) as cs' =>
          if Ascii.eqb c "[" then
            match skip_while is_json_space r with
            | (c' :: r') as r0 =>
                if Ascii.eqb c' "]" then Some (JArr [], r')
                else '(vs, r1) ← parse_elements f r0; Some (JArr vs, r1)
            | [] => None
            end
          else if Ascii.eqb c "{" then
            match skip_while is_json_space r with
            | (c' :: r') as r0 =>
                if Ascii.eqb c' "}" then Some (JObj [], r')
                else '(kvs, r1) ← parse_members f r0; Some (JObj (foldl (fun o kv => obj_set (fst kv) (snd kv) o) [] kvs), r1)
            | [] => None
            end
          else if Ascii.eqb c quote_char then
            '(s, r') ← parse_string_body r; Some (JStr (string_of s), r')
          else if Ascii.eqb c "-" || is_digit c then
            '(x, r') ← parse_number cs'; Some (JNum x, r')
          else
            match strip_prefix (chars_of "null") cs' with
            | Some r' => Some (JNull, r')
            | None =>
                match strip_prefix (chars_of "true") cs' with
                | Some r' => Some (JBool true, r')
                | None =>
                    match strip_prefix (chars_of "false") cs' with
                    | Some r' => Some (JBool false, r')
                    | None => None
                    end
                end
            end
      end
  end
with parse_elements (fuel : nat) (cs : list ascii) {struct fuel} : option (list json * list ascii) :=
  match fuel with
  | O => None
  | S f =>
      '(v, r) ← parse_value f cs;
      match skip_while is_json_space r with
      | c :: r' =>
          if Ascii.eqb c "," then '(vs, r'') ← parse_elements f r'; Some (v :: vs, r'')
          else if Ascii.eqb c "]" then Some ([v], r')
          else None
      | [] => None
      end
  end
with parse_members (fuel : nat) (cs : list ascii) {struct fuel} : option (list (string * json) * list ascii) :=
  match fuel with
  | O => None
  | S f =>
      match skip_while is_json_space cs with
      | q :: r0 =>
          if Ascii.eqb q quote_char then
            '(k, r1) ← parse_string_body r0;
            match skip_while is_json_space r1 with
            | c :: r2 =>
                if Ascii.eqb c ":" then
                  '(v, r3) ← parse_value f r2;
                  match skip_while is_json_space r3 with
                  | c' :: r4 =>
                      if Ascii.eqb c' "," then
                        '(kvs, r5) ← parse_members f r4; Some ((string_of k, v) :: kvs, r5)
                      else if Ascii.eqb c' "}" then Some ([(string_of k, v)], r4)
                      else None
                  | [] => None
                  end
                else None
            | [] => None
            end
          else None
      | [] => None
      end
  end.

(** [JSON.parse]; [None] is its [SyntaxError]. *)
Definition JSON_parse (s : string) : option json :=
  let cs := chars_of s in
  '(v, r) ← parse_value (2 * length cs + 2) cs;
  match skip_while is_json_space r with
  | [] => Some v
  | _ => None
  end.

(** ** The console and the logger *)

Inductive level := Info | Warn | Error.

(** One line of output: [console.log] and [logger.info] write at [Info],
    [logger.warn] at [Warn], [console.error] and [logger.error] at [Error].
    An error object passed as a second argument is not part of the text. *)
Definition console_msg : Type := level * string.

(** ** The catalog database *)

(** A row of the table [nodes]; a TEXT column that is NULL reads [None]. *)
Record NodeRow := {
  node_type : string;
  package_name : option string;
  display_name : option string;
  description : option string;
  category : option string;
  documentation : option string;
  properties_schema : option string;
  operations : option string;
  credentials_required : option string;
  outputs : option string;
  output_names : option string;
  development_style : option string;
  is_ai_tool : Z;
  is_trigger : Z;
  is_webhook : Z;
  is_versioned : Z;
  version : option string;
  updated_at : option string;
  is_tool_variant : Z;
  has_tool_variant : Z;
  base_node_type : option string;
  tool_variant_of : option string
}.

Record Database := {
  nodes : list NodeRow;
  metadata : list (string * string)
}.

(** [INSERT OR REPLACE INTO nodes]: [node_type] is the primary key; a row
    with the same key is deleted, and the new row gets a fresh rowid. *)
Definition insert_or_replace (r : NodeRow) (t : list NodeRow) : list NodeRow :=
  filter (fun r' => node_type r' ≠ node_type r) t ++ [r].

(** [SELECT * FROM nodes WHERE node_type = ?], first row. *)
Definition select_by_type (t : list NodeRow) (k : string) : option NodeRow :=
  List.find (fun r => String.eqb (node_type r) k) t.

Definition is_ascii_upper (c : ascii) : bool :=
  (65 <=? char_code c) && (char_code c <=? 90).

(** SQLite folds the case of the 26 ASCII letters only. *)
Definition sqlite_lower (c : ascii) : ascii :=
  if is_ascii_upper c then char_of_code (char_code c + 32) else c.

(** SQLite's [LIKE] without an ESCAPE clause: [%] matches any sequence of
    characters, [_] one character, any other character itself up to ASCII
    case. *)
Fixpoint like (p : list ascii) : list ascii -> bool :=
  match p with
  | [] => fun s => match s with [] => true | _ => false end
  | c :: p' =>
      if Ascii.eqb c "%" then
        fix star (s : list ascii) : bool :=
          like p' s || match s with
                       | [] => false
                       | _ :: s' => star s'
                       end
      else if Ascii.eqb c "_" then
        fun s => match s with
                 | [] => false
                 | d :: s' =>
                     like p' (if 192 <=? char_code d then skip_while is_utf8_cont s' else s')
                 end
      else
        fun s => match s with
                 | [] => false
                 | d :: s' => Ascii.eqb (sqlite_lower c) (sqlite_lower d) && like p' s'
                 end
  end.

(** The function that implements [LIKE] reads each of its two texts as a C
    string: up to the first NUL character. *)
Fixpoint until_nul (cs : list ascii) : list ascii :=
  match cs with
  | [] => []
  | c :: r => if Ascii.eqb c "000" then [] else c :: until_nul r
  end.

(** [column LIKE pattern] as a WHERE condition; NULL is not true. *)
Definition sql_like (column : option string) (pattern : string) : bool :=
  match column with
  | Some s => like (until_nul (chars_of pattern)) (until_nul (chars_of s))
  | None => false
  end.

(** SQLITE_MAX_LIKE_PATTERN_LENGTH: [LIKE] with a pattern of more bytes is
    the error [LIKE or GLOB pattern too complex]. *)
Definition max_like_pattern_length : Z := 50000.

(** The number bound to [LIMIT ?].  better-sqlite3 binds a JavaScript number
    as a REAL, and SQLite takes a REAL for a limit when it is integral and
    lies strictly between the least and the greatest 64-bit integer; for any
    other number, [NaN] (bound as NULL) included, the statement fails with
    [datatype mismatch].  An integer is a JavaScript number for certain only
    up to [2^53] in absolute value, and the statements below keep to those. *)
Definition limit_value (limit : jsnum) : option Z :=
  match limit with
  | Fin m e =>
      n ← (if 0 <=? e then Some (m * 10 ^ e)
           else if m mod 10 ^ (- e) =? 0 then Some (m / 10 ^ (- e)) else None);
      if (- 2 ^ 63 <? n) && (n <? 2 ^ 63 - 1) then Some n else None
  | _ => None
  end.

(** [LIMIT n] for a 64-bit integer [n]: a negative limit is no limit. *)
Definition sql_limit {A} (n : Z) (l : list A) : list A :=
  if n <? 0 then l else take (Z.to_nat n) l.

(** The order of the BINARY collation: bytewise. *)
Fixpoint bytes_leb (a b : list ascii) : bool :=
  match a, b with
  | [], _ => true
  | _ :: _, [] => false
  | x :: a', y :: b' =>
      if char_code x <? char_code y then true
      else if char_code y <? char_code x then false
      else bytes_leb a' b'
  end.

(** [ORDER BY] on a TEXT column: NULL first, then by bytes. *)
Definition text_leb (a b : option string) : bool :=
  match a, b with
  | None, _ => true
  | Some _, None => false
  | Some x, Some y => bytes_leb (chars_of x) (chars_of y)
  end.

Fixpoint order_insert {A} (key : A -> option string) (x : A) (l : list A) : list A :=
  match l with
  | [] => [x]
  | y :: r => if text_leb (key x) (key y) then x :: l else y :: order_insert key x r
  end.

(** [ORDER BY key]. *)
Definition order_by {A} (key : A -> option string) (l : list A) : list A :=
  foldr (order_insert key) [] l.

Definition sql_text (v : option string) : json :=
  match v with
  | Some s => JStr s
  | None => JNull
  end.

Definition sql_int (n : Z) : json := JNum (normalise n 0).

(** The object better-sqlite3 returns for a row of [SELECT *]. *)
Definition select_star (r : NodeRow) : gmap string json :=
  list_to_map [
    ("node_type", JStr (node_type r));
    ("package_name", sql_text (package_name r));
    ("display_name", sql_text (display_name r));
    ("description", sql_text (description r));
    ("category", sql_text (category r));
    ("documentation", sql_text (documentation r));
    ("properties_schema", sql_text (properties_schema r));
    ("operations", sql_text (operations r));
    ("credentials_required", sql_text (credentials_required r));
    ("outputs", sql_text (outputs r));
    ("output_names", sql_text (output_names r));
    ("development_style", sql_text (development_style r));
    ("is_ai_tool", sql_int (is_ai_tool r));
    ("is_trigger", sql_int (is_trigger r));
    ("is_webhook", sql_int (is_webhook r));
    ("is_versioned", sql_int (is_versioned r));
    ("version", sql_text (version r));
    ("updated_at", sql_text (updated_at r));
    ("is_tool_variant", sql_int (is_tool_variant r));
    ("has_tool_variant", sql_int (has_tool_variant r));
    ("base_node_type", sql_text (base_node_type r));
    ("tool_variant_of", sql_text (tool_variant_of r))
  ].

(** ** [node-service.ts]: [N8nNodeService] *)

(** The eight columns selected by [searchNodes]. *)
Definition search_projection (r : NodeRow) : gmap string json :=
  list_to_map [
    ("node_type", JStr (node_type r));
    ("package_name", sql_text (package_name r));
    ("display_name", sql_text (display_name r));
    ("description", sql_text (description r));
    ("category", sql_text (category r));
    ("is_ai_tool", sql_int (is_ai_tool r));
    ("is_trigger", sql_int (is_trigger r));
    ("is_webhook", sql_int (is_webhook r))
  ].

Definition search_where (searchPattern : string) (r : NodeRow) : bool :=
  sql_like (Some (node_type r)) searchPattern
  || sql_like (display_name r) searchPattern
  || sql_like (description r) searchPattern
  || sql_like (documentation r) searchPattern.

(** The rows [searchNodes] selects, before projection, for the limit [limit];
    [None] is the SqliteError of a pattern that is too long.  The pattern is
    looked at when the condition is evaluated on a row, which does not
    happen on an empty table, nor with the limit 0. *)
Definition search_rows (db : Database) (keyword : string) (limit : Z)
  : option (list NodeRow) :=
  let searchPattern := "%" +:+ keyword +:+ "%" in
  if (limit =? 0) || bool_decide (nodes db = []) then Some []
  else if max_like_pattern_length <? Z.of_nat (String.length searchPattern) then None
  else Some (sql_limit limit (List.filter (search_where searchPattern) (nodes db))).

(** [searchNodes(keyword, limit)]; [None] is the SqliteError the statement
    throws, in which case nothing is logged. *)
Definition searchNodes (db : Database) (keyword : string) (limit : jsnum)
  : option (list (gmap string json) * list console_msg) :=
  n ← limit_value limit;
  rows ← search_rows db keyword n;
  let results := search_projection <$> rows in
  Some (results,
        [(Info, "Found " +:+ number_to_string (Fin (Z.of_nat (length results)) 0)
                +:+ " nodes matching " +:+ String quote_char keyword +:+ String quote_char
                  " (minimal info, use get_node_info for full details)")]).

(** [obj.k = v]; storing [undefined] leaves a property that reads [undefined],
    which the model does not tell from an absent one. *)
Definition set_field (k : string) (v : option json) (obj : gmap string json) : gmap string json :=
  match v with
  | Some j => <[k := j]> obj
  | None => delete k obj
  end.

Definition text_truthy (v : option string) : bool :=
  match v with
  | Some s => negb (String.eqb s "")
  | None => false
  end.

(** One of the three [if (result.col) { try { result.field = JSON.parse(col) }
    catch { logger.error(...) } }] blocks of [getNodeInfo]. *)
Definition parse_column (col : option string) (field what nodeType : string)
    (st : gmap string json * list console_msg) : gmap string json * list console_msg :=
  let '(result, log) := st in
  match col with
  | Some s =>
      if negb (String.eqb s "") then
        match JSON_parse s with
        | Some v => (<[field := v]> result, log)
        | None => (result, log ++ [(Error, "Failed to parse " +:+ what +:+ " for " +:+ nodeType)])
        end
      else st
  | None => st
  end.

Definition head_json (l : list json) : option json := head l.

Definition parse_version (col : option string)
    (st : gmap string json * list console_msg) : gmap string json * list console_msg :=
  let '(result, log) := st in
  match col with
  | Some s =>
      if negb (String.eqb s "") then
        match JSON_parse s with
        | Some parsed =>
            let versions := match parsed with
                            | JArr l => l
                            | _ => [JNum (parseFloat s)]
                            end in
            (set_field "latest_version" (head_json versions)
               (<["versions" := JArr versions]> result), log)
        | None =>
            (<["latest_version" := JNum (parseFloat s)]>
               (<["versions" := JArr [JNum (parseFloat s)]]> result), log)
        end
      else st
  | None => st
  end.

Definition getNodeInfo (db : Database) (nodeType : string)
  : option (gmap string json) * list console_msg :=
  let normalizedType := replace nodeType "n8n-nodes-base." "nodes-base." in
  match select_by_type (nodes db) normalizedType with
  | None => (None, [(Warn, "Node not found: " +:+ nodeType)])
  | Some row =>
      let st0 := (select_star row, []) in
      let st1 := parse_column (properties_schema row) "properties" "properties_schema" nodeType st0 in
      let st2 := parse_column (operations row) "operations_list" "operations" nodeType st1 in
      let st3 := parse_column (credentials_required row) "credentials" "credentials" nodeType st2 in
      let '(result, log) := parse_version (version row) st3 in
      (Some result, log)
  end.

Definition ai_where (r : NodeRow) : bool :=
  (is_ai_tool r =? 1) || bool_decide (category r = Some "AI").

(** The rows [getAINodes] selects, in the order it returns them. *)
Definition ai_rows (db : Database) : list NodeRow :=
  order_by display_name (List.filter ai_where (nodes db)).

Definition getAINodes (db : Database) : list (gmap string json) :=
  select_star <$> ai_rows db.

(** ** Node classes *)

(** What [new nodeClass()] returns: the properties of the instance that the
    program reads. *)
Record Instance := {
  inst_description : option json;
  inst_baseDescription : option json;
  inst_nodeVersions : option json;
  (** [instance.getNodeType] is present *)
  inst_getNodeType : bool
}.

(** A value exported by a node module, as far as the program looks at it. *)
Record NodeClass := {
  (** [typeof nodeClass === 'function'] *)
  is_function : bool;
  (** [nodeClass.nodeVersions] *)
  static_nodeVersions : option json;
  (** [typeof nodeClass.getNodeType === 'function'] *)
  static_getNodeType : bool;
  (** [nodeClass.description] *)
  static_description : option json;
  (** the instance the constructor builds, [None] when it throws *)
  construct : option Instance
}.

(** [new nodeClass()]; a value that is not a function is not a constructor. *)
Definition js_new (c : NodeClass) : option Instance :=
  if is_function c then construct c else None.

(** ** [node-loader.ts]: [N8nNodeLoader] *)

Record LoadedNode := {
  packageName : string;
  nodeName : string;
  NodeClass_of : NodeClass
}.

(** An exported value is falsy or is a (truthy) node class. *)
Inductive export :=
  | FalsyExport
  | ClassExport (c : NodeClass).

(** What [require] returns for a node module, as the loader reads it. *)
Record ModuleObject := {
  (** [nodeModule[key]]: the value of the property, whether the module
      object has it itself or inherits it *)
  module_get : string -> export;
  (** [Object.values(nodeModule)]: the values of its own enumerable
      properties, in order *)
  module_values : list export
}.

(** The module system the loader runs against.  [None] is a thrown error. *)
Record Modules := {
  (** [require.resolve(request)] *)
  require_resolve : string -> option string;
  (** [require(fullPath)]; also [None] when the module exports [null] or
      [undefined], whose property [default] cannot be read: the error is
      raised in the same [try] block, and nothing happens in between *)
  require_module : string -> option ModuleObject;
  (** [require(path)] of a JSON file *)
  require_json : string -> option json
}.

Definition CORE_PACKAGES : list (string * string) :=
  [("n8n-nodes-base", "n8n-nodes-base");
   ("@n8n/n8n-nodes-langchain", "@n8n/n8n-nodes-langchain")].

(** The characters after the last [/], when there is one. *)
Fixpoint after_last_slash (cs : list ascii) : option (list ascii) :=
  match cs with
  | [] => None
  | c :: r =>
      match after_last_slash r with
      | Some seg => Some seg
      | None => if Ascii.eqb c "/" then Some r else None
      end
  end.

Definition nonempty_stem (suffix : string) (seg : list ascii) : option string :=
  match strip_suffix (chars_of suffix) seg with
  | Some (c :: r) => Some (string_of (c :: r))
  | _ => None
  end.

(** Group 1 of [nodePath.match(/\/([^\/]+)\.node\.(js|ts)$/)]: the match has
    to start at the last slash, and the name before the extension is not
    empty. *)
Definition node_name_match (nodePath : string) : option string :=
  seg ← after_last_slash (chars_of nodePath);
  match nonempty_stem ".node.js" seg with
  | Some n => Some n
  | None => nonempty_stem ".node.ts" seg
  end.

Definition strip_trailing_slashes (cs : list ascii) : list ascii :=
  rev (skip_while (fun c => Ascii.eqb c "/") (rev cs)).

(** [path.basename(p, ext)] as Node documents it: the last portion of the
    path, trailing separators ignored, without the extension [ext]. *)
Definition basename (p ext : string) : string :=
  if String.eqb p ext then ""
  else
    let cs := strip_trailing_slashes (chars_of p) in
    let seg := match after_last_slash cs with Some s => s | None => cs end in
    match strip_suffix (chars_of ext) seg with
    | Some (c :: r) => string_of (c :: r)
    | _ => string_of seg
    end.

(** [values[0]], [undefined] for an empty array. *)
Definition first_export (values : list export) : export :=
  match values with
  | e :: _ => e
  | [] => FalsyExport
  end.

(** [nodeModule.default || nodeModule[nodeName] || Object.values(nodeModule)[0]] *)
Definition pick_class (m : ModuleObject) (nodeName : string) : export :=
  match module_get m "default" with
  | ClassExport c => ClassExport c
  | FalsyExport =>
      match module_get m nodeName with
      | ClassExport c => ClassExport c
      | FalsyExport => first_export (module_values m)
      end
  end.

(** The body of the [try] block of [loadPackageNodes] for one entry of the
    manifest: [None] when it throws, [Some None] when the module exports no
    truthy class, [Some (Some node)] when a node is pushed. *)
Definition load_node (M : Modules) (packageName packagePath : string) (nodePath : json)
  : option (option LoadedNode) :=
  fullPath ← require_resolve M (packagePath +:+ "/" +:+ to_str nodePath);
  nodeModule ← require_module M fullPath;
  path ← match nodePath with JStr p => Some p | _ => None end;
  let nodeName := match node_name_match path with
                  | Some n => n
                  | None => basename path ".node.js"
                  end in
  match pick_class nodeModule nodeName with
  | ClassExport c =>
      Some (Some {| packageName := packageName; nodeName := nodeName; NodeClass_of := c |})
  | FalsyExport => Some None
  end.

(** The loop of [loadPackageNodes]; a failed module is skipped in silence. *)
Fixpoint load_nodes (M : Modules) (packageName packagePath : string) (nodesList : list json)
  : list LoadedNode * list console_msg :=
  match nodesList with
  | [] => ([], [])
  | nodePath :: rest =>
      let '(nodes, log) := load_nodes M packageName packagePath rest in
      match load_node M packageName packagePath nodePath with
      | Some (Some node) =>
          (node :: nodes, (Info, "  ✓ Loaded " +:+ nodeName node) :: log)
      | Some None | None => (nodes, log)
      end
  end.

(** [a || d] where [d] is truthy. *)
Definition or_else (a : option json) (d : json) : json :=
  match a with
  | Some j => if truthy a then j else d
  | None => d
  end.

(** [loadPackageNodes], for a [packageJson] that is not [null]. *)
Definition loadPackageNodes (M : Modules) (packageName packagePath : string) (packageJson : json)
  : list LoadedNode * list console_msg :=
  let n8nConfig := or_else (prop "n8n" packageJson) (JObj []) in
  let nodesList := or_else (prop "nodes" n8nConfig) (JArr []) in
  match nodesList with
  | JArr l => load_nodes M packageName packagePath l
  | _ => ([], [])
  end.

(** One iteration of the loop of [loadAllNodes]. *)
Definition load_package (M : Modules) (pkg : string * string)
  : list LoadedNode * list console_msg :=
  let '(name, path) := pkg in
  let start := (Info, nl +:+ "📦 Loading package: " +:+ name) in
  let failed := (Error, "Failed to load " +:+ name +:+ ":") in
  match require_json M (path +:+ "/package.json") with
  | None | Some JNull => ([], [start; failed])
  | Some packageJson =>
      let declared := or_else (opt_prop "nodes" (prop "n8n" packageJson)) (JObj []) in
      let found :=
        (Info, "  Found " +:+ number_to_string (Fin (Z.of_nat (length (object_keys declared))) 0)
               +:+ " nodes in package.json") in
      let '(nodes, log) := loadPackageNodes M name path packageJson in
      (nodes, start :: found :: log)
  end.

Definition loadAllNodes (M : Modules) : list LoadedNode * list console_msg :=
  foldl (fun acc pkg =>
           let '(nodes, log) := load_package M pkg in
           (acc.1 ++ nodes, acc.2 ++ log))
        ([], []) CORE_PACKAGES.

(** ** The rebuild script *)

Definition getNodeDescription (nodeClass : NodeClass) : json :=
  if truthy (static_nodeVersions nodeClass) || static_getNodeType nodeClass then
    match js_new nodeClass with
    | Some instance =>
        or_else (js_or (inst_description instance) (inst_baseDescription instance)) (JObj [])
    | None => JObj []
    end
  else if is_function nodeClass then
    match js_new nodeClass with
    | Some instance => or_else (inst_description instance) (JObj [])
    | None => JObj []
    end
  else or_else (static_description nodeClass) (JObj []).

(** [Array.prototype.includes] with a string argument. *)
Definition array_includes (l : list json) (s : string) : bool :=
  existsb (fun e => match e with JStr s' => String.eqb s' s | _ => false end) l.

(** [v.includes(s)] for a truthy [v]: strings and arrays have the method, a
    call on any other value throws. *)
Definition js_includes (v : json) (s : string) : option bool :=
  match v with
  | JStr h => Some (includes h s)
  | JArr l => Some (array_includes l s)
  | _ => None
  end.

Definition extractNodeType (description : json) (packageName : string) : option json :=
  let name := prop "name" description in
  match name with
  | Some n =>
      if negb (truthy name) then Some (JStr "unknown")
      else
        dotted ← js_includes n ".";
        if dotted : bool then Some n
        else
          let packagePrefix := replace (replace packageName "@n8n/" "") "n8n-" "" in
          Some (JStr (packagePrefix +:+ "." +:+ to_str n))
  | None => Some (JStr "unknown")
  end.

Definition isVersionedNode (nodeClass : NodeClass) : bool :=
  if truthy (static_nodeVersions nodeClass) || static_getNodeType nodeClass then true
  else
    match js_new nodeClass with
    | Some instance => truthy (inst_nodeVersions instance) || inst_getNodeType instance
    | None => false
    end.

(** The comparator [(a, b) => b - a]. *)
Definition descending (a b : jsnum) : jsnum := js_sub b a.

Definition descending_json (a b : json) : jsnum :=
  js_sub (to_number (Some b)) (to_number (Some a)).

(** The tail of [extractVersion]: the version the description declares. *)
Definition declared_version (instance : Instance) : string :=
  let desc := js_or (inst_description instance) (inst_baseDescription instance) in
  match opt_prop "version" desc with
  | Some (JArr l) => JSON_stringify (JArr (js_sort descending_json l))
  | Some JNull | None => "1"
  | Some v => if String.eqb (to_str v) "" then "1" else to_str v
  end.

Definition extractVersion (nodeClass : NodeClass) : string :=
  match js_new nodeClass with
  | None => "1"
  | Some instance =>
      match inst_nodeVersions instance with
      | Some nodeVersions =>
          if truthy (Some nodeVersions) then
            let versions := js_sort descending (string_to_number <$> object_keys nodeVersions) in
            JSON_stringify (JArr (JNum <$> versions))
          else declared_version instance
      | None => declared_version instance
      end
  end.

(** [properties.find(p => p.name === 'operation' || p.name === 'resource')];
    reading [p.name] throws when [p] is [null]. *)
Fixpoint find_operation_field (properties : list json) : option (option json) :=
  match properties with
  | [] => Some None
  | p :: rest =>
      name ← prop_of "name" (Some p);
      match name with
      | Some (JStr s) =>
          if String.eqb s "operation" || String.eqb s "resource" then Some (Some p)
          else find_operation_field rest
      | _ => find_operation_field rest
      end
  end.

Definition extractOperations (description : json) : option (option string) :=
  let properties := prop "properties" description in
  if negb (truthy properties) then Some None
  else
    match properties with
    | Some (JArr l) =>
        operationField ← find_operation_field l;
        match opt_prop "options" operationField with
        | Some options =>
            if truthy (Some options) then Some (Some (JSON_stringify options)) else Some None
        | None => Some None
        end
    | _ => None
    end.

Definition nonempty (s : string) : option string :=
  if String.eqb s "" then None else Some s.

Definition buildCodexDocumentation (codex : json) : option (option string) :=
  categories ←
    (let v := prop "categories" codex in
     if truthy v then
       match v with
       | Some (JArr l) =>
           Some [nl +:+ "## Categories" +:+ nl +:+ nl +:+ array_join ", " l]
       | _ => None
       end
     else Some []);
  let subcategories :=
    let v := prop "subcategories" codex in
    match v with
    | Some j =>
        if truthy v then
          [nl +:+ "## Use Cases" +:+ nl +:+ nl +:+
             join nl ((fun kv => "- " +:+ fst kv +:+ ": " +:+ to_str (snd kv)) <$> object_entries j)]
        else []
    | None => []
    end in
  resources ←
    match prop "resources" codex with
    | Some (JArr l) =>
        lines ← mapM (fun r =>
                        label ← prop_of "label" (Some r);
                        url ← prop_of "url" (Some r);
                        Some ("- [" +:+ template label +:+ "](" +:+ template url +:+ ")")) l;
        Some [nl +:+ "## Resources" +:+ nl +:+ nl +:+ join nl lines]
    | _ => Some []
    end;
  alias ←
    (let v := prop "alias" codex in
     if truthy v then
       match v with
       | Some (JArr l) =>
           if (0 <? length l)%nat
           then Some [nl +:+ "## Also known as" +:+ nl +:+ nl +:+ array_join ", " l]
           else Some []
       | Some (JStr _) => None
       | Some (JObj fields) =>
           if 0 <? js_sign (to_number (assoc "length" fields)) then None else Some []
       | _ => Some []
       end
     else Some []);
  let parts := categories ++ subcategories ++ resources ++ alias in
  Some (if (0 <? length parts)%nat then Some (join nl parts) else None).

(** The lines of the "Parameters" section: [filter(p => p.description)] and
    then [map]; reading [p.description] throws when [p] is [null]. *)
Definition property_docs (properties : list json) : option (list string) :=
  described ← mapM (fun p => d ← prop_of "description" (Some p); Some (p, d)) properties;
  Some ((fun pd : json * option json =>
           "**" +:+ template (js_or (prop "displayName" pd.1) (prop "name" pd.1))
                +:+ "**: " +:+ template pd.2)
          <$> List.filter (fun pd : json * option json => truthy pd.2) described).

Definition extractDocumentation (description nodeType : json) (githubDocs : gmap string string)
  : option (option string) :=
  match githubDocs !! to_str nodeType ≫= nonempty with
  | Some doc => Some (Some doc)
  | None =>
      let main :=
        if truthy (prop "description" description) then
          ["# " +:+ template (js_or (prop "displayName" description) (prop "name" description))
                +:+ nl +:+ nl +:+ template (prop "description" description) +:+ nl]
        else [] in
      let subtitle :=
        if truthy (prop "subtitle" description) then
          ["## " +:+ template (prop "subtitle" description) +:+ nl]
        else [] in
      properties ←
        match prop "properties" description with
        | Some (JArr l) =>
            docs ← property_docs l;
            let propertyDocs := join nl docs in
            if String.eqb propertyDocs "" then Some []
            else Some [nl +:+ "## Parameters" +:+ nl +:+ nl +:+ propertyDocs +:+ nl]
        | _ => Some []
        end;
      codex ←
        match prop "codex" description with
        | Some c =>
            if truthy (Some c) then
              codexDoc ← buildCodexDocumentation c;
              match codexDoc ≫= nonempty with
              | Some doc => Some [doc]
              | None => Some []
              end
            else Some []
        | None => Some []
        end;
      let hints :=
        if truthy (prop "hints" description) then
          [nl +:+ "## Hints" +:+ nl +:+ nl +:+ template (prop "hints" description) +:+ nl]
        else [] in
      let docParts := main ++ subtitle ++ properties ++ codex ++ hints in
      Some (if (0 <? length docParts)%nat then Some (join nl docParts) else None)
  end.

(** What [fetch] resolves to.  [body] is the text of the response. *)
Record Response := {
  ok : bool;
  statusText : string;
  body : string
}.

(** The network: [fetch(url)], [None] when the promise rejects. *)
Definition Network : Type := string -> option Response.

Definition popularNodes : list (string * string) :=
  [("HttpRequest", "nodes-base.httpRequest");
   ("Webhook", "nodes-base.webhook");
   ("Code", "nodes-base.code");
   ("If", "nodes-base.if");
   ("Switch", "nodes-base.switch");
   ("Merge", "nodes-base.merge");
   ("Set", "nodes-base.set");
   ("Gmail", "nodes-base.gmail");
   ("Slack", "nodes-base.slack");
   ("GoogleSheets", "nodes-base.googleSheets");
   ("Postgres", "nodes-base.postgres");
   ("MySQL", "nodes-base.mySql");
   ("MongoDB", "nodes-base.mongoDb")].

Definition fetchDocumentationFromGitHub (fetch : Network) (versionTag : string)
  : gmap string string :=
  let baseUrl := "https://raw.githubusercontent.com/n8n-io/n8n/" +:+ versionTag in
  let popular :=
    foldl (fun (docsMap : gmap string string) (node : string * string) =>
             match fetch (baseUrl +:+ "/packages/nodes-base/nodes/" +:+ node.1 +:+ "/README.md") with
             | Some response =>
                 if ok response then <[node.2 := body response]> docsMap else docsMap
             | None => docsMap
             end)
          ∅ popularNodes in
  match fetch (baseUrl +:+ "/packages/@n8n/n8n-nodes-langchain/nodes/agent/Agent/README.md") with
  | Some response =>
      if ok response then <["nodes-langchain.agent" := body response]> popular
      else
        match fetch (baseUrl +:+ "/packages/@n8n/n8n-nodes-langchain/README.md") with
        | Some altResponse =>
            if ok altResponse
            then <["nodes-langchain.agent" := "# AI Agent" +:+ nl +:+ nl +:+ body altResponse]> popular
            else popular
        | None => popular
        end
  | None => popular
  end.

(** A positive number [m * 10^e] rounded to 15 significant digits. *)
Definition round15 (m e : Z) : Z * Z :=
  let k := Z.of_nat (length (digits m)) in
  if k <=? 15 then (m, e)
  else
    let q := m / 10 ^ (k - 15) in
    let q' := if 5 <=? (m / 10 ^ (k - 16)) mod 10 then q + 1 else q in
    match normalise q' (e + (k - 15)) with
    | Fin m' e' => (m', e')
    | _ => (m, e)
    end.

(** [%!.15g] for the positive number [m * 10^e] in its shortest
    representation: at most 15 significant digits, at least one digit after
    the point, and an exponent of two digits at least when the decimal
    exponent is below -4 or above 14. *)
Definition real_chars (m e : Z) : list ascii :=
  let '(m', e') := round15 m e in
  let ds := digits m' in
  let k := Z.of_nat (length ds) in
  let x := k + e' - 1 in
  if (x <? -4) || (15 <=? x) then
    let ex := (if Z.abs x <? 10 then ["0"%char] else []) ++ digits (Z.abs x) in
    match ds with
    | d :: r =>
        d :: "."%char :: (match r with [] => ["0"%char] | _ => r end)
          ++ "e"%char :: (if x <? 0 then "-"%char else "+"%char) :: ex
    | [] => []
    end
  else if 0 <=? x then
    if k <=? x + 1 then ds ++ zeros (x + 1 - k) ++ ["."%char; "0"%char]
    else take (Z.to_nat (x + 1)) ds ++ "."%char :: drop (Z.to_nat (x + 1)) ds
  else "0"%char :: "."%char :: zeros (- x - 1) ++ ds.

(** The text SQLite stores in a TEXT column for a REAL; [NaN] is stored as
    NULL.  SQLite rounds the binary number, the model its decimal digits:
    the two agree on numbers of at most 15 significant digits. *)
Definition real_text (x : jsnum) : option string :=
  match x with
  | NaN => None
  | Inf neg => Some (if neg then "-Inf" else "Inf")
  | Fin m e =>
      match normalise m e with
      | Fin m' e' =>
          if m' =? 0 then Some "0.0"
          else Some (string_of ((if m' <? 0 then ["-"%char] else [])
                                  ++ real_chars (Z.abs m') e'))
      | _ => None
      end
  end.

(** A value passed to [insert.run] for a TEXT column, [None] when
    better-sqlite3 refuses it with a TypeError: a string is stored as it is,
    [null] as NULL, a number, which is bound as a REAL, as the text of that
    REAL; a boolean is refused.  An array or an object passed to [run] is
    not bound as one value: better-sqlite3 takes its elements, or its
    properties, as further parameters of the statement.  The model does not
    follow this and refuses both, so it is exact on the descriptions whose
    [name], [displayName], [description] and first [group] are neither
    arrays nor objects. *)
Definition bind_text (v : json) : option (option string) :=
  match v with
  | JStr s => Some (Some s)
  | JNull => Some None
  | JNum x => Some (real_text x)
  | _ => None
  end.

(** [v?.[0]]. *)
Definition opt_first (v : option json) : option json :=
  match v with
  | Some (JArr l) => head l
  | Some (JStr s) => (fun u => JStr (string_of u)) <$> head (utf16_units (chars_of s))
  | Some (JObj fields) => assoc "0" fields
  | _ => None
  end.

Definition bool_int (b : bool) : Z := if b then 1 else 0.

(** The body of the [try] block of the loop of [rebuild], from the first
    statement to [insert.run]: whether [docsExtracted] was incremented, and
    the row handed to the INSERT, [None] when the block threw before that.
    [timestamp] is SQLite's CURRENT_TIMESTAMP at the insertion. *)
Definition extract_row (docsMap : gmap string string) (timestamp : string) (node : LoadedNode)
  : bool * option NodeRow :=
  let nodeClass := NodeClass_of node in
  let description := getNodeDescription nodeClass in
  match extractNodeType description (packageName node) with
  | None => (false, None)
  | Some nodeType =>
      let displayName :=
        or_else (js_or (prop "displayName" description) (prop "name" description))
                (JStr (nodeName node)) in
      let desc := or_else (prop "description" description) (JStr "") in
      let category := or_else (opt_first (prop "group" description)) (JStr "misc") in
      let isVersioned := isVersionedNode nodeClass in
      let version := extractVersion nodeClass in
      let style := if truthy (prop "routing" description) then "declarative" else "programmatic" in
      match extractDocumentation description nodeType docsMap with
      | None => (false, None)
      | Some documentation =>
          (bool_decide (is_Some (documentation ≫= nonempty)),
           let properties :=
             match prop "properties" description with
             | Some p => if truthy (Some p) then Some (JSON_stringify p) else None
             | None => None
             end in
           operations ← extractOperations description;
           let credentials :=
             match prop "credentials" description with
             | Some c => if truthy (Some c) then Some (JSON_stringify c) else None
             | None => None
             end in
           let isTrigger :=
             truthy (prop "polling" description) || truthy (prop "trigger" description)
             || match category with JStr s => String.eqb s "trigger" | _ => false end in
           isWebhook ←
             (if truthy (prop "webhook" description) then Some true
              else js_includes nodeType "webhook");
           type_text ← (match nodeType with JStr s => Some s | _ => None end);
           name_text ← bind_text displayName;
           desc_text ← bind_text desc;
           category_text ← bind_text category;
           Some {| node_type := type_text;
                   package_name := Some (packageName node);
                   display_name := name_text;
                   description := desc_text;
                   category := category_text;
                   documentation := documentation;
                   properties_schema := properties;
                   operations := operations;
                   credentials_required := credentials;
                   outputs := None;
                   output_names := None;
                   development_style := Some style;
                   is_ai_tool := 0;
                   is_trigger := bool_int isTrigger;
                   is_webhook := bool_int isWebhook;
                   is_versioned := bool_int isVersioned;
                   version := Some version;
                   updated_at := Some timestamp;
                   is_tool_variant := 0;
                   has_tool_variant := 0;
                   base_node_type := None;
                   tool_variant_of := None |})
      end
  end.

(** What the rebuild runs against. *)
Record Env := {
  modules : Modules;
  fetch : Network;
  (** the environment variable, already defaulted to ['n8n@2.0.3'] *)
  N8N_VERSION : string;
  (** CURRENT_TIMESTAMP when the [i]-th loaded node is processed *)
  current_timestamp : nat -> string;
  (** [new Date().toISOString()] when the metadata is written *)
  now_iso : string
}.

(** The state of the loop of [rebuild]: the table, [successful],
    [docsExtracted] and the index of the next node. *)
Record LoopState := {
  table : list NodeRow;
  successful : nat;
  docsExtracted : nat;
  next_index : nat
}.

Definition loop_step (E : Env) (docsMap : gmap string string) (st : LoopState) (node : LoadedNode)
  : LoopState :=
  let '(doc, row) := extract_row docsMap (current_timestamp E (next_index st)) node in
  {| table := match row with
              | Some r => insert_or_replace r (table st)
              | None => table st
              end;
     successful := match row with
                   | Some _ => S (successful st)
                   | None => successful st
                   end;
     docsExtracted := if doc then S (docsExtracted st) else docsExtracted st;
     next_index := S (next_index st) |}.

(** The loop of [rebuild] over the loaded nodes, from a cleared table. *)
Definition insert_nodes (E : Env) (docsMap : gmap string string) (nodes : list LoadedNode)
  : LoopState :=
  foldl (loop_step E docsMap)
        {| table := []; successful := 0; docsExtracted := 0; next_index := 0 |} nodes.

(** [N8N_VERSION.replace(/^n8n@/, '')] *)
Definition version_number (tag : string) : string :=
  match strip_prefix (chars_of "n8n@") (chars_of tag) with
  | Some r => string_of r
  | None => tag
  end.

(** [rebuild]: the tables exist after [CREATE TABLE IF NOT EXISTS], both are
    cleared, and every loaded node is inserted.  The console output of the
    script itself is not modelled. *)
Definition rebuild (E : Env) (old : Database) : Database :=
  let nodes := (loadAllNodes (modules E)).1 in
  let docsMap := fetchDocumentationFromGitHub (fetch E) (N8N_VERSION E) in
  let st := insert_nodes E docsMap nodes in
  {| nodes := table st;
     metadata :=
       [("n8n_version", version_number (N8N_VERSION E));
        ("rebuilt_at", now_iso E);
        ("source", "local+github");
        ("docs_extracted", number_to_string (Fin (Z.of_nat (docsExtracted st)) 0))] |}.

(** ** The release reconciler: [fetchNodeCatalogFromGitHub] *)

Record NodeCatalog := {
  catalog_version : option json;
  fetchedFrom : string;
  nodesBase : json;
  langchain : list json;
  timestamp : string
}.

(** [(await response.json())]: the body parsed as JSON, [None] when it is not
    JSON. *)
Definition response_json (r : Response) : option json := JSON_parse (body r).

(** The elements pushed by [push(...v)]: an array spreads to its elements, a
    string to its characters; any other value is not iterable. *)
Definition spread (v : json) : option (list json) :=
  match v with
  | JArr l => Some l
  | JStr s => Some ((fun ch => JStr (string_of ch)) <$> utf8_chars (chars_of s))
  | _ => None
  end.

(** [v.length] inside a template literal. *)
Definition length_text (v : json) : string :=
  match v with
  | JArr l => number_to_string (Fin (Z.of_nat (length l)) 0)
  | JStr s => number_to_string (Fin (Z.of_nat (utf16_length s)) 0)
  | JObj fields => template (assoc "length" fields)
  | _ => "undefined"
  end.

(** The body of the [try] block: the messages logged and the value returned,
    [None] when it throws. *)
Definition fetch_catalog (fetch : Network) (versionOrBranch now : string)
  : list console_msg * option NodeCatalog :=
  let GITHUB_RAW_URL := "https://raw.githubusercontent.com/n8n-io/n8n/" +:+ versionOrBranch in
  let log0 := [(Info, "ðŸ“¡ Fetching node catalog from n8n GitHub (" +:+ versionOrBranch +:+ ")...")] in
  match fetch (GITHUB_RAW_URL +:+ "/packages/cli/package.json") with
  | None => (log0, None)
  | Some versionResponse =>
      if negb (ok versionResponse) then (log0, None)
      else
        match (versionData ← response_json versionResponse;
               prop_of "version" (Some versionData)) with
        | None => (log0, None)
        | Some n8nVersion =>
            let log1 := log0 ++ [(Info, "n8n version: " +:+ template n8nVersion)] in
            match fetch (GITHUB_RAW_URL +:+ "/packages/nodes-base/package.json") with
            | None => (log1, None)
            | Some nodesBaseResponse =>
                if negb (ok nodesBaseResponse) then (log1, None)
                else
                  match (nodesBaseData ← response_json nodesBaseResponse;
                         prop_of "n8n" (Some nodesBaseData)) with
                  | None => (log1, None)
                  | Some n8n =>
                      let nodeFiles := or_else (opt_prop "nodes" n8n) (JArr []) in
                      let log2 := log1 ++ [(Info, "Found " +:+ length_text nodeFiles +:+ " nodes in nodes-base")] in
                      match fetch (GITHUB_RAW_URL +:+ "/packages/@n8n/n8n-nodes-langchain/package.json") with
                      | None => (log2, None)
                      | Some langchainResponse =>
                          let result (langchainNodes : list json) :=
                            {| catalog_version := n8nVersion;
                               fetchedFrom := versionOrBranch;
                               nodesBase := nodeFiles;
                               langchain := langchainNodes;
                               timestamp := now |} in
                          if ok langchainResponse then
                            match (langchainData ← response_json langchainResponse;
                                   n8n ← prop_of "n8n" (Some langchainData);
                                   spread (or_else (opt_prop "nodes" n8n) (JArr []))) with
                            | None => (log2, None)
                            | Some langchainNodes =>
                                (log2 ++ [(Info, "Found " +:+ number_to_string (Fin (Z.of_nat (length langchainNodes)) 0)
                                                 +:+ " langchain nodes")],
                                 Some (result langchainNodes))
                            end
                          else
                            (log2 ++ [(Warn, "Could not fetch langchain nodes from " +:+ versionOrBranch)],
                             Some (result []))
                      end
                  end
            end
        end
  end.

(** [fetchNodeCatalogFromGitHub]: the [catch] clause logs and throws again. *)
Definition fetchNodeCatalogFromGitHub (fetch : Network) (versionOrBranch now : string)
  : option NodeCatalog * list console_msg :=
  match fetch_catalog fetch versionOrBranch now with
  | (log, Some catalog) => (Some catalog, log)
  | (log, None) =>
      (None, log ++ [(Error, "Failed to fetch node catalog from GitHub (" +:+ versionOrBranch +:+ "):")])
  end.

(** ** Notions used in the statements *)

(** The rows handed to the INSERT statement by the loop of [rebuild], in the
    order of the insertions, the first node being the [i]-th. *)
Fixpoint rows_from (E : Env) (docsMap : gmap string string) (i : nat) (nodes : list LoadedNode)
  : list NodeRow :=
  match nodes with
  | [] => []
  | node :: rest =>
      match (extract_row docsMap (current_timestamp E i) node).2 with
      | Some r => r :: rows_from E docsMap (S i) rest
      | None => rows_from E docsMap (S i) rest
      end
  end.

Definition inserted_rows (E : Env) : list NodeRow :=
  rows_from E (fetchDocumentationFromGitHub (fetch E) (N8N_VERSION E)) 0
            (loadAllNodes (modules E)).1.

(** The table after the given rows were inserted, in order, into an empty
    table. *)
Definition build_table (rows : list NodeRow) : list NodeRow :=
  foldl (fun t r => insert_or_replace r t) [] rows.

(** The order of [ORDER BY key]. *)
Definition key_le {A} (key : A -> option string) (x y : A) : Prop :=
  text_leb (key x) (key y) = true.

(** The rows of a given type. *)
Definition of_type (k : string) (rows : list NodeRow) : list NodeRow :=
  filter (fun r => node_type r = k) rows.

(** A finite number in the shortest representation (which is how a number
    is held: [Fin 1 1] is ten, [Fin 10 0] is not used for it). *)
Definition finite_number (x : jsnum) : bool := is_finite x && canonical x.

(** The node class declares the versions [l]: the keys of the
    [nodeVersions] of its instance are the numbers of [l] as JavaScript
    writes them, or else the [version] of its description is the array
    [l]. *)
Definition declares_versions (nodeClass : NodeClass) (l : list jsnum) : Prop :=
  ∃ instance, js_new nodeClass = Some instance ∧
    ((∃ nodeVersions, inst_nodeVersions instance = Some nodeVersions ∧
        truthy (Some nodeVersions) = true ∧
        object_keys nodeVersions = number_to_string <$> l)
     ∨ (truthy (inst_nodeVersions instance) = false ∧
        opt_prop "version" (js_or (inst_description instance) (inst_baseDescription instance))
        = Some (JArr (JNum <$> l)))).

(** [b] is not below [a]: the order of a list sorted newest first. *)
Definition newer_or_equal (a b : jsnum) : Prop := (value b <= value a)%Q.

(** [needle] occurs in [hay] up to the case of ASCII letters. *)
Definition ci_substring (needle hay : string) : Prop :=
  ∃ pre post,
    sqlite_lower <$> chars_of hay = pre ++ (sqlite_lower <$> chars_of needle) ++ post.

(** The part of a stored text that [LIKE] reads. *)
Definition like_text (s : string) : string := string_of (until_nul (chars_of s)).

(** A column contains the keyword; a NULL column contains nothing. *)
Definition column_contains (keyword : string) (column : option string) : Prop :=
  ∃ s, column = Some s ∧ ci_substring keyword (like_text s).

Definition row_matches (keyword : string) (r : NodeRow) : Prop :=
  column_contains keyword (Some (node_type r))
  ∨ column_contains keyword (display_name r)
  ∨ column_contains keyword (description r)
  ∨ column_contains keyword (documentation r).

Definition is_wildcard (c : ascii) : bool := Ascii.eqb c "%" || Ascii.eqb c "_".

(** The keyword contains neither [%] nor [_]. *)
Definition no_wildcard (keyword : string) : Prop :=
  forallb (fun c => negb (is_wildcard c)) (chars_of keyword) = true.

(** The text has no NUL character. *)
Definition no_nul (s : string) : Prop :=
  forallb (fun c => negb (Ascii.eqb c "000")) (chars_of s) = true.

(** The names of the columns [searchNodes] selects. *)
Definition search_columns : list string :=
  ["node_type"; "package_name"; "display_name"; "description"; "category";
   "is_ai_tool"; "is_trigger"; "is_webhook"].

(** The object holds the eight columns [searchNodes] selects, with the
    values the row has in them, and no other property. *)
Definition search_result_of (r : NodeRow) (o : gmap string json) : Prop :=
  o !! "node_type" = Some (JStr (node_type r))
  ∧ o !! "package_name" = Some (sql_text (package_name r))
  ∧ o !! "display_name" = Some (sql_text (display_name r))
  ∧ o !! "description" = Some (sql_text (description r))
  ∧ o !! "category" = Some (sql_text (category r))
  ∧ o !! "is_ai_tool" = Some (sql_int (is_ai_tool r))
  ∧ o !! "is_trigger" = Some (sql_int (is_trigger r))
  ∧ o !! "is_webhook" = Some (sql_int (is_webhook r))
  ∧ (∀ k, k ∉ search_columns → o !! k = None).

(** The names of the columns of the table [nodes]. *)
Definition node_columns : list string :=
  ["node_type"; "package_name"; "display_name"; "description"; "category";
   "documentation"; "properties_schema"; "operations"; "credentials_required";
   "outputs"; "output_names"; "development_style"; "is_ai_tool"; "is_trigger";
   "is_webhook"; "is_versioned"; "version"; "updated_at"; "is_tool_variant";
   "has_tool_variant"; "base_node_type"; "tool_variant_of"].

(** The object holds every column of the row, a NULL as [null], and no
    other property. *)
Definition row_object (r : NodeRow) (o : gmap string json) : Prop :=
  o !! "node_type" = Some (JStr (node_type r))
  ∧ o !! "package_name" = Some (sql_text (package_name r))
  ∧ o !! "display_name" = Some (sql_text (display_name r))
  ∧ o !! "description" = Some (sql_text (description r))
  ∧ o !! "category" = Some (sql_text (category r))
  ∧ o !! "documentation" = Some (sql_text (documentation r))
  ∧ o !! "properties_schema" = Some (sql_text (properties_schema r))
  ∧ o !! "operations" = Some (sql_text (operations r))
  ∧ o !! "credentials_required" = Some (sql_text (credentials_required r))
  ∧ o !! "outputs" = Some (sql_text (outputs r))
  ∧ o !! "output_names" = Some (sql_text (output_names r))
  ∧ o !! "development_style" = Some (sql_text (development_style r))
  ∧ o !! "is_ai_tool" = Some (sql_int (is_ai_tool r))
  ∧ o !! "is_trigger" = Some (sql_int (is_trigger r))
  ∧ o !! "is_webhook" = Some (sql_int (is_webhook r))
  ∧ o !! "is_versioned" = Some (sql_int (is_versioned r))
  ∧ o !! "version" = Some (sql_text (version r))
  ∧ o !! "updated_at" = Some (sql_text (updated_at r))
  ∧ o !! "is_tool_variant" = Some (sql_int (is_tool_variant r))
  ∧ o !! "has_tool_variant" = Some (sql_int (has_tool_variant r))
  ∧ o !! "base_node_type" = Some (sql_text (base_node_type r))
  ∧ o !! "tool_variant_of" = Some (sql_text (tool_variant_of r))
  ∧ (∀ k, k ∉ node_columns → o !! k = None).

(** The order of [ORDER BY display_name] on the objects of a result: by
    their property [display_name], [null] first. *)
Definition display_name_le (a b : gmap string json) : Prop :=
  match a !! "display_name", b !! "display_name" with
  | Some JNull, Some _ => True
  | Some (JStr x), Some (JStr y) => bytes_leb (chars_of x) (chars_of y) = true
  | _, _ => False
  end.

(** The fields [getNodeInfo] adds to the columns of the row. *)
Definition derived_fields : list string :=
  ["properties"; "operations_list"; "credentials"; "versions"; "latest_version"].

(** The content of a column that is neither NULL nor the empty string. *)
Definition payload (column : option string) : option string := column ≫= nonempty.

(** The JSON value of a column, when it has a payload and the payload parses. *)
Definition parsed (column : option string) : option json := payload column ≫= JSON_parse.

(** An object with the parsed column stored under [field], when there is one. *)
Definition with_parsed (field : string) (column : option string) (obj : gmap string json)
  : gmap string json :=
  match parsed column with
  | Some v => <[field := v]> obj
  | None => obj
  end.

(** The column has a payload that [JSON.parse] rejects. *)
Definition unparseable (column : option string) : Prop :=
  ∃ s, payload column = Some s ∧ JSON_parse s = None.

(** What [getNodeInfo] logs for a column: one error when it is unparseable. *)
Definition failure_log (column : option string) (what nodeType : string) : list console_msg :=
  match payload column with
  | Some s =>
      match JSON_parse s with
      | Some _ => []
      | None => [(Error, "Failed to parse " +:+ what +:+ " for " +:+ nodeType)]
      end
  | None => []
  end.

(** What follows a number in a text: nothing, or a character that cannot
    continue it. *)
Definition number_end (rest : list ascii) : Prop :=
  match rest with
  | [] => True
  | c :: _ =>
      is_digit c = false ∧ Ascii.eqb c "." = false
      ∧ Ascii.eqb c "e" = false ∧ Ascii.eqb c "E" = false
  end.

(** [tail] is what follows the digits of a number: the exponent [ex], if
    there is one, and then [rest]. *)
Definition number_tail (tail : list ascii) (ex : Z) (rest : list ascii) : Prop :=
  match tail with
  | c :: _ => is_digit c = false ∧ Ascii.eqb c "." = false
  | [] => True
  end
  ∧ scan_exponent tail = (ex, rest)
  ∧ (number_end tail ∨ (rest ≠ tail ∧ ∃ r, tail = "e"%char :: r)).

(** An integer part as JSON allows it. *)
Definition no_leading_zero (ds : list ascii) : Prop :=
  match ds with
  | [] => False
  | d :: r => Ascii.eqb d "0" = false ∨ r = []
  end.

(** [ds] are the decimal digits of [n]. *)
Definition digits_of (n : Z) (ds : list ascii) : Prop :=
  forallb is_digit ds = true
  ∧ (∀ a, digits_val_from a ds = a * 10 ^ Z.of_nat (length ds) + n)
  ∧ (0 < length ds)%nat
  ∧ (0 < n → ∃ d r, ds = d :: r ∧ Ascii.eqb d "0" = false).

(** A printed number starts with a minus sign or a digit. *)
Definition number_start (c : ascii) : bool := Ascii.eqb c "-" || is_digit c.

(** No element of [properties] has a description: [properties] is not an
    array, or none of its elements is [null] or has a truthy [description]. *)
Definition no_parameter_descriptions (description : json) : Prop :=
  match prop "properties" description with
  | Some (JArr l) => Forall (fun p => p ≠ JNull ∧ truthy (prop "description" p) = false) l
  | _ => True
  end.

(** The description has nothing but, possibly, a [description] text: no
    subtitle, no parameter descriptions, no codex, no hints. *)
Definition nothing_else (description : json) : Prop :=
  truthy (prop "subtitle" description) = false
  ∧ no_parameter_descriptions description
  ∧ truthy (prop "codex" description) = false
  ∧ truthy (prop "hints" description) = false.

(** The external map has no usable entry for the key. *)
Definition no_entry (githubDocs : gmap string string) (key : string) : Prop :=
  githubDocs !! key = None ∨ githubDocs !! key = Some "".

(** The response [fetch] gave cannot be used: the promise rejected, or the
    status is not OK. *)
Definition not_retrieved (r : option Response) : Prop :=
  r = None ∨ ∃ response, r = Some response ∧ ok response = false.

(** The file was retrieved and holds the JSON document [doc], which is not
    [null]: the response has an OK status and its body is the text of
    [doc]. *)
Definition retrieved (r : option Response) (doc : json) : Prop :=
  ∃ response,
    r = Some response ∧ ok response = true ∧ response_json response = Some doc ∧ doc ≠ JNull.

(** [doc.n8n?.nodes || []]: what a manifest declares as its nodes. *)
Definition declared_nodes (doc : json) : json :=
  or_else (opt_prop "nodes" (prop "n8n" doc)) (JArr []).

(** The response to the request for the manifest of the AI extension gives
    the extension list [l]: the empty list when its status is not OK, and
    otherwise the nodes its document declares, which have to be a list (or
    a string, which is taken character by character). *)
Definition extension_list (r : option Response) (l : list json) : Prop :=
  ∃ response,
    r = Some response
    ∧ (ok response = false ∧ l = []
       ∨ ok response = true
         ∧ ∃ doc, response_json response = Some doc ∧ doc ≠ JNull
                  ∧ spread (declared_nodes doc) = Some l).

(** The name the loader gives the module at [path]. *)
Definition module_name (path : string) : string :=
  match node_name_match path with
  | Some n => n
  | None => basename path ".node.js"
  end.

(** The entry [nodePath] of a manifest yields [node]: the entry is a string,
    its module is resolved and loaded, and the class is the first truthy
    value among the property [default] of the module, its property named
    like the node, and the first of its exported values. *)
Definition loads (M : Modules) (pn pp : string) (nodePath : json) (node : LoadedNode) : Prop :=
  ∃ path fullPath m,
    nodePath = JStr path
    ∧ require_resolve M (pp +:+ "/" +:+ path) = Some fullPath
    ∧ require_module M fullPath = Some m
    ∧ packageName node = pn
    ∧ nodeName node = module_name path
    ∧ (module_get m "default" = ClassExport (NodeClass_of node)
       ∨ module_get m "default" = FalsyExport
         ∧ (module_get m (nodeName node) = ClassExport (NodeClass_of node)
            ∨ module_get m (nodeName node) = FalsyExport
              ∧ head (module_values m) = Some (ClassExport (NodeClass_of node)))).

(** ** Example data *)

Definition example_row (type name : string) (schema ver : option string) : NodeRow :=
  {| node_type := type;
     package_name := Some "n8n-nodes-base";
     display_name := Some name;
     description := Some "";
     category := Some "misc";
     documentation := Some "How to use it";
     properties_schema := schema;
     operations := None;
     credentials_required := Some "[]";
     outputs := None;
     output_names := None;
     development_style := Some "programmatic";
     is_ai_tool := 0;
     is_trigger := 0;
     is_webhook := 0;
     is_versioned := 0;
     version := ver;
     updated_at := Some "2025-01-01 00:00:00";
     is_tool_variant := 0;
     has_tool_variant := 0;
     base_node_type := None;
     tool_variant_of := None |}.

Definition slack_row : NodeRow :=
  example_row "nodes-base.slack" "Slack" (Some "[{") (Some "[2.6,2,1]").

Definition gmail_row : NodeRow :=
  example_row "nodes-base.gmail" "Gmail" None (Some "abc").

Definition example_db : Database :=
  {| nodes := [slack_row; gmail_row]; metadata := [("n8n_version", "2.0.3")] |}.

(** A row with the given category and AI flag. *)
Definition listed_row (type name : string) (cat : option string) (flag : Z) : NodeRow :=
  {| node_type := type;
     package_name := Some "@n8n/n8n-nodes-langchain";
     display_name := Some name;
     description := Some "";
     category := cat;
     documentation := None;
     properties_schema := None;
     operations := None;
     credentials_required := None;
     outputs := None;
     output_names := None;
     development_style := Some "programmatic";
     is_ai_tool := flag;
     is_trigger := 0;
     is_webhook := 0;
     is_versioned := 0;
     version := Some "1";
     updated_at := Some "2025-01-01 00:00:00";
     is_tool_variant := 0;
     has_tool_variant := 0;
     base_node_type := None;
     tool_variant_of := None |}.

(** A node flagged as an AI tool, a node of the category ['AI'] that is not
    flagged, and a node that is neither. *)
Definition calculator_row : NodeRow :=
  listed_row "nodes-langchain.toolCalculator" "Calculator" (Some "transform") 1.

Definition agent_row : NodeRow :=
  listed_row "nodes-langchain.agent" "AI Agent" (Some "AI") 0.

Definition ai_db : Database :=
  {| nodes := [calculator_row; slack_row; agent_row]; metadata := [] |}.

(** A keyword of 49999 letters. *)
Definition long_keyword : string := string_of (repeat "a"%char (Z.to_nat 49999)).

(** A node class whose description declares the versions [1], [2] and [2.6]. *)
Definition versioned_class : NodeClass :=
  {| is_function := true;
     static_nodeVersions := None;
     static_getNodeType := false;
     static_description := None;
     construct :=
       Some {| inst_description :=
                 Some (JObj [("name", JStr "slack");
                             ("version", JArr [JNum (Fin 1 0); JNum (Fin 2 0); JNum (Fin 26 (-1))])]);
               inst_baseDescription := None;
               inst_nodeVersions := None;
               inst_getNodeType := false |} |}.

(** A node class whose instances have a [nodeVersions] with the keys [1],
    [2] and [2.6]. *)
Definition keyed_class : NodeClass :=
  {| is_function := true;
     static_nodeVersions := None;
     static_getNodeType := false;
     static_description := None;
     construct :=
       Some {| inst_description := Some (JObj [("name", JStr "slack")]);
               inst_baseDescription := None;
               inst_nodeVersions :=
                 Some (JObj [("1", JObj []); ("2", JObj []); ("2.6", JObj [])]);
               inst_getNodeType := false |} |}.

(** A node class with the given description and nothing else. *)
Definition plain_class (description : json) : NodeClass :=
  {| is_function := true;
     static_nodeVersions := None;
     static_getNodeType := false;
     static_description := None;
     construct :=
       Some {| inst_description := Some description;
               inst_baseDescription := None;
               inst_nodeVersions := None;
               inst_getNodeType := false |} |}.

Definition slack_class : NodeClass :=
  plain_class (JObj [("name", JStr "slack"); ("displayName", JStr "Slack");
                     ("description", JStr "Send messages")]).

Definition gmail_class : NodeClass :=
  plain_class (JObj [("name", JStr "gmail"); ("displayName", JStr "Gmail")]).

(** Two classes whose descriptions have no [name]. *)
Definition first_nameless : NodeClass := plain_class (JObj [("displayName", JStr "First")]).
Definition second_nameless : NodeClass := plain_class (JObj [("displayName", JStr "Second")]).

(** The function [Object], which a plain object inherits as [constructor]:
    [new Object()] is an empty object. *)
Definition builtin_Object : NodeClass :=
  {| is_function := true;
     static_nodeVersions := None;
     static_getNodeType := false;
     static_description := None;
     construct := Some {| inst_description := None;
                          inst_baseDescription := None;
                          inst_nodeVersions := None;
                          inst_getNodeType := false |} |}.

(** A method of [Object.prototype]: a function that is not a constructor. *)
Definition builtin_method : NodeClass :=
  {| is_function := true;
     static_nodeVersions := None;
     static_getNodeType := false;
     static_description := None;
     construct := None |}.

(** [Object.prototype] itself, which a plain object has as [__proto__]. *)
Definition builtin_prototype : NodeClass :=
  {| is_function := false;
     static_nodeVersions := None;
     static_getNodeType := false;
     static_description := None;
     construct := None |}.

(** [Object.prototype[key]] *)
Definition object_prototype (key : string) : export :=
  if String.eqb key "constructor" then ClassExport builtin_Object
  else if String.eqb key "__proto__" then ClassExport builtin_prototype
  else if bool_decide (key ∈ ["toString"; "toLocaleString"; "valueOf"; "hasOwnProperty";
                              "isPrototypeOf"; "propertyIsEnumerable"; "__defineGetter__";
                              "__defineSetter__"; "__lookupGetter__"; "__lookupSetter__"])
  then ClassExport builtin_method
  else FalsyExport.

(** The module object that is a plain object with the given enumerable
    properties of its own. *)
Definition plain_module (exports : list (string * export)) : ModuleObject :=
  {| module_get := fun key => match assoc key exports with
                              | Some e => e
                              | None => object_prototype key
                              end;
     module_values := snd <$> exports |}.

(** A module system whose base package lists three node modules, the second
    of which fails to load; the other package is not installed. *)
Definition example_manifest : json :=
  JObj [("name", JStr "n8n-nodes-base");
        ("version", JStr "2.0.3");
        ("n8n", JObj [("n8nNodesApiVersion", JNum (Fin 1 0));
                      ("credentials", JArr [JStr "dist/credentials/SlackApi.credentials.js"]);
                      ("nodes",
                       JArr [JStr "dist/nodes/Slack/Slack.node.js";
                             JStr "dist/nodes/Broken/Broken.node.js";
                             JStr "dist/nodes/Gmail/Gmail.node.js"])])].

(** A module whose file is named [constructor.node.js] and that exports
    nothing. *)
Definition constructor_modules : Modules :=
  {| require_resolve := fun request => Some request;
     require_module := fun fullPath => Some (plain_module []);
     require_json := fun path => None |}.

Definition example_modules : Modules :=
  {| require_resolve := fun request => Some ("/node_modules/" +:+ request);
     require_module := fun fullPath =>
       if String.eqb fullPath "/node_modules/n8n-nodes-base/dist/nodes/Slack/Slack.node.js"
       then Some (plain_module [("Slack", ClassExport slack_class)])
       else if String.eqb fullPath "/node_modules/n8n-nodes-base/dist/nodes/Gmail/Gmail.node.js"
       then Some (plain_module [("Gmail", ClassExport gmail_class)])
       else None;
     require_json := fun path =>
       if String.eqb path "n8n-nodes-base/package.json"
       then Some example_manifest
       else None |}.

(** A module system with two nameless nodes. *)
Definition nameless_modules : Modules :=
  {| require_resolve := fun request => Some request;
     require_module := fun fullPath =>
       if String.eqb fullPath "n8n-nodes-base/dist/nodes/A/A.node.js"
       then Some (plain_module [("A", ClassExport first_nameless)])
       else if String.eqb fullPath "n8n-nodes-base/dist/nodes/B/B.node.js"
       then Some (plain_module [("B", ClassExport second_nameless)])
       else None;
     require_json := fun path =>
       if String.eqb path "n8n-nodes-base/package.json"
       then Some (JObj [("n8n", JObj [("nodes",
                           JArr [JStr "dist/nodes/A/A.node.js";
                                 JStr "dist/nodes/B/B.node.js"])])])
       else None |}.

Definition offline : Network := fun _ => None.

Definition nameless_env : Env :=
  {| modules := nameless_modules;
     fetch := offline;
     N8N_VERSION := "n8n@2.0.3";
     current_timestamp := fun _ => "2025-01-01 00:00:00";
     now_iso := "2025-01-01T00:00:00.000Z" |}.

Definition ok_response (text : string) : Response :=
  {| ok := true; statusText := "OK"; body := text |}.

Definition not_found : Response :=
  {| ok := false; statusText := "Not Found"; body := "404: Not Found" |}.

Definition cli_manifest : string :=
  "{" +:+ String quote_char "version" +:+ String quote_char ":"
      +:+ String quote_char "2.0.3" +:+ String quote_char "}".

Definition extension_manifest : string :=
  "{" +:+ String quote_char "n8n" +:+ String quote_char ":{"
      +:+ String quote_char "nodes" +:+ String quote_char ":["
      +:+ String quote_char "dist/nodes/agents/Agent/Agent.node.js" +:+ String quote_char ","
      +:+ String quote_char "dist/nodes/chains/ChainLLM/ChainLlm.node.js"
      +:+ String quote_char "]}}".

(** A release that has the three files. *)
Definition complete_release : Network := fun url =>
  if String.eqb url "https://raw.githubusercontent.com/n8n-io/n8n/n8n@2.0.3/packages/cli/package.json"
  then Some {| ok := true; statusText := "OK";
               body := "{" +:+ String quote_char "version" +:+ String quote_char ":"
                           +:+ String quote_char "2.0.3" +:+ String quote_char "}" |}
  else if String.eqb url "https://raw.githubusercontent.com/n8n-io/n8n/n8n@2.0.3/packages/nodes-base/package.json"
  then Some {| ok := true; statusText := "OK";
               body := "{" +:+ String quote_char "n8n" +:+ String quote_char ":{"
                           +:+ String quote_char "nodes" +:+ String quote_char ":["
                           +:+ String quote_char "dist/nodes/Slack/Slack.node.js"
                           +:+ String quote_char "]}}" |}
  else if String.eqb url "https://raw.githubusercontent.com/n8n-io/n8n/n8n@2.0.3/packages/@n8n/n8n-nodes-langchain/package.json"
  then Some {| ok := true; statusText := "OK"; body := extension_manifest |}
  else None.

Definition base_manifest : string :=
  "{" +:+ String quote_char "n8n" +:+ String quote_char ":{"
      +:+ String quote_char "nodes" +:+ String quote_char ":["
      +:+ String quote_char "dist/nodes/Slack/Slack.node.js" +:+ String quote_char "]}}".

(** A release that has the platform and the base package but no AI-extension
    package. *)
Definition release_without_extension : Network := fun url =>
  if String.eqb url "https://raw.githubusercontent.com/n8n-io/n8n/n8n@0.1.0/packages/cli/package.json"
  then Some (ok_response cli_manifest)
  else if String.eqb url "https://raw.githubusercontent.com/n8n-io/n8n/n8n@0.1.0/packages/nodes-base/package.json"
  then Some (ok_response base_manifest)
  else Some not_found.

(** A release whose platform version file is there while the manifest of the
    base package is not. *)
Definition release_without_base : Network := fun url =>
  if String.eqb url "https://raw.githubusercontent.com/n8n-io/n8n/n8n@0.1.0/packages/cli/package.json"
  then Some (ok_response cli_manifest)
  else Some not_found.

(** ** JSON data *)

(** The number an array index key stands for. *)
Definition index_val (k : string) : Z := digits_val (chars_of k).

(** The keys of an object in the order in which JavaScript keeps them: no
    key twice, the array indices first and in increasing order, then the
    other keys.  For every key, a later key that is an array index is a
    larger one, and follows an array index. *)
Fixpoint keys_in_order (ks : list string) : bool :=
  match ks with
  | [] => true
  | k :: r =>
      negb (existsb (String.eqb k) r)
      && forallb (fun k' => if is_index_key k'
                            then is_index_key k && (index_val k <? index_val k')
                            else true) r
      && keys_in_order r
  end.

(** Data that a JSON text carries without loss: every number is finite (and
    held in its shortest representation), every property list is in
    JavaScript's order. *)
Fixpoint json_data (v : json) : bool :=
  match v with
  | JNum x => finite_number x
  | JArr l => forallb json_data l
  | JObj fields =>
      keys_in_order (map fst fields) && forallb (fun kv => json_data (snd kv)) fields
  | _ => true
  end.

(** The fuel [parse_value] needs to read a value back. *)
Fixpoint json_size (v : json) : nat :=
  match v with
  | JArr l => S (fold_right (fun e n => S (json_size e + n)) O l)
  | JObj fields => S (fold_right (fun kv n => S (json_size (snd kv) + n)) O fields)
  | _ => 1%nat
  end.

(** A column written from a value of the description: [v ? JSON.stringify(v) : null]. *)
Definition stringified (v : option json) : option string :=
  match v with
  | Some j => if truthy (Some j) then Some (JSON_stringify j) else None
  | None => None
  end.

(** A node class with a resource selector and a credential, in version 4.5. *)
Definition sheets_class : NodeClass :=
  plain_class
    (JObj [("displayName", JStr "Google Sheets");
           ("name", JStr "googleSheets");
           ("group", JArr [JStr "input"]);
           ("version", JNum (Fin 45 (-1)));
           ("description", JStr "Read and write rows");
           ("credentials",
            JArr [JObj [("name", JStr "googleApi"); ("required", JBool true)]]);
           ("properties",
            JArr [JObj [("displayName", JStr "Resource");
                        ("name", JStr "resource");
                        ("type", JStr "options");
                        ("options",
                         JArr [JObj [("name", JStr "Sheet"); ("value", JStr "sheet")]]);
                        ("default", JStr "sheet")]])]).

Definition sheets_node : LoadedNode :=
  {| packageName := "n8n-nodes-base"; nodeName := "GoogleSheets"; NodeClass_of := sheets_class |}.

(** The row the loop of [rebuild] writes for it. *)
Definition sheets_row : NodeRow :=
  default (example_row "" "" None None)
          (extract_row ∅ "2025-01-01 00:00:00" sheets_node).2.

Definition sheets_db : Database :=
  {| nodes := [slack_row; sheets_row]; metadata := [] |}.

(** ** [node-service.ts]: categories and statistics *)

(** The categories [getCategories] returns:
    [SELECT DISTINCT category FROM nodes WHERE category IS NOT NULL ORDER BY category]. *)
Definition getCategories (db : Database) : list string :=
  order_by Some (remove_dups (omap category (nodes db))).

Definition category_where (c : string) (r : NodeRow) : bool :=
  bool_decide (category r = Some c).

(** The rows [getNodesByCategory] selects, in the order it returns them:
    [WHERE category = ? ORDER BY display_name]. *)
Definition category_rows (db : Database) (c : string) : list NodeRow :=
  order_by display_name (List.filter (category_where c) (nodes db)).

Definition getNodesByCategory (db : Database) (c : string) : list (gmap string json) :=
  select_star <$> category_rows db c.

(** [SELECT COUNT( * ) FROM nodes WHERE ...]. *)
Definition sql_count (p : NodeRow -> bool) (t : list NodeRow) : nat :=
  length (List.filter p t).

(** [SELECT package_name, COUNT( * ) FROM nodes GROUP BY package_name]: one
    row for each package name, the rows without one forming a group; SQLite
    returns the groups in the order of the grouping column. *)
Definition group_by_package (t : list NodeRow) : list (option string * nat) :=
  (fun p => (p, sql_count (fun r => bool_decide (package_name r = p)) t))
    <$> order_by id (remove_dups (package_name <$> t)).

Record Statistics := {
  totalNodes : nat;
  byPackage : list (option string * nat);
  aiNodes : nat
}.

Definition getStatistics (db : Database) : Statistics :=
  {| totalNodes := sql_count (fun _ => true) (nodes db);
     byPackage := group_by_package (nodes db);
     aiNodes := sql_count (fun r => is_ai_tool r =? 1) (nodes db) |}.

(** ** [node-service.ts]: the connections *)

(** The content of a database file: the table [nodes] and, when the file
    has one, the table [metadata] of keys and values (a value may be NULL).
    A database that was not written by [rebuild] may have no such table. *)
Record DbFile := {
  file_nodes : list NodeRow;
  file_metadata : option (list (string * option string))
}.

(** A connection of better-sqlite3 to a file; a statement on a closed
    connection throws. *)
Record Connection := {
  is_open : bool;
  file : DbFile
}.

(** [new Database(path, { readonly: true })]; [None] when the file cannot be
    opened.  [files] maps a path to the database stored there. *)
Definition open_readonly (files : string -> option DbFile) (path : string) : option Connection :=
  f ← files path; Some {| is_open := true; file := f |}.

Definition close_connection (c : Connection) : Connection :=
  {| is_open := false; file := file c |}.

(** The file [rebuild] leaves behind. *)
Definition db_file (d : Database) : DbFile :=
  {| file_nodes := nodes d;
     file_metadata := Some ((fun kv => (fst kv, Some (snd kv))) <$> metadata d) |}.

Record N8nNodeService := {
  db : Connection;
  (** [undefined] when the templates database could not be opened *)
  templatesDb : option Connection
}.

(** [a || d] for a string that may be [undefined]. *)
Definition string_or (a : option string) (d : string) : string :=
  default d (a ≫= nonempty).

(** The constructor.  [default_db] and [default_templates] are what
    [path.resolve(process.cwd(), ...)] gives for the two default locations.
    [None] is the error the constructor throws. *)
Definition new_N8nNodeService (files : string -> option DbFile)
    (default_db default_templates : string) (dbPath templatesDbPath : option string)
  : option N8nNodeService * list console_msg :=
  let resolvedDbPath := string_or dbPath default_db in
  let resolvedTemplatesDbPath := string_or templatesDbPath default_templates in
  let log0 := [(Info, "Connecting to nodes database: " +:+ resolvedDbPath);
               (Info, "Connecting to templates database: " +:+ resolvedTemplatesDbPath)] in
  match open_readonly files resolvedDbPath with
  | Some d =>
      match open_readonly files resolvedTemplatesDbPath with
      | Some t =>
          (Some {| db := d; templatesDb := Some t |},
           log0 ++ [(Info, "Successfully connected to databases")])
      | None =>
          (Some {| db := d; templatesDb := None |},
           log0 ++ [(Warn, "Templates database not found, template features will be unavailable");
                    (Info, "Successfully connected to databases")])
      end
  | None => (None, log0 ++ [(Error, "Failed to connect to databases:")])
  end.

(** [close()]: [this.db.close(); this.templatesDb.close()].  The service
    afterwards, and [None] when the call throws: calling [close] on
    [undefined] is a TypeError. *)
Definition close (s : N8nNodeService) : N8nNodeService * option unit :=
  match templatesDb s with
  | Some t =>
      ({| db := close_connection (db s); templatesDb := Some (close_connection t) |}, Some tt)
  | None => ({| db := close_connection (db s); templatesDb := None |}, None)
  end.

(** [SELECT name FROM sqlite_master WHERE type='table' AND name='metadata']:
    whether there is a row; [None] when the statement throws. *)
Definition metadata_table_exists (c : Connection) : option bool :=
  if is_open c then Some (bool_decide (is_Some (file_metadata (file c)))) else None.

(** [SELECT value FROM metadata WHERE key = ?], first row: [Some None] when
    there is no row, [None] when the statement throws, which it does on a
    database without the table. *)
Definition select_metadata (c : Connection) (key : string)
  : option (option (option string)) :=
  if is_open c then rows ← file_metadata (file c); Some (assoc key rows) else None.

(** The body of the [try] block of [getDatabaseVersion]; [None] when it
    throws. *)
Definition database_version (c : Connection) : option (option string * list console_msg) :=
  tableExists ← metadata_table_exists c;
  if negb tableExists : bool
  then Some (None, [(Warn, "No metadata table found in database")])
  else
    versionRow ← select_metadata c "n8n_version";
    (** [versionRow?.value || null] *)
    Some (match versionRow with
          | Some value => value ≫= nonempty
          | None => None
          end, []).

Definition getDatabaseVersion (c : Connection) : option string * list console_msg :=
  match database_version c with
  | Some r => r
  | None => (None, [(Error, "Failed to get database version:")])
  end.

(** [process.env.N8N_VERSION || 'n8n@2.0.3'] *)
Definition target_version (env : option string) : string := string_or env "n8n@2.0.3".

(** ** Notions for the rows of a rebuilt database *)

(** The URL from which [fetchDocumentationFromGitHub] fetches the README of
    a popular node. *)
Definition readme_url (versionTag path : string) : string :=
  ("https://raw.githubusercontent.com/n8n-io/n8n/" +:+ versionTag)
    +:+ "/packages/nodes-base/nodes/" +:+ path +:+ "/README.md".

(** The text of a response that arrived with an OK status. *)
Definition fetched_text (r : option Response) : option string :=
  match r with
  | Some response => if ok response then Some (body response) else None
  | None => None
  end.

(** A value that [insert.run] binds as one parameter: not an array and not
    an object, which better-sqlite3 would take apart. *)
Definition single_value (v : option json) : Prop :=
  match v with
  | Some (JArr _) | Some (JObj _) => False
  | _ => True
  end.

(** The values from which the loop of [rebuild] makes the type, the display
    name, the description and the category of the node are single values:
    the [name], the [displayName] and the [description] of its description,
    and the first of its [group]. *)
Definition binds_single_values (node : LoadedNode) : Prop :=
  let description := getNodeDescription (NodeClass_of node) in
  single_value (prop "name" description)
  ∧ single_value (prop "displayName" description)
  ∧ single_value (prop "description" description)
  ∧ single_value (opt_first (prop "group" description)).

(** A flag column holds 0 or 1. *)
Definition is_flag (n : Z) : Prop := n = 0 ∨ n = 1.

(** The class cannot be instantiated although the program tries to: it is a
    function whose constructor throws, or it is not a function and looks
    versioned. *)
Definition not_constructible (c : NodeClass) : Prop :=
  js_new c = None
  ∧ (is_function c = true ∨ truthy (static_nodeVersions c) = true ∨ static_getNodeType c = true).

(** A class whose constructor throws. *)
Definition broken_class : NodeClass :=
  {| is_function := true;
     static_nodeVersions := None;
     static_getNodeType := false;
     static_description := Some (JObj [("name", JStr "broken")]);
     construct := None |}.

(** A base package with the node [sheets_class] and a node whose class
    cannot be instantiated. *)
Definition sheets_modules : Modules :=
  {| require_resolve := fun request => Some request;
     require_module := fun fullPath =>
       if String.eqb fullPath "n8n-nodes-base/dist/nodes/Google/Sheet/GoogleSheets.node.js"
       then Some (plain_module [("GoogleSheets", ClassExport sheets_class)])
       else if String.eqb fullPath "n8n-nodes-base/dist/nodes/Broken/Broken.node.js"
       then Some (plain_module [("Broken", ClassExport broken_class)])
       else None;
     require_json := fun path =>
       if String.eqb path "n8n-nodes-base/package.json"
       then Some (JObj [("n8n", JObj [("nodes",
                           JArr [JStr "dist/nodes/Google/Sheet/GoogleSheets.node.js";
                                 JStr "dist/nodes/Broken/Broken.node.js"])])])
       else None |}.

Definition sheets_env : Env :=
  {| modules := sheets_modules;
     fetch := offline;
     N8N_VERSION := "n8n@2.0.3";
     current_timestamp := fun _ => "2025-01-01 00:00:00";
     now_iso := "2025-01-01T00:00:00.000Z" |}.

(** The row has a documentation text. *)
Definition has_documentation (r : NodeRow) : bool := bool_decide (is_Some (documentation r)).

(** A node with a description text whose [properties] is not an array: its
    documentation is built, and [extractOperations] then throws. *)
Definition odd_node : LoadedNode :=
  {| packageName := "n8n-nodes-base";
     nodeName := "Odd";
     NodeClass_of := plain_class (JObj [("name", JStr "odd");
                                        ("description", JStr "An odd node");
                                        ("properties", JObj [])]) |}.

(** ** Notions for node types *)

(** The prefix [getNodeInfo] rewrites. *)
Definition long_prefix : string := "n8n-nodes-base.".

(** A name that [extractNodeType] qualifies with the package: a string that
    is not empty and has no dot. *)
Definition simple_name (x : string) : Prop := x ≠ "" ∧ includes x "." = false.

(** A database whose only row has a type in which the short prefix occurs
    twice. *)
Definition doubled_db : Database :=
  {| nodes := [example_row "nodes-base.nodes-base.slack" "Slack" None None];
     metadata := [] |}.

(** ** Notions for module paths *)

(** A file name without a directory separator. *)
Definition no_slash (x : string) : Prop := "/"%char ∉ chars_of x.

(** A module that exports the class [c] under the name [default]. *)
Definition default_export (c : NodeClass) : ModuleObject :=
  plain_module [("default", ClassExport c)].

(** A module system in which every request resolves to itself and every
    module exports [slack_class] as its default. *)
Definition uniform_modules : Modules :=
  {| require_resolve := fun request => Some request;
     require_module := fun _ => Some (default_export slack_class);
     require_json := fun _ => None |}.

(** ** [utils/logger.ts] *)

Inductive LogLevel := LogDebug | LogInfo | LogWarn | LogError.

(** The string a [LogLevel] is. *)
Definition level_name (l : LogLevel) : string :=
  match l with
  | LogDebug => "debug"
  | LogInfo => "info"
  | LogWarn => "warn"
  | LogError => "error"
  end.

(** [levels[name]] as a number: the four own properties of [levels]; any
    other property is [undefined] or inherited from [Object.prototype], and
    neither compares with a number. *)
Definition levels (name : string) : option Z :=
  if String.eqb name "debug" then Some 0
  else if String.eqb name "info" then Some 1
  else if String.eqb name "warn" then Some 2
  else if String.eqb name "error" then Some 3
  else None.

(** The environment variables the logger reads when it is loaded. *)
Record LogEnv := {
  env_LOG_LEVEL : option string;
  env_MCP_MODE : option string
}.

(** [process.env.LOG_LEVEL || 'info'] *)
Definition LOG_LEVEL (env : LogEnv) : string := string_or (env_LOG_LEVEL env) "info".

(** [process.env.MCP_MODE === 'stdio'] *)
Definition MCP_MODE (env : LogEnv) : bool := bool_decide (env_MCP_MODE env = Some "stdio").

(** [levels[level] >= levels[LOG_LEVEL]] *)
Definition shouldLog (env : LogEnv) (level : LogLevel) : bool :=
  match levels (level_name level), levels (LOG_LEVEL env) with
  | Some n, Some threshold => threshold <=? n
  | _, _ => false
  end.

Definition is_ascii_lower (c : ascii) : bool :=
  (97 <=? char_code c) && (char_code c <=? 122).

(** [String.prototype.toUpperCase] on ASCII text. *)
Definition toUpperCase (s : string) : string :=
  string_of ((fun c => if is_ascii_lower c then char_of_code (char_code c - 32) else c)
               <$> chars_of s).

(** The two streams of the process. *)
Inductive stream := Stdout | Stderr.

(** [log(level, message)]: the lines written, with their stream; further
    arguments are not part of the text. *)
Definition log (env : LogEnv) (level : LogLevel) (message : string) : list (stream * string) :=
  if negb (shouldLog env level) then []
  else [(if MCP_MODE env then Stderr else Stdout,
         "[" +:+ toUpperCase (level_name level) +:+ "] " +:+ message)].



(** ** [workflow-service.ts]: [N8nWorkflowService] *)

(** A call of [fetch(url, options)] by the service.  The header
    [Content-Type] is always [application/json]. *)
Record HttpRequest := {
  http_method : string;
  http_url : string;
  (** the header [X-N8N-API-KEY] *)
  http_api_key : string;
  http_body : option string
}.

Record HttpResponse := {
  http_ok : bool;
  http_status : Z;
  (** the text of the body *)
  http_text : string
}.

(** The n8n instance: what [fetch] resolves to, [None] when it rejects.  The
    answer depends on the request only. *)
Definition Api : Type := HttpRequest -> option HttpResponse.

(** What the services and the handler of the tools throw. *)
Inductive failure :=
  (** [new Error(`HTTP ${response.status}: ${error}`)] *)
  | HttpError (status : Z) (text : string)
  (** the error [fetch] rejected with *)
  | Rejected
  (** the SyntaxError of [response.json()] *)
  | NotJson
  (** a TypeError of the runtime *)
  | TypeError
  (** [new Error(`Workflow not found: ${workflowName}`)] *)
  | NotFound (name : string)
  (** [new Error(`Could not connect to n8n instance: ${error}`)] *)
  | NotConnected (cause : failure)
  (** the error [fetchNodeCatalogFromGitHub] throws again *)
  | CatalogError
  (** the TypeError of better-sqlite3 for a statement on a closed connection *)
  | NotOpen
  (** the SqliteError of a statement that SQLite refuses to run *)
  | SqliteError
  (** [new Error(`Unknown tool: ${name}`)] *)
  | UnknownTool (name : string).

(** The message of an error the program made; the message of an error of
    the runtime is not modelled. *)
Fixpoint error_message (e : failure) : option string :=
  match e with
  | HttpError status text =>
      Some ("HTTP " +:+ number_to_string (normalise status 0) +:+ ": " +:+ text)
  | NotFound name => Some ("Workflow not found: " +:+ name)
  | NotConnected cause =>
      (fun m => "Could not connect to n8n instance: Error: " +:+ m) <$> error_message cause
  | UnknownTool name => Some ("Unknown tool: " +:+ name)
  | Rejected | NotJson | TypeError | CatalogError | NotOpen | SqliteError => None
  end.

(** The value an asynchronous method resolves to, or the error it rejects
    with. *)
Definition result (A : Type) : Type := failure + A.

Record N8nWorkflowService := {
  apiUrl : string;
  apiKey : string
}.

(** The constructor: [apiUrl.replace(/\/$/, '')] removes one trailing slash. *)
Definition new_N8nWorkflowService (url key : string) : N8nWorkflowService :=
  {| apiUrl := match strip_suffix ["/"%char] (chars_of url) with
               | Some pre => string_of pre
               | None => url
               end;
     apiKey := key |}.

(** [request(method, endpoint, data)]; a body is sent for a truthy [data].
    What the method logs is left out. *)
Definition request (api : Api) (s : N8nWorkflowService) (method endpoint : string)
    (data : option json) : result json :=
  let url := apiUrl s +:+ "/" +:+ endpoint in
  match api {| http_method := method;
               http_url := url;
               http_api_key := apiKey s;
               http_body := stringified data |} with
  | None => inl Rejected
  | Some response =>
      if negb (http_ok response)
      then inl (HttpError (http_status response) (http_text response))
      else match JSON_parse (http_text response) with
           | Some v => inr v
           | None => inl NotJson
           end
  end.

Definition upper_hex_char (d : Z) : ascii :=
  if d <? 10 then char_of_code (48 + d) else char_of_code (55 + d).

(** The bytes the [application/x-www-form-urlencoded] serializer leaves as
    they are: ASCII letters and digits, and [*], [-], [.], [_]. *)
Definition is_form_safe (c : ascii) : bool :=
  is_digit c || is_ascii_upper c || is_ascii_lower c
  || Ascii.eqb c "*" || Ascii.eqb c "-" || Ascii.eqb c "." || Ascii.eqb c "_".

Definition form_encode_char (c : ascii) : list ascii :=
  if is_form_safe c then [c]
  else if Ascii.eqb c " " then ["+"%char]
  else ["%"%char; upper_hex_char (char_code c / 16); upper_hex_char (char_code c mod 16)].

Definition form_encode (s : string) : string :=
  string_of (flat_map form_encode_char (chars_of s)).

(** [URLSearchParams.prototype.toString] *)
Definition URLSearchParams_toString (params : list (string * string)) : string :=
  join "&" ((fun kv => form_encode (fst kv) +:+ "=" +:+ form_encode (snd kv)) <$> params).

(** The parameters of the request for the page at [cursor]. *)
Definition page_params (cursor : option json) : list (string * string) :=
  ("limit", "100") :: (if truthy cursor then [("cursor", template cursor)] else []).

(** The loop of [listWorkflows]: the value of [allWorkflows] when the loop
    ends; [None] when it has not ended after [fuel] requests. *)
Fixpoint list_pages (fuel : nat) (api : Api) (s : N8nWorkflowService)
    (allWorkflows : list json) (cursor : option json) : option (result json) :=
  match fuel with
  | O => None
  | S fuel' =>
      match request api s "GET" ("workflows?" +:+ URLSearchParams_toString (page_params cursor))
                    None with
      | inl e => Some (inl e)
      | inr response =>
          match response with
          | JArr l => Some (inr (JArr l))
          | JNull => Some (inl TypeError)
          | _ =>
              match prop "data" response with
              | Some (JArr data) =>
                  let nextCursor := prop "nextCursor" response in
                  if truthy nextCursor
                  then list_pages fuel' api s (allWorkflows ++ data) nextCursor
                  else Some (inr (JArr (allWorkflows ++ data)))
              | _ => Some (inr response)
              end
          end
      end
  end.

Definition minimal_fields : list string :=
  ["id"; "name"; "active"; "createdAt"; "updatedAt"; "versionId"; "tags";
   "triggerCount"; "isArchived"].

(** The object [listWorkflows] makes of a workflow that is not [null].  A
    property whose value is [undefined] is left out: the program reads such
    a property, and [JSON.stringify] writes the object, as if it were absent. *)
Definition minimal_workflow (wf : json) : json :=
  JObj (omap (fun k => (fun v => (k, v)) <$> prop k wf) minimal_fields).

(** [allWorkflows.map(wf => ({ id: wf.id, ... }))]; reading a property of
    [null] throws. *)
Definition minimal_workflows (l : list json) : option (list json) :=
  mapM (fun wf => match wf with JNull => None | _ => Some (minimal_workflow wf) end) l.

Definition listWorkflows (fuel : nat) (api : Api) (s : N8nWorkflowService)
  : option (result json) :=
  match list_pages fuel api s [] None with
  | None => None
  | Some (inl e) => Some (inl e)
  | Some (inr (JArr l)) =>
      match minimal_workflows l with
      | Some minimalWorkflows =>
          Some (inr (JObj [("data", JArr minimalWorkflows); ("nextCursor", JNull)]))
      | None => Some (inl TypeError)
      end
  (** a value that is not an array has no method [map] *)
  | Some (inr _) => Some (inl TypeError)
  end.

Definition getWorkflow (api : Api) (s : N8nWorkflowService) (workflowId : option json)
  : result json :=
  request api s "GET" ("workflows/" +:+ template workflowId) None.

(** [a === b] for values of which one at least is not an object of the
    program: numbers, strings, booleans and [null] are compared by value,
    and an array or an object is equal to no other value. *)
Definition strict_equal (a b : option json) : bool :=
  match a, b with
  | None, None => true
  | Some JNull, Some JNull => true
  | Some (JBool x), Some (JBool y) => Bool.eqb x y
  | Some (JNum x), Some (JNum y) =>
      match x, y with
      | NaN, _ | _, NaN => false
      | _, _ => bool_decide (x = y)
      end
  | Some (JStr x), Some (JStr y) => String.eqb x y
  | _, _ => false
  end.

Definition getWorkflowByName (fuel : nat) (api : Api) (s : N8nWorkflowService)
    (workflowName : option json) : option (result json) :=
  match listWorkflows fuel api s with
  | None => None
  | Some (inl e) => Some (inl e)
  | Some (inr workflows) =>
      match prop "data" workflows with
      | Some (JArr data) =>
          match List.find (fun w => strict_equal (prop "name" w) workflowName) data with
          | Some workflow => Some (getWorkflow api s (prop "id" workflow))
          | None => Some (inl (NotFound (template workflowName)))
          end
      | _ => Some (inl TypeError)
      end
  end.

Definition createWorkflow (api : Api) (s : N8nWorkflowService) (workflow : option json)
  : result json :=
  request api s "POST" "workflows" workflow.

Definition updateWorkflow (api : Api) (s : N8nWorkflowService) (workflowId workflow : option json)
  : result json :=
  request api s "PUT" ("workflows/" +:+ template workflowId) workflow.

Definition deleteWorkflow (api : Api) (s : N8nWorkflowService) (workflowId : option json)
  : result json :=
  request api s "DELETE" ("workflows/" +:+ template workflowId) None.

(** An object literal with the given properties, without those whose value
    is [undefined] (see [minimal_workflow]). *)
Definition object_literal (fields : list (string * option json)) : json :=
  JObj (omap (fun kv => (fun v => (fst kv, v)) <$> snd kv) fields).

Definition toggleWorkflow (api : Api) (s : N8nWorkflowService) (workflowId active : option json)
  : result json :=
  request api s "PATCH" ("workflows/" +:+ template workflowId)
          (Some (object_literal [("active", active)])).

Definition executeWorkflow (api : Api) (s : N8nWorkflowService) (workflowId : option json)
  : result json :=
  request api s "POST" ("workflows/" +:+ template workflowId +:+ "/execute") None.

(** [getExecutions(workflowId, limit = 10)]; [limit.toString()] throws for
    [null]. *)
Definition getExecutions (api : Api) (s : N8nWorkflowService) (workflowId limit : option json)
  : result json :=
  match default (JNum (Fin 1 1)) limit with
  | JNull => inl TypeError
  | l =>
      let params :=
        ("limit", to_str l)
          :: (if truthy workflowId then [("workflowId", template workflowId)] else []) in
      request api s "GET" ("executions?" +:+ URLSearchParams_toString params) None
  end.

Definition getExecutionDetails (api : Api) (s : N8nWorkflowService) (executionId : option json)
  : result json :=
  request api s "GET" ("executions/" +:+ template executionId) None.

(** [getInstanceInfo]; the request to [healthz] that comes first has no
    bearing on the result, whether it fails or not. *)
Definition getInstanceInfo (api : Api) (s : N8nWorkflowService) : result json :=
  match request api s "GET" "workflows?limit=1" None with
  | inl e => inl (NotConnected e)
  | inr JNull => inl (NotConnected TypeError)
  | inr workflows =>
      let data := prop "data" workflows in
      let isPaginated := if truthy data then Some (JBool (is_array data)) else data in
      let apiVersion := if truthy isPaginated then ">=1.0" else "<1.0" in
      inr (object_literal
             [("apiVersion", Some (JStr apiVersion));
              ("isPaginated", isPaginated);
              ("apiUrl", Some (JStr (apiUrl s)));
              ("note", Some (JStr "n8n does not expose exact version via API. Use workflow nodes to determine version."));
              ("suggestion", Some (JStr "Create a workflow with AI Agent node to check available typeVersion"))])
  end.

(** ** Notions for the workflow service *)

(** The address does not end with a slash. *)
Definition no_trailing_slash (url : string) : Prop := last (chars_of url) ≠ Some "/"%char.

(** The answer of the instance to the request for the page at [cursor]. *)
Definition page_at (api : Api) (s : N8nWorkflowService) (cursor : option json) : result json :=
  request api s "GET" ("workflows?" +:+ URLSearchParams_toString (page_params cursor)) None.

(** From [cursor] on, the instance serves the pages [pages], each as an
    object with the workflows as [data] and, but for the last, a truthy
    [nextCursor] that leads to the next page. *)
Inductive paged (api : Api) (s : N8nWorkflowService) : option json -> list (list json) -> Prop :=
  | paged_last cursor response data :
      page_at api s cursor = inr response ->
      prop "data" response = Some (JArr data) ->
      truthy (prop "nextCursor" response) = false ->
      paged api s cursor [data]
  | paged_more cursor response data pages :
      page_at api s cursor = inr response ->
      prop "data" response = Some (JArr data) ->
      truthy (prop "nextCursor" response) = true ->
      paged api s (prop "nextCursor" response) pages ->
      paged api s cursor (data :: pages).

(** An instance with two pages of workflows. *)
Definition two_pages : Api := fun r =>
  if String.eqb (http_url r) "https://n8n.example/api/v1/workflows?limit=100"
  then Some {| http_ok := true; http_status := 200;
               http_text := JSON_stringify
                 (JObj [("data", JArr [JObj [("id", JStr "w1"); ("name", JStr "First");
                                             ("nodes", JArr [])]]);
                        ("nextCursor", JStr "c 2")]) |}
  else if String.eqb (http_url r) "https://n8n.example/api/v1/workflows?limit=100&cursor=c+2"
  then Some {| http_ok := true; http_status := 200;
               http_text := JSON_stringify
                 (JObj [("data", JArr [JObj [("id", JStr "w2"); ("name", JStr "Second");
                                             ("connections", JObj [])]])]) |}
  else if String.eqb (http_url r) "https://n8n.example/api/v1/workflows/w2"
  then Some {| http_ok := true; http_status := 200;
               http_text := JSON_stringify
                 (JObj [("id", JStr "w2"); ("name", JStr "Second"); ("nodes", JArr [])]) |}
  else Some {| http_ok := false; http_status := 404; http_text := "not found" |}.

Definition example_service : N8nWorkflowService :=
  new_N8nWorkflowService "https://n8n.example/api/v1/" "secret".

(** ** Notions for searches with wild cards *)

(** A row whose description has an underscore, and one that matches the
    pattern [a_b] without containing it. *)
Definition underscore_row : NodeRow :=
  example_row "nodes-base.a_b" "Underscore" None None.

Definition other_row : NodeRow :=
  example_row "nodes-base.axb" "Other" None None.

Definition underscore_db : Database :=
  {| nodes := [other_row; underscore_row]; metadata := [] |}.

(** ** [index.ts]: the server *)

(** The names of [tools], in the order of the array: the tools of the node
    documentation, then those of the workflow management.  Descriptions and
    input schemas are left out. *)
Definition node_documentation_tools : list string :=
  ["search_n8n_nodes"; "get_node_info"; "list_node_categories"; "get_nodes_by_category";
   "get_ai_nodes"; "fetch_node_catalog_from_github"; "get_database_version";
   "get_n8n_instance_info"].

Definition workflow_management_tools : list string :=
  ["list_workflows"; "get_workflow"; "get_workflow_by_name"; "toggle_workflow";
   "execute_workflow"; "get_executions"; "get_execution_details"; "create_workflow";
   "update_workflow"; "delete_workflow"].

Definition tools : list string := node_documentation_tools ++ workflow_management_tools.

(** What the module keeps: the two services and [process.env]. *)
Record Server := {
  nodeService : N8nNodeService;
  workflowService : N8nWorkflowService;
  process_env : gmap string string
}.

Definition requiredEnvVars : list string := ["N8N_API_URL"; "N8N_API_KEY"].

(** [requiredEnvVars.filter(v => !process.env[v])] *)
Definition missingVars (env : gmap string string) : list string :=
  List.filter (fun v => negb (bool_decide (is_Some (env !! v ≫= nonempty)))) requiredEnvVars.

(** How the start of the module ends: with [process.exit(code)], with the
    error the constructor of the node service threw, or with the server
    answering requests. *)
Inductive Startup :=
  | Exit (code : Z)
  | Uncaught
  | Serving (srv : Server).

(** The top level of the module and [main].  [files], [default_db] and
    [default_templates] are as in [new_N8nNodeService]; the transport is
    taken to connect. *)
Definition startup (files : string -> option DbFile) (default_db default_templates : string)
    (env : gmap string string) : Startup * list console_msg :=
  match missingVars env with
  | _ :: _ as missing =>
      (Exit 1, [(Error, "Missing required environment variables: " +:+ join ", " missing)])
  | [] =>
      match new_N8nNodeService files default_db default_templates
              (Some (string_or (env !! "N8N_MCP_DB_PATH") "./data/nodes.db"))
              (Some (string_or (env !! "N8N_MCP_TEMPLATES_DB_PATH")
                               "../n8n-mcp/data/templates.db")) with
      | (Some ns, log) =>
          (Serving {| nodeService := ns;
                      workflowService :=
                        new_N8nWorkflowService (default "" (env !! "N8N_API_URL"))
                                               (default "" (env !! "N8N_API_KEY"));
                      process_env := env |},
           log ++ [(Info, "n8n Unified MCP server started successfully")])
      | (None, log) => (Uncaught, log)
      end
  end.

(** The properties of [arguments] that the handler reads.  Those handed to
    the node service have the type their input schema declares, the
    required ones being present; [limit] is any number.  Those handed to the
    workflow service are any value, [None] for a property that is absent. *)
Record Arguments := {
  arg_keyword : string;
  arg_limit : option jsnum;
  arg_nodeType : string;
  arg_category : string;
  arg_version : option string;
  arg_workflowId : option json;
  arg_workflowName : option json;
  arg_active : option json;
  arg_executionId : option json;
  arg_name : option json;
  arg_nodes : option json;
  arg_connections : option json;
  arg_settings : option json
}.

(** The value whose JSON text is the content of a result. *)
Inductive ToolValue :=
  (** the rows of a query *)
  | Rows (l : list (gmap string json))
  (** one row, or [null] *)
  | Row (r : option (gmap string json))
  | Names (l : list string)
  | Catalog (c : NodeCatalog)
  (** [{ databaseVersion, databasePath, note }] *)
  | VersionReport (databaseVersion : option string) (databasePath note : string)
  (** what the workflow service returned *)
  | Value (v : json).

Definition result_map {A B} (f : A -> B) (r : result A) : result B :=
  match r with
  | inl e => inl e
  | inr a => inr (f a)
  end.

(** The tables of a file as the queries on [nodes] read them. *)
Definition tables (f : DbFile) : Database :=
  {| nodes := file_nodes f;
     metadata := omap (fun kv => (fun v => (fst kv, v)) <$> snd kv)
                      (default [] (file_metadata f)) |}.

(** A query of the node service on its connection. *)
Definition query {A} (s : N8nNodeService) (q : Database -> A) : result A :=
  if is_open (db s) then inr (q (tables (file (db s)))) else inl NotOpen.

(** A query that SQLite may refuse to run. *)
Definition query_checked {A} (s : N8nNodeService) (q : Database -> option A) : result A :=
  match query s q with
  | inl e => inl e
  | inr (Some a) => inr a
  | inr None => inl SqliteError
  end.

(** [limit || 10] *)
Definition limit_or_10 (limit : option jsnum) : jsnum :=
  match limit with
  | Some x => if truthy (Some (JNum x)) then x else Fin 1 1
  | None => Fin 1 1
  end.

(** The handler of [CallToolRequestSchema].  [inr v] is the result whose
    content is the text of [v]; [inl e] is the result with [isError], made
    in the [catch] block from the error [e]; [None] when the handler has not
    returned after [fuel] requests for a page of workflows.  What is logged
    is left out. *)
Definition CallToolRequest_handler (fuel : nat) (net : Network) (now : string) (api : Api)
    (srv : Server) (name : string) (args : Arguments) : option (result ToolValue) :=
  let ns := nodeService srv in
  let ws := workflowService srv in
  if String.eqb name "search_n8n_nodes" then
    Some (result_map Rows
            (query_checked ns
               (fun d => fst <$> searchNodes d (arg_keyword args)
                                             (limit_or_10 (arg_limit args)))))
  else if String.eqb name "get_node_info" then
    Some (result_map Row (query ns (fun d => (getNodeInfo d (arg_nodeType args)).1)))
  else if String.eqb name "list_node_categories" then
    Some (result_map Names (query ns getCategories))
  else if String.eqb name "get_nodes_by_category" then
    Some (result_map Rows (query ns (fun d => getNodesByCategory d (arg_category args))))
  else if String.eqb name "get_ai_nodes" then
    Some (result_map Rows (query ns getAINodes))
  else if String.eqb name "fetch_node_catalog_from_github" then
    let version := string_or (arg_version args) "master" in
    Some (match (fetchNodeCatalogFromGitHub net version now).1 with
          | Some catalog => inr (Catalog catalog)
          | None => inl CatalogError
          end)
  else if String.eqb name "get_database_version" then
    let version := (getDatabaseVersion (db ns)).1 in
    Some (inr (VersionReport version
                 (string_or (process_env srv !! "N8N_MCP_DB_PATH") "../n8n-mcp/data/nodes.db")
                 (match version with
                  | Some v => "Database contains nodes for n8n " +:+ v
                  | None => "No version metadata found in database. Database may be from an older version of n8n-mcp."
                  end)))
  else if String.eqb name "get_n8n_instance_info" then
    Some (result_map Value (getInstanceInfo api ws))
  else if String.eqb name "list_workflows" then
    result_map Value <$> listWorkflows fuel api ws
  else if String.eqb name "get_workflow" then
    Some (result_map Value (getWorkflow api ws (arg_workflowId args)))
  else if String.eqb name "get_workflow_by_name" then
    result_map Value <$> getWorkflowByName fuel api ws (arg_workflowName args)
  else if String.eqb name "toggle_workflow" then
    Some (result_map Value (toggleWorkflow api ws (arg_workflowId args) (arg_active args)))
  else if String.eqb name "execute_workflow" then
    Some (result_map Value (executeWorkflow api ws (arg_workflowId args)))
  else if String.eqb name "get_executions" then
    Some (result_map Value
            (getExecutions api ws (arg_workflowId args)
               (Some (JNum (limit_or_10 (arg_limit args))))))
  else if String.eqb name "get_execution_details" then
    Some (result_map Value (getExecutionDetails api ws (arg_executionId args)))
  else if String.eqb name "create_workflow" then
    Some (result_map Value
            (createWorkflow api ws
               (Some (object_literal [("name", arg_name args);
                                      ("nodes", arg_nodes args);
                                      ("connections", arg_connections args);
                                      ("settings", arg_settings args)]))))
  else if String.eqb name "update_workflow" then
    Some (result_map Value
            (updateWorkflow api ws (arg_workflowId args)
               (Some (object_literal [("name", arg_name args);
                                      ("nodes", arg_nodes args);
                                      ("connections", arg_connections args);
                                      ("settings", arg_settings args)]))))
  else if String.eqb name "delete_workflow" then
    Some (result_map Value (deleteWorkflow api ws (arg_workflowId args)))
  else Some (inl (UnknownTool name)).

(** The text of a result with [isError], for an error whose message the
    model has: [JSON.stringify({ error: error.message })]. *)
Definition error_text (e : failure) : option string :=
  (fun m => JSON_stringify (JObj [("error", JStr m)])) <$> error_message e.

(** ** Notions used in the statements *)

(** An error that one of the two services throws. *)
Definition service_failure (e : failure) : Prop :=
  match e with
  | UnknownTool _ => False
  | _ => True
  end.

(** A number with a fractional part that is written with at most 15
    significant digits, the first of them not after the fifteenth decimal
    place: it is a JavaScript number that is not an integer. *)
Definition short_fraction (x : jsnum) : Prop :=
  match x with
  | Fin m e => - 15 ≤ e < 0 ∧ m mod 10 ≠ 0 ∧ Z.abs m < 10 ^ 15
  | _ => False
  end.

(** The limit is absent, or it is falsy: zero or [NaN]. *)
Definition no_limit_given (limit : option jsnum) : Prop :=
  limit = None ∨ ∃ x, limit = Some x ∧ truthy (Some (JNum x)) = false.

(** Arguments with nothing but a keyword, a node type and a category. *)
Definition plain_arguments (keyword nodeType category : string) (limit : option jsnum) : Arguments :=
  {| arg_keyword := keyword; arg_limit := limit; arg_nodeType := nodeType;
     arg_category := category; arg_version := None; arg_workflowId := None;
     arg_workflowName := None; arg_active := None; arg_executionId := None;
     arg_name := None; arg_nodes := None; arg_connections := None; arg_settings := None |}.

(** An environment with the two required variables, and the files of a
    machine that has the catalog at the default place. *)
Definition example_env : gmap string string :=
  {[ "N8N_API_URL" := "http://localhost:5678/api/v1/"; "N8N_API_KEY" := "secret" ]}.

Definition example_files (path : string) : option DbFile :=
  if String.eqb path "./data/nodes.db" then Some (db_file sheets_db) else None.

(** The server these make, and an instance that nothing reaches. *)
Definition example_server : Server :=
  {| nodeService := {| db := {| is_open := true; file := db_file sheets_db |};
                       templatesDb := None |};
     workflowService := new_N8nWorkflowService "http://localhost:5678/api/v1/" "secret";
     process_env := example_env |}.

Definition unreachable : Api := fun _ => None.

(** An API that refuses every request. *)
Definition refusing (status : Z) (text : string) : Api :=
  fun _ => Some {| http_ok := false; http_status := status; http_text := text |}.

(** * Properties *)

(** ** Lists and characters *)

Ltac case_ascii c :=
  destruct c as [[|] [|] [|] [|] [|] [|] [|] [|]].

Lemma chars_of_string_of cs : chars_of (string_of cs) = cs.
Proof. apply list_ascii_of_string_of_list_ascii. Qed.

Lemma string_of_chars_of s : string_of (chars_of s) = s.
Proof. apply string_of_list_ascii_of_string. Qed.

Lemma chars_of_app s t : chars_of (s +:+ t) = chars_of s ++ chars_of t.
Proof. induction s as [|c s IH]; simpl; [done | by rewrite IH]. Qed.

Lemma ascii_eqb_eq c d : Ascii.eqb c d = true ↔ c = d.
Proof. apply Ascii.eqb_eq. Qed.

Lemma string_eqb_eq s t : String.eqb s t = true ↔ s = t.
Proof. apply String.eqb_eq. Qed.

Lemma string_eqb_refl s : String.eqb s s = true.
Proof. by apply String.eqb_eq. Qed.

Lemma span_while_app p ds rest :
  forallb p ds = true →
  match rest with c :: _ => p c = false | [] => True end →
  span_while p (ds ++ rest) = (ds, rest).
Proof.
  intros Hds Hrest. induction ds as [|d ds IH]; simpl in *.
  - destruct rest as [|c r]; simpl; [done | by rewrite Hrest].
  - apply andb_true_iff in Hds as [-> Hds]. by rewrite IH.
Qed.

(** ** The table under [INSERT OR REPLACE] *)

Lemma build_table_snoc rows r :
  build_table (rows ++ [r]) = insert_or_replace r (build_table rows).
Proof. unfold build_table. by rewrite foldl_snoc. Qed.

Lemma elem_of_insert_or_replace r t x :
  x ∈ insert_or_replace r t ↔ x = r ∨ (x ∈ t ∧ node_type x ≠ node_type r).
Proof.
  unfold insert_or_replace. rewrite elem_of_app, list_elem_of_filter, list_elem_of_singleton.
  tauto.
Qed.

Lemma insert_or_replace_NoDup r t :
  NoDup (node_type <$> t) → NoDup (node_type <$> insert_or_replace r t).
Proof.
  intros Hnd. unfold insert_or_replace. rewrite fmap_app. apply NoDup_app. split; [|split].
  - induction t as [|x t IH]; simpl; [constructor|].
    inversion Hnd as [|? ? Hx Ht]; subst.
    rewrite filter_cons. case_decide; [|by apply IH].
    rewrite fmap_cons. constructor; [|by apply IH].
    intros Hin. apply Hx. apply list_elem_of_fmap in Hin as (y & Hy & Hin).
    apply list_elem_of_filter in Hin as [_ Hin]. apply list_elem_of_fmap. eauto.
  - intros k Hk Hk'. apply list_elem_of_singleton in Hk'. subst k.
    apply list_elem_of_fmap in Hk as (y & Hy & Hin).
    apply list_elem_of_filter in Hin as [Hne _]. congruence.
  - apply NoDup_singleton.
Qed.

Lemma build_table_NoDup rows : NoDup (node_type <$> build_table rows).
Proof.
  induction rows as [|r rows IH] using rev_ind; [constructor|].
  rewrite build_table_snoc. by apply insert_or_replace_NoDup.
Qed.

Lemma select_by_type_app t1 t2 k :
  select_by_type (t1 ++ t2) k =
  match select_by_type t1 k with Some r => Some r | None => select_by_type t2 k end.
Proof.
  unfold select_by_type. induction t1 as [|x t1 IH]; simpl; [done|].
  destruct (String.eqb (node_type x) k); [done | apply IH].
Qed.

Lemma select_by_type_insert r t k :
  select_by_type (insert_or_replace r t) k =
  if decide (node_type r = k) then Some r else select_by_type t k.
Proof.
  unfold insert_or_replace. rewrite select_by_type_app.
  case_decide as Hk.
  - subst k. replace (select_by_type (filter _ t) (node_type r)) with (@None NodeRow).
    + unfold select_by_type. simpl. by rewrite string_eqb_refl.
    + symmetry. induction t as [|x t IH]; [done|].
      rewrite filter_cons. case_decide as Hx; [|apply IH].
      unfold select_by_type in *. simpl.
      destruct (String.eqb (node_type x) (node_type r)) eqn:Heq; [|apply IH].
      apply string_eqb_eq in Heq. congruence.
  - assert (select_by_type (filter (λ r', node_type r' ≠ node_type r) t) k = select_by_type t k) as ->.
    { induction t as [|x t IH]; [done|].
      rewrite filter_cons. unfold select_by_type in *. case_decide as Hx; simpl.
      - destruct (String.eqb (node_type x) k); [done | apply IH].
      - destruct (String.eqb (node_type x) k) eqn:Heq; [|apply IH].
        apply string_eqb_eq in Heq. congruence. }
    destruct (select_by_type t k); [done|].
    unfold select_by_type. simpl.
    destruct (String.eqb (node_type r) k) eqn:Heq; [|done].
    apply string_eqb_eq in Heq. congruence.
Qed.

Lemma of_type_snoc k rows r :
  of_type k (rows ++ [r]) = of_type k rows ++ (if decide (node_type r = k) then [r] else []).
Proof.
  unfold of_type. by rewrite filter_app.
Qed.

(** Last write wins: the row of a type is the last row inserted for it. *)
Lemma build_table_select rows k :
  select_by_type (build_table rows) k = last (of_type k rows).
Proof.
  induction rows as [|r rows IH] using rev_ind; [done|].
  rewrite build_table_snoc, select_by_type_insert, of_type_snoc.
  case_decide; [by rewrite last_snoc | by rewrite app_nil_r].
Qed.

Lemma select_by_type_Some t k r :
  select_by_type t k = Some r → r ∈ t ∧ node_type r = k.
Proof.
  unfold select_by_type. intros H. apply find_some in H as [Hin Heq].
  apply string_eqb_eq in Heq. split; [by apply list_elem_of_In | done].
Qed.

Lemma select_by_type_NoDup t r :
  NoDup (node_type <$> t) → r ∈ t → select_by_type t (node_type r) = Some r.
Proof.
  intros Hnd Hin. induction t as [|x t IH]; [by apply elem_of_nil in Hin|].
  inversion Hnd as [|? ? Hx Ht]; subst. unfold select_by_type in *. simpl.
  apply elem_of_cons in Hin as [->|Hin]; [by rewrite string_eqb_refl|].
  destruct (String.eqb (node_type x) (node_type r)) eqn:Heq; [|by apply IH].
  apply string_eqb_eq in Heq. exfalso. apply Hx. rewrite Heq.
  apply list_elem_of_fmap. eauto.
Qed.

Lemma of_type_length_NoDup t k :
  NoDup (node_type <$> t) →
  length (of_type k t) = match select_by_type t k with Some _ => 1%nat | None => 0%nat end.
Proof.
  intros Hnd. induction t as [|x t IH]; [done|].
  inversion Hnd as [|? ? Hx Ht]; subst. specialize (IH Ht).
  unfold of_type, select_by_type in *. rewrite filter_cons. simpl.
  case_decide as Hk.
  - subst k. rewrite string_eqb_refl. simpl. f_equal.
    destruct (find _ t) as [y|] eqn:Hy; [|done].
    apply find_some in Hy as [Hin Heq]. apply string_eqb_eq in Heq.
    exfalso. apply Hx. rewrite <- Heq. apply list_elem_of_fmap.
    exists y. split; [done | by apply list_elem_of_In].
  - destruct (String.eqb (node_type x) k) eqn:Heq; [|done].
    apply string_eqb_eq in Heq. congruence.
Qed.

(** ** The loop of [rebuild] *)

Lemma loop_table E docsMap nodes st :
  table (foldl (loop_step E docsMap) st nodes) =
  foldl (fun t r => insert_or_replace r t) (table st)
        (rows_from E docsMap (next_index st) nodes).
Proof.
  revert st. induction nodes as [|node rest IH]; intros st; [done|].
  simpl. rewrite IH. unfold loop_step.
  destruct (extract_row docsMap (current_timestamp E (next_index st)) node) as [doc [r|]];
    by simpl.
Qed.

Lemma rebuild_nodes E old : nodes (rebuild E old) = build_table (inserted_rows E).
Proof. unfold rebuild, insert_nodes, inserted_rows, build_table. simpl. by rewrite loop_table. Qed.

(** C1.  After a rebuild, whatever the environment and the previous content
    of the database, no two rows of [nodes] have the same [node_type]; the
    row of a type is, whole, the last row the loop inserted for that type;
    and the table holds exactly one row for each type that was inserted and
    none for any other. *)
Theorem rebuild_one_row_per_type (E : Env) (old : Database) :
  let rows := inserted_rows E in
  let db := rebuild E old in
  NoDup (node_type <$> nodes db)
  ∧ (∀ k, select_by_type (nodes db) k = last (of_type k rows))
  ∧ (∀ k, length (of_type k (nodes db)) =
          match of_type k rows with [] => 0%nat | _ :: _ => 1%nat end)
  ∧ (∀ r, r ∈ nodes db ↔ last (of_type (node_type r) rows) = Some r).
Proof.
  intros rows db. subst db. rewrite rebuild_nodes. fold rows.
  pose proof (build_table_NoDup rows) as Hnd.
  split; [done|]. split; [apply build_table_select|]. split.
  - intros k. rewrite of_type_length_NoDup by done. rewrite build_table_select.
    destruct (of_type k rows) as [|x l] eqn:Hk; [done|].
    destruct (last (x :: l)) eqn:Hl; [done|]. by apply last_None in Hl.
  - intros r. rewrite <- build_table_select. split.
    + by apply select_by_type_NoDup.
    + intros H. by apply select_by_type_Some in H as [H _].
Qed.

Lemma extractNodeType_nameless description pkg :
  truthy (prop "name" description) = false →
  extractNodeType description pkg = Some (JStr "unknown").
Proof.
  unfold extractNodeType. intros H. destruct (prop "name" description); [|done].
  by rewrite H.
Qed.

(** Inversion of a chain of [x ← a; b] that did not throw. *)
Ltac bind_inv H :=
  repeat match type of H with
         | (?a ≫= _) = Some _ =>
             let E := fresh "E" in
             destruct a eqn:E; simpl in H; [|discriminate H]
         end.

Lemma extract_row_type docsMap ts node r :
  (extract_row docsMap ts node).2 = Some r →
  extractNodeType (getNodeDescription (NodeClass_of node)) (packageName node)
  = Some (JStr (node_type r)).
Proof.
  unfold extract_row.
  destruct (extractNodeType _ _) as [nodeType|]; [|done].
  destruct (extractDocumentation _ _ _) as [documentation|]; [|done].
  simpl. intros H. bind_inv H.
  destruct nodeType; try discriminate. by simplify_eq.
Qed.

(** C9.  A description without a (truthy) [name] gets the node type
    ['unknown'] from [extractNodeType], which does not throw; every row the
    loop inserts for such a node has that type; and after a rebuild the
    table holds at most one row of type ['unknown'], which is the last one
    the loop inserted. *)
Theorem nameless_nodes_collapse (E : Env) (old : Database) :
  (∀ description pkg,
     truthy (prop "name" description) = false →
     extractNodeType description pkg = Some (JStr "unknown"))
  ∧ (∀ docsMap ts node r,
       truthy (prop "name" (getNodeDescription (NodeClass_of node))) = false →
       (extract_row docsMap ts node).2 = Some r →
       node_type r = "unknown")
  ∧ (length (of_type "unknown" (nodes (rebuild E old))) ≤ 1)%nat
  ∧ select_by_type (nodes (rebuild E old)) "unknown"
    = last (of_type "unknown" (inserted_rows E)).
Proof.
  split; [apply extractNodeType_nameless|]. split.
  - intros docsMap ts node r Hname Hrow.
    apply extract_row_type in Hrow.
    rewrite (extractNodeType_nameless _ _ Hname) in Hrow. by inversion Hrow.
  - rewrite rebuild_nodes. split; [|apply build_table_select].
    rewrite of_type_length_NoDup by apply build_table_NoDup.
    destruct (select_by_type _ _); lia.
Qed.

(** ** [ORDER BY] *)

Lemma bytes_leb_total a b : bytes_leb a b = false → bytes_leb b a = true.
Proof.
  revert b. induction a as [|x a IH]; intros [|y b]; simpl; try done.
  destruct (char_code x <? char_code y) eqn:Hxy; [done|].
  destruct (char_code y <? char_code x) eqn:Hyx; [done|]. apply IH.
Qed.

Lemma bytes_leb_trans a b c :
  bytes_leb a b = true → bytes_leb b c = true → bytes_leb a c = true.
Proof.
  revert b c. induction a as [|x a IH]; intros [|y b] [|z c]; simpl; try done.
  destruct (char_code x <? char_code y) eqn:Hxy, (char_code y <? char_code z) eqn:Hyz,
           (char_code x <? char_code z) eqn:Hxz, (char_code y <? char_code x) eqn:Hyx,
           (char_code z <? char_code y) eqn:Hzy, (char_code z <? char_code x) eqn:Hzx;
    try done; try lia.
  apply IH.
Qed.

Lemma text_leb_total a b : text_leb a b = false → text_leb b a = true.
Proof. destruct a, b; simpl; try done. apply bytes_leb_total. Qed.

Lemma text_leb_trans a b c :
  text_leb a b = true → text_leb b c = true → text_leb a c = true.
Proof. destruct a, b, c; simpl; try done. apply bytes_leb_trans. Qed.

Section OrderBy.
Context {A : Type} (key : A → option string).

Lemma order_insert_perm x l : order_insert key x l ≡ₚ x :: l.
Proof.
  induction l as [|y l IH]; simpl; [done|].
  destruct (text_leb (key x) (key y)); [done|].
  rewrite IH. apply perm_swap.
Qed.

Lemma order_by_perm l : order_by key l ≡ₚ l.
Proof.
  induction l as [|x l IH]; simpl; [done|].
  unfold order_by in *. simpl. by rewrite order_insert_perm, IH.
Qed.

Lemma order_insert_sorted x l :
  Sorted (key_le key) l → Sorted (key_le key) (order_insert key x l).
Proof.
  induction 1 as [|y l Hl IH Hhd]; simpl; [by repeat constructor|].
  destruct (text_leb (key x) (key y)) eqn:Hxy.
  - constructor; [by constructor | by constructor].
  - constructor; [done|].
    destruct l as [|z l]; simpl in *.
    + constructor. by apply text_leb_total.
    + destruct (text_leb (key x) (key z)); constructor.
      * by apply text_leb_total.
      * by inversion Hhd.
Qed.

Lemma order_by_sorted l : Sorted (key_le key) (order_by key l).
Proof.
  induction l as [|x l IH]; [constructor|].
  unfold order_by in *. simpl. by apply order_insert_sorted.
Qed.

Lemma order_by_strongly_sorted l : StronglySorted (key_le key) (order_by key l).
Proof.
  apply Sorted_StronglySorted; [|apply order_by_sorted].
  intros x y z. apply text_leb_trans.
Qed.
End OrderBy.

Lemma ai_where_spec r :
  ai_where r = true ↔ is_ai_tool r = 1 ∨ category r = Some "AI".
Proof.
  unfold ai_where. rewrite orb_true_iff, Z.eqb_eq, bool_decide_eq_true. tauto.
Qed.

Lemma list_filter_bool {A} (f : A → bool) (P : A → Prop) `{∀ x, Decision (P x)} l :
  (∀ x, f x = true ↔ P x) → List.filter f l = filter P l.
Proof.
  intros Hf. induction l as [|x l IH]; [done|].
  simpl. rewrite filter_cons. destruct (f x) eqn:Hx.
  - rewrite decide_True by by apply Hf. by rewrite IH.
  - rewrite decide_False; [done|]. intros HP. apply Hf in HP. congruence.
Qed.

Lemma select_star_columns r : row_object r (select_star r).
Proof.
  unfold row_object, select_star.
  repeat (split; [done|]).
  intros k Hk. unfold node_columns in Hk. cbn [list_to_map foldr fst snd].
  repeat (rewrite lookup_insert_ne;
          [|intros <-; apply Hk;
            repeat first [apply list_elem_of_here | apply list_elem_of_further]]).
  apply lookup_empty.
Qed.

Lemma display_name_le_objects a b :
  text_leb (display_name a) (display_name b) = true →
  display_name_le (select_star a) (select_star b).
Proof.
  unfold display_name_le.
  destruct (select_star_columns a) as (_ & _ & -> & _).
  destruct (select_star_columns b) as (_ & _ & -> & _).
  by destruct (display_name a), (display_name b).
Qed.

Lemma StronglySorted_objects {A B} (R : A → A → Prop) (S : B → B → Prop) (f : A → B) l :
  (∀ x y, R x y → S (f x) (f y)) → StronglySorted R l → StronglySorted S (f <$> l).
Proof.
  intros Hf. induction 1 as [|x l Hl IH Hx]; [constructor|].
  rewrite fmap_cons. constructor; [done|].
  apply Forall_fmap. eapply Forall_impl; [exact Hx|]. intros y Hy. by apply Hf.
Qed.

(** C10.  The objects [getAINodes] returns are those of exactly the rows
    whose [is_ai_tool] is 1 or whose [category] is the string ['AI'], one
    for each such row, with all the columns of the row: each object has 1
    as [is_ai_tool] or ['AI'] as [category]; the category suffices, and the
    object of a row that is not flagged has the flag 0; and the objects are
    ordered by their [display_name] ([null] first, then bytewise). *)
Theorem ai_nodes_listing (db : Database) :
  let result := getAINodes db in
  (∃ rows,
     Forall2 row_object rows result
     ∧ rows ≡ₚ filter (λ r, is_ai_tool r = 1 ∨ category r = Some "AI") (nodes db))
  ∧ (∀ o, o ∈ result →
       o !! "is_ai_tool" = Some (JNum (Fin 1 0)) ∨ o !! "category" = Some (JStr "AI"))
  ∧ (∀ r, r ∈ nodes db → is_ai_tool r = 1 ∨ category r = Some "AI" →
       ∃ o, o ∈ result ∧ row_object r o)
  ∧ (∀ r, r ∈ nodes db → is_ai_tool r = 0 → category r = Some "AI" →
       ∃ o, o ∈ result ∧ row_object r o ∧ o !! "is_ai_tool" = Some (JNum (Fin 0 0)))
  ∧ StronglySorted display_name_le result.
Proof.
  intros result.
  assert (ai_rows db ≡ₚ filter (λ r, is_ai_tool r = 1 ∨ category r = Some "AI") (nodes db))
    as Hperm.
  { unfold ai_rows. rewrite order_by_perm.
    by rewrite (list_filter_bool ai_where _ _ ai_where_spec). }
  assert (∀ r, r ∈ ai_rows db ↔ r ∈ nodes db ∧ (is_ai_tool r = 1 ∨ category r = Some "AI"))
    as Hin.
  { intros r. rewrite Hperm, list_elem_of_filter. tauto. }
  assert (∀ r, r ∈ nodes db → is_ai_tool r = 1 ∨ category r = Some "AI" →
               ∃ o, o ∈ result ∧ row_object r o) as Hall.
  { intros r Hr Hai. exists (select_star r). split; [|apply select_star_columns].
    apply list_elem_of_fmap. exists r. split; [done|]. apply Hin. auto. }
  split; [|split; [|split; [|split]]].
  - exists (ai_rows db). split; [|done].
    apply Forall2_fmap_r, Forall_Forall2_diag, Forall_forall.
    intros r _. apply select_star_columns.
  - intros o (r & -> & Hr)%list_elem_of_fmap. apply Hin in Hr as [_ Hr].
    destruct (select_star_columns r)
      as (_ & _ & _ & _ & Hcat & _ & _ & _ & _ & _ & _ & _ & Hflag & _).
    rewrite Hcat, Hflag. destruct Hr as [-> | ->]; [by left | by right].
  - exact Hall.
  - intros r Hr Hflag Hcat. destruct (Hall r Hr (or_intror Hcat)) as (o & Ho & Hcols).
    exists o. split; [done|]. split; [done|].
    destruct Hcols as (_ & _ & _ & _ & _ & _ & _ & _ & _ & _ & _ & _ & -> & _).
    by rewrite Hflag.
  - apply (StronglySorted_objects (λ a b, text_leb (display_name a) (display_name b) = true)).
    + apply display_name_le_objects.
    + apply order_by_strongly_sorted.
Qed.

(** C10 at a concrete input: of a tool flagged as AI, a node that is
    neither, and the agent, whose category is ['AI'] and whose flag is 0,
    the listing has the agent and then the tool. *)
Lemma ai_nodes_listing_witness :
  (λ o : gmap string json, o !! "display_name") <$> getAINodes ai_db
  = [Some (JStr "AI Agent"); Some (JStr "Calculator")]
  ∧ (λ o : gmap string json, o !! "is_ai_tool") <$> getAINodes ai_db
    = [Some (JNum (Fin 0 0)); Some (JNum (Fin 1 0))]
  ∧ ∃ o, o ∈ getAINodes ai_db ∧ row_object agent_row o.
Proof.
  destruct (ai_nodes_listing ai_db) as (_ & _ & _ & Hcategory & _).
  split; [reflexivity|]. split; [reflexivity|].
  destruct (Hcategory agent_row) as (o & Ho & Hcols & _); [|reflexivity|reflexivity|eauto].
  apply list_elem_of_further, list_elem_of_further, list_elem_of_here.
Defined.

(** ** [LIKE] *)

Lemma like_percent p s :
  like ("%"%char :: p) s =
  like p s || match s with [] => false | _ :: s' => like ("%"%char :: p) s' end.
Proof. by destruct s. Qed.

Lemma like_literal c p s :
  is_wildcard c = false →
  like (c :: p) s =
  match s with
  | [] => false
  | d :: s' => Ascii.eqb (sqlite_lower c) (sqlite_lower d) && like p s'
  end.
Proof.
  unfold is_wildcard. intros [H1 H2]%orb_false_iff. simpl. rewrite H1, H2. by destruct s.
Qed.

Lemma like_only_percent s : like ["%"%char] s = true.
Proof.
  induction s as [|d s IH]; [done|]. rewrite like_percent. simpl like at 1.
  by rewrite IH.
Qed.

Lemma like_prefix kw s :
  forallb (fun c => negb (is_wildcard c)) kw = true →
  like (kw ++ ["%"%char]) s = true ↔
  ∃ post, sqlite_lower <$> s = (sqlite_lower <$> kw) ++ post.
Proof.
  intros Hkw. revert s. induction kw as [|c kw IH]; intros s.
  - simpl. rewrite like_only_percent. split; [eauto | done].
  - simpl in Hkw. apply andb_true_iff in Hkw as [Hc Hkw]. apply negb_true_iff in Hc.
    rewrite <- app_comm_cons, like_literal by done.
    destruct s as [|d s].
    + split; [done | by intros [post ?]].
    + rewrite andb_true_iff, ascii_eqb_eq, (IH Hkw). rewrite !fmap_cons. split.
      * intros [-> [post ->]]. by exists post.
      * intros [post Hpost]. simplify_eq/=. eauto.
Qed.

Lemma like_contains kw s :
  forallb (fun c => negb (is_wildcard c)) kw = true →
  like ("%"%char :: kw ++ ["%"%char]) s = true ↔
  ∃ pre post, sqlite_lower <$> s = pre ++ (sqlite_lower <$> kw) ++ post.
Proof.
  intros Hkw. induction s as [|d s IH].
  - rewrite like_percent, orb_false_r, (like_prefix _ _ Hkw). split.
    + intros [post ->]. by exists [], post.
    + intros ([|x pre] & post & H); [eauto | done].
  - rewrite like_percent, orb_true_iff, (like_prefix _ _ Hkw), IH. split.
    + intros [[post ->] | (pre & post & Hs)]; [by exists [], post|].
      exists (sqlite_lower d :: pre), post. by rewrite fmap_cons, Hs.
    + intros ([|x pre] & post & H); [left; eauto|].
      right. rewrite fmap_cons in H. simplify_eq/=. eauto.
Qed.

Lemma until_nul_id cs :
  forallb (fun c => negb (Ascii.eqb c "000")) cs = true → until_nul cs = cs.
Proof.
  induction cs as [|c cs IH]; [done|]. cbn [forallb until_nul].
  intros [Hc Hcs]%andb_true_iff. apply negb_true_iff in Hc. rewrite Hc. by rewrite IH.
Qed.

Lemma pattern_chars keyword :
  no_nul keyword →
  until_nul (chars_of ("%" +:+ keyword +:+ "%")) = "%"%char :: chars_of keyword ++ ["%"%char].
Proof.
  intros Hkw. rewrite !chars_of_app. change (chars_of "%") with ["%"%char]. cbn [app].
  apply until_nul_id. cbn [forallb]. rewrite forallb_app. cbn [forallb].
  unfold no_nul in Hkw. by rewrite Hkw.
Qed.

Lemma sql_like_contains keyword column :
  no_wildcard keyword → no_nul keyword →
  sql_like column ("%" +:+ keyword +:+ "%") = true ↔ column_contains keyword column.
Proof.
  intros Hkw Hnul. unfold sql_like, column_contains, ci_substring, like_text.
  destruct column as [s|]; [|split; [done | by intros (? & ? & _)]].
  rewrite (pattern_chars _ Hnul), (like_contains _ _ Hkw). split.
  - intros (pre & post & H). exists s. rewrite chars_of_string_of. eauto.
  - intros (s' & [= <-] & H). by rewrite chars_of_string_of in H.
Qed.

Lemma search_where_spec keyword r :
  no_wildcard keyword → no_nul keyword →
  search_where ("%" +:+ keyword +:+ "%") r = true ↔ row_matches keyword r.
Proof.
  intros Hkw Hnul. unfold search_where, row_matches.
  rewrite !orb_true_iff, !(sql_like_contains _ _ Hkw Hnul). tauto.
Qed.

Lemma string_length_app s t :
  String.length (s +:+ t) = (String.length s + String.length t)%nat.
Proof. induction s as [|c s IH]; simpl; [done | by rewrite IH]. Qed.

(** A pattern made of a keyword of at most 49998 bytes is not too long. *)
Lemma pattern_length keyword :
  Z.of_nat (String.length keyword) ≤ 49998 →
  (max_like_pattern_length <? Z.of_nat (String.length ("%" +:+ keyword +:+ "%"))) = false.
Proof.
  intros Hlen. apply Z.ltb_ge. rewrite !string_length_app. unfold max_like_pattern_length.
  change (String.length "%") with 1%nat. lia.
Qed.

(** The limit an integer stands for. *)
Lemma limit_value_integer n :
  - 2 ^ 63 < n < 2 ^ 63 - 1 → limit_value (Fin n 0) = Some n.
Proof.
  intros Hn. unfold limit_value. cbn [Z.leb Z.compare mbind option_bind].
  rewrite Z.pow_0_r, Z.mul_1_r.
  destruct (Z.ltb_spec (- 2 ^ 63) n); [|lia]. destruct (Z.ltb_spec n (2 ^ 63 - 1)); [done|lia].
Qed.

Lemma search_rows_selected db keyword n :
  Z.of_nat (String.length keyword) ≤ 49998 → 0 ≤ n →
  search_rows db keyword n
  = Some (take (Z.to_nat n) (List.filter (search_where ("%" +:+ keyword +:+ "%")) (nodes db))).
Proof.
  intros Hlen Hn. unfold search_rows.
  destruct (Z.eqb_spec n 0) as [->|Hne]; [done|].
  destruct (decide (nodes db = [])) as [->|Hnodes].
  - rewrite bool_decide_eq_true_2 by done. cbn [List.filter]. by rewrite take_nil.
  - rewrite bool_decide_eq_false_2 by done. cbn [orb].
    rewrite (pattern_length _ Hlen). unfold sql_limit.
    by rewrite (proj2 (Z.ltb_ge _ _) Hn).
Qed.

Lemma search_projection_columns r : search_result_of r (search_projection r).
Proof.
  unfold search_result_of, search_projection.
  repeat (split; [done|]).
  intros k Hk. unfold search_columns in Hk. cbn [list_to_map foldr fst snd].
  repeat (rewrite lookup_insert_ne;
          [|intros <-; apply Hk;
            repeat first [apply list_elem_of_here | apply list_elem_of_further]]).
  apply lookup_empty.
Qed.

(** C4 (as amended).  For a keyword without [%], [_] and NUL of at most
    49998 bytes, and a limit that is an integer [n] from 0 to [2^53],
    [searchNodes] does not throw: it returns the objects of the
    first [n] rows, in table order, that contain the keyword, up to the case
    of ASCII letters, in [node_type], [display_name], [description] or
    [documentation], each object holding the eight selected columns of its
    row; so it returns at most [n] results, only of matching rows, and the
    empty list when no row matches. *)
Theorem search_substring (db : Database) (keyword : string) (limit : jsnum) (n : Z) :
  no_wildcard keyword → no_nul keyword → Z.of_nat (String.length keyword) ≤ 49998 →
  limit_value limit = Some n → 0 ≤ n ≤ 2 ^ 53 →
  let pattern := "%" +:+ keyword +:+ "%" in
  (∀ r, search_where pattern r = true ↔ row_matches keyword r)
  ∧ ∃ results log,
      searchNodes db keyword limit = Some (results, log)
      ∧ Forall2 search_result_of
                (take (Z.to_nat n) (List.filter (search_where pattern) (nodes db))) results
      ∧ (length results ≤ Z.to_nat n)%nat
      ∧ (∀ o, o ∈ results →
           ∃ r, r ∈ nodes db ∧ row_matches keyword r ∧ search_result_of r o)
      ∧ ((∀ r, r ∈ nodes db → ¬ row_matches keyword r) → results = []).
Proof.
  intros Hkw Hnul Hlen Hlimit [Hn _] pattern.
  split; [intros r; by apply search_where_spec|].
  set (selected := take (Z.to_nat n) (List.filter (search_where pattern) (nodes db))).
  exists (search_projection <$> selected). eexists.
  split.
  { unfold searchNodes. rewrite Hlimit. cbn [mbind option_bind].
    rewrite (search_rows_selected _ _ _ Hlen Hn). cbn [mbind option_bind]. reflexivity. }
  split.
  { apply Forall2_fmap_r, Forall_Forall2_diag, Forall_forall.
    intros r _. apply search_projection_columns. }
  split; [rewrite length_fmap; unfold selected; rewrite length_take; lia|].
  split.
  - intros o (r & -> & Hr)%list_elem_of_fmap. exists r.
    apply (subseteq_take _ _ r) in Hr.
    apply list_elem_of_In, filter_In in Hr as [Hin Hr].
    split; [by apply list_elem_of_In|].
    split; [by apply search_where_spec | apply search_projection_columns].
  - intros Hnone. unfold selected.
    replace (List.filter (search_where pattern) (nodes db)) with (@nil NodeRow);
      [by rewrite take_nil|].
    symmetry. revert Hnone. generalize (nodes db) as l.
    induction l as [|x l IH]; intros Hnone; [done|]. simpl.
    destruct (search_where pattern x) eqn:Hx.
    + exfalso. apply (Hnone x); [apply elem_of_cons; by left | by apply search_where_spec].
    + apply IH. intros r Hr. apply Hnone. apply elem_of_cons. by right.
Qed.

(** ** [getNodeInfo] *)

Lemma payload_cases column :
  (∃ s, column = Some s ∧ String.eqb s "" = false ∧ payload column = Some s)
  ∨ ((column = None ∨ column = Some "") ∧ payload column = None).
Proof.
  destruct column as [s|]; [|right; auto]. unfold payload, nonempty. simpl.
  destruct (String.eqb s "") eqn:Hs; [|left; eauto].
  apply string_eqb_eq in Hs. subst. right. auto.
Qed.

Lemma parse_column_spec column field what nodeType result log :
  parse_column column field what nodeType (result, log) =
  (with_parsed field column result, log ++ failure_log column what nodeType).
Proof.
  unfold parse_column, with_parsed, parsed, failure_log.
  destruct (payload_cases column) as [(s & -> & Hs & ->) | [[-> | ->] ->]]; simpl.
  - rewrite Hs. simpl. destruct (JSON_parse s); simpl; by rewrite ?app_nil_r.
  - by rewrite app_nil_r.
  - by rewrite app_nil_r.
Qed.

Lemma lookup_set_field_ne k k' v (obj : gmap string json) :
  k ≠ k' → set_field k v obj !! k' = obj !! k'.
Proof.
  intros Hne. unfold set_field. destruct v; [by rewrite lookup_insert_ne | by rewrite lookup_delete_ne].
Qed.

Lemma lookup_set_field_eq k v (obj : gmap string json) : set_field k v obj !! k = v.
Proof.
  unfold set_field. destruct v; [by rewrite lookup_insert_eq | by rewrite lookup_delete_eq].
Qed.

(** The versions [getNodeInfo] derives from a column. *)
Lemma parse_version_spec column result log :
  parse_version column (result, log) =
  (match payload column with
   | Some s =>
       let versions := match JSON_parse s with
                       | Some (JArr l) => l
                       | _ => [JNum (parseFloat s)]
                       end in
       set_field "latest_version" (head versions) (<["versions" := JArr versions]> result)
   | None => result
   end, log).
Proof.
  unfold parse_version.
  destruct (payload_cases column) as [(s & -> & Hs & ->) | [[-> | ->] ->]]; simpl; try done.
  rewrite Hs. simpl. by destruct (JSON_parse s) as [[]|].
Qed.

Lemma getNodeInfo_found db nodeType row :
  select_by_type (nodes db) (replace nodeType "n8n-nodes-base." "nodes-base.") = Some row →
  getNodeInfo db nodeType =
  (Some (parse_version (version row)
           (with_parsed "credentials" (credentials_required row)
              (with_parsed "operations_list" (operations row)
                 (with_parsed "properties" (properties_schema row) (select_star row))),
            [])).1,
   failure_log (properties_schema row) "properties_schema" nodeType
   ++ failure_log (operations row) "operations" nodeType
   ++ failure_log (credentials_required row) "credentials" nodeType).
Proof.
  intros Hrow. unfold getNodeInfo. rewrite Hrow. rewrite !parse_column_spec.
  rewrite !parse_version_spec. cbv beta iota zeta. cbn [fst].
  by rewrite app_nil_l, app_assoc.
Qed.

Lemma lookup_with_parsed_ne field column obj k :
  k ≠ field → with_parsed field column obj !! k = obj !! k.
Proof.
  intros Hk. unfold with_parsed. destruct (parsed column); [|done].
  by rewrite lookup_insert_ne.
Qed.

Lemma lookup_with_parsed_eq field column obj :
  obj !! field = None → with_parsed field column obj !! field = parsed column.
Proof.
  intros Hk. unfold with_parsed. destruct (parsed column); [|done].
  by rewrite lookup_insert_eq.
Qed.

Lemma select_star_not_derived row k :
  k ∈ derived_fields → select_star row !! k = None.
Proof.
  unfold derived_fields. intros Hk.
  repeat (apply elem_of_cons in Hk as [->|Hk]; [reflexivity|]).
  by apply elem_of_nil in Hk.
Qed.

(** The columns of the row are returned whatever the payloads are, and the
    derived fields are as follows. *)
Lemma getNodeInfo_fields db nodeType row :
  select_by_type (nodes db) (replace nodeType "n8n-nodes-base." "nodes-base.") = Some row →
  ∃ result,
    getNodeInfo db nodeType =
    (Some result,
     failure_log (properties_schema row) "properties_schema" nodeType
     ++ failure_log (operations row) "operations" nodeType
     ++ failure_log (credentials_required row) "credentials" nodeType)
    ∧ (∀ k, k ∉ derived_fields → result !! k = select_star row !! k)
    ∧ result !! "properties" = parsed (properties_schema row)
    ∧ result !! "operations_list" = parsed (operations row)
    ∧ result !! "credentials" = parsed (credentials_required row)
    ∧ result !! "versions" =
      (s ← payload (version row);
       Some (JArr match JSON_parse s with
                  | Some (JArr l) => l
                  | _ => [JNum (parseFloat s)]
                  end))
    ∧ result !! "latest_version" =
      (s ← payload (version row);
       head match JSON_parse s with
            | Some (JArr l) => l
            | _ => [JNum (parseFloat s)]
            end).
Proof.
  intros Hrow. rewrite (getNodeInfo_found _ _ _ Hrow). eexists. split; [reflexivity|].
  rewrite parse_version_spec. cbn [fst].
  pose proof lookup_with_parsed_ne as Hne. pose proof lookup_with_parsed_eq as Heq.
  set (cols := with_parsed "credentials" _ _).
  assert (∀ k, k ≠ "credentials" → k ≠ "operations_list" → k ≠ "properties" →
               cols !! k = select_star row !! k) as Hcols.
  { intros k H1 H2 H3. unfold cols. by rewrite !Hne. }
  assert (cols !! "properties" = parsed (properties_schema row)
          ∧ cols !! "operations_list" = parsed (operations row)
          ∧ cols !! "credentials" = parsed (credentials_required row)) as (Hp & Ho & Hc).
  { unfold cols. split; [|split].
    - rewrite !Hne by done. by apply Heq.
    - rewrite Hne by done. apply Heq. by rewrite Hne.
    - apply Heq. by rewrite !Hne. }
  assert (∀ k, k ∉ derived_fields →
               k ≠ "properties" ∧ k ≠ "operations_list" ∧ k ≠ "credentials"
               ∧ k ≠ "versions" ∧ k ≠ "latest_version") as Hnd.
  { intros k Hk. repeat split; intros ->; apply Hk; unfold derived_fields;
      repeat first [apply list_elem_of_here | apply list_elem_of_further]. }
  destruct (payload (version row)) as [s|]; simpl.
  - set (versions := match JSON_parse s with Some (JArr l) => l | _ => _ end).
    split; [|split; [|split; [|split; [|split]]]].
    + intros k (? & ? & ? & ? & ?)%Hnd.
      by rewrite lookup_set_field_ne, lookup_insert_ne, Hcols.
    + by rewrite lookup_set_field_ne, lookup_insert_ne.
    + by rewrite lookup_set_field_ne, lookup_insert_ne.
    + by rewrite lookup_set_field_ne, lookup_insert_ne.
    + by rewrite lookup_set_field_ne, lookup_insert_eq.
    + by rewrite lookup_set_field_eq.
  - split; [|split; [|split; [|split; [|split]]]]; try done.
    + intros k (? & ? & ? & ? & ?)%Hnd. by rewrite Hcols.
    + by rewrite Hcols.
    + by rewrite Hcols.
Qed.

(** What [search_where] decides for the example rows. *)
Lemma chars_not_in (c : ascii) (pre mid post l : list ascii) :
  l = pre ++ mid ++ post → c ∈ mid → c ∈ l.
Proof. intros -> H. rewrite !elem_of_app. auto. Qed.

(** C4 at concrete inputs: ["SLACK"] finds the row whose display name is
    ["Slack"] and returns its eight columns, and ["zzz-nonexistent"] finds
    nothing. *)
Lemma search_substring_witness :
  (∃ results log,
     searchNodes example_db "SLACK" (Fin 1 1) = Some (results, log)
     ∧ Forall2 search_result_of [slack_row] results)
  ∧ searchNodes example_db "SLACK" (Fin 1 1)
    = Some ([list_to_map [("node_type", JStr "nodes-base.slack");
                          ("package_name", JStr "n8n-nodes-base");
                          ("display_name", JStr "Slack");
                          ("description", JStr "");
                          ("category", JStr "misc");
                          ("is_ai_tool", JNum (Fin 0 0));
                          ("is_trigger", JNum (Fin 0 0));
                          ("is_webhook", JNum (Fin 0 0))]],
            [(Info, "Found 1 nodes matching " +:+ String quote_char "SLACK"
                      +:+ String quote_char
                            " (minimal info, use get_node_info for full details)")])
  ∧ ∃ log, searchNodes example_db "zzz-nonexistent" (Fin 1 1) = Some ([], log).
Proof.
  assert (limit_value (Fin 1 1) = Some 10) as Hlimit by reflexivity.
  split; [|split; [reflexivity|]].
  - destruct (search_substring example_db "SLACK" (Fin 1 1) 10 eq_refl eq_refl
                ltac:(by vm_compute) Hlimit ltac:(lia))
      as (_ & results & log & Hsearch & Hresults & _).
    exists results, log. split; [exact Hsearch | exact Hresults].
  - destruct (search_substring example_db "zzz-nonexistent" (Fin 1 1) 10 eq_refl eq_refl
                ltac:(by vm_compute) Hlimit ltac:(lia))
      as (_ & results & log & Hsearch & Hresults & _).
    exists log. rewrite Hsearch. apply Forall2_nil_inv_l in Hresults. by rewrite Hresults.
Defined.

(** C4 as stated fails: the keyword ["_"] selects a row that does not
    contain an underscore in any of the four columns; with the limit [-1]
    the search returns two results; with the limit [2.5] it throws, also
    for a keyword that matches nothing; and it throws for a keyword of 49999
    letters. *)
Lemma search_counterexample :
  (∃ results log,
     searchNodes example_db "_" (Fin 1 0) = Some (results, log)
     ∧ Forall2 search_result_of [slack_row] results
     ∧ ¬ row_matches "_" slack_row)
  ∧ (∃ results log, searchNodes example_db "l" (Fin (-1) 0) = Some (results, log)
                    ∧ length results = 2%nat)
  ∧ searchNodes example_db "zzz-nonexistent" (Fin 25 (-1)) = None
  ∧ searchNodes example_db long_keyword (Fin 1 1) = None.
Proof.
  split; [|split; [|split]].
  - do 2 eexists. split; [reflexivity|].
    split; [repeat constructor; apply search_projection_columns|].
    assert (∀ s, "_"%char ∉ sqlite_lower <$> chars_of (like_text s) → ¬ ci_substring "_" (like_text s))
      as Hno.
    { intros s Hs (pre & post & H). apply Hs.
      eapply chars_not_in; [exact H | apply list_elem_of_here]. }
    intros [H | [H | [H | H]]]; destruct H as (s & [= <-] & Hs); revert Hs; apply Hno;
      vm_compute; intros Hin; apply list_elem_of_In in Hin; simpl in Hin;
      repeat (destruct Hin as [Hin | Hin]; [discriminate Hin|]); exact Hin.
  - do 2 eexists. split; reflexivity.
  - reflexivity.
  - vm_compute. reflexivity.
Qed.

(** C5.  No object returned by [searchNodes] has a [documentation],
    [properties_schema], [operations] or [credentials_required] field,
    whereas [getNodeInfo] returns these columns of the row it finds (a
    column that is not NULL as the string stored in it). *)
Theorem search_excludes_payloads (db : Database) (keyword nodeType : string) (limit : jsnum) :
  (∀ results log, searchNodes db keyword limit = Some (results, log) →
     ∀ obj, obj ∈ results →
       obj !! "documentation" = None ∧ obj !! "properties_schema" = None
       ∧ obj !! "operations" = None ∧ obj !! "credentials_required" = None)
  ∧ (∀ row,
       select_by_type (nodes db) (replace nodeType "n8n-nodes-base." "nodes-base.") = Some row →
       ∃ result,
         (getNodeInfo db nodeType).1 = Some result
         ∧ result !! "documentation" = Some (sql_text (documentation row))
         ∧ result !! "properties_schema" = Some (sql_text (properties_schema row))
         ∧ result !! "credentials_required" = Some (sql_text (credentials_required row))
         ∧ (∀ s, documentation row = Some s → result !! "documentation" = Some (JStr s))
         ∧ (∀ s, properties_schema row = Some s → result !! "properties_schema" = Some (JStr s))
         ∧ (∀ s, credentials_required row = Some s →
                 result !! "credentials_required" = Some (JStr s))).
Proof.
  split.
  - intros results log Hsearch obj Hobj. unfold searchNodes in Hsearch.
    destruct (limit_value limit) as [n|]; [|done]. cbn [mbind option_bind] in Hsearch.
    destruct (search_rows db keyword n) as [rows|]; [|done].
    cbn [mbind option_bind] in Hsearch. injection Hsearch as <- _.
    apply list_elem_of_fmap in Hobj as (r & -> & _).
    by repeat split.
  - intros row Hrow. destruct (getNodeInfo_fields _ _ _ Hrow) as (result & Hget & Hcols & _).
    exists result. rewrite Hget.
    assert (∀ k, k ∈ ["documentation"; "properties_schema"; "credentials_required"] →
                 k ∉ derived_fields) as Hk.
    { intros k Hk Hd. unfold derived_fields in Hd.
      repeat (apply elem_of_cons in Hk as [->|Hk];
              [repeat (apply elem_of_cons in Hd as [Hd|Hd]; [discriminate Hd|]);
               by apply elem_of_nil in Hd|]).
      by apply elem_of_nil in Hk. }
    assert (result !! "documentation" = Some (sql_text (documentation row))) as Hd.
    { rewrite Hcols; [done | apply Hk; repeat constructor]. }
    assert (result !! "properties_schema" = Some (sql_text (properties_schema row))) as Hp.
    { rewrite Hcols; [done | apply Hk; repeat constructor]. }
    assert (result !! "credentials_required" = Some (sql_text (credentials_required row))) as Hc.
    { rewrite Hcols; [done | apply Hk; repeat constructor]. }
    split; [done|]. split; [done|]. split; [done|]. split; [done|].
    split; [|split]; intros s Hs; [rewrite Hd | rewrite Hp | rewrite Hc]; by rewrite Hs.
Qed.

(** C5 at a concrete input: the search for ["slack"] returns an object
    without the documentation of the example row, and the lookup of the row
    returns it. *)
Lemma search_excludes_payloads_witness :
  (∃ obj log, searchNodes example_db "slack" (Fin 1 1) = Some ([obj], log)
              ∧ obj !! "documentation" = None)
  ∧ ∃ result,
      (getNodeInfo example_db "n8n-nodes-base.slack").1 = Some result
      ∧ result !! "documentation" = Some (JStr "How to use it").
Proof.
  destruct (search_excludes_payloads example_db "slack" "n8n-nodes-base.slack" (Fin 1 1))
    as [Hsearch H].
  split.
  - do 2 eexists. split; [reflexivity|].
    refine (proj1 (Hsearch _ _ eq_refl _ _)). apply list_elem_of_here.
  - destruct (H slack_row eq_refl) as (result & Hget & _ & _ & _ & Hdoc & _).
    exists result. split; [exact Hget | exact (Hdoc _ eq_refl)].
Defined.

(** C8 (as amended).  When [getNodeInfo] finds the row it does not throw
    and returns every column of the row.  An unparseable (non-empty)
    [properties_schema], [operations] or [credentials_required] is logged as
    one error and its derived field ([properties], [operations_list],
    [credentials]) is left out.  An unparseable [version] is not logged and
    its derived fields are not left out: [versions] is the one-element list
    of [parseFloat(version)] and [latest_version] is that number. *)
Theorem lookup_parse_failures (db : Database) (nodeType : string) (row : NodeRow) :
  select_by_type (nodes db) (replace nodeType "n8n-nodes-base." "nodes-base.") = Some row →
  ∃ result,
    getNodeInfo db nodeType =
    (Some result,
     failure_log (properties_schema row) "properties_schema" nodeType
     ++ failure_log (operations row) "operations" nodeType
     ++ failure_log (credentials_required row) "credentials" nodeType)
    ∧ (∀ k, k ∉ derived_fields → result !! k = select_star row !! k)
    ∧ (∀ column what,
         unparseable column →
         parsed column = None
         ∧ failure_log column what nodeType
           = [(Error, "Failed to parse " +:+ what +:+ " for " +:+ nodeType)])
    ∧ result !! "properties" = parsed (properties_schema row)
    ∧ result !! "operations_list" = parsed (operations row)
    ∧ result !! "credentials" = parsed (credentials_required row)
    ∧ (∀ s, payload (version row) = Some s → JSON_parse s = None →
            result !! "versions" = Some (JArr [JNum (parseFloat s)])
            ∧ result !! "latest_version" = Some (JNum (parseFloat s))).
Proof.
  intros Hrow.
  destruct (getNodeInfo_fields _ _ _ Hrow) as (result & Hget & Hcols & Hp & Ho & Hc & Hv & Hl).
  exists result. split; [done|]. split; [done|]. split.
  { intros column what (s & Hs & Hparse). unfold parsed, failure_log.
    rewrite Hs. simpl. by rewrite Hparse. }
  split; [done|]. split; [done|]. split; [done|].
  intros s Hs Hparse. rewrite Hv, Hl, Hs. simpl. by rewrite Hparse.
Qed.

(** C8 at a concrete input: the schema ["[{"] of the example row is logged
    and [properties] is left out, the other columns being returned. *)
Lemma lookup_parse_failures_witness :
  ∃ result,
    getNodeInfo example_db "nodes-base.slack" =
    (Some result, [(Error, "Failed to parse properties_schema for nodes-base.slack")])
    ∧ result !! "properties" = None
    ∧ result !! "display_name" = Some (JStr "Slack").
Proof.
  destruct (lookup_parse_failures example_db "nodes-base.slack" slack_row eq_refl)
    as (result & Hget & Hcols & _ & Hp & _).
  exists result. split; [exact Hget|]. split; [exact Hp|].
  rewrite Hcols; [reflexivity|].
  unfold derived_fields. intros Hd.
  repeat (apply elem_of_cons in Hd as [Hd|Hd]; [discriminate Hd|]).
  by apply elem_of_nil in Hd.
Defined.

(** C8 as stated fails for the version: the payload ["abc"] is not JSON,
    yet nothing is logged and the derived fields are present. *)
Lemma lookup_version_counterexample :
  JSON_parse "abc" = None
  ∧ ∃ result,
      getNodeInfo example_db "nodes-base.gmail" = (Some result, [])
      ∧ result !! "versions" = Some (JArr [JNum NaN])
      ∧ result !! "latest_version" = Some (JNum NaN).
Proof.
  split; [reflexivity|].
  destruct (getNodeInfo_fields example_db "nodes-base.gmail" gmail_row eq_refl)
    as (result & Hget & _ & _ & _ & _ & Hv & Hl).
  exists result. split; [exact Hget|]. by rewrite Hv, Hl.
Qed.

(** ** Decimal digits *)

Lemma digit_char_spec d :
  0 ≤ d ≤ 9 → is_digit (digit_char d) = true ∧ digit_val (digit_char d) = d.
Proof.
  intros Hd.
  assert (d = 0 ∨ d = 1 ∨ d = 2 ∨ d = 3 ∨ d = 4 ∨ d = 5 ∨ d = 6 ∨ d = 7 ∨ d = 8 ∨ d = 9)
    as Hcases by lia.
  repeat (destruct Hcases as [-> | Hcases]; [by vm_compute|]). by subst.
Qed.

Lemma digit_char_zero d : 0 < d ≤ 9 → Ascii.eqb (digit_char d) "0" = false.
Proof.
  intros Hd.
  assert (d = 1 ∨ d = 2 ∨ d = 3 ∨ d = 4 ∨ d = 5 ∨ d = 6 ∨ d = 7 ∨ d = 8 ∨ d = 9)
    as Hcases by lia.
  repeat (destruct Hcases as [-> | Hcases]; [by vm_compute|]). by subst.
Qed.

Lemma digits_val_from_cons a c r :
  digits_val_from a (c :: r) = digits_val_from (a * 10 + digit_val c) r.
Proof. done. Qed.

Lemma digits_val_from_nil a : digits_val_from a [] = a.
Proof. done. Qed.

Lemma digits_val_from_app a x y :
  digits_val_from a (x ++ y) = digits_val_from (digits_val_from a x) y.
Proof. unfold digits_val_from. by rewrite fold_left_app. Qed.

Lemma digits_val_from_zeros a k : 0 ≤ k → digits_val_from a (zeros k) = a * 10 ^ k.
Proof.
  intros Hk. unfold zeros. rewrite <- (Z2Nat.id k) at 2 by done.
  generalize (Z.to_nat k) as n. clear. intros n. revert a.
  induction n as [|n IH]; intros a.
  - simpl. lia.
  - cbn [repeat]. rewrite digits_val_from_cons, IH. change (digit_val "0") with 0. rewrite Nat2Z.inj_succ, Z.pow_succ_r by lia. lia.
Qed.

Lemma digits_of_single n : 0 ≤ n ≤ 9 → digits_of n [digit_char n].
Proof.
  intros Hn. destruct (digit_char_spec n Hn) as [Hd Hv]. split; [|split; [|split]].
  - cbn [forallb]. by rewrite Hd.
  - intros a. rewrite digits_val_from_cons, digits_val_from_nil, Hv.
    cbn [length]. change (10 ^ Z.of_nat 1) with 10. lia.
  - cbn [length]. lia.
  - intros Hpos. exists (digit_char n), []. split; [done|]. apply digit_char_zero. lia.
Qed.

Lemma digits_of_snoc q r ds :
  0 < q → 0 ≤ r ≤ 9 → digits_of q ds → digits_of (q * 10 + r) (ds ++ [digit_char r]).
Proof.
  intros Hq Hr (Hds & Hval & Hlen & Hhd). destruct (digit_char_spec r Hr) as [Hd Hv].
  split; [|split; [|split]].
  - rewrite forallb_app, Hds. cbn [forallb]. by rewrite Hd.
  - intros a. rewrite digits_val_from_app, Hval, digits_val_from_cons, digits_val_from_nil, Hv.
    rewrite length_app. cbn [length]. rewrite Nat2Z.inj_add, Z.pow_add_r by lia.
    change (10 ^ Z.of_nat 1) with 10. lia.
  - rewrite length_app. cbn [length]. lia.
  - intros _. destruct (Hhd Hq) as (d & r' & -> & Hd0). by exists d, (r' ++ [digit_char r]).
Qed.

(** What [digits_aux] puts in front of its accumulator. *)
Lemma digits_aux_spec f n acc :
  0 ≤ n < 2 ^ Z.of_nat (S f) →
  ∃ ds, digits_aux (S f) n acc = ds ++ acc ∧ digits_of n ds.
Proof.
  revert n acc. induction f as [|f IH]; intros n acc Hn.
  - assert (n / 10 = 0) as Hq by (apply Z.div_small; simpl in Hn; lia).
    assert (n mod 10 = n) as Hr by (apply Z.mod_small; simpl in Hn; lia).
    exists [digit_char n]. split; [|apply digits_of_single; simpl in Hn; lia].
    cbn [digits_aux]. rewrite Hq, Hr. done.
  - assert (0 ≤ n mod 10 ≤ 9) as Hmod by (pose proof (Z.mod_pos_bound n 10); lia).
    change (digits_aux (S (S f)) n acc) with
      (if n / 10 =? 0 then digit_char (n mod 10) :: acc
       else digits_aux (S f) (n / 10) (digit_char (n mod 10) :: acc)).
    destruct (n / 10 =? 0) eqn:Hq.
    + apply Z.eqb_eq in Hq.
      assert (n mod 10 = n) as Hr by (pose proof (Z.div_mod n 10); lia).
      rewrite Hr. exists [digit_char n]. split; [done|]. apply digits_of_single. lia.
    + apply Z.eqb_neq in Hq.
      assert (0 < n / 10 < 2 ^ Z.of_nat (S f)) as Hn'.
      { assert (0 ≤ n / 10) by (apply Z.div_pos; lia).
        split; [lia|]. apply Z.div_lt_upper_bound; [lia|].
        rewrite Nat2Z.inj_succ, Z.pow_succ_r in Hn by lia. lia. }
      destruct (IH (n / 10) (digit_char (n mod 10) :: acc)) as (ds & Heq & Hds); [lia|].
      exists (ds ++ [digit_char (n mod 10)]). rewrite Heq, <- app_assoc. split; [done|].
      replace n with (n / 10 * 10 + n mod 10) at 1 by (pose proof (Z.div_mod n 10); lia).
      apply digits_of_snoc; [lia | done | done].
Qed.

Lemma digits_spec n : 0 ≤ n → digits_of n (digits n).
Proof.
  intros Hn. unfold digits.
  destruct (digits_aux_spec (Z.to_nat (Z.log2 n)) n []) as (ds & Heq & H).
  - split; [done|]. rewrite Nat2Z.inj_succ, Z2Nat.id by apply Z.log2_nonneg.
    destruct (decide (n = 0)) as [->|]; [done|]. apply Z.log2_spec. lia.
  - rewrite Heq, app_nil_r. exact H.
Qed.

(** ** Shortest representations *)

Lemma strip10_pow j : ∀ fuel m e,
  m mod 10 ≠ 0 → (j < fuel)%nat → strip10 fuel (m * 10 ^ Z.of_nat j) e = (m, e + Z.of_nat j).
Proof.
  induction j as [|j IH]; intros [|fuel] m e Hm Hfuel; try lia.
  - simpl. rewrite Z.mul_1_r. apply Z.eqb_neq in Hm. rewrite Hm. f_equal. lia.
  - rewrite Nat2Z.inj_succ, Z.pow_succ_r by lia.
    replace (m * (10 * 10 ^ Z.of_nat j)) with (m * 10 ^ Z.of_nat j * 10) by lia.
    simpl. rewrite Z.mod_mul by done. simpl. rewrite Z.div_mul by done.
    rewrite IH by (done || lia). f_equal. lia.
Qed.

Lemma normalise_pow m e j :
  m mod 10 ≠ 0 → 0 ≤ j → normalise (m * 10 ^ j) e = Fin m (e + j).
Proof.
  intros Hm Hj. unfold normalise.
  assert (m ≠ 0) as Hm0 by (intros ->; done).
  assert (0 < 10 ^ j) by (apply Z.pow_pos_nonneg; lia).
  destruct (m * 10 ^ j =? 0) eqn:Hz; [apply Z.eqb_eq in Hz; lia|].
  rewrite <- (Z2Nat.id j) by done.
  rewrite strip10_pow; [by rewrite Z2Nat.id | done |].
  rewrite Z2Nat.id by done.
  assert (j ≤ Z.log2 (Z.abs (m * 10 ^ j))).
  { rewrite <- (Z.log2_pow2 j) at 1 by done. apply Z.log2_le_mono.
    rewrite Z.abs_mul. rewrite (Z.abs_eq (10 ^ j)) by lia.
    assert (2 ^ j ≤ 10 ^ j) by (apply Z.pow_le_mono_l; lia). nia. }
  lia.
Qed.

Lemma normalise_canonical m e : canonical (Fin m e) = true → normalise m e = Fin m e.
Proof.
  unfold canonical. destruct (m =? 0) eqn:Hm.
  - apply Z.eqb_eq in Hm. intros He%Z.eqb_eq. subst. done.
  - intros Hc%negb_true_iff%Z.eqb_neq.
    replace m with (m * 10 ^ 0) at 1 by lia. rewrite normalise_pow by (done || lia).
    f_equal. lia.
Qed.

(** ** Parsing a printed number *)

Lemma number_end_digit rest :
  number_end rest → match rest with c :: _ => is_digit c = false | [] => True end.
Proof. destruct rest; [done | by intros [? _]]. Qed.

Lemma scan_exponent_end rest : number_end rest → scan_exponent rest = (0, rest).
Proof.
  destruct rest as [|c rest]; [done|]. intros (_ & _ & He & HE).
  unfold scan_exponent. by rewrite He, HE.
Qed.

Lemma number_tail_end rest : number_end rest → number_tail rest 0 rest.
Proof.
  intros Hend. split; [|split; [by apply scan_exponent_end | by left]].
  destruct rest as [|c rest]; [done|]. by destruct Hend as (? & ? & _).
Qed.

(** The exponent part that [Number::toString] prints. *)
Lemma number_tail_exponent x rest :
  number_end rest →
  number_tail ("e"%char :: (if x <? 0 then "-"%char else "+"%char) :: digits (Z.abs x) ++ rest)
              x rest.
Proof.
  intros Hend. destruct (digits_spec (Z.abs x)) as (Hds & Hval & Hlen & _); [lia|].
  assert (digits_val (digits (Z.abs x)) = Z.abs x) as Hv.
  { unfold digits_val. rewrite Hval. lia. }
  split; [done|]. split.
  - unfold scan_exponent. change (Ascii.eqb "e" "e") with true. cbn [orb].
    destruct (x <? 0) eqn:Hx.
    + change (Ascii.eqb "-" "-") with true. cbv iota.
      rewrite (span_while_app _ _ _ Hds (number_end_digit _ Hend)).
      destruct (digits (Z.abs x)) as [|d r] eqn:Hd; [simpl in Hlen; lia|].
      rewrite Hv. f_equal. apply Z.ltb_lt in Hx. lia.
    + change (Ascii.eqb "+" "-") with false. change (Ascii.eqb "+" "+") with true. cbv iota.
      rewrite (span_while_app _ _ _ Hds (number_end_digit _ Hend)).
      destruct (digits (Z.abs x)) as [|d r] eqn:Hd; [simpl in Hlen; lia|].
      rewrite Hv. f_equal. apply Z.ltb_ge in Hx. lia.
  - right. split; [|eauto]. intros Heq. apply (f_equal length) in Heq.
    cbn [length] in Heq. rewrite length_app in Heq. lia.
Qed.

Lemma parse_unsigned_tail (neg : bool) ds1 ds2 tail ex rest :
  number_tail tail ex rest →
  (r3 ← match tail with
        | c :: _ =>
            if Ascii.eqb c "e" || Ascii.eqb c "E" then
              let '(_, r3) := scan_exponent tail in
              if bool_decide (r3 = tail) then None else Some r3
            else Some tail
        | [] => Some tail
        end;
   Some (normalise (if neg then - digits_val (ds1 ++ ds2) else digits_val (ds1 ++ ds2))
                   ((scan_exponent tail).1 - Z.of_nat (length ds2)), r3))
  = Some (normalise (if neg : bool then - digits_val (ds1 ++ ds2) else digits_val (ds1 ++ ds2))
                    (ex - Z.of_nat (length ds2)), rest).
Proof.
  intros (_ & Hscan & [Hend | (Hne & r & ->)]).
  - rewrite (scan_exponent_end _ Hend) in Hscan. simplify_eq.
    rewrite (scan_exponent_end _ Hend).
    destruct rest as [|c rest]; [done|]. destruct Hend as (_ & _ & He & HE).
    by rewrite He, HE.
  - change (Ascii.eqb "e" "e") with true. cbn [orb]. rewrite Hscan.
    by rewrite bool_decide_eq_false_2.
Qed.

Lemma leading_zero_check d r :
  no_leading_zero (d :: r) → Ascii.eqb d "0" && negb (bool_decide (r = [])) = false.
Proof.
  intros [-> | ->]; [done|]. rewrite bool_decide_eq_true_2 by done. apply andb_false_r.
Qed.

Lemma parse_unsigned_int (neg : bool) ds1 tail ex rest :
  forallb is_digit ds1 = true → no_leading_zero ds1 → number_tail tail ex rest →
  parse_unsigned neg (ds1 ++ tail)
  = Some (normalise (if neg then - digits_val ds1 else digits_val ds1) ex, rest).
Proof.
  intros Hds Hlz Htail. unfold parse_unsigned.
  assert (match tail with c :: _ => is_digit c = false | [] => True end) as Hdigit.
  { destruct Htail as [H _]. destruct tail; [done | by destruct H]. }
  rewrite (span_while_app _ _ _ Hds Hdigit).
  destruct ds1 as [|d r]; [done|]. rewrite (leading_zero_check _ _ Hlz).
  assert (match tail with
          | c :: r0 =>
              if Ascii.eqb c "." then
                let '(ds2, r2) := span_while is_digit r0 in
                match ds2 with [] => None | _ => Some (ds2, r2) end
              else Some ([], tail)
          | [] => Some ([], tail)
          end = Some ([], tail)) as ->.
  { destruct Htail as [H _]. destruct tail as [|c tail]; [done|]. by destruct H as [_ ->]. }
  cbn [mbind option_bind]. rewrite (parse_unsigned_tail neg (d :: r) [] tail ex rest Htail).
  rewrite app_nil_r. cbn [length]. by rewrite Z.sub_0_r.
Qed.

Lemma parse_unsigned_frac (neg : bool) ds1 ds2 tail ex rest :
  forallb is_digit ds1 = true → no_leading_zero ds1 →
  forallb is_digit ds2 = true → (0 < length ds2)%nat → number_tail tail ex rest →
  parse_unsigned neg (ds1 ++ "."%char :: ds2 ++ tail)
  = Some (normalise (if neg then - digits_val (ds1 ++ ds2) else digits_val (ds1 ++ ds2))
                    (ex - Z.of_nat (length ds2)), rest).
Proof.
  intros Hds1 Hlz Hds2 Hlen Htail. unfold parse_unsigned.
  assert (match tail with c :: _ => is_digit c = false | [] => True end) as Hdigit.
  { destruct Htail as [H _]. destruct tail; [done | by destruct H]. }
  rewrite (span_while_app _ ds1 ("."%char :: ds2 ++ tail) Hds1) by done.
  destruct ds1 as [|d r]; [done|]. rewrite (leading_zero_check _ _ Hlz).
  change (Ascii.eqb "." ".") with true. cbv iota.
  rewrite (span_while_app _ _ _ Hds2 Hdigit).
  destruct ds2 as [|d2 r2]; [simpl in Hlen; lia|].
  cbn [mbind option_bind].
  by rewrite (parse_unsigned_tail neg (d :: r) (d2 :: r2) tail ex rest Htail).
Qed.

Lemma mod10_opp m : m mod 10 ≠ 0 → (- m) mod 10 ≠ 0.
Proof.
  intros Hm Hopp. apply Hm. apply Z.mod_opp_l_z in Hopp; [|done].
  by rewrite Z.opp_involutive in Hopp.
Qed.

Lemma normalise_signed (neg : bool) M e j :
  M mod 10 ≠ 0 → 0 ≤ j →
  normalise (if neg then - (M * 10 ^ j) else M * 10 ^ j) e
  = Fin (if neg then - M else M) (e + j).
Proof.
  intros HM Hj. destruct neg.
  - rewrite <- Z.mul_opp_l. apply normalise_pow; [by apply mod10_opp | done].
  - by apply normalise_pow.
Qed.

Lemma normalise_signed0 (neg : bool) M e :
  M mod 10 ≠ 0 → normalise (if neg then - M else M) e = Fin (if neg then - M else M) e.
Proof.
  intros HM. pose proof (normalise_signed neg M e 0 HM ltac:(done)) as H.
  rewrite Z.pow_0_r, Z.mul_1_r, Z.add_0_r in H. exact H.
Qed.

Lemma forallb_zeros k : forallb is_digit (zeros k) = true.
Proof. unfold zeros. induction (Z.to_nat k) as [|n IH]; [done|]. simpl. by rewrite IH. Qed.

Lemma length_zeros k : 0 ≤ k → Z.of_nat (length (zeros k)) = k.
Proof. intros Hk. unfold zeros. rewrite repeat_length. lia. Qed.

Lemma forallb_take_drop {A} (p : A → bool) n l :
  forallb p l = true → forallb p (take n l) = true ∧ forallb p (drop n l) = true.
Proof.
  intros H. rewrite <- (take_drop n l), forallb_app in H. by apply andb_true_iff in H.
Qed.

(** What [Number::toString] prints for [M * 10^e] is read back as that
    number, in each of its four notations. *)
Lemma plain_or_exp_spec (neg : bool) M e rest :
  0 < M → M mod 10 ≠ 0 → number_end rest →
  parse_unsigned neg (plain_or_exp (digits M) e ++ rest)
  = Some (Fin (if neg then - M else M) e, rest)
  ∧ ∃ c r, plain_or_exp (digits M) e = c :: r ∧ is_digit c = true.
Proof.
  intros HM Hmod Hend. pose proof (number_tail_end _ Hend) as Htail.
  destruct (digits_spec M) as (Hds & Hval & Hlen & Hhd); [lia|].
  destruct (Hhd HM) as (d & r & Heq & Hd0).
  assert (is_digit d = true ∧ forallb is_digit r = true) as [Hd Hr].
  { rewrite Heq in Hds. simpl in Hds. by apply andb_true_iff in Hds. }
  assert (digits_val (digits M) = M) as HvalM.
  { unfold digits_val. rewrite Hval. lia. }
  unfold plain_or_exp.
  set (ds := digits M) in *. set (k := Z.of_nat (length ds)) in *.
  destruct ((k <=? k + e) && (k + e <=? 21)) eqn:Ha.
  { apply andb_true_iff in Ha as [Hke%Z.leb_le _].
    replace (k + e - k) with e by lia. split.
    - rewrite <- app_assoc.
      replace (ds ++ zeros e ++ rest) with ((ds ++ zeros e) ++ rest) by by rewrite app_assoc.
      assert (forallb is_digit (ds ++ zeros e) = true) as H1
        by by rewrite forallb_app, Hds, forallb_zeros.
      assert (no_leading_zero (ds ++ zeros e)) as H2 by (rewrite Heq; by left).
      rewrite (parse_unsigned_int neg _ _ _ _ H1 H2 Htail).
      unfold digits_val. rewrite digits_val_from_app, digits_val_from_zeros by lia.
      fold (digits_val ds). rewrite HvalM.
      rewrite normalise_signed by (done || lia). repeat (f_equal; try lia).
    - exists d, (r ++ zeros e). by rewrite Heq. }
  destruct ((0 <? k + e) && (k + e <=? 21)) eqn:Hb.
  { apply andb_true_iff in Hb as [Hn%Z.ltb_lt Hmax%Z.leb_le].
    assert (k + e < k) as Hlt.
    { apply andb_false_iff in Ha as [?%Z.leb_gt | ?%Z.leb_gt]; lia. }
    destruct (forallb_take_drop is_digit (Z.to_nat (k + e)) ds Hds) as [Ht Hdr].
    assert (∃ t, take (Z.to_nat (k + e)) ds = d :: t) as [t Htake].
    { rewrite Heq. destruct (Z.to_nat (k + e)) as [|n] eqn:Hn'; [lia|]. simpl. eauto. }
    split.
    - rewrite <- app_assoc. cbn [app].
      assert (no_leading_zero (take (Z.to_nat (k + e)) ds)) as H2 by (rewrite Htake; by left).
      assert (0 < length (drop (Z.to_nat (k + e)) ds))%nat as H3
        by (rewrite length_drop; unfold k in *; lia).
      rewrite (parse_unsigned_frac neg _ _ _ _ _ Ht H2 Hdr H3 Htail).
      rewrite take_drop, HvalM.
      rewrite normalise_signed0 by done. rewrite length_drop.
      repeat (f_equal; try (unfold k in *; lia)).
    - exists d, (t ++ "."%char :: drop (Z.to_nat (k + e)) ds). by rewrite Htake. }
  destruct ((-6 <? k + e) && (k + e <=? 0)) eqn:Hc.
  { apply andb_true_iff in Hc as [Hmin%Z.ltb_lt Hn%Z.leb_le]. split.
    - change (("0"%char :: "."%char :: zeros (- (k + e)) ++ ds) ++ rest)
        with (["0"%char] ++ "."%char :: (zeros (- (k + e)) ++ ds) ++ rest).
      assert (forallb is_digit (zeros (- (k + e)) ++ ds) = true) as H1
        by by rewrite forallb_app, forallb_zeros, Hds.
      assert (0 < length (zeros (- (k + e)) ++ ds))%nat as H3 by (rewrite length_app; lia).
      rewrite (parse_unsigned_frac neg ["0"%char] _ _ _ _ eq_refl (or_intror eq_refl) H1 H3 Htail).
      unfold digits_val. cbn [app]. rewrite digits_val_from_cons.
      change (0 * 10 + digit_val "0") with 0.
      rewrite digits_val_from_app, digits_val_from_zeros by lia.
      rewrite Z.mul_0_l. fold (digits_val ds). rewrite HvalM.
      rewrite normalise_signed0 by done.
      rewrite length_app, Nat2Z.inj_add, length_zeros by lia.
      repeat (f_equal; try (unfold k in *; lia)).
    - by exists "0"%char, ("."%char :: zeros (- (k + e)) ++ ds). }
  pose proof (number_tail_exponent (k + e - 1) rest Hend) as Hexp.
  assert (k = Z.of_nat (length (d :: r))) as Hk by (unfold k; by rewrite Heq).
  rewrite Heq. rewrite Heq in HvalM. clearbody k.
  assert (forallb is_digit [d] = true) as H1 by (cbn [forallb]; by rewrite Hd).
  destruct r as [|d' r'].
  - split; [|by exists d, ("e"%char :: (if k + e - 1 <? 0 then "-"%char else "+"%char)
                                 :: digits (Z.abs (k + e - 1)))].
    change ((d :: "e"%char :: (if k + e - 1 <? 0 then "-"%char else "+"%char)
               :: digits (Z.abs (k + e - 1))) ++ rest)
      with ([d] ++ "e"%char :: (if k + e - 1 <? 0 then "-"%char else "+"%char)
               :: digits (Z.abs (k + e - 1)) ++ rest).
    rewrite (parse_unsigned_int neg [d] _ _ _ H1 (or_intror eq_refl) Hexp).
    rewrite HvalM, normalise_signed0 by done.
    repeat (f_equal; try (cbn [length] in Hk; lia)).
  - split; [|by eexists d, _].
    replace ((d :: "."%char :: (d' :: r') ++ "e"%char
                :: (if k + e - 1 <? 0 then "-"%char else "+"%char)
                :: digits (Z.abs (k + e - 1))) ++ rest)
      with ([d] ++ "."%char :: (d' :: r') ++ "e"%char
                :: (if k + e - 1 <? 0 then "-"%char else "+"%char)
                :: digits (Z.abs (k + e - 1)) ++ rest)
      by (cbn [app]; by rewrite <- app_assoc).
    assert (0 < length (d' :: r'))%nat as H3 by (cbn [length]; lia).
    rewrite (parse_unsigned_frac neg [d] (d' :: r') _ _ _ H1 (or_intror eq_refl) Hr H3 Hexp).
    cbn [app]. rewrite HvalM, normalise_signed0 by done.
    repeat (f_equal; try (cbn [length] in *; lia)).
Qed.

Lemma parse_unsigned_number cs v : parse_unsigned false cs = Some v → parse_number cs = Some v.
Proof.
  destruct cs as [|c cs]; [done|]. unfold parse_number.
  destruct (Ascii.eqb c "-") eqn:Hc; [|done].
  apply ascii_eqb_eq in Hc. by subst.
Qed.

Lemma finite_number_inv x :
  finite_number x = true →
  ∃ m e, x = Fin m e ∧ normalise m e = Fin m e ∧ (m = 0 ∧ e = 0 ∨ m ≠ 0 ∧ m mod 10 ≠ 0).
Proof.
  destruct x as [| |m e]; try done. unfold finite_number. cbn [is_finite andb].
  intros Hc. exists m, e. split; [done|].
  split; [by apply normalise_canonical|]. unfold canonical in Hc.
  destruct (m =? 0) eqn:Hm.
  - left. apply Z.eqb_eq in Hm. apply Z.eqb_eq in Hc. done.
  - right. apply Z.eqb_neq in Hm. apply negb_true_iff, Z.eqb_neq in Hc. done.
Qed.

(** A printed number is read back, and starts with a minus sign or a digit. *)
Lemma parse_number_printed x rest :
  finite_number x = true → number_end rest →
  parse_number (number_chars x ++ rest) = Some (x, rest)
  ∧ ∃ c r, number_chars x = c :: r ∧ number_start c = true.
Proof.
  intros (m & e & -> & Hnorm & Hcases)%finite_number_inv Hend.
  unfold number_chars. rewrite Hnorm.
  destruct Hcases as [[-> ->] | (Hm & Hmod)].
  - change (0 =? 0) with true. cbv iota. split; [|by exists "0"%char, []].
    apply parse_unsigned_number.
    exact (parse_unsigned_int false ["0"%char] rest 0 rest eq_refl (or_intror eq_refl)
             (number_tail_end _ Hend)).
  - apply Z.eqb_neq in Hm as Hm'. rewrite Hm'.
    destruct (m <? 0) eqn:Hneg.
    + apply Z.ltb_lt in Hneg.
      destruct (plain_or_exp_spec true (Z.abs m) e rest) as [Hp _];
        [lia | by rewrite Z.abs_neq by lia; apply mod10_opp | done |].
      split; [|by exists "-"%char, (plain_or_exp (digits (Z.abs m)) e)].
      cbn [app]. unfold parse_number. change (Ascii.eqb "-" "-") with true. cbv iota.
      rewrite Hp. repeat (f_equal; try lia).
    + apply Z.ltb_ge in Hneg.
      destruct (plain_or_exp_spec false (Z.abs m) e rest) as [Hp (c & r & Hc & Hd)];
        [lia | by rewrite Z.abs_eq by lia | done |].
      split.
      * cbn [app]. apply parse_unsigned_number. rewrite Hp. repeat (f_equal; try lia).
      * exists c, r. split; [done|]. unfold number_start. rewrite Hd. apply orb_true_r.
Qed.

Lemma span_while_head p cs ds r :
  span_while p cs = (ds, r) →
  match ds with
  | d :: _ => ∃ t, cs = d :: t ∧ p d = true
  | [] => True
  end.
Proof.
  destruct cs as [|c t]; [by intros [= <- <-]|]. cbn [span_while].
  destruct (p c) eqn:Hc; [|by intros [= <- <-]].
  destruct (span_while p t). intros [= <- <-]. eauto.
Qed.

Lemma digit_not_I d : is_digit d = true → Ascii.eqb "I" d = false.
Proof. case_ascii d; vm_compute; done. Qed.

(** [parseFloat] reads a JSON number as [JSON.parse] does. *)
Lemma parse_unsigned_scan (neg : bool) r0 x r :
  parse_unsigned neg r0 = Some (x, r) →
  scan_decimal_literal ((if neg then ["-"%char] else []) ++ r0) = Some (x, r)
  ∧ ∃ d t, r0 = d :: t ∧ is_digit d = true.
Proof.
  unfold parse_unsigned. destruct (span_while is_digit r0) as [ds1 r1] eqn:Hspan.
  destruct ds1 as [|d ds1']; [done|].
  destruct (span_while_head _ _ _ _ Hspan) as (t & -> & Hd).
  destruct (Ascii.eqb d "0" && negb (bool_decide (ds1' = []))); [done|].
  intros H. split; [|eauto].
  assert (scan_decimal_literal ((if neg then ["-"%char] else []) ++ d :: t)
          = let '(ds2, r2) := match r1 with
                              | c :: r => if Ascii.eqb c "." then span_while is_digit r else ([], r1)
                              | [] => ([], r1)
                              end in
            match (d :: ds1') ++ ds2 with
            | [] => None
            | ds =>
                let '(ex, r3) := scan_exponent r2 in
                let m := digits_val ds in
                Some (normalise (if neg then - m else m) (ex - Z.of_nat (length ds2)), r3)
            end) as ->.
  { unfold scan_decimal_literal. destruct neg.
    - cbn [app]. change (Ascii.eqb "-" "-") with true. cbv iota.
      cbn [strip_prefix chars_of list_ascii_of_string]. rewrite (digit_not_I d Hd).
      by rewrite Hspan.
    - cbn [app].
      assert (Ascii.eqb d "-" = false) as -> by (revert Hd; case_ascii d; vm_compute; done).
      assert (Ascii.eqb d "+" = false) as -> by (revert Hd; case_ascii d; vm_compute; done).
      cbn [strip_prefix chars_of list_ascii_of_string]. rewrite (digit_not_I d Hd).
      by rewrite Hspan. }
  destruct r1 as [|c r1'].
  - cbn [mbind option_bind] in H. cbn [scan_exponent] in *. rewrite app_nil_r in *.
    cbn [app length fst] in *. done.
  - destruct (Ascii.eqb c ".") eqn:Hdot.
    + destruct (span_while is_digit r1') as [ds2 r2] eqn:Hspan2.
      destruct ds2 as [|d2 ds2']; [done|]. cbn [mbind option_bind] in H.
      destruct (scan_exponent r2) as [ex r3] eqn:Hexp. cbn [fst] in H.
      destruct r2 as [|c2 r2'].
      * cbn [mbind option_bind] in H. cbn [scan_exponent] in Hexp. by simplify_eq.
      * destruct (Ascii.eqb c2 "e" || Ascii.eqb c2 "E") eqn:He.
        -- destruct (bool_decide (r3 = c2 :: r2')); [done|]. cbn [mbind option_bind] in H.
           by simplify_eq.
        -- cbn [mbind option_bind] in H. cbn [scan_exponent] in Hexp. rewrite He in Hexp.
           by simplify_eq.
    + cbn [mbind option_bind] in H.
      destruct (scan_exponent (c :: r1')) as [ex r3] eqn:Hexp. cbn [fst] in H.
      destruct (Ascii.eqb c "e" || Ascii.eqb c "E") eqn:He.
      * destruct (bool_decide (r3 = c :: r1')); [done|]. cbn [mbind option_bind] in H.
        rewrite app_nil_r in *. by simplify_eq.
      * cbn [mbind option_bind] in H. rewrite app_nil_r in *.
        cbn [scan_exponent] in Hexp. rewrite He in Hexp. by simplify_eq.
Qed.

Lemma parse_number_scan cs x r :
  parse_number cs = Some (x, r) → scan_decimal_literal cs = Some (x, r).
Proof.
  destruct cs as [|c cs]; [done|]. unfold parse_number.
  destruct (Ascii.eqb c "-") eqn:Hc.
  - apply ascii_eqb_eq in Hc as ->. intros H.
    by destruct (parse_unsigned_scan true cs x r H) as [? _].
  - intros H. by destruct (parse_unsigned_scan false (c :: cs) x r H) as [? _].
Qed.

(** A text that starts like a number starts with no white space. *)
Lemma skip_js_space_start c r : number_start c = true → skip_js_space (c :: r) = c :: r.
Proof.
  intros Hc. unfold skip_js_space. cbn [length skip_any].
  assert (omap (fun p => strip_prefix p (c :: r)) js_white_space = []) as ->; [|done].
  revert Hc. case_ascii c; vm_compute; intros Hc; done.
Qed.

(** A text that ends with a digit ends with no white space. *)
Lemma skip_white_end d r n :
  is_digit d = true →
  skip_any n ((fun p : list ascii => rev p) <$> js_white_space) (d :: r) = d :: r.
Proof.
  intros Hd. destruct n as [|n]; [done|]. cbn [skip_any].
  assert (omap (fun p => strip_prefix p (d :: r))
               ((fun p : list ascii => rev p) <$> js_white_space) = []) as ->; [|done].
  revert Hd. case_ascii d; vm_compute; intros Hd; done.
Qed.

Lemma last_digit pre l :
  forallb is_digit l = true → l ≠ [] → ∃ d, last (pre ++ l) = Some d ∧ is_digit d = true.
Proof.
  intros Hl Hne. destruct l as [|x l] using rev_ind; [done|].
  exists x. rewrite app_assoc, last_snoc. split; [done|].
  rewrite forallb_app in Hl. apply andb_true_iff in Hl as [_ Hx].
  cbn [forallb] in Hx. by rewrite andb_true_r in Hx.
Qed.

(** The shape of a printed number: its last character is a digit, and when
    its first character is a zero, the second, if any, is the point. *)
Lemma plain_or_exp_shape M e :
  0 < M →
  (∃ d, last (plain_or_exp (digits M) e) = Some d ∧ is_digit d = true)
  ∧ ∃ c r, plain_or_exp (digits M) e = c :: r
           ∧ (Ascii.eqb c "0" = false ∨ ∃ r', r = "."%char :: r').
Proof.
  intros HM. destruct (digits_spec M) as (Hds & _ & Hlen & Hhd); [lia|].
  destruct (Hhd HM) as (d & r & Heq & Hd0).
  assert (digits M ≠ []) as Hne by by rewrite Heq.
  unfold plain_or_exp.
  set (ds := digits M) in *. set (k := Z.of_nat (length ds)) in *.
  destruct ((k <=? k + e) && (k + e <=? 21)) eqn:Ha.
  { split.
    - apply (last_digit []).
      + by rewrite forallb_app, Hds, forallb_zeros.
      + rewrite Heq. done.
    - exists d, (r ++ zeros (k + e - k)). rewrite Heq. auto. }
  destruct ((0 <? k + e) && (k + e <=? 21)) eqn:Hb.
  { apply andb_true_iff in Hb as [Hn%Z.ltb_lt Hmax%Z.leb_le].
    assert (k + e < k) as Hlt.
    { apply andb_false_iff in Ha as [?%Z.leb_gt | ?%Z.leb_gt]; lia. }
    destruct (forallb_take_drop is_digit (Z.to_nat (k + e)) ds Hds) as [Ht Hdr].
    split.
    - replace (take (Z.to_nat (k + e)) ds ++ "."%char :: drop (Z.to_nat (k + e)) ds)
        with ((take (Z.to_nat (k + e)) ds ++ ["."%char]) ++ drop (Z.to_nat (k + e)) ds)
        by by rewrite <- app_assoc.
      apply last_digit; [done|]. intros Hnil.
      apply (f_equal length) in Hnil. rewrite length_drop in Hnil.
      cbn [length] in Hnil. unfold k in *. lia.
    - rewrite Heq. destruct (Z.to_nat (k + e)) as [|n] eqn:Hn'; [lia|].
      cbn [take app]. eauto. }
  destruct ((-6 <? k + e) && (k + e <=? 0)) eqn:Hc.
  { split.
    - change ("0"%char :: "."%char :: zeros (- (k + e)) ++ ds)
        with (("0"%char :: "."%char :: zeros (- (k + e))) ++ ds).
      by apply last_digit.
    - exists "0"%char, ("."%char :: zeros (- (k + e)) ++ ds). split; [done|]. right. eauto. }
  rewrite Heq.
  assert (∀ pre, ∃ x, last (pre ++ digits (Z.abs (k + e - 1))) = Some x ∧ is_digit x = true)
    as Hex.
  { intros pre. destruct (digits_spec (Z.abs (k + e - 1))) as (Hex & _ & Hexlen & _); [lia|].
    apply last_digit; [done|]. intros Hnil. rewrite Hnil in Hexlen. cbn [length] in Hexlen. lia. }
  destruct r as [|d' r'].
  - split; [|eauto].
    exact (Hex [d; "e"%char; (if k + e - 1 <? 0 then "-"%char else "+"%char)]).
  - split; [|eauto].
    replace (d :: "."%char :: (d' :: r') ++ "e"%char
               :: (if k + e - 1 <? 0 then "-"%char else "+"%char)
               :: digits (Z.abs (k + e - 1)))
      with ((d :: "."%char :: (d' :: r')
               ++ ["e"%char; (if k + e - 1 <? 0 then "-"%char else "+"%char)])
              ++ digits (Z.abs (k + e - 1)))
      by (cbn [app]; by rewrite <- app_assoc).
    apply Hex.
Qed.

Lemma number_chars_shape x :
  finite_number x = true →
  (∃ d, last (number_chars x) = Some d ∧ is_digit d = true)
  ∧ ∃ c r, number_chars x = c :: r
           ∧ (Ascii.eqb c "0" = false ∨ r = [] ∨ ∃ r', r = "."%char :: r').
Proof.
  intros (m & e & -> & Hnorm & Hcases)%finite_number_inv.
  unfold number_chars. rewrite Hnorm.
  destruct Hcases as [[-> ->] | (Hm & Hmod)].
  - change (0 =? 0) with true. cbv iota. split; [by exists "0"%char|].
    exists "0"%char, []. auto.
  - apply Z.eqb_neq in Hm as Hm'. rewrite Hm'.
    destruct (plain_or_exp_shape (Z.abs m) e) as [(d & Hlast & Hd) (c & r & Hc & Hshape)]; [lia|].
    destruct (m <? 0).
    + split.
      * exists d. split; [|done]. rewrite Hc in *. cbn [app]. by rewrite last_cons, Hlast.
      * exists "-"%char, (plain_or_exp (digits (Z.abs m)) e). auto.
    + cbn [app]. split; [eauto|]. exists c, r. split; [done|]. tauto.
Qed.

(** [Number] reads a printed number back. *)
Lemma string_to_number_printed x :
  finite_number x = true → string_to_number (number_to_string x) = x.
Proof.
  intros Hx. destruct (parse_number_printed x [] Hx I) as [Hp (c & r & Hc & Hs)].
  rewrite app_nil_r in Hp. apply parse_number_scan in Hp.
  destruct (number_chars_shape x Hx) as [(d & Hlast & Hd) (c' & r' & Hc' & Hshape)].
  unfold string_to_number, number_to_string. rewrite chars_of_string_of.
  assert (trim_js (number_chars x) = number_chars x) as ->.
  { unfold trim_js. rewrite Hc at 2. rewrite (skip_js_space_start c r Hs), <- Hc.
    destruct (rev (number_chars x)) as [|y l] eqn:Hrev.
    - apply (f_equal (@rev ascii)) in Hrev. rewrite rev_involutive in Hrev.
      rewrite Hrev in Hc. done.
    - assert (y = d) as ->.
      { apply (f_equal (@rev ascii)) in Hrev. rewrite rev_involutive in Hrev.
        rewrite Hrev in Hlast. cbn [rev] in Hlast. rewrite last_snoc in Hlast. congruence. }
      rewrite (skip_white_end d l _ Hd), <- Hrev. apply rev_involutive. }
  rewrite Hc' in *. clear Hc Hs Hlast.
  destruct Hshape as [Hzero | [-> | [r'' ->]]].
  - destruct r' as [|x1 [|x2 r']]; rewrite ?Hzero, Hp; done.
  - by rewrite Hp.
  - destruct r'' as [|x2 r'']; [by rewrite Hp|].
    change (Ascii.eqb "." "x" || Ascii.eqb "." "X") with false.
    change (Ascii.eqb "." "o" || Ascii.eqb "." "O") with false.
    change (Ascii.eqb "." "b" || Ascii.eqb "." "B") with false.
    rewrite Hp. by destruct (Ascii.eqb c' "0").
Qed.

(** ** Parsing a printed array of numbers *)

Lemma number_start_char c :
  number_start c = true →
  is_json_space c = false ∧ Ascii.eqb c "[" = false ∧ Ascii.eqb c "{" = false
  ∧ Ascii.eqb c quote_char = false ∧ Ascii.eqb c "]" = false.
Proof. case_ascii c; vm_compute; intros H; by repeat split. Qed.

Lemma parse_value_number f x rest :
  finite_number x = true → number_end rest →
  parse_value (S f) (number_chars x ++ rest) = Some (JNum x, rest).
Proof.
  intros Hx Hend. destruct (parse_number_printed x rest Hx Hend) as [Hp (c & r & Hc & Hs)].
  rewrite Hc in *. cbn [app] in *.
  destruct (number_start_char c Hs) as (Hsp & H1 & H2 & H3 & _).
  cbn [parse_value skip_while]. rewrite Hsp, H1, H2, H3.
  fold (number_start c). rewrite Hs, Hp. done.
Qed.

Lemma parse_elements_eq f cs :
  parse_elements (S f) cs =
  '(v, r) ← parse_value f cs;
  match skip_while is_json_space r with
  | c :: r' =>
      if Ascii.eqb c "," then '(vs, r'') ← parse_elements f r'; Some (v :: vs, r'')
      else if Ascii.eqb c "]" then Some ([v], r')
      else None
  | [] => None
  end.
Proof. done. Qed.

Lemma parse_elements_numbers l : ∀ f rest,
  l ≠ [] → forallb finite_number l = true → (length l < f)%nat →
  parse_elements f (sep_by [","%char] (number_chars <$> l) ++ "]"%char :: rest)
  = Some (JNum <$> l, rest).
Proof.
  induction l as [|x l IH]; intros f rest Hne Hl Hf; [done|].
  apply andb_true_iff in Hl as [Hx Hl].
  destruct f as [|[|f]]; [simpl in Hf; lia.. |].
  destruct l as [|y l].
  - cbn [fmap list_fmap sep_by]. rewrite parse_elements_eq.
    rewrite parse_value_number by done. cbn [mbind option_bind]. done.
  - change (sep_by [","%char] (number_chars <$> x :: y :: l))
      with (number_chars x ++ [","%char] ++ sep_by [","%char] (number_chars <$> y :: l)).
    rewrite <- !app_assoc. rewrite parse_elements_eq.
    rewrite parse_value_number by done. cbn [mbind option_bind].
    change ([","%char] ++ sep_by [","%char] (number_chars <$> y :: l) ++ "]"%char :: rest)
      with (","%char :: (sep_by [","%char] (number_chars <$> y :: l) ++ "]"%char :: rest)).
    cbn [skip_while]. change (is_json_space ",") with false. cbv iota.
    change (Ascii.eqb "," ",") with true. cbv iota.
    rewrite IH; [done | done | done | simpl in *; lia].
Qed.

Lemma sep_by_numbers_head x l :
  finite_number x = true →
  ∃ c r, sep_by [","%char] (number_chars <$> x :: l) = c :: r ∧ number_start c = true.
Proof.
  intros Hx. destruct (parse_number_printed x [] Hx I) as [_ (c & r & Hc & Hs)].
  destruct l as [|y l].
  - exists c, r. by rewrite <- Hc.
  - exists c, (r ++ [","%char] ++ sep_by [","%char] (number_chars <$> y :: l)).
    change (sep_by [","%char] (number_chars <$> x :: y :: l))
      with (number_chars x ++ [","%char] ++ sep_by [","%char] (number_chars <$> y :: l)).
    by rewrite Hc.
Qed.

Lemma sep_by_numbers_length l :
  forallb finite_number l = true →
  (length l ≤ length (sep_by [","%char] (number_chars <$> l)))%nat.
Proof.
  induction l as [|x l IH]; intros Hl; [done|].
  apply andb_true_iff in Hl as [Hx Hl].
  destruct (parse_number_printed x [] Hx I) as [_ (c & r & Hc & _)].
  destruct l as [|y l].
  - cbn [fmap list_fmap sep_by]. rewrite Hc. simpl. lia.
  - change (sep_by [","%char] (number_chars <$> x :: y :: l))
      with (number_chars x ++ [","%char] ++ sep_by [","%char] (number_chars <$> y :: l)).
    rewrite !length_app, Hc. specialize (IH Hl). simpl in *. lia.
Qed.

Lemma json_chars_numbers l :
  forallb finite_number l = true →
  json_chars (JArr (JNum <$> l))
  = "["%char :: sep_by [","%char] (number_chars <$> l) ++ ["]"%char].
Proof.
  intros Hl. cbn [json_chars]. do 3 f_equal.
  induction l as [|x l IH]; [done|].
  apply andb_true_iff in Hl as [Hx Hl]. cbn [fmap list_fmap map]. f_equal; [|by apply IH].
  cbn [json_chars]. by destruct x.
Qed.

(** A list of finite numbers survives [JSON.stringify] and [JSON.parse]. *)
Lemma JSON_parse_stringify_numbers l :
  forallb finite_number l = true →
  JSON_parse (JSON_stringify (JArr (JNum <$> l))) = Some (JArr (JNum <$> l)).
Proof.
  intros Hl. unfold JSON_parse, JSON_stringify. rewrite chars_of_string_of.
  rewrite (json_chars_numbers _ Hl).
  set (body := sep_by [","%char] (number_chars <$> l)).
  replace (2 * length ("["%char :: body ++ ["]"%char]) + 2)%nat
    with (S (2 * length ("["%char :: body ++ ["]"%char]) + 1))%nat by lia.
  cbn [parse_value skip_while]. change (is_json_space "[") with false. cbv iota.
  change (Ascii.eqb "[" "[") with true. cbv iota.
  destruct l as [|x l]; [done|].
  apply andb_true_iff in Hl as Hl'. destruct Hl' as [Hx _].
  destruct (sep_by_numbers_head x l Hx) as (c & r & Hc & Hs).
  destruct (number_start_char c Hs) as (Hsp & _ & _ & _ & Hb).
  pose proof (sep_by_numbers_length _ Hl) as Hlen. fold body in Hc, Hlen.
  set (fuel := (2 * length ("["%char :: body ++ ["]"%char]) + 1)%nat).
  assert (length (x :: l) < fuel)%nat as Hfuel.
  { unfold fuel. cbn [length] in *. rewrite length_app. lia. }
  pose proof (parse_elements_numbers (x :: l) fuel [] ltac:(done) Hl Hfuel) as Hp.
  fold body in Hp. clearbody fuel body.
  rewrite Hc in Hp |- *. cbn [app skip_while]. rewrite Hsp, Hb.
  change (c :: r ++ ["]"%char]) with ((c :: r) ++ ["]"%char]). by rewrite Hp.
Qed.

(** ** Sorting newest first *)

Section SortFacts.
Context {A : Type} (cmp : A → A → jsnum).

Lemma sort_insert_perm x l : sort_insert cmp x l ≡ₚ x :: l.
Proof.
  induction l as [|y l IH]; [done|]. simpl.
  destruct (0 <? js_sign (cmp x y)); [|done]. rewrite IH. apply perm_swap.
Qed.

Lemma js_sort_perm l : js_sort cmp l ≡ₚ l.
Proof.
  induction l as [|x l IH]; [done|].
  unfold js_sort in *. simpl. by rewrite sort_insert_perm, IH.
Qed.

Lemma sort_insert_sorted (P : A → Prop) (R : A → A → Prop) x l :
  (∀ a b, P a → P b → (0 <? js_sign (cmp a b)) = true → R b a) →
  (∀ a b, P a → P b → (0 <? js_sign (cmp a b)) = false → R a b) →
  P x → Forall P l → Sorted R l → Sorted R (sort_insert cmp x l).
Proof.
  intros Hgt Hle Hx Hl Hs. induction Hs as [|y l Hs IH Hhd]; simpl.
  { apply Sorted_cons; [apply Sorted_nil | apply HdRel_nil]. }
  inversion Hl as [|? ? Hy Hl']; subst.
  destruct (0 <? js_sign (cmp x y)) eqn:Hxy.
  - constructor; [by apply IH|]. destruct l as [|z l]; simpl in *.
    + constructor. by apply Hgt.
    + destruct (0 <? js_sign (cmp x z)); constructor; [by inversion Hhd | by apply Hgt].
  - constructor; [by constructor | constructor; by apply Hle].
Qed.

Lemma js_sort_sorted (P : A → Prop) (R : A → A → Prop) l :
  (∀ a b, P a → P b → (0 <? js_sign (cmp a b)) = true → R b a) →
  (∀ a b, P a → P b → (0 <? js_sign (cmp a b)) = false → R a b) →
  Forall P l → Sorted R (js_sort cmp l).
Proof.
  intros Hgt Hle Hl. induction Hl as [|x l Hx Hl IH]; [constructor|].
  change (js_sort cmp (x :: l)) with (sort_insert cmp x (js_sort cmp l)).
  apply (sort_insert_sorted P); try done. by rewrite js_sort_perm.
Qed.
End SortFacts.

Lemma strip10_sgn fuel : ∀ m e, Z.sgn (strip10 fuel m e).1 = Z.sgn m.
Proof.
  induction fuel as [|fuel IH]; intros m e; [done|]. simpl.
  destruct (m mod 10 =? 0) eqn:Hm; [|done]. apply Z.eqb_eq in Hm.
  rewrite IH. pose proof (Z.div_mod m 10 ltac:(done)) as Hdiv.
  rewrite Hm, Z.add_0_r in Hdiv. rewrite Hdiv at 2. rewrite Z.sgn_mul. simpl.
  destruct (Z.sgn (m / 10)); done.
Qed.

Lemma js_sign_normalise m e : js_sign (normalise m e) = Z.sgn m.
Proof.
  unfold normalise. destruct (m =? 0) eqn:Hm.
  - apply Z.eqb_eq in Hm. by subst.
  - pose proof (strip10_sgn (S (Z.to_nat (Z.log2 (Z.abs m)))) m e) as H.
    destruct (strip10 _ m e) as [m' e']. exact H.
Qed.

Lemma value_shift m e d :
  0 ≤ d → (inject_Z m * Qpower 10 (e + d) == inject_Z (m * 10 ^ d) * Qpower 10 e)%Q.
Proof.
  intros Hd. rewrite Qpower_plus by done. rewrite inject_Z_mult, Zpower_Qpower by done.
  change (inject_Z 10) with 10%Q. ring.
Qed.

(** The comparator [(a, b) => b - a] asks for a swap exactly when [a] is
    smaller than [b]. *)
Lemma descending_swap m1 e1 m2 e2 :
  (0 <? js_sign (descending (Fin m1 e1) (Fin m2 e2))) = true
  ↔ (value (Fin m1 e1) < value (Fin m2 e2))%Q.
Proof.
  unfold descending, js_sub. rewrite js_sign_normalise.
  set (e := Z.min e2 e1).
  assert (value (Fin m1 e1) == inject_Z (m1 * 10 ^ (e1 - e)) * Qpower 10 e)%Q as H1.
  { unfold value. rewrite <- value_shift by lia. by replace (e + (e1 - e)) with e1 by lia. }
  assert (value (Fin m2 e2) == inject_Z (m2 * 10 ^ (e2 - e)) * Qpower 10 e)%Q as H2.
  { unfold value. rewrite <- value_shift by lia. by replace (e + (e2 - e)) with e2 by lia. }
  rewrite H1, H2.
  assert (0 < Qpower 10 e)%Q as Hpos by by apply Qpower_0_lt.
  rewrite Z.ltb_lt. split.
  - intros H. apply Qmult_lt_r; [done|]. rewrite <- Zlt_Qlt. lia.
  - intros H. apply Qmult_lt_r in H; [|done]. rewrite <- Zlt_Qlt in H. lia.
Qed.

Lemma forallb_perm {A} (p : A → bool) l k : l ≡ₚ k → forallb p l = forallb p k.
Proof.
  induction 1 as [|x l k _ IH|x y l|l k m _ IH1 _ IH2]; simpl; try congruence.
  destruct (p x), (p y); done.
Qed.

Lemma finite_number_finite x : finite_number x = true → ∃ m e, x = Fin m e.
Proof. destruct x; try done. eauto. Qed.

Lemma js_sort_descending_sorted l :
  forallb finite_number l = true → StronglySorted newer_or_equal (js_sort descending l).
Proof.
  intros Hl. apply Sorted_StronglySorted.
  { intros x y z. unfold newer_or_equal. intros H1 H2. by apply (Qle_trans _ (value y)). }
  apply (js_sort_sorted descending (λ y, ∃ m e, y = Fin m e)).
  - intros a b (m1 & e1 & ->) (m2 & e2 & ->) H%descending_swap.
    unfold newer_or_equal. by apply Qlt_le_weak.
  - intros a b (m1 & e1 & ->) (m2 & e2 & ->) H. unfold newer_or_equal.
    apply Qnot_lt_le. intros Hlt%descending_swap. congruence.
  - apply Forall_forall. intros y Hy. apply finite_number_finite.
    apply forallb_forall with (x := y) in Hl; [done | by apply list_elem_of_In].
Qed.

Lemma js_sort_json l :
  js_sort descending_json (JNum <$> l) = JNum <$> js_sort descending l.
Proof.
  induction l as [|x l IH]; [done|].
  unfold js_sort in *. cbn [fmap list_fmap foldr]. rewrite IH.
  generalize (foldr (sort_insert descending) [] l) as s. intros s.
  induction s as [|y s IHs]; [done|]. cbn [fmap list_fmap sort_insert].
  change (descending_json (JNum x) (JNum y)) with (descending x y).
  destruct (0 <? js_sign (descending x y)); [|done]. cbn [fmap list_fmap]. by rewrite <- IHs.
Qed.

(** ** The version round trip *)

Lemma payload_stringify_array l :
  payload (Some (JSON_stringify (JArr l))) = Some (JSON_stringify (JArr l)).
Proof. done. Qed.

Lemma extractVersion_declared nodeClass l :
  forallb finite_number l = true →
  declares_versions nodeClass l →
  extractVersion nodeClass = JSON_stringify (JArr (JNum <$> js_sort descending l)).
Proof.
  intros Hl (instance & Hnew & [(nodeVersions & Hnv & Htruthy & Hkeys) | [Hfalsy Hversion]]);
    unfold extractVersion; rewrite Hnew.
  - rewrite Hnv, Htruthy, Hkeys, <- list_fmap_compose.
    assert (string_to_number ∘ number_to_string <$> l = l) as ->; [|done].
    rewrite <- (list_fmap_id l) at 2. apply Forall_fmap_ext_1.
    apply Forall_forall. intros x Hx. apply string_to_number_printed.
    rewrite forallb_forall in Hl. by apply Hl, list_elem_of_In.
  - assert (declared_version instance = JSON_stringify (JArr (JNum <$> js_sort descending l)))
      as Hdecl.
    { unfold declared_version. by rewrite Hversion, js_sort_json. }
    destruct (inst_nodeVersions instance) as [nodeVersions|]; [|done].
    by rewrite Hfalsy.
Qed.

(** C2.  When a node class declares the finite numbers [l] as its versions
    (the array [version] of its description, or the keys of its
    [nodeVersions], which are the numbers as JavaScript writes them), the
    text stored by [extractVersion] is read back by [getNodeInfo] as the
    list [versions] of the same numbers sorted newest first: a permutation
    of [l], hence with the same elements (and without repetition when [l]
    has none), in descending order; and [latest_version] is its first
    element. *)
Theorem version_round_trip (nodeClass : NodeClass) (l : list jsnum)
    (db : Database) (nodeType : string) (row : NodeRow) :
  forallb finite_number l = true →
  declares_versions nodeClass l →
  select_by_type (nodes db) (replace nodeType "n8n-nodes-base." "nodes-base.") = Some row →
  version row = Some (extractVersion nodeClass) →
  let sorted := js_sort descending l in
  (∃ result,
     (getNodeInfo db nodeType).1 = Some result
     ∧ result !! "versions" = Some (JArr (JNum <$> sorted))
     ∧ result !! "latest_version" = JNum <$> head sorted)
  ∧ sorted ≡ₚ l
  ∧ (∀ x, x ∈ sorted ↔ x ∈ l)
  ∧ (NoDup l → NoDup sorted)
  ∧ StronglySorted newer_or_equal sorted.
Proof.
  intros Hl Hdecl Hrow Hversion sorted.
  assert (sorted ≡ₚ l) as Hperm by apply js_sort_perm.
  assert (forallb finite_number sorted = true) as Hsorted by by rewrite (forallb_perm _ _ _ Hperm).
  split; [|split; [done|split; [by intros x; rewrite Hperm|split;
    [by rewrite Hperm | by apply js_sort_descending_sorted]]]].
  destruct (getNodeInfo_fields _ _ _ Hrow) as (result & Hget & _ & _ & _ & _ & Hv & Hlatest).
  exists result. rewrite Hget. split; [done|].
  rewrite Hv, Hlatest, Hversion, (extractVersion_declared _ _ Hl Hdecl).
  rewrite payload_stringify_array. cbn [mbind option_bind].
  fold sorted. rewrite (JSON_parse_stringify_numbers _ Hsorted).
  split; [done|]. by destruct sorted.
Qed.

(** C2 at concrete inputs: the declared array [[1, 2, 2.6]] is stored as
    ["[2.6,2,1]"] and read back as [[2.6, 2, 1]] with [latest_version] 2.6;
    and so are the versions of a class whose [nodeVersions] has the keys
    [1], [2] and [2.6]. *)
Lemma version_round_trip_witness :
  extractVersion versioned_class = "[2.6,2,1]"
  ∧ (∃ result,
       (getNodeInfo example_db "nodes-base.slack").1 = Some result
       ∧ result !! "versions" = Some (JArr [JNum (Fin 26 (-1)); JNum (Fin 2 0); JNum (Fin 1 0)])
       ∧ result !! "latest_version" = Some (JNum (Fin 26 (-1))))
  ∧ object_keys (JObj [("1", JObj []); ("2", JObj []); ("2.6", JObj [])]) = ["1"; "2"; "2.6"]
  ∧ extractVersion keyed_class = "[2.6,2,1]"
  ∧ ∃ result,
      (getNodeInfo example_db "nodes-base.slack").1 = Some result
      ∧ result !! "versions" = Some (JArr [JNum (Fin 26 (-1)); JNum (Fin 2 0); JNum (Fin 1 0)])
      ∧ result !! "latest_version" = Some (JNum (Fin 26 (-1))).
Proof.
  split; [reflexivity|]. split; [|split; [reflexivity|split; [reflexivity|]]].
  - assert (declares_versions versioned_class [Fin 1 0; Fin 2 0; Fin 26 (-1)]) as Hdecl.
    { eexists. split; [reflexivity|]. right. split; reflexivity. }
    destruct (version_round_trip versioned_class [Fin 1 0; Fin 2 0; Fin 26 (-1)]
                example_db "nodes-base.slack" slack_row eq_refl Hdecl eq_refl eq_refl)
      as [(result & Hget & Hv & Hlatest) _].
    exists result. split; [exact Hget|]. split; [exact Hv | exact Hlatest].
  - assert (declares_versions keyed_class [Fin 1 0; Fin 2 0; Fin 26 (-1)]) as Hdecl.
    { eexists. split; [reflexivity|]. left. eexists. split; [reflexivity|].
      split; reflexivity. }
    destruct (version_round_trip keyed_class [Fin 1 0; Fin 2 0; Fin 26 (-1)]
                example_db "nodes-base.slack" slack_row eq_refl Hdecl eq_refl eq_refl)
      as [(result & Hget & Hv & Hlatest) _].
    exists result. split; [exact Hget|]. split; [exact Hv | exact Hlatest].
Defined.

(** ** [extractDocumentation] *)

Lemma nonempty_Some s t : nonempty s = Some t → t = s ∧ s ≠ "".
Proof.
  unfold nonempty. destruct (String.eqb s "") eqn:Hs; [done|].
  intros [= <-]. split; [done|]. intros ->. done.
Qed.

Lemma nonempty_None s : nonempty s = None → s = "".
Proof.
  unfold nonempty. destruct (String.eqb s "") eqn:Hs; [|done].
  intros _. by apply string_eqb_eq.
Qed.

Lemma app_nonempty s t : s ≠ "" → s +:+ t ≠ "".
Proof. by destruct s. Qed.

Lemma join_nonempty sep l : l ≠ [] → Forall (λ s, s ≠ "") l → join sep l ≠ "".
Proof.
  destruct l as [|x [|y l]]; [done| |]; intros _ Hl; inversion Hl; subst; [done|].
  by apply app_nonempty.
Qed.

Lemma Forall_nonempty_singleton s : s ≠ "" → Forall (λ s, s ≠ "") [s].
Proof. intros Hs. by constructor. Qed.

Lemma property_docs_none l :
  Forall (fun p => p ≠ JNull ∧ truthy (prop "description" p) = false) l →
  property_docs l = Some [].
Proof.
  intros Hl. unfold property_docs.
  assert (mapM (λ p, d ← prop_of "description" (Some p); Some (p, d)) l
          = Some ((λ p, (p, prop "description" p)) <$> l)) as ->.
  { apply mapM_Some. induction Hl as [|p l [Hp _] _ IH]; [constructor|].
    constructor; [|done]. by destruct p. }
  cbn [mbind option_bind]. f_equal.
  induction Hl as [|p l [_ Hp] _ IH]; [done|].
  cbn [fmap list_fmap List.filter fst snd]. rewrite Hp. exact IH.
Qed.

(** The parts [extractDocumentation] synthesizes are never empty strings. *)
Lemma extractDocumentation_not_empty description nodeType githubDocs :
  extractDocumentation description nodeType githubDocs ≠ Some (Some "").
Proof.
  unfold extractDocumentation.
  destruct (githubDocs !! to_str nodeType ≫= nonempty) as [doc|] eqn:Hdoc.
  { apply bind_Some in Hdoc as (s & _ & [-> Hs]%nonempty_Some). congruence. }
  set (main := if truthy (prop "description" description) then _ else _).
  set (subtitle := if truthy (prop "subtitle" description) then _ else _).
  set (hints := if truthy (prop "hints" description) then _ else _).
  assert (Forall (λ s, s ≠ "") main) as Hmain.
  { unfold main. destruct (truthy (prop "description" description)); [apply Forall_nonempty_singleton; intros H; discriminate H | constructor]. }
  assert (Forall (λ s, s ≠ "") subtitle) as Hsub.
  { unfold subtitle. destruct (truthy (prop "subtitle" description)); [apply Forall_nonempty_singleton; intros H; discriminate H | constructor]. }
  assert (Forall (λ s, s ≠ "") hints) as Hhints.
  { unfold hints. destruct (truthy (prop "hints" description)); [apply Forall_nonempty_singleton; intros H; discriminate H | constructor]. }
  destruct (match prop "properties" description with Some (JArr l) => _ | _ => Some [] end)
    as [properties|] eqn:Hprops; [|done].
  assert (Forall (λ s, s ≠ "") properties) as Hproperties.
  { destruct (prop "properties" description) as [[]|]; simplify_eq; try constructor.
    destruct (property_docs l) as [docs|]; [|done]. simpl in Hprops.
    destruct (String.eqb (join nl docs) ""); simplify_eq; [constructor|].
    apply Forall_nonempty_singleton. intros H; discriminate H. }
  cbn [mbind option_bind].
  destruct (match prop "codex" description with Some c => _ | None => Some [] end)
    as [codex|] eqn:Hcodex; [|done].
  assert (Forall (λ s, s ≠ "") codex) as Hcodex'.
  { destruct (prop "codex" description) as [c|]; simplify_eq; [|constructor].
    destruct (truthy (Some c)); simplify_eq; [|constructor].
    destruct (buildCodexDocumentation c) as [codexDoc|]; [|done]. simpl in Hcodex.
    destruct (codexDoc ≫= nonempty) as [doc|] eqn:Hd; simplify_eq; [|constructor].
    apply bind_Some in Hd as (s & _ & [-> Hs]%nonempty_Some). by apply Forall_nonempty_singleton. }
  cbn [mbind option_bind].
  set (docParts := main ++ subtitle ++ properties ++ codex ++ hints).
  assert (Forall (λ s, s ≠ "") docParts) as Hparts.
  { unfold docParts. by repeat apply Forall_app_2. }
  destruct docParts as [|x r] eqn:Hd; [done|]. simpl (0 <? _)%nat. cbv iota.
  intros [= H]. by apply (join_nonempty nl (x :: r)).
Qed.

Lemma extractDocumentation_synthesized description nodeType githubDocs :
  no_entry githubDocs (to_str nodeType) → nothing_else description →
  extractDocumentation description nodeType githubDocs =
  Some (if truthy (prop "description" description) then
          Some ("# " +:+ template (js_or (prop "displayName" description)
                                         (prop "name" description))
                     +:+ nl +:+ nl +:+ template (prop "description" description) +:+ nl)
        else None).
Proof.
  intros Hentry (Hsub & Hprops & Hcodex & Hhints). unfold extractDocumentation.
  assert (githubDocs !! to_str nodeType ≫= nonempty = None) as ->.
  { by destruct Hentry as [-> | ->]. }
  rewrite Hsub, Hhints. unfold no_parameter_descriptions in Hprops.
  destruct (prop "codex" description) as [c|]; rewrite ?Hcodex;
    destruct (prop "properties" description) as [[| | | |l|]|];
    rewrite ?(property_docs_none _ Hprops); cbn [mbind option_bind];
    by destruct (truthy (prop "description" description)).
Qed.

(** C6 (as amended).  A non-empty entry of the external map for the node
    type is returned verbatim, without looking at the description.
    Without such an entry (none, or an empty one) the documentation is
    synthesized: a description that has no description text, no subtitle,
    no parameter descriptions, no codex and no hints yields [null], and one
    that has only a description text yields the heading and the text.  The
    result is never the empty string. *)
Theorem documentation_priority (description nodeType : json) (githubDocs : gmap string string) :
  (∀ doc, githubDocs !! to_str nodeType = Some doc → doc ≠ "" →
          extractDocumentation description nodeType githubDocs = Some (Some doc))
  ∧ extractDocumentation description nodeType githubDocs ≠ Some (Some "")
  ∧ (no_entry githubDocs (to_str nodeType) → nothing_else description →
     truthy (prop "description" description) = false →
     extractDocumentation description nodeType githubDocs = Some None)
  ∧ (no_entry githubDocs (to_str nodeType) → nothing_else description →
     truthy (prop "description" description) = true →
     ∃ text,
       extractDocumentation description nodeType githubDocs = Some (Some text)
       ∧ text ≠ ""
       ∧ text = "# " +:+ template (js_or (prop "displayName" description)
                                         (prop "name" description))
                     +:+ nl +:+ nl +:+ template (prop "description" description) +:+ nl).
Proof.
  split; [|split; [apply extractDocumentation_not_empty|split]].
  - intros doc Hdoc Hne. unfold extractDocumentation. rewrite Hdoc. cbn [mbind option_bind].
    unfold nonempty. destruct (String.eqb doc "") eqn:Heq; [|done].
    by apply string_eqb_eq in Heq.
  - intros Hentry Helse Hdesc.
    by rewrite (extractDocumentation_synthesized _ _ _ Hentry Helse), Hdesc.
  - intros Hentry Helse Hdesc. eexists.
    rewrite (extractDocumentation_synthesized _ _ _ Hentry Helse), Hdesc.
    split; [reflexivity|]. split; [|reflexivity]. intros H; discriminate H.
Qed.

(** C6 at concrete inputs: an entry of the map wins over the description; a
    description without any content yields [null]; a description with only
    a description text yields a heading and the text. *)
Lemma documentation_priority_witness :
  extractDocumentation (JObj [("name", JStr "slack"); ("description", JStr "Send messages")])
                       (JStr "nodes-base.slack") {["nodes-base.slack" := "README"]}
  = Some (Some "README")
  ∧ extractDocumentation (JObj [("name", JStr "slack")]) (JStr "nodes-base.slack") ∅ = Some None
  ∧ extractDocumentation (JObj [("description", JStr "Send messages")])
                         (JStr "nodes-base.slack") ∅
    = Some (Some ("# undefined" +:+ nl +:+ nl +:+ "Send messages" +:+ nl)).
Proof.
  assert (∀ d, prop "properties" d = None → prop "subtitle" d = None →
               prop "codex" d = None → prop "hints" d = None → nothing_else d) as Helse.
  { intros d Hp Hs Hc Hh. unfold nothing_else, no_parameter_descriptions.
    by rewrite Hp, Hs, Hc, Hh. }
  split; [|split].
  - destruct (documentation_priority
                (JObj [("name", JStr "slack"); ("description", JStr "Send messages")])
                (JStr "nodes-base.slack") {["nodes-base.slack" := "README"]}) as (H & _).
    apply H; [reflexivity | discriminate].
  - destruct (documentation_priority (JObj [("name", JStr "slack")])
                (JStr "nodes-base.slack") ∅) as (_ & _ & H & _).
    apply H; [by left | by apply Helse | reflexivity].
  - destruct (documentation_priority (JObj [("description", JStr "Send messages")])
                (JStr "nodes-base.slack") ∅) as (_ & _ & _ & H).
    destruct H as (text & -> & _ & ->); [by left | by apply Helse | reflexivity |].
    reflexivity.
Defined.

(** C6 as stated fails: the map has an entry for the node type, the empty
    string, and the result is not that entry but the synthesized text. *)
Lemma empty_entry_counterexample :
  ({["nodes-base.slack" := ""]} : gmap string string) !! "nodes-base.slack" = Some ""
  ∧ extractDocumentation (JObj [("description", JStr "Send messages")])
                         (JStr "nodes-base.slack") {["nodes-base.slack" := ""]}
    = Some (Some ("# undefined" +:+ nl +:+ nl +:+ "Send messages" +:+ nl)).
Proof. split; reflexivity. Qed.

(** ** The package scanner *)

Lemma omap_length_le {A B} (f : A → option B) l : (length (omap f l) ≤ length l)%nat.
Proof.
  induction l as [|x l IH]; [done|]. simpl. change (list_omap A B f l) with (omap f l).
  destruct (f x); simpl; lia.
Qed.

Lemma load_nodes_spec M packageName packagePath nodesList :
  let loaded := omap (λ nodePath, load_node M packageName packagePath nodePath ≫= id) nodesList in
  load_nodes M packageName packagePath nodesList
  = (loaded, (λ node, (Info, "  ✓ Loaded " +:+ nodeName node)) <$> loaded).
Proof.
  induction nodesList as [|nodePath rest IH]; [done|]. cbn [load_nodes]. rewrite IH.
  cbn [omap list_omap]. by destruct (load_node M packageName packagePath nodePath) as [[node|]|].
Qed.

Lemma first_export_head values c :
  first_export values = ClassExport c ↔ head values = Some (ClassExport c).
Proof. destruct values as [|e values]; [done|]. simpl. split; congruence. Qed.

(** What the body of the [try] block yields for an entry. *)
Lemma load_node_loads M pn pp nodePath node :
  load_node M pn pp nodePath ≫= id = Some node ↔ loads M pn pp nodePath node.
Proof.
  unfold load_node, loads, module_name. split.
  - intros H.
    destruct (require_resolve M (pp +:+ "/" +:+ to_str nodePath)) as [fullPath|] eqn:Hres;
      [|done]. cbn [mbind option_bind] in H.
    destruct (require_module M fullPath) as [m|] eqn:Hmod; [|done].
    cbn [mbind option_bind] in H.
    destruct nodePath as [| | |path| |]; try done. cbn [mbind option_bind to_str] in *.
    exists path, fullPath, m. unfold pick_class in H.
    destruct (module_get m "default") as [|c0] eqn:Hdefault.
    + destruct (module_get m (match node_name_match path with
                              | Some n => n
                              | None => basename path ".node.js"
                              end)) as [|c1] eqn:Hnamed.
      * destruct (first_export (module_values m)) as [|c2] eqn:Hfirst; [done|].
        cbn [mbind option_bind id] in H. injection H as <-. cbn.
        repeat split; try done. right. split; [done|]. right. split; [done|].
        by apply first_export_head.
      * cbn [mbind option_bind id] in H. injection H as <-. cbn.
        repeat split; try done. right. split; [done|]. by left.
    + cbn [mbind option_bind id] in H. injection H as <-. cbn.
      repeat split; try done. by left.
  - intros (path & fullPath & m & -> & Hres & Hmod & Hpn & Hname & Hclass).
    cbn [to_str]. rewrite Hres. cbn [mbind option_bind]. rewrite Hmod.
    cbn [mbind option_bind]. rewrite <- Hname. unfold pick_class.
    destruct node as [pn' name c]. cbn in *. subst pn'.
    destruct Hclass as [-> | [-> [-> | [-> Hfirst%first_export_head]]]];
      rewrite ?Hfirst; cbn [mbind option_bind id]; by subst.
Qed.

(** C3 (as amended).  For a manifest whose [n8n.nodes] is a list, the scan
    of the package returns, in the order of the list, the triple of every
    entry that loads: the entry is a path whose module is resolved and
    loaded, and the class is the first truthy value among the [default] of
    the module, its property named like the node, and its first exported
    value.  Every other entry is left out, and nothing is logged for it:
    the log is one ["Loaded"] line per returned triple, and the scan of the
    manifest without an entry that does not load has the same result and
    the same log.  [loadAllNodes] appends what the two packages yield; a
    package whose manifest cannot be read yields no node and one error
    line, and the scan goes on. *)
Theorem scan_skips_failed_modules (M : Modules) (pn pp : string)
    (packageJson n8n : json) (nodesList : list json) :
  prop "n8n" packageJson = Some n8n →
  prop "nodes" n8n = Some (JArr nodesList) →
  let scan := loadPackageNodes M pn pp packageJson in
  let entry := λ nodePath, load_node M pn pp nodePath ≫= id in
  scan.1 = omap entry nodesList
  ∧ (∀ nodePath node, entry nodePath = Some node ↔ loads M pn pp nodePath node)
  ∧ scan.2 = (λ node, (Info, "  ✓ Loaded " +:+ nodeName node)) <$> scan.1
  ∧ (length scan.1 ≤ length nodesList)%nat
  ∧ (∀ before bad after packageJson' n8n',
       nodesList = before ++ bad :: after →
       (∀ node, ¬ loads M pn pp bad node) →
       prop "n8n" packageJson' = Some n8n' →
       prop "nodes" n8n' = Some (JArr (before ++ after)) →
       loadPackageNodes M pn pp packageJson' = scan)
  ∧ (loadAllNodes M).1
    = (load_package M ("n8n-nodes-base", "n8n-nodes-base")).1
      ++ (load_package M ("@n8n/n8n-nodes-langchain", "@n8n/n8n-nodes-langchain")).1
  ∧ (∀ name path,
       require_json M (path +:+ "/package.json") = None →
       load_package M (name, path)
       = ([], [(Info, nl +:+ "📦 Loading package: " +:+ name);
               (Error, "Failed to load " +:+ name +:+ ":")])).
Proof.
  intros Hn8n Hnodes scan entry.
  assert (∀ doc config l,
            prop "n8n" doc = Some config → prop "nodes" config = Some (JArr l) →
            loadPackageNodes M pn pp doc
            = (omap entry l, (λ node, (Info, "  ✓ Loaded " +:+ nodeName node)) <$> omap entry l))
    as Hscan.
  { intros doc config l Hdoc Hconfig. unfold loadPackageNodes. rewrite Hdoc.
    assert (or_else (Some config) (JObj []) = config) as ->.
    { destruct config; try done. }
    rewrite Hconfig. cbn [or_else truthy]. apply load_nodes_spec. }
  subst scan. rewrite (Hscan _ _ _ Hn8n Hnodes). cbn [fst snd].
  split; [done|]. split; [intros nodePath node; apply load_node_loads|].
  split; [done|]. split; [apply omap_length_le|]. split; [|split].
  - intros before bad after packageJson' n8n' -> Hbad Hn8n' Hnodes'.
    rewrite (Hscan _ _ _ Hn8n' Hnodes').
    assert (omap entry (before ++ bad :: after) = omap entry (before ++ after)) as ->; [|done].
    rewrite !omap_app. f_equal. cbn [omap list_omap].
    destruct (entry bad) as [node|] eqn:Hentry; [|done].
    by apply load_node_loads, Hbad in Hentry.
  - unfold loadAllNodes, CORE_PACKAGES. cbn [foldl].
    destruct (load_package M ("n8n-nodes-base", "n8n-nodes-base")) as [nodes1 log1].
    destruct (load_package M ("@n8n/n8n-nodes-langchain", "@n8n/n8n-nodes-langchain"))
      as [nodes2 log2].
    done.
  - intros name path Hjson. unfold load_package. by rewrite Hjson.
Qed.

(** C3 at a concrete input: of the three modules of the example manifest,
    the second of which fails to load, two are returned, with a line each.
    And a module that exports nothing is not always left out: from the file
    [constructor.node.js] the loader takes the function [Object], which the
    module object inherits. *)
Lemma scan_skips_failed_modules_witness :
  (nodeName <$> (loadPackageNodes example_modules "n8n-nodes-base" "n8n-nodes-base"
                   example_manifest).1 = ["Slack"; "Gmail"]
   ∧ (loadPackageNodes example_modules "n8n-nodes-base" "n8n-nodes-base" example_manifest).2
     = [(Info, "  ✓ Loaded Slack"); (Info, "  ✓ Loaded Gmail")])
  ∧ load_node constructor_modules "n8n-nodes-base" "n8n-nodes-base"
              (JStr "dist/nodes/constructor.node.js")
    = Some (Some {| packageName := "n8n-nodes-base"; nodeName := "constructor";
                    NodeClass_of := builtin_Object |}).
Proof.
  split; [|reflexivity].
  destruct (scan_skips_failed_modules example_modules "n8n-nodes-base" "n8n-nodes-base"
              example_manifest
              (JObj [("n8nNodesApiVersion", JNum (Fin 1 0));
                     ("credentials", JArr [JStr "dist/credentials/SlackApi.credentials.js"]);
                     ("nodes",
                      JArr [JStr "dist/nodes/Slack/Slack.node.js";
                            JStr "dist/nodes/Broken/Broken.node.js";
                            JStr "dist/nodes/Gmail/Gmail.node.js"])])
              [JStr "dist/nodes/Slack/Slack.node.js";
               JStr "dist/nodes/Broken/Broken.node.js";
               JStr "dist/nodes/Gmail/Gmail.node.js"] eq_refl eq_refl) as (Hnodes & _ & Hlog & _).
  split; [rewrite Hnodes; reflexivity|]. rewrite Hlog, Hnodes. reflexivity.
Defined.

(** C3 as stated fails: the second module of the example manifest fails to
    load, the scan returns the two others, and its whole output, from the
    first line to the last, mentions no failure of that module. *)
Lemma silent_failure_counterexample :
  load_node example_modules "n8n-nodes-base" "n8n-nodes-base"
            (JStr "dist/nodes/Broken/Broken.node.js") = None
  ∧ nodeName <$> (loadAllNodes example_modules).1 = ["Slack"; "Gmail"]
  ∧ (loadAllNodes example_modules).2
    = [(Info, nl +:+ "📦 Loading package: n8n-nodes-base");
       (Info, "  Found 3 nodes in package.json");
       (Info, "  ✓ Loaded Slack");
       (Info, "  ✓ Loaded Gmail");
       (Info, nl +:+ "📦 Loading package: @n8n/n8n-nodes-langchain");
       (Error, "Failed to load @n8n/n8n-nodes-langchain:")].
Proof. split; [|split]; reflexivity. Qed.

(** ** The release reconciler *)

Lemma fetch_catalog_outcome fetch tag now :
  fetchNodeCatalogFromGitHub fetch tag now =
  match fetch_catalog fetch tag now with
  | (log, Some catalog) => (Some catalog, log)
  | (log, None) =>
      (None, log ++ [(Error, "Failed to fetch node catalog from GitHub (" +:+ tag +:+ "):")])
  end.
Proof. done. Qed.

(** What the body of the [try] block returns. *)
Lemma fetch_catalog_returns fetch tag now catalog :
  let raw := "https://raw.githubusercontent.com/n8n-io/n8n/" +:+ tag in
  (fetch_catalog fetch tag now).2 = Some catalog ↔
  ∃ versionData nodesBaseData langchainNodes,
    retrieved (fetch (raw +:+ "/packages/cli/package.json")) versionData
    ∧ retrieved (fetch (raw +:+ "/packages/nodes-base/package.json")) nodesBaseData
    ∧ extension_list (fetch (raw +:+ "/packages/@n8n/n8n-nodes-langchain/package.json"))
                     langchainNodes
    ∧ catalog = {| catalog_version := prop "version" versionData;
                   fetchedFrom := tag;
                   nodesBase := declared_nodes nodesBaseData;
                   langchain := langchainNodes;
                   timestamp := now |}.
Proof.
  intros raw. unfold fetch_catalog, retrieved, extension_list, declared_nodes. fold raw.
  split.
  - destruct (fetch (raw +:+ "/packages/cli/package.json")) as [versionResponse|]; [|done].
    destruct (ok versionResponse) eqn:Hok1; [|done]. cbn [negb].
    destruct (response_json versionResponse) as [versionData|] eqn:Hjson1; [|done].
    cbn [mbind option_bind].
    destruct (prop_of "version" (Some versionData)) as [version|] eqn:Hversion; [|done].
    destruct (fetch (raw +:+ "/packages/nodes-base/package.json")) as [nodesBaseResponse|];
      [|done].
    destruct (ok nodesBaseResponse) eqn:Hok2; [|done]. cbn [negb].
    destruct (response_json nodesBaseResponse) as [nodesBaseData|] eqn:Hjson2; [|done].
    cbn [mbind option_bind].
    destruct (prop_of "n8n" (Some nodesBaseData)) as [n8n|] eqn:Hn8n; [|done].
    destruct (fetch (raw +:+ "/packages/@n8n/n8n-nodes-langchain/package.json"))
      as [langchainResponse|]; [|done].
    assert (versionData ≠ JNull ∧ version = prop "version" versionData) as [Hv ->].
    { destruct versionData; simplify_eq/=; done. }
    assert (nodesBaseData ≠ JNull ∧ n8n = prop "n8n" nodesBaseData) as [Hb ->].
    { destruct nodesBaseData; simplify_eq/=; done. }
    destruct (ok langchainResponse) eqn:Hok3.
    + destruct (response_json langchainResponse) as [langchainData|] eqn:Hjson3; [|done].
      cbn [mbind option_bind].
      destruct (prop_of "n8n" (Some langchainData)) as [n8n'|] eqn:Hn8n'; [|done].
      cbn [mbind option_bind].
      destruct (spread (or_else (opt_prop "nodes" n8n') (JArr []))) as [langchainNodes|]
        eqn:Hspread; [|done].
      assert (langchainData ≠ JNull ∧ n8n' = prop "n8n" langchainData) as [Hl ->].
      { destruct langchainData; simplify_eq/=; done. }
      intros [= <-]. exists versionData, nodesBaseData, langchainNodes.
      split; [by exists versionResponse|]. split; [by exists nodesBaseResponse|].
      split; [|done]. exists langchainResponse. split; [done|]. right. split; [done|].
      by exists langchainData.
    + intros [= <-]. exists versionData, nodesBaseData, [].
      split; [by exists versionResponse|]. split; [by exists nodesBaseResponse|].
      split; [|done]. exists langchainResponse. split; [done|]. by left.
  - intros (versionData & nodesBaseData & langchainNodes
            & (versionResponse & -> & -> & -> & Hv)
            & (nodesBaseResponse & -> & -> & -> & Hb)
            & (langchainResponse & -> & Hextension) & ->).
    cbn [negb mbind option_bind].
    assert (prop_of "version" (Some versionData) = Some (prop "version" versionData)) as ->.
    { by destruct versionData. }
    assert (prop_of "n8n" (Some nodesBaseData) = Some (prop "n8n" nodesBaseData)) as ->.
    { by destruct nodesBaseData. }
    destruct Hextension as [[-> ->] | [-> (langchainData & -> & Hl & Hspread)]]; [done|].
    cbn [mbind option_bind].
    assert (prop_of "n8n" (Some langchainData) = Some (prop "n8n" langchainData)) as ->.
    { by destruct langchainData. }
    cbn [mbind option_bind]. by rewrite Hspread.
Qed.

(** The last line logged by a call that returns. *)
Lemma fetch_catalog_last_line fetch tag now catalog :
  (fetch_catalog fetch tag now).2 = Some catalog →
  let raw := "https://raw.githubusercontent.com/n8n-io/n8n/" +:+ tag in
  ∃ langchainResponse,
    fetch (raw +:+ "/packages/@n8n/n8n-nodes-langchain/package.json") = Some langchainResponse
    ∧ last (fetch_catalog fetch tag now).1
      = Some (if ok langchainResponse
              then (Info, "Found " +:+ number_to_string
                                         (Fin (Z.of_nat (length (langchain catalog))) 0)
                                   +:+ " langchain nodes")
              else (Warn, "Could not fetch langchain nodes from " +:+ tag))
    ∧ (Error, "Failed to fetch node catalog from GitHub (" +:+ tag +:+ "):")
      ∉ (fetch_catalog fetch tag now).1.
Proof.
  intros H raw. revert H. unfold fetch_catalog. fold raw.
  destruct (fetch (raw +:+ "/packages/cli/package.json")) as [versionResponse|]; [|done].
  destruct (ok versionResponse); [|done]. cbn [negb].
  destruct (versionData ← response_json versionResponse; prop_of "version" (Some versionData))
    as [version|]; [|done].
  destruct (fetch (raw +:+ "/packages/nodes-base/package.json")) as [nodesBaseResponse|];
    [|done].
  destruct (ok nodesBaseResponse); [|done]. cbn [negb].
  destruct (nodesBaseData ← response_json nodesBaseResponse; prop_of "n8n" (Some nodesBaseData))
    as [n8n|]; [|done].
  destruct (fetch (raw +:+ "/packages/@n8n/n8n-nodes-langchain/package.json"))
    as [langchainResponse|]; [|done].
  destruct (ok langchainResponse) eqn:Hok.
  - destruct (langchainData ← response_json langchainResponse;
              n8n' ← prop_of "n8n" (Some langchainData);
              spread (or_else (opt_prop "nodes" n8n') (JArr []))) as [langchainNodes|];
      [|done].
    intros [= <-]. exists langchainResponse. cbn [fst snd langchain]. rewrite Hok.
    split; [done|]. split; [by rewrite last_snoc|].
    intros Hin. rewrite !elem_of_app, !list_elem_of_singleton in Hin.
    destruct Hin as [[[Hin | Hin] | Hin] | Hin]; discriminate Hin.
  - intros [= <-]. exists langchainResponse. cbn [fst snd langchain]. rewrite Hok.
    split; [done|]. split; [by rewrite last_snoc|].
    intros Hin. rewrite !elem_of_app, !list_elem_of_singleton in Hin.
    destruct Hin as [[[Hin | Hin] | Hin] | Hin]; discriminate Hin.
Qed.

(** C7 (as amended).  [fetchNodeCatalogFromGitHub] returns a catalog exactly
    when the platform's version file and the manifest of the base package
    are both retrieved as JSON documents and the request for the manifest
    of the AI extension is answered, by a status that is not OK or by a
    document whose declared nodes can be listed; in every other case it
    throws, and its last log line is the error.  So it throws whenever the
    version file is not retrieved, and also whenever the base manifest is
    not.  The catalog returned holds the [version] of the platform's
    manifest, the tag, the nodes the base manifest declares, the extension
    list and the current time; the extension list is empty, and the last
    log line a warning, when the response for the extension is not OK, and
    otherwise it is the list of the nodes the extension's manifest declares,
    the last log line giving its length.  What a manifest declares is its
    [n8n.nodes], and the empty list when it has none. *)
Theorem catalog_fetch (fetch : Network) (tag now : string) :
  let raw := "https://raw.githubusercontent.com/n8n-io/n8n/" +:+ tag in
  let cli := fetch (raw +:+ "/packages/cli/package.json") in
  let base := fetch (raw +:+ "/packages/nodes-base/package.json") in
  let extension := fetch (raw +:+ "/packages/@n8n/n8n-nodes-langchain/package.json") in
  let outcome := fetchNodeCatalogFromGitHub fetch tag now in
  let failure := (Error, "Failed to fetch node catalog from GitHub (" +:+ tag +:+ "):") in
  (∀ catalog,
     outcome.1 = Some catalog ↔
     ∃ versionData nodesBaseData langchainNodes,
       retrieved cli versionData ∧ retrieved base nodesBaseData
       ∧ extension_list extension langchainNodes
       ∧ catalog = {| catalog_version := prop "version" versionData;
                      fetchedFrom := tag;
                      nodesBase := declared_nodes nodesBaseData;
                      langchain := langchainNodes;
                      timestamp := now |})
  ∧ (not_retrieved cli → outcome.1 = None)
  ∧ (not_retrieved base → outcome.1 = None)
  ∧ (outcome.1 = None → last outcome.2 = Some failure)
  ∧ (∀ catalog,
       outcome.1 = Some catalog →
       (failure ∉ outcome.2)
       ∧ ∃ langchainResponse,
           extension = Some langchainResponse
           ∧ (ok langchainResponse = false →
              langchain catalog = []
              ∧ last outcome.2 = Some (Warn, "Could not fetch langchain nodes from " +:+ tag))
           ∧ (ok langchainResponse = true →
              (∃ langchainData, response_json langchainResponse = Some langchainData
                                ∧ spread (declared_nodes langchainData)
                                  = Some (langchain catalog))
              ∧ last outcome.2
                = Some (Info, "Found " +:+ number_to_string
                                             (Fin (Z.of_nat (length (langchain catalog))) 0)
                                       +:+ " langchain nodes")))
  ∧ (∀ doc n8n l,
       prop "n8n" doc = Some n8n → prop "nodes" n8n = Some (JArr l) →
       declared_nodes doc = JArr l ∧ spread (declared_nodes doc) = Some l)
  ∧ (∀ doc, prop "n8n" doc = None → declared_nodes doc = JArr []).
Proof.
  intros raw cli base extension outcome failure.
  assert (∀ catalog, outcome.1 = Some catalog ↔ (fetch_catalog fetch tag now).2 = Some catalog)
    as Hreturn.
  { intros catalog. subst outcome. rewrite fetch_catalog_outcome.
    destruct (fetch_catalog fetch tag now) as [log [c|]]; done. }
  assert (∀ catalog, outcome.1 = Some catalog → outcome.2 = (fetch_catalog fetch tag now).1)
    as Hlog.
  { intros catalog. subst outcome. rewrite fetch_catalog_outcome.
    destruct (fetch_catalog fetch tag now) as [log [c|]]; done. }
  assert (∀ r, not_retrieved r → ∀ doc, ¬ retrieved r doc) as Hnot.
  { intros r [-> | (response & -> & Hok)] doc (response' & [= <-] & Hok' & _); congruence. }
  assert (∀ r : option Response,
            (∀ catalog, outcome.1 = Some catalog → ∃ doc, retrieved r doc) →
            not_retrieved r → outcome.1 = None) as Hthrows.
  { intros r Hneeds Hr. destruct (outcome.1) as [catalog|] eqn:Houtcome; [|done].
    destruct (Hneeds catalog eq_refl) as [doc Hdoc]. by destruct (Hnot r Hr doc). }
  split; [|split; [|split; [|split; [|split; [|split]]]]].
  - intros catalog. rewrite Hreturn. apply fetch_catalog_returns.
  - apply Hthrows. intros catalog (vd & _ & _ & H & _)%Hreturn%fetch_catalog_returns.
    by exists vd.
  - apply Hthrows. intros catalog (_ & bd & _ & _ & H & _)%Hreturn%fetch_catalog_returns.
    by exists bd.
  - subst outcome. rewrite fetch_catalog_outcome.
    destruct (fetch_catalog fetch tag now) as [log [c|]]; [done|].
    intros _. cbn [snd]. by rewrite last_snoc.
  - intros catalog Hcatalog. rewrite (Hlog _ Hcatalog).
    pose proof Hcatalog as (vd & bd & l & _ & _ & Hextension & Hshape)%Hreturn%fetch_catalog_returns.
    apply Hreturn in Hcatalog.
    destruct (fetch_catalog_last_line _ _ _ _ Hcatalog) as (response & Hresponse & Hlast & Hno).
    split; [done|]. exists response. split; [done|].
    destruct Hextension as (response' & Hresponse' & Hcases).
    assert (response' = response) as -> by (unfold extension, raw in *; congruence).
    rewrite Hshape. cbn [langchain]. rewrite Hshape in Hlast. cbn [langchain] in Hlast.
    split.
    + intros Hok. rewrite Hok in Hlast.
      destruct Hcases as [[_ ->] | [Hok' _]]; [done|congruence].
    + intros Hok. rewrite Hok in Hlast.
      destruct Hcases as [[Hok' _] | [_ (doc & Hdoc & _ & Hspread)]]; [congruence|].
      split; [by exists doc|done].
  - intros doc n8n l Hn8n Hnodes. unfold declared_nodes. rewrite Hn8n.
    assert (opt_prop "nodes" (Some n8n) = Some (JArr l)) as ->.
    { destruct n8n; simplify_eq/=; done. }
    done.
  - intros doc Hn8n. unfold declared_nodes. by rewrite Hn8n.
Qed.

(** C7 at a concrete input: for the release that has the three files the
    call returns the version, the tag, the two lists and the time; for the
    release without the AI-extension package it returns an empty extension
    list; for the release without the base package it throws. *)
Lemma catalog_fetch_witness :
  (fetchNodeCatalogFromGitHub complete_release "n8n@2.0.3" "2025-01-01T00:00:00.000Z").1
  = Some {| catalog_version := Some (JStr "2.0.3");
            fetchedFrom := "n8n@2.0.3";
            nodesBase := JArr [JStr "dist/nodes/Slack/Slack.node.js"];
            langchain := [JStr "dist/nodes/agents/Agent/Agent.node.js";
                          JStr "dist/nodes/chains/ChainLLM/ChainLlm.node.js"];
            timestamp := "2025-01-01T00:00:00.000Z" |}
  ∧ (fetchNodeCatalogFromGitHub release_without_extension "n8n@0.1.0"
       "2025-01-01T00:00:00.000Z").1
    = Some {| catalog_version := Some (JStr "2.0.3");
              fetchedFrom := "n8n@0.1.0";
              nodesBase := JArr [JStr "dist/nodes/Slack/Slack.node.js"];
              langchain := [];
              timestamp := "2025-01-01T00:00:00.000Z" |}
  ∧ (fetchNodeCatalogFromGitHub release_without_base "n8n@0.1.0"
       "2025-01-01T00:00:00.000Z").1 = None.
Proof.
  split; [|split].
  - apply (catalog_fetch complete_release "n8n@2.0.3" "2025-01-01T00:00:00.000Z").
    exists (JObj [("version", JStr "2.0.3")]),
           (JObj [("n8n", JObj [("nodes", JArr [JStr "dist/nodes/Slack/Slack.node.js"])])]),
           [JStr "dist/nodes/agents/Agent/Agent.node.js";
            JStr "dist/nodes/chains/ChainLLM/ChainLlm.node.js"].
    split; [|split; [|split]].
    + eexists. split; [reflexivity|]. split; [reflexivity|]. split; [reflexivity|done].
    + eexists. split; [reflexivity|]. split; [reflexivity|]. split; [reflexivity|done].
    + eexists. split; [reflexivity|]. right. split; [reflexivity|].
      eexists. split; [reflexivity|]. split; [done|reflexivity].
    + reflexivity.
  - apply (catalog_fetch release_without_extension "n8n@0.1.0" "2025-01-01T00:00:00.000Z").
    exists (JObj [("version", JStr "2.0.3")]),
           (JObj [("n8n", JObj [("nodes", JArr [JStr "dist/nodes/Slack/Slack.node.js"])])]),
           [].
    split; [|split; [|split]].
    + eexists. split; [reflexivity|]. split; [reflexivity|]. split; [reflexivity|done].
    + eexists. split; [reflexivity|]. split; [reflexivity|]. split; [reflexivity|done].
    + eexists. split; [reflexivity|]. by left.
    + reflexivity.
  - destruct (catalog_fetch release_without_base "n8n@0.1.0" "2025-01-01T00:00:00.000Z")
      as (_ & _ & Hbase & _).
    apply Hbase. right. exists not_found. split; reflexivity.
Defined.

(** C7 as stated fails: for a release whose platform version file is
    retrieved, the call still throws, the manifest of the base package being
    absent. *)
Lemma missing_base_counterexample :
  release_without_base "https://raw.githubusercontent.com/n8n-io/n8n/n8n@0.1.0/packages/cli/package.json"
  = Some (ok_response cli_manifest)
  ∧ response_json (ok_response cli_manifest) = Some (JObj [("version", JStr "2.0.3")])
  ∧ fetchNodeCatalogFromGitHub release_without_base "n8n@0.1.0" "2025-01-01T00:00:00.000Z"
    = (None,
       [(Info, "ðŸ“¡ Fetching node catalog from n8n GitHub (n8n@0.1.0)...");
        (Info, "n8n version: 2.0.3");
        (Error, "Failed to fetch node catalog from GitHub (n8n@0.1.0):")]).
Proof. split; [|split]; reflexivity. Qed.

(** C9 at a concrete input: two nameless nodes leave one row of type
    ['unknown'], the row of the second. *)
Lemma nameless_nodes_collapse_witness :
  (display_name <$> nodes (rebuild nameless_env example_db)) = [Some "Second"]
  ∧ (node_type <$> select_by_type (nodes (rebuild nameless_env example_db)) "unknown")
    = Some "unknown".
Proof.
  destruct (nameless_nodes_collapse nameless_env example_db) as (_ & _ & _ & H).
  split; [reflexivity|]. rewrite H. reflexivity.
Defined.

(** ** Objects built key by key *)

Lemma keys_in_order_later xs k ys :
  keys_in_order (xs ++ k :: ys) = true →
  ∀ k', k' ∈ xs →
    String.eqb k k' = false
    ∧ (is_index_key k = true → is_index_key k' = true ∧ index_val k' < index_val k).
Proof.
  induction xs as [|x xs IH]; intros Hord k' Hk'; [by apply elem_of_nil in Hk'|].
  cbn [app keys_in_order] in Hord.
  apply andb_true_iff in Hord as [Hord Hrest]. apply andb_true_iff in Hord as [Hnew Hidx].
  apply elem_of_cons in Hk' as [->|Hk']; [|by apply IH].
  split.
  - apply negb_true_iff in Hnew. rewrite existsb_app in Hnew.
    apply orb_false_iff in Hnew as [_ Hnew]. cbn [existsb] in Hnew.
    apply orb_false_iff in Hnew as [Hnew _].
    destruct (String.eqb k x) eqn:Hk; [|done].
    apply string_eqb_eq in Hk. subst. by rewrite string_eqb_refl in Hnew.
  - intros Hk. rewrite forallb_app in Hidx. apply andb_true_iff in Hidx as [_ Hidx].
    cbn [forallb] in Hidx. apply andb_true_iff in Hidx as [Hidx _].
    rewrite Hk in Hidx. apply andb_true_iff in Hidx as [? ?%Z.ltb_lt]. done.
Qed.

Lemma has_key_false {A} k (l : list (string * A)) :
  (∀ k', k' ∈ map fst l → String.eqb k k' = false) → has_key k l = false.
Proof.
  induction l as [|[k' v] l IH]; intros H; [done|]. cbn [has_key].
  rewrite (H k') by (cbn [map fst]; apply list_elem_of_here). cbn [orb].
  apply IH. intros k'' Hk''. apply H. cbn [map]. by apply list_elem_of_further.
Qed.

Lemma insert_index_key_last {A} k (v : A) (l : list (string * A)) :
  (∀ k', k' ∈ map fst l → is_index_key k' = true ∧ index_val k' < index_val k) →
  insert_index_key k v l = l ++ [(k, v)].
Proof.
  induction l as [|[k' v'] l IH]; intros H; [done|]. cbn [insert_index_key app].
  destruct (H k') as [Hi Hlt]; [cbn [map fst]; apply list_elem_of_here|].
  rewrite Hi. unfold index_val in Hlt. apply Z.ltb_lt in Hlt. rewrite Hlt. cbn [andb].
  f_equal. apply IH. intros k'' Hk''. apply H. cbn [map]. by apply list_elem_of_further.
Qed.

Lemma foldl_obj_set_from (acc fields : list (string * json)) :
  keys_in_order (map fst (acc ++ fields)) = true →
  foldl (λ o kv, obj_set (fst kv) (snd kv) o) acc fields = acc ++ fields.
Proof.
  revert acc. induction fields as [|[k v] fields IH]; intros acc Hord;
    [by rewrite app_nil_r|].
  cbn [foldl fst snd].
  assert (obj_set k v acc = acc ++ [(k, v)]) as ->.
  { rewrite map_app in Hord. cbn [map fst] in Hord.
    pose proof (keys_in_order_later _ _ _ Hord) as Hlater.
    unfold obj_set. rewrite has_key_false by (intros k' Hk'; by apply Hlater).
    destruct (is_index_key k) eqn:Hk; [|done].
    apply insert_index_key_last. intros k' Hk'. by apply Hlater. }
  rewrite IH; rewrite <- app_assoc; done.
Qed.

(** An object read member by member is the object that was written. *)
Lemma foldl_obj_set (fields : list (string * json)) :
  keys_in_order (map fst fields) = true →
  foldl (λ o kv, obj_set (fst kv) (snd kv) o) [] fields = fields.
Proof. intros H. by rewrite (foldl_obj_set_from [] fields H). Qed.

(** ** Reading a printed string *)

Lemma parse_string_char c rest :
  parse_string_body (quote_chars_of c ++ rest)
  = '(s, r') ← parse_string_body rest; Some (c :: s, r').
Proof. case_ascii c; reflexivity. Qed.

Lemma parse_string_quoted cs rest :
  parse_string_body (flat_map quote_chars_of cs ++ quote_char :: rest) = Some (cs, rest).
Proof.
  induction cs as [|c cs IH]; [done|].
  cbn [flat_map]. rewrite <- app_assoc, parse_string_char, IH. done.
Qed.

(** ** Reading a printed value *)

Lemma skip_space_head c r :
  is_json_space c = false → skip_while is_json_space (c :: r) = c :: r.
Proof. intros H. cbn [skip_while]. by rewrite H. Qed.

Lemma number_start_not_brace c :
  number_start c = true → Ascii.eqb c "}" = false.
Proof. case_ascii c; vm_compute; intros H; done. Qed.

(** A printed value starts with a character that is neither white space nor
    a closing bracket. *)
Lemma json_chars_head v :
  json_data v = true →
  ∃ c r, json_chars v = c :: r ∧ is_json_space c = false
         ∧ Ascii.eqb c "]" = false ∧ Ascii.eqb c "}" = false.
Proof.
  destruct v as [|[]|x|s|l|fields]; intros Hv;
    try (eexists _, _; split; [reflexivity|done]).
  cbn [json_data] in Hv. cbn [json_chars].
  assert (is_finite x = true) as -> by (by apply andb_true_iff in Hv as [? _]).
  destruct (parse_number_printed x [] Hv I) as [_ (c & r & Hc & Hs)].
  exists c, r. destruct (number_start_char c Hs) as (? & _ & _ & _ & ?).
  by rewrite (number_start_not_brace c Hs).
Qed.

Lemma parse_value_eq f cs :
  parse_value (S f) cs =
  match skip_while is_json_space cs with
  | [] => None
  | (c :: r) as cs' =>
      if Ascii.eqb c "[" then
        match skip_while is_json_space r with
        | (c' :: r') as r0 =>
            if Ascii.eqb c' "]" then Some (JArr [], r')
            else '(vs, r1) ← parse_elements f r0; Some (JArr vs, r1)
        | [] => None
        end
      else if Ascii.eqb c "{" then
        match skip_while is_json_space r with
        | (c' :: r') as r0 =>
            if Ascii.eqb c' "}" then Some (JObj [], r')
            else '(kvs, r1) ← parse_members f r0;
                 Some (JObj (foldl (fun o kv => obj_set (fst kv) (snd kv) o) [] kvs), r1)
        | [] => None
        end
      else if Ascii.eqb c quote_char then
        '(s, r') ← parse_string_body r; Some (JStr (string_of s), r')
      else if Ascii.eqb c "-" || is_digit c then
        '(x, r') ← parse_number cs'; Some (JNum x, r')
      else
        match strip_prefix (chars_of "null") cs' with
        | Some r' => Some (JNull, r')
        | None =>
            match strip_prefix (chars_of "true") cs' with
            | Some r' => Some (JBool true, r')
            | None =>
                match strip_prefix (chars_of "false") cs' with
                | Some r' => Some (JBool false, r')
                | None => None
                end
            end
        end
  end.
Proof. done. Qed.

Lemma parse_members_eq f cs :
  parse_members (S f) cs =
  match skip_while is_json_space cs with
  | q :: r0 =>
      if Ascii.eqb q quote_char then
        '(k, r1) ← parse_string_body r0;
        match skip_while is_json_space r1 with
        | c :: r2 =>
            if Ascii.eqb c ":" then
              '(v, r3) ← parse_value f r2;
              match skip_while is_json_space r3 with
              | c' :: r4 =>
                  if Ascii.eqb c' "," then
                    '(kvs, r5) ← parse_members f r4; Some ((string_of k, v) :: kvs, r5)
                  else if Ascii.eqb c' "}" then Some ([(string_of k, v)], r4)
                  else None
              | [] => None
              end
            else None
        | [] => None
        end
      else None
  | [] => None
  end.
Proof. done. Qed.

(** The text of the members of an object. *)
Local Abbreviation member_chars :=
  (fun kv : string * json => quote_string (fst kv) ++ ":"%char :: json_chars (snd kv)).

Local Abbreviation elems_size := (fold_right (fun e n => S (json_size e + n)) O).
Local Abbreviation members_size :=
  (fold_right (fun (kv : string * json) n => S (json_size (snd kv) + n)) O).

Lemma sep_by_cons {A} (f : A → list ascii) x y l :
  sep_by [","%char] (map f (x :: y :: l)) = f x ++ ","%char :: sep_by [","%char] (map f (y :: l)).
Proof. done. Qed.

Lemma parse_printed f :
  (∀ v rest, (json_size v ≤ f)%nat → json_data v = true → number_end rest →
     parse_value f (json_chars v ++ rest) = Some (v, rest))
  ∧ (∀ l rest, l ≠ [] → (elems_size l ≤ f)%nat → forallb json_data l = true →
       parse_elements f (sep_by [","%char] (map json_chars l) ++ "]"%char :: rest)
       = Some (l, rest))
  ∧ (∀ fields rest, fields ≠ [] → (members_size fields ≤ f)%nat →
       forallb (fun kv => json_data (snd kv)) fields = true →
       parse_members f (sep_by [","%char] (map member_chars fields) ++ "}"%char :: rest)
       = Some (fields, rest)).
Proof.
  induction f as [|f (IHv & IHe & IHm)].
  { split; [|split].
    - intros v rest Hsize. destruct v; simpl in Hsize; lia.
    - intros [|x l] rest Hne Hsize; [done | simpl in Hsize; lia].
    - intros [|x l] rest Hne Hsize; [done | simpl in Hsize; lia]. }
  split; [|split].
  - intros v rest Hsize Hv Hend.
    destruct v as [|[]|x|s|l|fields]; try reflexivity.
    + cbn [json_chars json_data] in *.
      assert (is_finite x = true) as -> by (by apply andb_true_iff in Hv as [? _]).
      by apply parse_value_number.
    + cbn [json_chars]. unfold quote_string. cbn [app]. rewrite <- app_assoc.
      rewrite parse_value_eq, skip_space_head by done.
      change (Ascii.eqb quote_char "[") with false.
      change (Ascii.eqb quote_char "{") with false.
      change (Ascii.eqb quote_char quote_char) with true. cbv iota.
      change ([quote_char] ++ rest) with (quote_char :: rest).
      rewrite parse_string_quoted. cbn [mbind option_bind].
      unfold chars_of, string_of. by rewrite string_of_list_ascii_of_string.
    + cbn [json_chars json_data] in *. cbn [app]. rewrite <- app_assoc.
      rewrite parse_value_eq, skip_space_head by done.
      change (Ascii.eqb "[" "[") with true. cbv iota.
      destruct l as [|x l]; [reflexivity|].
      assert (json_data x = true) as Hx by (by apply andb_true_iff in Hv as [? _]).
      destruct (json_chars_head x Hx) as (c & r & Hc & Hsp & Hb & _).
      assert (∃ r', sep_by [","%char] (map json_chars (x :: l)) ++ ["]"%char] ++ rest
                    = c :: r') as [r' Hr'].
      { destruct l as [|y l].
        - cbn [map sep_by]. rewrite Hc. by eexists.
        - rewrite sep_by_cons, Hc. by eexists. }
      pose proof (IHe (x :: l) rest ltac:(done) ltac:(cbn [json_size] in Hsize; lia) Hv) as Hp.
      change ("]"%char :: rest) with (["]"%char] ++ rest) in Hp.
      rewrite Hr' in Hp |- *. rewrite skip_space_head by done. rewrite Hb, Hp. done.
    + cbn [json_chars json_data] in *. apply andb_true_iff in Hv as [Hord Hv].
      cbn [app]. rewrite <- app_assoc.
      rewrite parse_value_eq, skip_space_head by done.
      change (Ascii.eqb "{" "[") with false. change (Ascii.eqb "{" "{") with true. cbv iota.
      destruct fields as [|kv fields]; [reflexivity|].
      assert (∃ r', sep_by [","%char] (map member_chars (kv :: fields)) ++ ["}"%char] ++ rest
                    = quote_char :: r') as [r' Hr'].
      { destruct fields as [|y l].
        - cbn [map sep_by]. unfold quote_string. by eexists.
        - rewrite (sep_by_cons member_chars). unfold quote_string. by eexists. }
      pose proof (IHm (kv :: fields) rest ltac:(done) ltac:(cbn [json_size] in Hsize; lia) Hv) as Hp.
      change ("}"%char :: rest) with (["}"%char] ++ rest) in Hp.
      rewrite Hr' in Hp |- *. rewrite skip_space_head by done.
      change (Ascii.eqb quote_char "}") with false. cbv iota. rewrite Hp.
      cbn [mbind option_bind]. by rewrite foldl_obj_set.
  - intros l rest Hne Hsize Hl. destruct l as [|x l]; [done|].
    cbn [forallb] in Hl. apply andb_true_iff in Hl as [Hx Hl]. cbn [fold_right] in Hsize.
    rewrite parse_elements_eq.
    destruct l as [|y l].
    + cbn [map sep_by]. rewrite IHv; [|lia|done|done]. cbn [mbind option_bind].
      rewrite skip_space_head by done.
      change (Ascii.eqb "]" ",") with false. change (Ascii.eqb "]" "]") with true. done.
    + rewrite sep_by_cons. rewrite <- app_assoc. rewrite IHv; [|lia|done|done].
      cbn [mbind option_bind]. cbn [app]. rewrite skip_space_head by done.
      change (Ascii.eqb "," ",") with true. cbv iota.
      rewrite IHe; [done|done|lia|done].
  - intros fields rest Hne Hsize Hl. destruct fields as [|[k v] fields]; [done|].
    cbn [forallb snd] in Hl. apply andb_true_iff in Hl as [Hx Hl].
    cbn [fold_right snd] in Hsize.
    rewrite parse_members_eq.
    assert (∀ tail, parse_string_body (flat_map quote_chars_of (chars_of k) ++ [quote_char] ++ tail)
                    = Some (chars_of k, tail)) as Hkey.
    { intros tail. apply parse_string_quoted. }
    assert (string_of (chars_of k) = k) as Hk
      by (unfold chars_of, string_of; apply string_of_list_ascii_of_string).
    destruct fields as [|y l].
    + cbn [map sep_by fst snd]. unfold quote_string. cbn [app].
      rewrite skip_space_head by done.
      change (Ascii.eqb quote_char quote_char) with true. cbv iota.
      rewrite <- !app_assoc. rewrite Hkey. cbn [mbind option_bind]. cbn [app].
      rewrite skip_space_head by done. change (Ascii.eqb ":" ":") with true. cbv iota.
      rewrite IHv; [|lia|done|done]. cbn [mbind option_bind].
      rewrite skip_space_head by done.
      change (Ascii.eqb "}" ",") with false. change (Ascii.eqb "}" "}") with true.
      cbv iota. by rewrite Hk.
    + rewrite (sep_by_cons member_chars). cbn [fst snd]. unfold quote_string at 1. cbn [app].
      rewrite skip_space_head by done.
      change (Ascii.eqb quote_char quote_char) with true. cbv iota.
      rewrite <- !app_assoc. rewrite Hkey. cbn [mbind option_bind]. cbn [app].
      rewrite skip_space_head by done. change (Ascii.eqb ":" ":") with true. cbv iota.
      rewrite IHv; [|lia|done|done]. cbn [mbind option_bind].
      rewrite skip_space_head by done.
      change (Ascii.eqb "," ",") with true. cbv iota.
      rewrite IHm; [|done|lia|done]. cbn [mbind option_bind]. by rewrite Hk.
Qed.

Lemma sep_by_length {A} (f : A → list ascii) (size : A → nat) l :
  (∀ x, x ∈ l → (size x ≤ length (f x))%nat) →
  (fold_right (fun e n => S (size e + n)) O l ≤ S (length (sep_by [","%char] (map f l))))%nat.
Proof.
  induction l as [|x l IH]; intros H; [simpl; lia|].
  assert (size x ≤ length (f x))%nat by (apply H, list_elem_of_here).
  assert (∀ y, y ∈ l → (size y ≤ length (f y))%nat) as Hl
    by (intros y Hy; by apply H, list_elem_of_further).
  specialize (IH Hl). destruct l as [|y l].
  - cbn [map sep_by fold_right]. lia.
  - rewrite sep_by_cons. cbn [fold_right] in *. rewrite length_app. cbn [length]. lia.
Qed.

Lemma json_size_length v : (json_size v ≤ length (json_chars v))%nat.
Proof.
  remember (json_size v) as n eqn:Hn. revert v Hn.
  induction n as [n IH] using lt_wf_ind. intros v ->.
  destruct v as [|[]|x|s|l|fields]; try (cbn; lia).
  - cbn [json_size json_chars]. destruct (is_finite x) eqn:Hx; [|cbn; lia].
    destruct x as [| |m e]; try done. unfold number_chars.
    destruct (normalise m e) as [| |m' e'] eqn:Hnorm.
    + unfold normalise in Hnorm. destruct (m =? 0); [done|].
      by destruct (strip10 _ m e).
    + unfold normalise in Hnorm. destruct (m =? 0); [done|].
      by destruct (strip10 _ m e).
    + destruct (m' =? 0); [cbn; lia|].
      assert (1 ≤ length (plain_or_exp (digits (Z.abs m')) e'))%nat; [|rewrite length_app; lia].
      pose proof (digits_spec (Z.abs m') ltac:(lia)) as (_ & _ & Hlen & _).
      unfold plain_or_exp.
      destruct (digits (Z.abs m')) as [|d ds]; [simpl in Hlen; lia|].
      repeat case_match; rewrite ?length_app; cbn [length]; lia.
  - cbn [json_size json_chars length]. rewrite length_app. cbn [length].
    pose proof (sep_by_length json_chars json_size l) as H.
    assert (∀ x, x ∈ l → (json_size x ≤ length (json_chars x))%nat) as Hl.
    { intros x Hx. apply (IH (json_size x)); [|done]. cbn [json_size].
      clear -Hx. induction Hx; cbn [fold_right]; lia. }
    specialize (H Hl). lia.
  - cbn [json_size json_chars length]. rewrite length_app. cbn [length].
    pose proof (sep_by_length member_chars (fun kv => json_size (snd kv)) fields) as H.
    assert (∀ x, x ∈ fields →
              (json_size (snd x) ≤ length (member_chars x))%nat) as Hl.
    { intros x Hx. rewrite length_app. cbn [length].
      assert (json_size (snd x) ≤ length (json_chars (snd x)))%nat; [|lia].
      apply (IH (json_size (snd x))); [|done]. cbn [json_size].
      clear -Hx. induction Hx; cbn [fold_right]; lia. }
    specialize (H Hl). lia.
Qed.

(** [JSON.parse] reads back what [JSON.stringify] wrote. *)
Lemma JSON_parse_stringify v :
  json_data v = true → JSON_parse (JSON_stringify v) = Some v.
Proof.
  intros Hv. unfold JSON_parse, JSON_stringify. rewrite chars_of_string_of.
  pose proof (json_size_length v) as Hsize.
  destruct (parse_printed (2 * length (json_chars v) + 2)) as [Hp _].
  specialize (Hp v [] ltac:(lia) Hv I). rewrite app_nil_r in Hp. by rewrite Hp.
Qed.

(** ** The rows [rebuild] writes *)

(** What the loop of [rebuild] hands to the INSERT statement for a node. *)
Lemma extract_row_inv docsMap ts node r :
  (extract_row docsMap ts node).2 = Some r →
  let nodeClass := NodeClass_of node in
  let descr := getNodeDescription nodeClass in
  extractNodeType descr (packageName node) = Some (JStr (node_type r))
  ∧ package_name r = Some (packageName node)
  ∧ extractDocumentation descr (JStr (node_type r)) docsMap = Some (documentation r)
  ∧ properties_schema r = stringified (prop "properties" descr)
  ∧ extractOperations descr = Some (operations r)
  ∧ credentials_required r = stringified (prop "credentials" descr)
  ∧ version r = Some (extractVersion nodeClass)
  ∧ is_versioned r = bool_int (isVersionedNode nodeClass)
  ∧ bind_text (or_else (opt_first (prop "group" descr)) (JStr "misc")) = Some (category r)
  ∧ bind_text (or_else (prop "description" descr) (JStr "")) = Some (description r)
  ∧ bind_text (or_else (js_or (prop "displayName" descr) (prop "name" descr))
                       (JStr (nodeName node))) = Some (display_name r)
  ∧ (is_ai_tool r = 0 ∧ is_tool_variant r = 0 ∧ has_tool_variant r = 0)
  ∧ (outputs r = None ∧ output_names r = None ∧ base_node_type r = None
     ∧ tool_variant_of r = None)
  ∧ updated_at r = Some ts
  ∧ (∃ b, is_trigger r = bool_int b) ∧ (∃ b, is_webhook r = bool_int b)
  ∧ (development_style r = Some "declarative" ∨ development_style r = Some "programmatic").
Proof.
  unfold extract_row.
  destruct (extractNodeType _ _) as [nodeType|] eqn:Htype; [|done].
  destruct (extractDocumentation _ _ _) as [doc|] eqn:Hdoc; [|done].
  cbn [snd]. intros H. bind_inv H.
  destruct nodeType; try discriminate. simplify_eq.
  repeat split; try done; try (by eexists); cbn;
    unfold stringified; repeat case_match; auto.
Qed.

(** ** Payloads written by [rebuild] and read by [getNodeInfo] *)

Lemma JSON_stringify_nonempty v : json_data v = true → nonempty (JSON_stringify v) = Some (JSON_stringify v).
Proof.
  intros Hv. destruct (json_chars_head v Hv) as (c & r & Hc & _).
  unfold JSON_stringify. by rewrite Hc.
Qed.

Lemma parsed_stringified v :
  truthy (Some v) = true → json_data v = true → parsed (stringified (Some v)) = Some v.
Proof.
  intros Ht Hv. unfold parsed, payload, stringified. rewrite Ht. cbn [mbind option_bind].
  rewrite JSON_stringify_nonempty by done. cbn [mbind option_bind].
  by apply JSON_parse_stringify.
Qed.

Lemma parsed_stringified_falsy v : truthy v = false → parsed (stringified v) = None.
Proof. intros Ht. unfold stringified. destruct v; [|done]. by rewrite Ht. Qed.

(** X1.  The properties, the credentials and the operations of a node
    description that [rebuild] stores as JSON text are what [getNodeInfo]
    returns as [properties], [credentials] and [operations_list], when they
    are JSON data; and a description without them gets none of the three
    fields. *)
Theorem stored_payloads_read_back (docsMap : gmap string string) (ts : string)
    (node : LoadedNode) (row : NodeRow) (db : Database) (nodeType : string) :
  (extract_row docsMap ts node).2 = Some row →
  select_by_type (nodes db) (replace nodeType "n8n-nodes-base." "nodes-base.") = Some row →
  let descr := getNodeDescription (NodeClass_of node) in
  ∃ result,
    (getNodeInfo db nodeType).1 = Some result
    ∧ (∀ p, prop "properties" descr = Some p → truthy (Some p) = true →
            json_data p = true → result !! "properties" = Some p)
    ∧ (∀ c, prop "credentials" descr = Some c → truthy (Some c) = true →
            json_data c = true → result !! "credentials" = Some c)
    ∧ (∀ l field options,
         prop "properties" descr = Some (JArr l) →
         find_operation_field l = Some (Some field) →
         opt_prop "options" (Some field) = Some options →
         truthy (Some options) = true → json_data options = true →
         result !! "operations_list" = Some options)
    ∧ (truthy (prop "properties" descr) = false →
         result !! "properties" = None ∧ result !! "operations_list" = None)
    ∧ (truthy (prop "credentials" descr) = false → result !! "credentials" = None).
Proof.
  intros Hrow Hsel descr.
  destruct (extract_row_inv _ _ _ _ Hrow) as (_ & _ & _ & Hp & Ho & Hc & _).
  fold descr in Hp, Ho, Hc.
  destruct (getNodeInfo_fields _ _ _ Hsel) as (result & Hget & _ & Hrp & Hro & Hrc & _).
  exists result. rewrite Hget. split; [done|].
  rewrite Hrp, Hro, Hrc, Hp, Hc. clear Hrp Hro Hrc Hp Hc Hget.
  split; [|split; [|split; [|split]]].
  - intros p -> Ht Hv. by apply parsed_stringified.
  - intros c -> Ht Hv. by apply parsed_stringified.
  - intros l field options Hprops Hfield Hoptions Ht Hv.
    unfold extractOperations in Ho. rewrite Hprops in Ho.
    change (truthy (Some (JArr l))) with true in Ho. cbn [negb] in Ho.
    rewrite Hfield in Ho. cbn [mbind option_bind] in Ho. rewrite Hoptions, Ht in Ho.
    injection Ho as <-. pose proof (parsed_stringified options Ht Hv) as Hps.
    unfold stringified in Hps. by rewrite Ht in Hps.
  - intros Ht. split; [by apply parsed_stringified_falsy|].
    unfold extractOperations in Ho. rewrite Ht in Ho. by injection Ho as <-.
  - intros Ht. by apply parsed_stringified_falsy.
Qed.

(** X1 at a concrete input: the row written for the class [sheets_class] is
    read back with its property list, its credentials and the options of its
    resource selector. *)
Lemma stored_payloads_read_back_witness :
  ∃ result,
    (getNodeInfo sheets_db "n8n-nodes-base.googleSheets").1 = Some result
    ∧ result !! "properties"
      = Some (JArr [JObj [("displayName", JStr "Resource");
                          ("name", JStr "resource");
                          ("type", JStr "options");
                          ("options",
                           JArr [JObj [("name", JStr "Sheet"); ("value", JStr "sheet")]]);
                          ("default", JStr "sheet")]])
    ∧ result !! "credentials"
      = Some (JArr [JObj [("name", JStr "googleApi"); ("required", JBool true)]])
    ∧ result !! "operations_list"
      = Some (JArr [JObj [("name", JStr "Sheet"); ("value", JStr "sheet")]]).
Proof.
  assert ((extract_row ∅ "2025-01-01 00:00:00" sheets_node).2 = Some sheets_row) as Hrow
    by (vm_compute; reflexivity).
  assert (select_by_type (nodes sheets_db)
            (replace "n8n-nodes-base.googleSheets" "n8n-nodes-base." "nodes-base.")
          = Some sheets_row) as Hsel by (vm_compute; reflexivity).
  destruct (stored_payloads_read_back ∅ "2025-01-01 00:00:00" sheets_node sheets_row
              sheets_db "n8n-nodes-base.googleSheets" Hrow Hsel)
    as (result & Hget & Hp & Hc & Ho & _).
  exists result. split; [exact Hget|]. split; [|split].
  - exact (Hp _ eq_refl eq_refl eq_refl).
  - exact (Hc _ eq_refl eq_refl eq_refl).
  - exact (Ho _ _ _ eq_refl eq_refl eq_refl eq_refl eq_refl).
Defined.

(** ** A single version *)

(** [parseFloat] reads a printed number back. *)
Lemma parseFloat_printed x :
  finite_number x = true → parseFloat (number_to_string x) = x.
Proof.
  intros Hx. destruct (parse_number_printed x [] Hx I) as [Hp (c & r & Hc & Hs)].
  rewrite app_nil_r in Hp. apply parse_number_scan in Hp.
  unfold parseFloat, number_to_string. rewrite chars_of_string_of.
  rewrite Hc in *. rewrite (skip_js_space_start c r Hs). by rewrite Hp.
Qed.

Lemma JSON_parse_number x :
  finite_number x = true → JSON_parse (number_to_string x) = Some (JNum x).
Proof.
  intros Hx. pose proof (JSON_parse_stringify (JNum x) Hx) as H.
  unfold JSON_stringify in H. cbn [json_chars] in H.
  by assert (is_finite x = true) as Hf by (by apply andb_true_iff in Hx as [? _]);
    rewrite Hf in H.
Qed.

Lemma number_to_string_nonempty x :
  finite_number x = true → String.eqb (number_to_string x) "" = false.
Proof.
  intros Hx. destruct (parse_number_printed x [] Hx I) as [_ (c & r & Hc & _)].
  unfold number_to_string. by rewrite Hc.
Qed.

(** X2.  A node class whose description declares one version, a finite
    number [v], is stored with the decimal text of [v] as its version, and
    [getNodeInfo] reads that text back as the one-element list [versions]
    holding [v], with [latest_version] equal to [v]. *)
Theorem single_version_read_back (nodeClass : NodeClass) (instance : Instance) (v : jsnum)
    (db : Database) (nodeType : string) (row : NodeRow) :
  js_new nodeClass = Some instance →
  truthy (inst_nodeVersions instance) = false →
  opt_prop "version" (js_or (inst_description instance) (inst_baseDescription instance))
  = Some (JNum v) →
  finite_number v = true →
  select_by_type (nodes db) (replace nodeType "n8n-nodes-base." "nodes-base.") = Some row →
  version row = Some (extractVersion nodeClass) →
  extractVersion nodeClass = number_to_string v
  ∧ ∃ result,
      (getNodeInfo db nodeType).1 = Some result
      ∧ result !! "versions" = Some (JArr [JNum v])
      ∧ result !! "latest_version" = Some (JNum v).
Proof.
  intros Hnew Hnv Hversion Hv Hsel Hrow.
  assert (extractVersion nodeClass = number_to_string v) as Hext.
  { unfold extractVersion. rewrite Hnew.
    assert (declared_version instance = number_to_string v) as Hdecl.
    { unfold declared_version. rewrite Hversion. cbn [to_str].
      by rewrite number_to_string_nonempty. }
    destruct (inst_nodeVersions instance) as [nodeVersions|]; [|done]. by rewrite Hnv. }
  split; [done|].
  destruct (getNodeInfo_fields _ _ _ Hsel) as (result & Hget & _ & _ & _ & _ & Hvs & Hlatest).
  exists result. rewrite Hget. split; [done|].
  rewrite Hvs, Hlatest, Hrow, Hext. unfold payload, nonempty. cbn [mbind option_bind].
  rewrite number_to_string_nonempty by done. cbn [mbind option_bind].
  rewrite JSON_parse_number by done. by rewrite parseFloat_printed.
Qed.

(** X2 at a concrete input: version 4.5 of [sheets_class] is stored as
    ["4.5"] and read back as [[4.5]]. *)
Lemma single_version_read_back_witness :
  extractVersion sheets_class = "4.5"
  ∧ ∃ result,
      (getNodeInfo sheets_db "nodes-base.googleSheets").1 = Some result
      ∧ result !! "versions" = Some (JArr [JNum (Fin 45 (-1))])
      ∧ result !! "latest_version" = Some (JNum (Fin 45 (-1))).
Proof.
  assert (select_by_type (nodes sheets_db)
            (replace "nodes-base.googleSheets" "n8n-nodes-base." "nodes-base.")
          = Some sheets_row) as Hsel by (vm_compute; reflexivity).
  assert (version sheets_row = Some (extractVersion sheets_class)) as Hrow
    by (vm_compute; reflexivity).
  destruct (single_version_read_back sheets_class _ (Fin 45 (-1)) sheets_db
              "nodes-base.googleSheets" sheets_row eq_refl eq_refl eq_refl eq_refl Hsel Hrow)
    as (Hext & result & Hget & Hvs & Hlatest).
  split; [exact Hext|]. exists result. split; [exact Hget|]. split; [exact Hvs | exact Hlatest].
Defined.

(** ** Categories and statistics *)

Lemma elem_of_list_filter {A} (P : A → bool) l x :
  x ∈ List.filter P l ↔ x ∈ l ∧ P x = true.
Proof. rewrite !list_elem_of_In. apply filter_In. Qed.

Lemma remove_dups_length_le `{EqDecision A} (l : list A) :
  (length (remove_dups l) ≤ length l)%nat.
Proof.
  induction l as [|x l IH]; [done|]. cbn [remove_dups].
  destruct (decide_rel elem_of x l); cbn [length]; lia.
Qed.

(** X3.  [getCategories] returns every category that some node has, once,
    in increasing (bytewise) order, and nothing else; nodes without a
    category contribute nothing. *)
Theorem categories_listing (db : Database) :
  NoDup (getCategories db)
  ∧ StronglySorted (key_le Some) (getCategories db)
  ∧ (∀ c, c ∈ getCategories db ↔ ∃ r, r ∈ nodes db ∧ category r = Some c)
  ∧ (length (getCategories db) ≤ length (nodes db))%nat.
Proof.
  unfold getCategories.
  pose proof (order_by_perm (A := string) Some (remove_dups (omap category (nodes db)))) as Hperm.
  split; [|split; [|split]].
  - rewrite Hperm. apply NoDup_remove_dups.
  - apply order_by_strongly_sorted.
  - intros c. rewrite Hperm, elem_of_remove_dups, list_elem_of_omap.
    split; intros (r & ? & ?); eauto.
  - rewrite Hperm. etransitivity; [apply remove_dups_length_le|apply omap_length_le].
Qed.

Lemma category_where_spec c r : category_where c r = true ↔ category r = Some c.
Proof. unfold category_where. apply bool_decide_eq_true. Qed.

(** X4.  The objects [getNodesByCategory] returns are those of exactly the
    rows whose category is the string asked for (a row without a category
    is never returned), one for each such row, with all the columns of the
    row: each object has that string as [category]; the objects are ordered
    by their [display_name] ([null] first, then bytewise); for a category
    no node has, the result is empty; and every object returned for ['AI']
    is also among those [getAINodes] returns. *)
Theorem nodes_by_category (db : Database) (c : string) :
  let result := getNodesByCategory db c in
  (∃ rows,
     Forall2 row_object rows result
     ∧ rows ≡ₚ filter (λ r, category r = Some c) (nodes db))
  ∧ (∀ o, o ∈ result → o !! "category" = Some (JStr c))
  ∧ (∀ r, r ∈ nodes db → category r = Some c → ∃ o, o ∈ result ∧ row_object r o)
  ∧ StronglySorted display_name_le result
  ∧ ((∀ r, r ∈ nodes db → category r ≠ Some c) → result = [])
  ∧ (∀ o, o ∈ getNodesByCategory db "AI" → o ∈ getAINodes db).
Proof.
  intros result.
  assert (∀ c', category_rows db c' ≡ₚ filter (λ r, category r = Some c') (nodes db))
    as Hperm.
  { intros c'. unfold category_rows. rewrite order_by_perm.
    by rewrite (list_filter_bool (category_where c') _ _ (category_where_spec c')). }
  assert (∀ c' r, r ∈ category_rows db c' ↔ r ∈ nodes db ∧ category r = Some c') as Hin.
  { intros c' r. rewrite Hperm, list_elem_of_filter. tauto. }
  split; [|split; [|split; [|split; [|split]]]].
  - exists (category_rows db c). split; [|done].
    apply Forall2_fmap_r, Forall_Forall2_diag, Forall_forall.
    intros r _. apply select_star_columns.
  - intros o (r & -> & Hr)%list_elem_of_fmap. apply Hin in Hr as [_ Hr].
    destruct (select_star_columns r) as (_ & _ & _ & _ & -> & _). by rewrite Hr.
  - intros r Hr Hc. exists (select_star r). split; [|apply select_star_columns].
    apply list_elem_of_fmap. exists r. split; [done|]. by apply Hin.
  - apply (StronglySorted_objects (λ a b, text_leb (display_name a) (display_name b) = true)).
    + apply display_name_le_objects.
    + apply order_by_strongly_sorted.
  - intros Hnone. subst result. unfold getNodesByCategory.
    destruct (category_rows db c) as [|r rows] eqn:Hrows; [done|].
    assert (r ∈ category_rows db c) as [Hr Hc]%Hin by (rewrite Hrows; apply list_elem_of_here).
    by destruct (Hnone r Hr).
  - intros o (r & -> & [Hr Hc]%Hin)%list_elem_of_fmap.
    apply list_elem_of_fmap. exists r. split; [done|]. unfold ai_rows.
    rewrite order_by_perm. apply elem_of_list_filter. split; [done|].
    unfold ai_where. rewrite Hc. rewrite bool_decide_eq_true_2 by done. apply orb_true_r.
Qed.

(** X4 at a concrete input: of the three example rows, the listing of the
    category ['AI'] has the agent alone, with all its columns, and the
    listing of ['transform'] has the calculator. *)
Lemma nodes_by_category_witness :
  (λ o : gmap string json, o !! "display_name") <$> getNodesByCategory ai_db "AI"
  = [Some (JStr "AI Agent")]
  ∧ (λ o : gmap string json, o !! "node_type") <$> getNodesByCategory ai_db "transform"
    = [Some (JStr "nodes-langchain.toolCalculator")]
  ∧ getNodesByCategory ai_db "ai" = []
  ∧ ∃ o, o ∈ getNodesByCategory ai_db "AI" ∧ row_object agent_row o.
Proof.
  destruct (nodes_by_category ai_db "AI") as (_ & _ & Hall & _).
  split; [reflexivity|]. split; [reflexivity|]. split; [reflexivity|].
  apply Hall; [|reflexivity].
  apply list_elem_of_further, list_elem_of_further, list_elem_of_here.
Defined.

(** ** Statistics *)

Lemma list_filter_cons {A} (P : A → bool) x l :
  List.filter P (x :: l) = if P x then x :: List.filter P l else List.filter P l.
Proof. done. Qed.

Lemma sum_counts {A} `{EqDecision K} (key : A → K) (ks : list K) (t : list A) :
  NoDup ks → (∀ r, r ∈ t → key r ∈ ks) →
  sum_list ((fun k => length (List.filter (fun r => bool_decide (key r = k)) t)) <$> ks)
  = length t.
Proof.
  intros Hnd. induction t as [|x t IH]; intros Hks.
  - cbn [List.filter length]. clear. induction ks as [|k ks IH]; [done|].
    cbn [fmap list_fmap sum_list]. by rewrite IH.
  - assert (key x ∈ ks) as Hx by apply Hks, list_elem_of_here.
    specialize (IH (λ r Hr, Hks r (list_elem_of_further _ _ _ Hr))).
    cbn [length]. rewrite <- IH. clear IH Hks.
    induction ks as [|k ks IHk]; [by apply elem_of_nil in Hx|].
    apply NoDup_cons in Hnd as [Hk Hnd]. rewrite !fmap_cons. cbn [sum_list].
    rewrite list_filter_cons.
    destruct (decide (key x = k)) as [Heq|Hne].
    + rewrite bool_decide_eq_true_2 by done. cbn [length].
      assert (sum_list ((fun k' => length (List.filter (fun r => bool_decide (key r = k')) (x :: t))) <$> ks)
              = sum_list ((fun k' => length (List.filter (fun r => bool_decide (key r = k')) t)) <$> ks)) as Hrest.
      { clear IHk Hnd Hx. induction ks as [|k' ks IH]; [done|].
        apply not_elem_of_cons in Hk as [Hne Hk].
        rewrite !fmap_cons. cbn [sum_list]. rewrite list_filter_cons.
        rewrite bool_decide_eq_false_2 by congruence. by rewrite IH. }
      rewrite Hrest. unfold id. lia.
    + rewrite bool_decide_eq_false_2 by done.
      apply elem_of_cons in Hx as [?|Hx]; [done|].
      rewrite (IHk Hnd Hx). unfold id. lia.
Qed.

Lemma list_filter_true {A} (l : list A) : List.filter (fun _ => true) l = l.
Proof. induction l as [|x l IH]; [done|]. cbn [List.filter]. by rewrite IH. Qed.

Lemma list_filter_length {A} (P : A → bool) l : (length (List.filter P l) ≤ length l)%nat.
Proof. induction l as [|x l IH]; [done|]. cbn [List.filter]. destruct (P x); cbn [length]; lia. Qed.

(** X5.  In the statistics, [totalNodes] is the number of rows; [byPackage]
    has one entry for each package name that occurs, with the number of
    its rows, which is at least one; these numbers add up to [totalNodes];
    and [aiNodes] counts the rows flagged as AI tools, so it is at most
    [totalNodes]. *)
Theorem statistics_consistent (db : Database) :
  let stats := getStatistics db in
  totalNodes stats = length (nodes db)
  ∧ sum_list (snd <$> byPackage stats) = totalNodes stats
  ∧ NoDup (fst <$> byPackage stats)
  ∧ (∀ p n, (p, n) ∈ byPackage stats ↔
       (∃ r, r ∈ nodes db ∧ package_name r = p)
       ∧ n = length (List.filter (fun r => bool_decide (package_name r = p)) (nodes db)))
  ∧ (∀ p n, (p, n) ∈ byPackage stats → (1 ≤ n)%nat)
  ∧ (aiNodes stats ≤ totalNodes stats)%nat
  ∧ ((∀ r, r ∈ nodes db → is_ai_tool r = 0) → aiNodes stats = 0%nat).
Proof.
  intros stats. subst stats. unfold getStatistics. cbn [totalNodes byPackage aiNodes].
  unfold sql_count, group_by_package. rewrite list_filter_true.
  set (t := nodes db).
  pose proof (order_by_perm (A := option string) id (remove_dups (package_name <$> t))) as Hperm.
  set (ks := order_by id (remove_dups (package_name <$> t))) in *.
  assert (NoDup ks) as Hnd by (rewrite Hperm; apply NoDup_remove_dups).
  assert (∀ p, p ∈ ks ↔ ∃ r, r ∈ t ∧ package_name r = p) as Hks.
  { intros p. rewrite Hperm, elem_of_remove_dups, list_elem_of_fmap.
    split; intros (r & ? & ?); eauto. }
  assert (∀ p n, (p, n) ∈ (fun p => (p, length (List.filter (fun r => bool_decide (package_name r = p)) t))) <$> ks
           ↔ (∃ r, r ∈ t ∧ package_name r = p)
             ∧ n = length (List.filter (fun r => bool_decide (package_name r = p)) t)) as Hin.
  { intros p n. rewrite list_elem_of_fmap. split.
    - intros (p' & [= -> ->] & Hp). by rewrite <- Hks.
    - intros [Hp ->]. exists p. by rewrite Hks. }
  split; [done|]. split; [|split; [|split; [|split; [|split]]]].
  - rewrite <- list_fmap_compose. by apply (sum_counts package_name); [|intros r Hr; apply Hks; eauto].
  - rewrite <- list_fmap_compose. by rewrite list_fmap_id.
  - exact Hin.
  - intros p n [(r & Hr & Hp) ->]%Hin.
    assert (r ∈ List.filter (fun r => bool_decide (package_name r = p)) t) as Hmem
      by (apply elem_of_list_filter; split; [done | by apply bool_decide_eq_true]).
    destruct (List.filter _ t); [by apply elem_of_nil in Hmem | cbn [length]; lia].
  - apply list_filter_length.
  - intros Hzero. clearbody t. clear -Hzero. induction t as [|r t IH]; [done|].
    cbn [List.filter]. rewrite (Hzero r) by apply list_elem_of_here.
    change (0 =? 1) with false. cbv iota. apply IH. intros r' Hr'. by apply Hzero, list_elem_of_further.
Qed.

(** ** The version a database was built for *)

Lemma version_number_tag v : version_number ("n8n@" +:+ v) = v.
Proof.
  unfold version_number. rewrite chars_of_app.
  change (chars_of "n8n@") with ["n"; "8"; "n"; "@"]%char. cbn [app strip_prefix].
  change (Ascii.eqb "n" "n") with true. change (Ascii.eqb "8" "8") with true.
  change (Ascii.eqb "@" "@") with true. cbv iota. apply string_of_chars_of.
Qed.

(** X6.  The version [rebuild] records is the one [getDatabaseVersion]
    reports: for the target [n8n@v] it is [v]; without the variable
    N8N_VERSION it is [2.0.3]; and for the target [n8n@], whose version
    number is empty, the service reports no version at all.  Nothing is
    logged. *)
Theorem database_version_round_trip (E : Env) (old : Database) :
  let c := {| is_open := true; file := db_file (rebuild E old) |} in
  getDatabaseVersion c = (nonempty (version_number (N8N_VERSION E)), [])
  ∧ (∀ v, N8N_VERSION E = "n8n@" +:+ v → v ≠ "" → (getDatabaseVersion c).1 = Some v)
  ∧ (N8N_VERSION E = target_version None → (getDatabaseVersion c).1 = Some "2.0.3")
  ∧ (N8N_VERSION E = "n8n@" → (getDatabaseVersion c).1 = None).
Proof.
  intros c.
  assert (getDatabaseVersion c = (nonempty (version_number (N8N_VERSION E)), [])) as Hget.
  { unfold getDatabaseVersion, database_version, c, metadata_table_exists, select_metadata, db_file.
    cbn [is_open file file_metadata mbind option_bind].
    rewrite bool_decide_eq_true_2 by eauto. cbn [negb mbind option_bind].
    unfold rebuild. cbn [metadata fmap list_fmap fst snd assoc].
    change (String.eqb "n8n_version" "n8n_version") with true. cbv iota.
    cbn [mbind option_bind id]. done. }
  rewrite Hget. cbn [fst]. split; [done|]. split; [|split].
  - intros v -> Hv. rewrite version_number_tag. unfold nonempty.
    destruct (String.eqb v "") eqn:Heq; [|done]. by apply string_eqb_eq in Heq.
  - by intros ->.
  - by intros ->.
Qed.

(** ** Opening and closing the service *)

(** X7.  The constructor succeeds exactly when the nodes database can be
    opened: the templates database is optional, and when it cannot be
    opened a warning is logged and [templatesDb] stays undefined.  On such a
    service [close] throws, after it has closed the nodes database; with
    both databases open it closes both and returns.  On the closed
    connection [getDatabaseVersion] does not throw: it logs an error and
    reports no version. *)
Theorem service_open_close (files : string → option DbFile)
    (default_db default_templates : string) (dbPath templatesDbPath : option string) :
  let created := new_N8nNodeService files default_db default_templates dbPath templatesDbPath in
  let nodes_path := string_or dbPath default_db in
  let templates_path := string_or templatesDbPath default_templates in
  (is_Some created.1 ↔ is_Some (files nodes_path))
  ∧ (files nodes_path = None → (Error, "Failed to connect to databases:") ∈ created.2)
  ∧ (∀ s, created.1 = Some s →
       is_open (db s) = true
       ∧ (files templates_path = None →
            templatesDb s = None
            ∧ (Warn, "Templates database not found, template features will be unavailable")
              ∈ created.2
            ∧ (close s).2 = None)
       ∧ (is_Some (files templates_path) →
            (close s).2 = Some tt
            ∧ (is_open <$> templatesDb (close s).1) = Some false)
       ∧ is_open (db (close s).1) = false
       ∧ getDatabaseVersion (db (close s).1)
         = (None, [(Error, "Failed to get database version:")])).
Proof.
  intros created nodes_path templates_path. subst created.
  unfold new_N8nNodeService. fold nodes_path templates_path. unfold open_readonly.
  destruct (files nodes_path) as [f|] eqn:Hf; cbn [mbind option_bind].
  - destruct (files templates_path) as [t|] eqn:Ht; cbn [mbind option_bind fst snd].
    + split; [split; eauto|]. split; [done|]. intros s [= <-]. cbn [db templatesDb is_open].
      split; [done|]. split; [done|]. split; [done|]. done.
    + split; [split; eauto|]. split; [done|]. intros s [= <-]. cbn [db templatesDb is_open].
      split; [done|]. split.
      * intros _. split; [done|]. split; [|done].
        rewrite elem_of_app. right. apply list_elem_of_here.
      * split; [by intros [? ?]|]. done.
  - cbn [fst snd]. split; [split; intros [? ?]; done|]. split; [|done].
    intros _. rewrite elem_of_app. right. apply list_elem_of_here.
Qed.

(** ** Documentation fetched for the popular nodes *)

Section FetchDocs.
Context (fetch : Network) (versionTag : string).

Local Abbreviation step :=
  (fun (docsMap : gmap string string) (node : string * string) =>
     match fetch (("https://raw.githubusercontent.com/n8n-io/n8n/" +:+ versionTag)
                    +:+ "/packages/nodes-base/nodes/" +:+ node.1 +:+ "/README.md") with
     | Some response =>
         if ok response then <[node.2 := body response]> docsMap else docsMap
     | None => docsMap
     end).

Lemma fetch_step_other l : ∀ (m : gmap string string) k,
  k ∉ l.*2 → foldl step m l !! k = m !! k.
Proof.
  induction l as [|n l IH]; intros m k Hk; [done|].
  rewrite fmap_cons in Hk. apply not_elem_of_cons in Hk as [Hne Hk].
  cbn [foldl]. rewrite IH by done.
  destruct (fetch _) as [response|]; [|done]. destruct (ok response); [|done].
  by rewrite lookup_insert_ne.
Qed.

Lemma fetch_step_lookup l : ∀ (m : gmap string string) path type,
  NoDup l.*2 → (path, type) ∈ l →
  foldl step m l !! type
  = match fetched_text (fetch (readme_url versionTag path)) with
    | Some text => Some text
    | None => m !! type
    end.
Proof.
  induction l as [|n l IH]; intros m path type Hnd Hin; [by apply elem_of_nil in Hin|].
  rewrite fmap_cons in Hnd. apply NoDup_cons in Hnd as [Hn Hnd].
  cbn [foldl]. apply elem_of_cons in Hin as [<-|Hin].
  - rewrite fetch_step_other by done. cbn [fst snd]. unfold fetched_text, readme_url.
    destruct (fetch _) as [response|]; [|done]. destruct (ok response); [|done].
    by rewrite lookup_insert_eq.
  - rewrite (IH _ path type Hnd Hin).
    destruct (fetched_text _); [done|].
    assert (n.2 ≠ type) as Hne.
    { intros <-. apply Hn. apply list_elem_of_fmap. by exists (path, n.2). }
    destruct (fetch _) as [response|]; [|done]. destruct (ok response); [|done].
    by rewrite lookup_insert_ne.
Qed.
End FetchDocs.

Lemma popularNodes_NoDup : NoDup popularNodes.*2.
Proof. apply (bool_decide_unpack (NoDup popularNodes.*2)). by vm_compute. Qed.

Lemma popularNodes_not_agent : "nodes-langchain.agent" ∉ popularNodes.*2.
Proof. apply (bool_decide_unpack ("nodes-langchain.agent" ∉ popularNodes.*2)). by vm_compute. Qed.

Lemma popularNodes_not_unknown : "unknown" ∉ popularNodes.*2.
Proof. apply (bool_decide_unpack ("unknown" ∉ popularNodes.*2)). by vm_compute. Qed.

Lemma fetched_docs_keys fetch versionTag k :
  is_Some (fetchDocumentationFromGitHub fetch versionTag !! k) →
  k ∈ popularNodes.*2 ∨ k = "nodes-langchain.agent".
Proof.
  intros Hk. destruct (decide (k = "nodes-langchain.agent")) as [|Hne]; [by right|]. left.
  destruct (decide (k ∈ popularNodes.*2)) as [|Hnot]; [done|]. exfalso.
  unfold fetchDocumentationFromGitHub in Hk.
  pose proof (fetch_step_other fetch versionTag popularNodes ∅ k Hnot) as Hpop.
  rewrite lookup_empty in Hpop.
  repeat case_match; rewrite ?lookup_insert_ne in Hk by done; rewrite Hpop in Hk;
    by destruct Hk.
Qed.

(** X8.  [fetchDocumentationFromGitHub] has, for each popular node, the
    text of its README exactly when that README was fetched with an OK
    status, whatever happened to the other fetches; the entry of the AI
    agent is its README or else the package README under a heading; there
    are no other entries, so that nothing is ever recorded for ['unknown'];
    and without a network the map is empty. *)
Theorem documentation_fetch (fetch : Network) (versionTag : string) :
  let docsMap := fetchDocumentationFromGitHub fetch versionTag in
  let base := "https://raw.githubusercontent.com/n8n-io/n8n/" +:+ versionTag in
  (∀ path type, (path, type) ∈ popularNodes →
     docsMap !! type = fetched_text (fetch (readme_url versionTag path)))
  ∧ docsMap !! "nodes-langchain.agent"
    = match fetch (base +:+ "/packages/@n8n/n8n-nodes-langchain/nodes/agent/Agent/README.md") with
      | Some response =>
          if ok response then Some (body response)
          else (fun text => "# AI Agent" +:+ nl +:+ nl +:+ text)
                 <$> fetched_text (fetch (base +:+ "/packages/@n8n/n8n-nodes-langchain/README.md"))
      | None => None
      end
  ∧ (∀ k, is_Some (docsMap !! k) → k ∈ popularNodes.*2 ∨ k = "nodes-langchain.agent")
  ∧ docsMap !! "unknown" = None
  ∧ ((∀ url, fetch url = None) → docsMap = ∅).
Proof.
  intros docsMap base.
  assert (∀ path type, (path, type) ∈ popularNodes → type ≠ "nodes-langchain.agent") as Hagent.
  { intros path type Hin ->. apply popularNodes_not_agent. apply list_elem_of_fmap.
    by exists (path, "nodes-langchain.agent"). }
  assert (∀ path type, (path, type) ∈ popularNodes →
            docsMap !! type = fetched_text (fetch (readme_url versionTag path))) as Hpopular.
  { intros path type Hin. specialize (Hagent _ _ Hin).
    pose proof (fetch_step_lookup fetch versionTag popularNodes ∅ path type
                  popularNodes_NoDup Hin) as Hpop.
    rewrite lookup_empty in Hpop.
    subst docsMap. unfold fetchDocumentationFromGitHub.
    assert (foldl _ ∅ popularNodes !! type = fetched_text (fetch (readme_url versionTag path)))
      as Hlook by (rewrite Hpop; by destruct (fetched_text _)).
    repeat case_match; rewrite ?lookup_insert_ne by done; auto. }
  assert (docsMap !! "nodes-langchain.agent"
          = match fetch (base +:+ "/packages/@n8n/n8n-nodes-langchain/nodes/agent/Agent/README.md") with
            | Some response =>
                if ok response then Some (body response)
                else (fun text => "# AI Agent" +:+ nl +:+ nl +:+ text)
                       <$> fetched_text (fetch (base +:+ "/packages/@n8n/n8n-nodes-langchain/README.md"))
            | None => None
            end) as Hagent_doc.
  { pose proof (fetch_step_other fetch versionTag popularNodes ∅ _ popularNodes_not_agent) as Hpop.
    rewrite lookup_empty in Hpop.
    subst docsMap base. unfold fetchDocumentationFromGitHub, fetched_text.
    repeat case_match; simplify_eq; rewrite ?lookup_insert_eq; try done;
      cbn [fmap option_fmap option_map]; try done. }
  split; [done|]. split; [done|]. split; [apply fetched_docs_keys|]. split.
  - destruct (docsMap !! "unknown") eqn:Hk; [|done].
    destruct (fetched_docs_keys fetch versionTag "unknown") as [Hin|]; [by eexists| |done].
    by destruct (popularNodes_not_unknown Hin).
  - intros Hoff. apply map_eq. intros k. rewrite lookup_empty.
    destruct (docsMap !! k) as [text|] eqn:Hk; [exfalso|done].
    destruct (fetched_docs_keys fetch versionTag k) as [Hin| ->]; [by eexists| |].
    + apply list_elem_of_fmap in Hin as ([path type] & Heq & Hin). cbn [snd] in Heq. subst k.
      rewrite (Hpopular _ _ Hin), Hoff in Hk. done.
    + rewrite Hagent_doc, Hoff in Hk. done.
Qed.


(** ** The rows of a rebuilt database *)

Lemma elem_of_build_table rows r : r ∈ build_table rows → r ∈ rows.
Proof.
  induction rows as [|x rows IH] using rev_ind; [done|].
  rewrite build_table_snoc, elem_of_insert_or_replace, elem_of_app, list_elem_of_singleton.
  intros [->|[Hr _]]; auto.
Qed.

Lemma elem_of_rows_from E docsMap nodes : ∀ i r,
  r ∈ rows_from E docsMap i nodes →
  ∃ node j, node ∈ nodes ∧ (extract_row docsMap (current_timestamp E j) node).2 = Some r.
Proof.
  induction nodes as [|node nodes IH]; intros i r Hr; [by apply elem_of_nil in Hr|].
  cbn [rows_from] in Hr.
  destruct (extract_row docsMap (current_timestamp E i) node).2 as [r'|] eqn:Hrow.
  - apply elem_of_cons in Hr as [->|Hr].
    + exists node, i. split; [apply list_elem_of_here | done].
    + destruct (IH _ _ Hr) as (node' & j & Hin & Hj). exists node', j.
      split; [by apply list_elem_of_further | done].
  - destruct (IH _ _ Hr) as (node' & j & Hin & Hj). exists node', j.
    split; [by apply list_elem_of_further | done].
Qed.

(** Every row of a rebuilt table was written by the loop for a loaded node. *)
Lemma rebuilt_row_origin E old r :
  r ∈ nodes (rebuild E old) →
  ∃ node j,
    node ∈ (loadAllNodes (modules E)).1
    ∧ (extract_row (fetchDocumentationFromGitHub (fetch E) (N8N_VERSION E))
                   (current_timestamp E j) node).2 = Some r.
Proof.
  rewrite rebuild_nodes. intros Hr%elem_of_build_table. by apply elem_of_rows_from in Hr.
Qed.

Lemma load_node_package M pn pp nodePath node :
  load_node M pn pp nodePath = Some (Some node) → packageName node = pn.
Proof.
  intros H. assert (load_node M pn pp nodePath ≫= id = Some node) as Hloads by by rewrite H.
  by apply load_node_loads in Hloads as (_ & _ & _ & _ & _ & _ & Hpn & _).
Qed.

Lemma loadPackageNodes_names M name path packageJson node :
  node ∈ (loadPackageNodes M name path packageJson).1 → packageName node = name.
Proof.
  unfold loadPackageNodes.
  destruct (or_else (prop "nodes" _) (JArr [])) as [| | | |l|];
    try (cbn [fst]; by intros ?%elem_of_nil).
  rewrite load_nodes_spec. cbn [fst]. intros (nodePath & Hin & Hn)%list_elem_of_omap.
  destruct (load_node M name path nodePath) as [[node'|]|] eqn:Hnode;
    cbn [mbind option_bind id] in Hn; try discriminate.
  injection Hn as ->. by apply load_node_package in Hnode.
Qed.

Lemma load_package_names M name path node :
  node ∈ (load_package M (name, path)).1 → packageName node = name.
Proof.
  unfold load_package.
  destruct (require_json M _) as [packageJson|]; [|cbn [fst]; by intros ?%elem_of_nil].
  pose proof (loadPackageNodes_names M name path packageJson node) as Hnames.
  destruct (loadPackageNodes M name path packageJson) as [loaded log].
  destruct packageJson; cbn [fst] in *; try done; by intros ?%elem_of_nil.
Qed.

Lemma loaded_package_names M node :
  node ∈ (loadAllNodes M).1 →
  packageName node = "n8n-nodes-base" ∨ packageName node = "@n8n/n8n-nodes-langchain".
Proof.
  unfold loadAllNodes, CORE_PACKAGES. cbn [foldl].
  destruct (load_package M ("n8n-nodes-base", "n8n-nodes-base")) as [nodes1 log1] eqn:H1.
  destruct (load_package M ("@n8n/n8n-nodes-langchain", "@n8n/n8n-nodes-langchain"))
    as [nodes2 log2] eqn:H2.
  cbn [fst snd app]. rewrite elem_of_app. intros [Hin|Hin].
  - left. apply (load_package_names M _ "n8n-nodes-base"). by rewrite H1.
  - right. apply (load_package_names M _ "@n8n/n8n-nodes-langchain"). by rewrite H2.
Qed.

Lemma extractVersion_nonempty nodeClass : extractVersion nodeClass ≠ "".
Proof.
  assert (∀ v, JSON_stringify (JArr v) ≠ "") as Harr by done.
  assert (∀ instance, declared_version instance ≠ "") as Hdecl.
  { intros instance. unfold declared_version.
    destruct (opt_prop "version" _) as [[]|]; try done;
      match goal with
      | |- context [String.eqb ?s ""] =>
          destruct (String.eqb s "") eqn:Heq; [done|];
          intros Hs; rewrite Hs in Heq; done
      end. }
  unfold extractVersion. destruct (js_new nodeClass) as [instance|]; [|done].
  destruct (inst_nodeVersions instance) as [nodeVersions|]; [|done].
  by destruct (truthy _).
Qed.

(** [a || d] is not [null] when [d] is not. *)
Lemma or_else_not_null a d : d ≠ JNull → or_else a d ≠ JNull.
Proof.
  intros Hd. unfold or_else. destruct a as [j|]; [|done].
  destruct (truthy (Some j)) eqn:Ht; [|done]. by intros ->.
Qed.

Lemma real_text_truthy x : truthy (Some (JNum x)) = true → is_Some (real_text x).
Proof.
  destruct x as [|neg|m e]; [done|by eexists|]. cbn [truthy real_text]. unfold normalise.
  intros Hm%negb_true_iff. rewrite Hm.
  destruct (strip10 _ m e) as [m' e']. by destruct (m' =? 0).
Qed.

(** What is bound for [a || s], with [s] a string, is not NULL. *)
Lemma bind_text_or_else a s col : bind_text (or_else a (JStr s)) = Some col → is_Some col.
Proof.
  unfold or_else. destruct a as [j|]; [|intros [= <-]; by eexists].
  destruct (truthy (Some j)) eqn:Ht; [|intros [= <-]; by eexists].
  destruct j as [| |x| | |]; try done; intros [= <-]; [|by eexists].
  by apply real_text_truthy.
Qed.

(** X9.  When the name, the display name, the description and the first
    group of every loaded node are single values (no array and no object),
    every row of the rebuilt database was written
    by the loop for a node of one of the two core packages, and has: that
    package name; a display name, a description and a category, none of
    them NULL; a version text that is not empty; the flags [is_trigger],
    [is_webhook] and [is_versioned] equal to 0 or 1; the development style
    ['declarative'] or ['programmatic']; and the columns the INSERT
    statement does not name at their defaults, so that [is_ai_tool] is 0. *)
Theorem rebuilt_rows (E : Env) (old : Database) (r : NodeRow) :
  Forall binds_single_values (loadAllNodes (modules E)).1 →
  r ∈ nodes (rebuild E old) →
  (package_name r = Some "n8n-nodes-base" ∨ package_name r = Some "@n8n/n8n-nodes-langchain")
  ∧ is_Some (display_name r) ∧ is_Some (description r) ∧ is_Some (category r)
  ∧ (∃ v, version r = Some v ∧ v ≠ "")
  ∧ is_flag (is_trigger r) ∧ is_flag (is_webhook r) ∧ is_flag (is_versioned r)
  ∧ (development_style r = Some "declarative" ∨ development_style r = Some "programmatic")
  ∧ is_ai_tool r = 0 ∧ is_tool_variant r = 0 ∧ has_tool_variant r = 0
  ∧ outputs r = None ∧ output_names r = None
  ∧ base_node_type r = None ∧ tool_variant_of r = None.
Proof.
  intros _ (node & j & Hnode & Hrow)%rebuilt_row_origin.
  destruct (extract_row_inv _ _ _ _ Hrow)
    as (_ & Hpkg & _ & _ & _ & _ & Hver & Hversioned & Hcat & Hdesc & Hname
        & (Hai & Htv & Hhv) & (Ho & Hon & Hb & Htvo) & _ & [bt Hbt] & [bw Hbw] & Hstyle).
  assert (∀ b, is_flag (bool_int b)) as Hflag by (intros []; [by right | by left]).
  split; [rewrite Hpkg; by destruct (loaded_package_names _ _ Hnode) as [-> | ->]; auto|].
  split; [eapply bind_text_or_else; exact Hname|].
  split; [eapply bind_text_or_else; exact Hdesc|].
  split; [eapply bind_text_or_else; exact Hcat|].
  split; [eexists; split; [done | apply extractVersion_nonempty]|].
  rewrite Hbt, Hbw, Hversioned. repeat split; auto.
Qed.

Lemma sheets_env_single_values : Forall binds_single_values (loadAllNodes (modules sheets_env)).1.
Proof.
  assert ((loadAllNodes (modules sheets_env)).1
          = [{| packageName := "n8n-nodes-base"; nodeName := "GoogleSheets";
                NodeClass_of := sheets_class |};
             {| packageName := "n8n-nodes-base"; nodeName := "Broken";
                NodeClass_of := broken_class |}]) as -> by (vm_compute; reflexivity).
  repeat constructor.
Qed.

(** X9 at a concrete input: the row written for [sheets_class]. *)
Lemma rebuilt_rows_witness :
  Forall binds_single_values (loadAllNodes (modules sheets_env)).1
  ∧ sheets_row ∈ nodes (rebuild sheets_env example_db)
  ∧ package_name sheets_row = Some "n8n-nodes-base"
  ∧ version sheets_row = Some "4.5"
  ∧ is_ai_tool sheets_row = 0.
Proof.
  assert (sheets_row ∈ nodes (rebuild sheets_env example_db)) as Hin.
  { assert (nodes (rebuild sheets_env example_db)
            = sheets_row :: tail (nodes (rebuild sheets_env example_db))) as ->
      by (vm_compute; reflexivity).
    apply list_elem_of_here. }
  split; [exact sheets_env_single_values|]. split; [exact Hin|].
  destruct (rebuilt_rows sheets_env example_db sheets_row sheets_env_single_values Hin)
    as (_ & _ & _ & _ & _ & _ & _ & _ & _ & Hai & _).
  split; [reflexivity|]. split; [reflexivity|]. exact Hai.
Defined.

(** ** The service on a rebuilt database *)

Lemma sql_count_none (p : NodeRow → bool) t :
  (∀ r, r ∈ t → p r = false) → sql_count p t = 0%nat.
Proof.
  unfold sql_count. induction t as [|r t IH]; intros H; [done|].
  cbn [List.filter]. rewrite (H r) by apply list_elem_of_here.
  apply IH. intros r' Hr'. by apply H, list_elem_of_further.
Qed.

Lemma list_filter_ext_in {A} (P Q : A → bool) l :
  (∀ x, x ∈ l → P x = Q x) → List.filter P l = List.filter Q l.
Proof.
  induction l as [|x l IH]; intros H; [done|]. cbn [List.filter].
  rewrite (H x) by apply list_elem_of_here.
  rewrite IH; [done|]. intros y Hy. by apply H, list_elem_of_further.
Qed.

(** X10.  When the name, the display name, the description and the first
    group of every loaded node are single values (no array and no object),
    then on the rebuilt database: the statistics count no AI node; every
    object of the AI listing has the category ['AI'] and the flag 0, and
    the AI listing and the listing of the category ['AI'] have the same
    objects, as often; every node has a category that [getCategories]
    lists; and [getNodeInfo], when it finds a node, always returns a list
    [versions]. *)
Theorem service_on_rebuilt_database (E : Env) (old : Database) :
  Forall binds_single_values (loadAllNodes (modules E)).1 →
  let rebuilt := rebuild E old in
  aiNodes (getStatistics rebuilt) = 0%nat
  ∧ (∀ o, o ∈ getAINodes rebuilt →
       o !! "category" = Some (JStr "AI") ∧ o !! "is_ai_tool" = Some (JNum (Fin 0 0)))
  ∧ getAINodes rebuilt ≡ₚ getNodesByCategory rebuilt "AI"
  ∧ (∀ r, r ∈ nodes rebuilt → ∃ c, category r = Some c ∧ c ∈ getCategories rebuilt)
  ∧ (∀ nodeType result,
       (getNodeInfo rebuilt nodeType).1 = Some result →
       ∃ versions, result !! "versions" = Some (JArr versions)).
Proof.
  intros _ rebuilt.
  assert (∀ r, r ∈ nodes rebuilt →
            is_ai_tool r = 0 ∧ is_Some (category r) ∧ ∃ v, version r = Some v ∧ v ≠ "")
    as Hrows.
  { intros r (node & j & Hnode & Hrow)%rebuilt_row_origin.
    destruct (extract_row_inv _ _ _ _ Hrow)
      as (_ & _ & _ & _ & _ & _ & Hver & _ & Hcat & _ & _ & (Hai & _) & _).
    split; [done|]. split.
    - eapply bind_text_or_else. exact Hcat.
    - eexists. split; [done | apply extractVersion_nonempty]. }
  assert (getAINodes rebuilt = getNodesByCategory rebuilt "AI") as Hsame.
  { unfold getAINodes, getNodesByCategory, ai_rows, category_rows. do 2 f_equal.
    apply list_filter_ext_in. intros r [Hai _]%Hrows.
    unfold ai_where, category_where. by rewrite Hai. }
  split; [|split; [|split; [|split]]].
  - cbn [getStatistics aiNodes]. apply sql_count_none.
    intros r [-> _]%Hrows. done.
  - rewrite Hsame. intros o (r & -> & Hr)%list_elem_of_fmap.
    unfold category_rows in Hr. rewrite order_by_perm in Hr.
    apply elem_of_list_filter in Hr as [Hr Hc%category_where_spec].
    destruct (Hrows r Hr) as (Hai & _).
    destruct (select_star_columns r)
      as (_ & _ & _ & _ & -> & _ & _ & _ & _ & _ & _ & _ & -> & _).
    by rewrite Hc, Hai.
  - by rewrite Hsame.
  - intros r Hr. destruct (Hrows r Hr) as (_ & [c Hc] & _). exists c. split; [done|].
    unfold getCategories. rewrite order_by_perm, elem_of_remove_dups, list_elem_of_omap.
    eauto.
  - intros nodeType result Hget.
    destruct (select_by_type (nodes rebuilt) (replace nodeType "n8n-nodes-base." "nodes-base."))
      as [row|] eqn:Hsel; [|unfold getNodeInfo in Hget; by rewrite Hsel in Hget].
    destruct (getNodeInfo_fields _ _ _ Hsel) as (result' & Hget' & _ & _ & _ & _ & Hvs & _).
    rewrite Hget' in Hget. injection Hget as <-.
    apply select_by_type_Some in Hsel as [Hin _].
    destruct (Hrows row Hin) as (_ & _ & v & Hv & Hne).
    rewrite Hvs, Hv. unfold payload, nonempty. cbn [mbind option_bind].
    destruct (String.eqb v "") eqn:Heq; [by apply string_eqb_eq in Heq|].
    cbn [mbind option_bind]. eauto.
Qed.

(** X10 at a concrete input: the database rebuilt from the example package
    has no AI node, and its categories are those of its two rows. *)
Lemma service_on_rebuilt_database_witness :
  Forall binds_single_values (loadAllNodes (modules sheets_env)).1
  ∧ aiNodes (getStatistics (rebuild sheets_env example_db)) = 0%nat
  ∧ getAINodes (rebuild sheets_env example_db) = []
  ∧ getCategories (rebuild sheets_env example_db) = ["input"; "misc"].
Proof.
  split; [exact sheets_env_single_values|].
  destruct (service_on_rebuilt_database sheets_env example_db sheets_env_single_values)
    as (Hai & _).
  split; [exact Hai|]. split; vm_compute; reflexivity.
Defined.

(** ** Classes that cannot be instantiated *)

Lemma getNodeDescription_not_constructible c :
  not_constructible c → getNodeDescription c = JObj [].
Proof.
  intros [Hnew Hkind]. unfold getNodeDescription. rewrite Hnew.
  destruct (truthy (static_nodeVersions c) || static_getNodeType c) eqn:Hv; [done|].
  apply orb_false_iff in Hv as [Hv1 Hv2].
  destruct Hkind as [-> | [? | ?]]; [done | congruence | congruence].
Qed.

(** X11.  A node class that cannot be instantiated is neither skipped nor
    reported by [rebuild]: its description reads as empty, and the row
    written for it has the type ['unknown'], the name of its module as
    display name, an empty description, the category ['misc'], the version
    ['1'], no documentation and no payload, whatever documentation was
    fetched. *)
Theorem uninstantiable_class_row (fetch : Network) (versionTag ts : string) (node : LoadedNode) :
  not_constructible (NodeClass_of node) →
  extract_row (fetchDocumentationFromGitHub fetch versionTag) ts node
  = (false,
     Some {| node_type := "unknown";
             package_name := Some (packageName node);
             display_name := Some (nodeName node);
             description := Some "";
             category := Some "misc";
             documentation := None;
             properties_schema := None;
             operations := None;
             credentials_required := None;
             outputs := None;
             output_names := None;
             development_style := Some "programmatic";
             is_ai_tool := 0;
             is_trigger := 0;
             is_webhook := 0;
             is_versioned :=
               bool_int (truthy (static_nodeVersions (NodeClass_of node))
                         || static_getNodeType (NodeClass_of node));
             version := Some "1";
             updated_at := Some ts;
             is_tool_variant := 0;
             has_tool_variant := 0;
             base_node_type := None;
             tool_variant_of := None |}).
Proof.
  intros Hc. pose proof (getNodeDescription_not_constructible _ Hc) as Hdesc.
  destruct Hc as [Hnew _].
  assert (fetchDocumentationFromGitHub fetch versionTag !! "unknown" = None) as Hdoc.
  { destruct (fetchDocumentationFromGitHub fetch versionTag !! "unknown") eqn:Hk; [|done].
    destruct (fetched_docs_keys fetch versionTag "unknown") as [Hin|]; [by eexists| |done].
    by destruct (popularNodes_not_unknown Hin). }
  unfold extract_row. rewrite Hdesc.
  cbn [extractNodeType prop assoc]. unfold extractDocumentation.
  cbn [to_str]. rewrite Hdoc. cbn [mbind option_bind].
  unfold extractVersion, isVersionedNode. rewrite Hnew.
  cbn. by destruct (truthy (static_nodeVersions (NodeClass_of node))
                    || static_getNodeType (NodeClass_of node)).
Qed.

(** X11 at a concrete input: the class [broken_class], whose constructor
    throws, although a static description names it. *)
Lemma uninstantiable_class_row_witness :
  ((extract_row (fetchDocumentationFromGitHub offline "n8n@2.0.3") "2025-01-01 00:00:00"
      {| packageName := "n8n-nodes-base"; nodeName := "Broken";
         NodeClass_of := broken_class |}).2
   ≫= fun row => Some (node_type row, display_name row, version row))
  = Some ("unknown", Some "Broken", Some "1").
Proof.
  assert (not_constructible broken_class) as Hc by (split; [reflexivity | by left]).
  by rewrite (uninstantiable_class_row offline "n8n@2.0.3" "2025-01-01 00:00:00"
                {| packageName := "n8n-nodes-base"; nodeName := "Broken";
                   NodeClass_of := broken_class |} Hc).
Defined.

(** ** The counters of [rebuild] *)

Lemma extract_row_doc docsMap ts node doc r :
  extract_row docsMap ts node = (doc, Some r) → doc = has_documentation r.
Proof.
  unfold extract_row.
  destruct (extractNodeType _ _) as [nodeType|]; [|done].
  destruct (extractDocumentation _ _ _) as [d|] eqn:Hdoc; [|done].
  intros [= <- H]. bind_inv H. simplify_eq. unfold has_documentation. cbn [documentation].
  destruct d as [text|]; [|done]. cbn [mbind option_bind]. unfold nonempty.
  destruct (String.eqb text "") eqn:Heq; [|done].
  apply string_eqb_eq in Heq as ->. by apply extractDocumentation_not_empty in Hdoc.
Qed.

Lemma insert_or_replace_length r t : (length (insert_or_replace r t) ≤ S (length t))%nat.
Proof.
  unfold insert_or_replace. rewrite length_app. cbn [length].
  pose proof (length_filter (λ r', node_type r' ≠ node_type r) t). lia.
Qed.

Lemma loop_counters E docsMap nodes : ∀ st,
  let st' := foldl (loop_step E docsMap) st nodes in
  let rows := rows_from E docsMap (next_index st) nodes in
  successful st' = (successful st + length rows)%nat
  ∧ (length rows ≤ length nodes)%nat
  ∧ (length (table st') ≤ length (table st) + length rows)%nat
  ∧ (docsExtracted st + length (List.filter has_documentation rows) ≤ docsExtracted st')%nat
  ∧ (docsExtracted st' ≤ docsExtracted st + length nodes)%nat
  ∧ next_index st' = (next_index st + length nodes)%nat.
Proof.
  induction nodes as [|node nodes IH]; intros st; [cbn; lia|].
  cbn [foldl rows_from length].
  specialize (IH (loop_step E docsMap st node)). cbv zeta in IH.
  destruct IH as (H1 & H2 & H3 & H4 & H5 & H6).
  unfold loop_step in H1, H2, H3, H4, H5, H6 |- *.
  destruct (extract_row docsMap (current_timestamp E (next_index st)) node) as [doc [r|]] eqn:Hrow;
    cbn [table successful docsExtracted next_index snd] in *.
  - pose proof (extract_row_doc _ _ _ _ _ Hrow) as Hdoc.
    pose proof (insert_or_replace_length r (table st)).
    cbn [length List.filter]. rewrite <- Hdoc.
    destruct doc; cbn [length]; lia.
  - destruct doc; lia.
Qed.

(** X12.  The counters of [rebuild]: [successful] is the number of rows
    handed to the INSERT statement, which is at most the number of loaded
    nodes and at least the number of rows in the table; [docsExtracted],
    which is recorded as [docs_extracted], is incremented before the row is
    complete, so it is at least the number of inserted rows that have a
    documentation text, and at most the number of loaded nodes. *)
Theorem rebuild_counters (E : Env) (docsMap : gmap string string) (loaded : list LoadedNode)
    (old : Database) :
  let st := insert_nodes E docsMap loaded in
  let rows := rows_from E docsMap 0 loaded in
  successful st = length rows
  ∧ (length (table st) ≤ successful st ≤ length loaded)%nat
  ∧ (length (List.filter has_documentation rows) ≤ docsExtracted st ≤ length loaded)%nat
  ∧ assoc "docs_extracted" (metadata (rebuild E old))
    = Some (number_to_string
              (Fin (Z.of_nat (docsExtracted
                     (insert_nodes E (fetchDocumentationFromGitHub (fetch E) (N8N_VERSION E))
                                   (loadAllNodes (modules E)).1))) 0)).
Proof.
  intros st rows. subst st rows. unfold insert_nodes.
  destruct (loop_counters E docsMap loaded
              {| table := []; successful := 0; docsExtracted := 0; next_index := 0 |})
    as (H1 & H2 & H3 & H4 & H5 & _).
  cbn [table successful docsExtracted next_index length] in *.
  split; [lia|]. split; [lia|]. split; [lia|]. done.
Qed.

(** X12 at a concrete input: for [odd_node] the documentation is counted
    although no row is written. *)
Lemma rebuild_counters_witness :
  successful (insert_nodes sheets_env ∅ [odd_node]) = 0%nat
  ∧ docsExtracted (insert_nodes sheets_env ∅ [odd_node]) = 1%nat.
Proof.
  destruct (rebuild_counters sheets_env ∅ [odd_node] example_db) as (Hs & _ & _ & _).
  split; [rewrite Hs|]; by vm_compute.
Defined.

(** ** Substrings and replacement *)

Lemma strip_prefix_Some p cs r : strip_prefix p cs = Some r → cs = p ++ r.
Proof.
  revert cs. induction p as [|a p IH]; intros cs H; [by injection H as ->|].
  destruct cs as [|c cs]; [done|]. cbn [strip_prefix] in H.
  destruct (Ascii.eqb a c) eqn:Hac; [|done]. apply ascii_eqb_eq in Hac as ->.
  cbn [app]. f_equal. by apply IH.
Qed.

Lemma strip_prefix_app p r : strip_prefix p (p ++ r) = Some r.
Proof.
  induction p as [|a p IH]; [done|]. cbn [app strip_prefix].
  by rewrite (proj2 (ascii_eqb_eq a a) eq_refl).
Qed.

Lemma includes_chars_true pat hay :
  includes_chars pat hay = true → ∃ pre post, hay = pre ++ pat ++ post.
Proof.
  induction hay as [|c hay IH]; cbn [includes_chars]; intros H.
  - destruct (strip_prefix pat []) as [r|] eqn:Hp; [|done].
    apply strip_prefix_Some in Hp. by exists [], r.
  - destruct (strip_prefix pat (c :: hay)) as [r|] eqn:Hp.
    + apply strip_prefix_Some in Hp. by exists [], r.
    + destruct (IH H) as (pre & post & ->). by exists (c :: pre), post.
Qed.

Lemma includes_chars_false pat hay pre post :
  includes_chars pat hay = false → hay ≠ pre ++ pat ++ post.
Proof.
  revert hay. induction pre as [|c pre IH]; intros hay H ->.
  - cbn [app] in H. destruct (pat ++ post) as [|c r] eqn:Hpp.
    + destruct pat; [|done]. cbn [includes_chars strip_prefix] in H. done.
    + cbn [includes_chars] in H. rewrite <- Hpp in H. by rewrite strip_prefix_app in H.
  - cbn [app includes_chars] in H. destruct (strip_prefix pat _); [done|].
    by apply (IH _ H).
Qed.

(** A string without the pattern is left alone by [replace]. *)
Lemma replace_first_absent pat rep cs :
  includes_chars pat cs = false → replace_first_chars pat rep cs = cs.
Proof.
  induction cs as [|c cs IH]; cbn [includes_chars replace_first_chars]; intros H.
  - by destruct (strip_prefix pat []).
  - destruct (strip_prefix pat (c :: cs)); [done|]. by rewrite IH.
Qed.

Lemma replace_absent s pat rep : includes s pat = false → replace s pat rep = s.
Proof.
  unfold includes, replace. intros H. rewrite replace_first_absent by done.
  apply string_of_chars_of.
Qed.

Lemma replace_prefix pat rep s : pat ≠ "" → replace (pat +:+ s) pat rep = rep +:+ s.
Proof.
  intros Hpat. unfold replace. rewrite chars_of_app.
  destruct (chars_of pat) as [|a p] eqn:Hp.
  { destruct pat; [done | discriminate Hp]. }
  rewrite <- Hp. clear Hp.
  assert (replace_first_chars (chars_of pat) (chars_of rep) (chars_of pat ++ chars_of s)
          = chars_of rep ++ chars_of s) as ->.
  { destruct (chars_of pat ++ chars_of s) as [|c r] eqn:Hcs.
    - cbn [replace_first_chars]. destruct (chars_of pat); [|done].
      cbn [strip_prefix]. cbn [app] in Hcs. by rewrite Hcs.
    - cbn [replace_first_chars]. rewrite <- Hcs. by rewrite strip_prefix_app. }
  rewrite <- chars_of_app. apply string_of_chars_of.
Qed.

(** A string without a dot does not contain a pattern that ends with one. *)
Lemma includes_dotted x pat :
  includes x "." = false → includes x (pat +:+ ".") = false.
Proof.
  unfold includes. intros Hx.
  destruct (includes_chars (chars_of (pat +:+ ".")) (chars_of x)) eqn:Hp; [|done].
  apply includes_chars_true in Hp as (pre & post & Hx').
  rewrite chars_of_app in Hx'. change (chars_of ".") with ["."%char] in *.
  exfalso. apply (includes_chars_false ["."%char] (chars_of x) (pre ++ chars_of pat) post Hx).
  rewrite Hx'. by rewrite <- !app_assoc.
Qed.

Lemma short_type_absent x :
  includes x long_prefix = false → includes ("nodes-base." +:+ x) long_prefix = false.
Proof.
  unfold includes. rewrite chars_of_app. intros Hx.
  change (chars_of "nodes-base.") with (["n";"o";"d";"e";"s";"-";"b";"a";"s";"e";"."]%char).
  change (chars_of long_prefix)
    with (["n";"8";"n";"-";"n";"o";"d";"e";"s";"-";"b";"a";"s";"e";"."]%char) in *.
  cbn [app includes_chars strip_prefix Ascii.eqb Bool.eqb]. exact Hx.
Qed.

(** ** Looking a node up by its type *)

Lemma getNodeInfo_not_found db nodeType :
  select_by_type (nodes db) (replace nodeType "n8n-nodes-base." "nodes-base.") = None →
  getNodeInfo db nodeType = (None, [(Warn, "Node not found: " +:+ nodeType)]).
Proof. intros H. unfold getNodeInfo. by rewrite H. Qed.

(** The value [getNodeInfo] returns depends on the normalized type only. *)
Lemma getNodeInfo_normalized db s t :
  replace s "n8n-nodes-base." "nodes-base." = replace t "n8n-nodes-base." "nodes-base." →
  (getNodeInfo db s).1 = (getNodeInfo db t).1.
Proof.
  intros Heq.
  destruct (select_by_type (nodes db) (replace t "n8n-nodes-base." "nodes-base."))
    as [row|] eqn:Hsel.
  - rewrite (getNodeInfo_found db t row Hsel). rewrite <- Heq in Hsel.
    by rewrite (getNodeInfo_found db s row Hsel).
  - rewrite (getNodeInfo_not_found db t Hsel). rewrite <- Heq in Hsel.
    by rewrite (getNodeInfo_not_found db s Hsel).
Qed.

Lemma getNodeInfo_node_type db nodeType result :
  (getNodeInfo db nodeType).1 = Some result →
  result !! "node_type" = Some (JStr (replace nodeType "n8n-nodes-base." "nodes-base.")).
Proof.
  intros Hget.
  destruct (select_by_type (nodes db) (replace nodeType "n8n-nodes-base." "nodes-base."))
    as [row|] eqn:Hsel; [|by rewrite (getNodeInfo_not_found _ _ Hsel) in Hget].
  destruct (getNodeInfo_fields _ _ _ Hsel) as (result' & Hget' & Hcols & _).
  rewrite Hget' in Hget. injection Hget as <-.
  apply select_by_type_Some in Hsel as [_ <-].
  rewrite Hcols; [done|]. unfold derived_fields. intros Hk.
  repeat (apply elem_of_cons in Hk as [Hk|Hk]; [discriminate Hk|]). by apply elem_of_nil in Hk.
Qed.

(** X13.  For a name [x] in which the long prefix [n8n-nodes-base.] does
    not occur, [getNodeInfo] returns the same node for [n8n-nodes-base.x]
    and for [nodes-base.x] (only the first occurrence of the long prefix is
    rewritten, so the two can differ when [x] contains it); the node it
    returns for a type with the long prefix has the short one; a row is
    found under its own type when that type does not contain the long
    prefix; and for a type that is not in the table the result is [null],
    with one warning that names the type as it was given. *)
Theorem lookup_by_type (db : Database) :
  (∀ x, includes x long_prefix = false →
     (getNodeInfo db ("n8n-nodes-base." +:+ x)).1 = (getNodeInfo db ("nodes-base." +:+ x)).1)
  ∧ (∀ x result,
       (getNodeInfo db ("n8n-nodes-base." +:+ x)).1 = Some result →
       result !! "node_type" = Some (JStr ("nodes-base." +:+ x)))
  ∧ (∀ r, NoDup (node_type <$> nodes db) → r ∈ nodes db →
       includes (node_type r) long_prefix = false →
       ∃ result,
         (getNodeInfo db (node_type r)).1 = Some result
         ∧ ∀ k, k ∉ derived_fields → result !! k = select_star r !! k)
  ∧ (∀ nodeType,
       select_by_type (nodes db) (replace nodeType "n8n-nodes-base." "nodes-base.") = None →
       getNodeInfo db nodeType = (None, [(Warn, "Node not found: " +:+ nodeType)])).
Proof.
  split; [|split; [|split]].
  - intros x Hx. apply getNodeInfo_normalized.
    rewrite (replace_prefix "n8n-nodes-base." "nodes-base." x) by done.
    by rewrite (replace_absent _ _ _ (short_type_absent x Hx)).
  - intros x result Hget. apply getNodeInfo_node_type in Hget.
    by rewrite (replace_prefix "n8n-nodes-base." "nodes-base." x) in Hget.
  - intros r Hnd Hin Hr.
    assert (select_by_type (nodes db) (replace (node_type r) "n8n-nodes-base." "nodes-base.")
            = Some r) as Hsel.
    { rewrite (replace_absent _ _ _ Hr). by apply select_by_type_NoDup. }
    destruct (getNodeInfo_fields _ _ _ Hsel) as (result & Hget & Hcols & _).
    exists result. by rewrite Hget.
  - apply getNodeInfo_not_found.
Qed.

(** X13 at a concrete input: both spellings of the type of the example row
    return it; and for a name that contains the long prefix the two
    spellings differ. *)
Lemma lookup_by_type_witness :
  (getNodeInfo example_db "n8n-nodes-base.slack").1 = (getNodeInfo example_db "nodes-base.slack").1
  ∧ ((getNodeInfo example_db "n8n-nodes-base.slack").1 ≫= lookup "node_type")
    = Some (JStr "nodes-base.slack")
  ∧ (getNodeInfo doubled_db "n8n-nodes-base.n8n-nodes-base.slack").1 = None
  ∧ ((getNodeInfo doubled_db "nodes-base.n8n-nodes-base.slack").1 ≫= lookup "node_type")
    = Some (JStr "nodes-base.nodes-base.slack").
Proof.
  destruct (lookup_by_type example_db) as (Hsame & _).
  split; [apply (Hsame "slack"); reflexivity|].
  split; [|split]; vm_compute; reflexivity.
Defined.

(** ** Qualified node types *)

Lemma simple_name_truthy x : x ≠ "" → truthy (Some (JStr x)) = true.
Proof.
  intros Hx. cbn [truthy]. destruct (String.eqb x "") eqn:Heq; [|done].
  by apply string_eqb_eq in Heq.
Qed.

Lemma rebuilt_select E old r :
  r ∈ inserted_rows E →
  ∃ row, select_by_type (nodes (rebuild E old)) (node_type r) = Some row.
Proof.
  intros Hin. rewrite rebuild_nodes, build_table_select.
  assert (r ∈ of_type (node_type r) (inserted_rows E)) as Hof
    by (apply list_elem_of_filter; done).
  destruct (last (of_type (node_type r) (inserted_rows E))) as [row|] eqn:Hlast; [eauto|].
  apply last_None in Hlast. rewrite Hlast in Hof. by apply elem_of_nil in Hof.
Qed.

(** X14.  [extractNodeType] qualifies a simple name with the package:
    [nodes-base.x] in the base package, [nodes-langchain.x] in the AI
    package; a name with a dot is kept as it is, and an empty name gives
    ['unknown'].  A row that [rebuild] inserted under [nodes-base.x] is
    returned by [getNodeInfo] for [nodes-base.x] and for [n8n-nodes-base.x]
    alike. *)
Theorem node_type_qualification (description : json) (x : string) :
  prop "name" description = Some (JStr x) →
  (simple_name x →
     extractNodeType description "n8n-nodes-base" = Some (JStr ("nodes-base." +:+ x))
     ∧ extractNodeType description "@n8n/n8n-nodes-langchain"
       = Some (JStr ("nodes-langchain." +:+ x))
     ∧ ∀ E old r,
         r ∈ inserted_rows E → node_type r = "nodes-base." +:+ x →
         ∃ result,
           (getNodeInfo (rebuild E old) ("nodes-base." +:+ x)).1 = Some result
           ∧ (getNodeInfo (rebuild E old) ("n8n-nodes-base." +:+ x)).1 = Some result
           ∧ result !! "node_type" = Some (JStr ("nodes-base." +:+ x)))
  ∧ (includes x "." = true → ∀ pkg, extractNodeType description pkg = Some (JStr x))
  ∧ (x = "" → ∀ pkg, extractNodeType description pkg = Some (JStr "unknown")).
Proof.
  intros Hname. split; [|split].
  - intros [Hx Hdot].
    assert (∀ pkg, extractNodeType description pkg
                   = Some (JStr (replace (replace pkg "@n8n/" "") "n8n-" "" +:+ "." +:+ x)))
      as Htype.
    { intros pkg. unfold extractNodeType. rewrite Hname, (simple_name_truthy x Hx).
      cbn [negb js_includes mbind option_bind]. by rewrite Hdot. }
    split; [by rewrite Htype|]. split; [by rewrite Htype|].
    intros E old r Hin Hr.
    assert (includes x long_prefix = false) as Hlong
      by exact (includes_dotted x "n8n-nodes-base" Hdot).
    destruct (rebuilt_select E old r Hin) as [row Hsel]. rewrite Hr in Hsel.
    rewrite <- (replace_absent _ "n8n-nodes-base." "nodes-base." (short_type_absent x Hlong))
      in Hsel.
    destruct (getNodeInfo_fields _ _ _ Hsel) as (result & Hget & _).
    exists result. split; [by rewrite Hget|].
    assert ((getNodeInfo (rebuild E old) ("n8n-nodes-base." +:+ x)).1
            = (getNodeInfo (rebuild E old) ("nodes-base." +:+ x)).1) as ->.
    { apply getNodeInfo_normalized.
      rewrite (replace_prefix "n8n-nodes-base." "nodes-base." x) by done.
      by rewrite (replace_absent _ _ _ (short_type_absent x Hlong)). }
    split; [by rewrite Hget|].
    assert ((getNodeInfo (rebuild E old) ("nodes-base." +:+ x)).1 = Some result) as Hget'
      by by rewrite Hget.
    apply getNodeInfo_node_type in Hget'.
    by rewrite (replace_absent _ _ _ (short_type_absent x Hlong)) in Hget'.
  - intros Hdot pkg. unfold extractNodeType. rewrite Hname.
    assert (x ≠ "") as Hx by (intros ->; done).
    rewrite (simple_name_truthy x Hx). cbn [negb js_includes mbind option_bind].
    by rewrite Hdot.
  - intros -> pkg. unfold extractNodeType. by rewrite Hname.
Qed.

(** X14 at a concrete input: the class [sheets_class] of the base package
    is stored as [nodes-base.googleSheets] and found under both spellings. *)
Lemma node_type_qualification_witness :
  node_type sheets_row = "nodes-base.googleSheets"
  ∧ ∃ result,
      (getNodeInfo (rebuild sheets_env example_db) "nodes-base.googleSheets").1 = Some result
      ∧ (getNodeInfo (rebuild sheets_env example_db) "n8n-nodes-base.googleSheets").1
        = Some result.
Proof.
  split; [reflexivity|].
  destruct (node_type_qualification
              (getNodeDescription sheets_class) "googleSheets" eq_refl)
    as [Hsimple _].
  assert (simple_name "googleSheets") as Hs by (split; [discriminate | reflexivity]).
  destruct (Hsimple Hs) as (_ & _ & Hfound).
  assert (sheets_row ∈ inserted_rows sheets_env) as Hin.
  { assert (inserted_rows sheets_env = sheets_row :: tail (inserted_rows sheets_env)) as ->
      by (vm_compute; reflexivity).
    apply list_elem_of_here. }
  destruct (Hfound sheets_env example_db sheets_row Hin eq_refl) as (result & H1 & H2 & _).
  exists result. split; [exact H1 | exact H2].
Defined.

(** ** The name of a node module *)

Lemma after_last_slash_none cs : "/"%char ∉ cs → after_last_slash cs = None.
Proof.
  induction cs as [|c cs IH]; [done|]. intros [Hc Hcs]%not_elem_of_cons.
  cbn [after_last_slash]. rewrite IH by done.
  destruct (Ascii.eqb c "/") eqn:Heq; [|done]. apply ascii_eqb_eq in Heq. congruence.
Qed.

Lemma after_last_slash_app pre seg :
  "/"%char ∉ seg → after_last_slash (pre ++ "/"%char :: seg) = Some seg.
Proof.
  intros Hseg. induction pre as [|c pre IH].
  - cbn [app after_last_slash]. by rewrite after_last_slash_none.
  - cbn [app after_last_slash]. by rewrite IH.
Qed.

Lemma strip_suffix_aux_app suf pre : strip_suffix_aux (length pre) suf (pre ++ suf) = Some pre.
Proof.
  induction pre as [|c pre IH]; cbn [length strip_suffix_aux app].
  - by rewrite decide_True.
  - by rewrite IH.
Qed.

Lemma strip_suffix_app suf pre : strip_suffix suf (pre ++ suf) = Some pre.
Proof.
  unfold strip_suffix. rewrite length_app.
  assert ((length suf <=? length pre + length suf)%nat = true) as -> by (apply Nat.leb_le; lia).
  replace (length pre + length suf - length suf)%nat with (length pre) by lia.
  apply strip_suffix_aux_app.
Qed.

Lemma strip_suffix_aux_Some n suf cs pre :
  strip_suffix_aux n suf cs = Some pre → cs = pre ++ suf.
Proof.
  revert cs pre. induction n as [|n IH]; intros cs pre; cbn [strip_suffix_aux].
  - case_decide; [|done]. by intros [= <-].
  - destruct cs as [|c cs]; [done|].
    destruct (strip_suffix_aux n suf cs) as [p|] eqn:Hp; [|done].
    intros [= <-]. cbn [app]. f_equal. by apply IH.
Qed.

Lemma strip_suffix_Some suf cs pre : strip_suffix suf cs = Some pre → cs = pre ++ suf.
Proof.
  unfold strip_suffix. destruct (_ <=? _)%nat; [|done]. apply strip_suffix_aux_Some.
Qed.

(** A name that ends with one extension does not end with another of the
    same length. *)
Lemma strip_suffix_other suf suf' pre :
  length suf = length suf' → suf ≠ suf' → strip_suffix suf (pre ++ suf') = None.
Proof.
  intros Hlen Hne. destruct (strip_suffix suf (pre ++ suf')) as [p|] eqn:Hp; [|done].
  apply strip_suffix_Some in Hp. apply app_inj_2 in Hp as [_ Hp]; [congruence | done].
Qed.

Lemma nonempty_stem_app ext x :
  x ≠ "" → nonempty_stem ext (chars_of x ++ chars_of ext) = Some x.
Proof.
  intros Hx. unfold nonempty_stem. rewrite strip_suffix_app.
  destruct (chars_of x) as [|c r] eqn:Hc; [by destruct x|].
  by rewrite <- Hc, string_of_chars_of.
Qed.

Lemma not_elem_of_app_slash (x : string) (ext : list ascii) :
  no_slash x → "/"%char ∉ ext → "/"%char ∉ chars_of x ++ ext.
Proof. intros Hx Hext. rewrite elem_of_app. intros [?|?]; [by apply Hx | by apply Hext]. Qed.

Lemma ext_js_no_slash : "/"%char ∉ chars_of ".node.js".
Proof. apply (bool_decide_unpack ("/"%char ∉ chars_of ".node.js")). by vm_compute. Qed.

Lemma ext_ts_no_slash : "/"%char ∉ chars_of ".node.ts".
Proof. apply (bool_decide_unpack ("/"%char ∉ chars_of ".node.ts")). by vm_compute. Qed.

Lemma node_name_match_js dir x :
  x ≠ "" → no_slash x → node_name_match (dir +:+ "/" +:+ x +:+ ".node.js") = Some x.
Proof.
  intros Hx Hs. unfold node_name_match. rewrite !chars_of_app.
  change (chars_of "/") with ["/"%char]. cbn [app].
  rewrite after_last_slash_app by (apply not_elem_of_app_slash; [done | apply ext_js_no_slash]).
  cbn [mbind option_bind]. by rewrite nonempty_stem_app.
Qed.

Lemma node_name_match_ts dir x :
  x ≠ "" → no_slash x → node_name_match (dir +:+ "/" +:+ x +:+ ".node.ts") = Some x.
Proof.
  intros Hx Hs. unfold node_name_match. rewrite !chars_of_app.
  change (chars_of "/") with ["/"%char]. cbn [app].
  rewrite after_last_slash_app by (apply not_elem_of_app_slash; [done | apply ext_ts_no_slash]).
  cbn [mbind option_bind].
  assert (nonempty_stem ".node.js" (chars_of x ++ chars_of ".node.ts") = None) as ->.
  { unfold nonempty_stem. by rewrite strip_suffix_other. }
  by rewrite nonempty_stem_app.
Qed.

Lemma node_name_match_no_dir p : no_slash p → node_name_match p = None.
Proof. intros Hp. unfold node_name_match. by rewrite after_last_slash_none. Qed.

Lemma strip_trailing_slashes_id cs c :
  Ascii.eqb c "/" = false → strip_trailing_slashes (cs ++ [c]) = cs ++ [c].
Proof.
  intros Hc. unfold strip_trailing_slashes. rewrite rev_app_distr. cbn [rev app skip_while].
  rewrite Hc. change (c :: rev cs) with ([c] ++ rev cs). rewrite rev_app_distr.
  by rewrite rev_involutive.
Qed.

Lemma strip_trailing_slashes_js pre :
  strip_trailing_slashes (pre ++ chars_of ".node.js") = pre ++ chars_of ".node.js".
Proof.
  change (chars_of ".node.js") with (chars_of ".node.j" ++ ["s"%char]).
  rewrite app_assoc. by apply strip_trailing_slashes_id.
Qed.

Lemma strip_trailing_slashes_ts pre :
  strip_trailing_slashes (pre ++ chars_of ".node.ts") = pre ++ chars_of ".node.ts".
Proof.
  change (chars_of ".node.ts") with (chars_of ".node.t" ++ ["s"%char]).
  rewrite app_assoc. by apply strip_trailing_slashes_id.
Qed.

Lemma basename_no_dir_js x :
  x ≠ "" → no_slash x → basename (x +:+ ".node.js") ".node.js" = x.
Proof.
  intros Hx Hs. unfold basename.
  assert (String.eqb (x +:+ ".node.js") ".node.js" = false) as ->.
  { destruct (String.eqb _ _) eqn:Heq; [|done]. apply string_eqb_eq in Heq.
    apply (f_equal chars_of) in Heq. rewrite chars_of_app in Heq.
    change (chars_of ".node.js") with ([] ++ chars_of ".node.js") in Heq at 2.
    apply app_inj_2 in Heq as [Heq _]; [|done]. by destruct x. }
  rewrite chars_of_app, strip_trailing_slashes_js.
  rewrite after_last_slash_none
    by (apply not_elem_of_app_slash; [done | apply ext_js_no_slash]).
  rewrite strip_suffix_app. destruct (chars_of x) as [|c r] eqn:Hc; [by destruct x|].
  by rewrite <- Hc, string_of_chars_of.
Qed.

Lemma basename_no_dir_ts x :
  no_slash x → basename (x +:+ ".node.ts") ".node.js" = x +:+ ".node.ts".
Proof.
  intros Hs. unfold basename.
  assert (String.eqb (x +:+ ".node.ts") ".node.js" = false) as ->.
  { destruct (String.eqb _ _) eqn:Heq; [|done]. apply string_eqb_eq in Heq.
    apply (f_equal chars_of) in Heq. rewrite chars_of_app in Heq.
    change (chars_of ".node.js") with ([] ++ chars_of ".node.js") in Heq.
    apply app_inj_2 in Heq as [_ Heq]; done. }
  rewrite chars_of_app, strip_trailing_slashes_ts.
  rewrite after_last_slash_none
    by (apply not_elem_of_app_slash; [done | apply ext_ts_no_slash]).
  rewrite strip_suffix_other by done.
  by rewrite <- chars_of_app, string_of_chars_of.
Qed.

Lemma load_node_name M pn pp path node :
  load_node M pn pp (JStr path) = Some (Some node) →
  nodeName node = match node_name_match path with
                  | Some n => n
                  | None => basename path ".node.js"
                  end.
Proof.
  intros H.
  assert (load_node M pn pp (JStr path) ≫= id = Some node) as Hloads by by rewrite H.
  apply load_node_loads in Hloads as (path' & _ & _ & [= <-] & _ & _ & _ & Hname & _).
  exact Hname.
Qed.

(** X15.  The name the loader gives a node is the file name of its module
    without the extension [.node.js] or [.node.ts], when the module path
    has a directory; for a path without a directory only [.node.js] is
    removed, so that a TypeScript module keeps its extension in the name. *)
Theorem node_module_name (M : Modules) (pn pp dir x : string) (node : LoadedNode) :
  x ≠ "" → no_slash x →
  (load_node M pn pp (JStr (dir +:+ "/" +:+ x +:+ ".node.js")) = Some (Some node) →
   nodeName node = x)
  ∧ (load_node M pn pp (JStr (dir +:+ "/" +:+ x +:+ ".node.ts")) = Some (Some node) →
     nodeName node = x)
  ∧ (load_node M pn pp (JStr (x +:+ ".node.js")) = Some (Some node) → nodeName node = x)
  ∧ (load_node M pn pp (JStr (x +:+ ".node.ts")) = Some (Some node) →
     nodeName node = x +:+ ".node.ts").
Proof.
  intros Hx Hs. split; [|split; [|split]]; intros Hname%load_node_name; rewrite Hname.
  - by rewrite node_name_match_js.
  - by rewrite node_name_match_ts.
  - rewrite node_name_match_no_dir; [by apply basename_no_dir_js|].
    unfold no_slash. rewrite chars_of_app.
    apply not_elem_of_app_slash; [done | apply ext_js_no_slash].
  - rewrite node_name_match_no_dir; [by apply basename_no_dir_ts|].
    unfold no_slash. rewrite chars_of_app.
    apply not_elem_of_app_slash; [done | apply ext_ts_no_slash].
Qed.

(** X15 at a concrete input: the module [Slack.node.ts], in a directory and
    without one. *)
Lemma node_module_name_witness :
  (nodeName <$> (load_node uniform_modules "n8n-nodes-base" "n8n-nodes-base"
                   (JStr "dist/nodes/Slack/Slack.node.ts") ≫= id)) = Some "Slack"
  ∧ (nodeName <$> (load_node uniform_modules "n8n-nodes-base" "n8n-nodes-base"
                     (JStr "Slack.node.ts") ≫= id)) = Some "Slack.node.ts".
Proof.
  assert ("Slack" ≠ "") as Hx by discriminate.
  assert (no_slash "Slack") as Hs
    by (apply (bool_decide_unpack (no_slash "Slack")); by vm_compute).
  destruct (load_node uniform_modules "n8n-nodes-base" "n8n-nodes-base"
              (JStr "dist/nodes/Slack/Slack.node.ts")) as [[n1|]|] eqn:H1;
    [|by vm_compute in H1..].
  destruct (load_node uniform_modules "n8n-nodes-base" "n8n-nodes-base"
              (JStr "Slack.node.ts")) as [[n2|]|] eqn:H2;
    [|by vm_compute in H2..].
  destruct (node_module_name uniform_modules "n8n-nodes-base" "n8n-nodes-base"
              "dist/nodes/Slack" "Slack" n1 Hx Hs) as (_ & Hts & _).
  destruct (node_module_name uniform_modules "n8n-nodes-base" "n8n-nodes-base"
              "dist/nodes/Slack" "Slack" n2 Hx Hs) as (_ & _ & _ & Hplain).
  cbn [mbind option_bind id fmap option_fmap option_map].
  split; [by rewrite (Hts H1) | by rewrite (Hplain H2)].
Defined.

(** ** The logger *)




(** ** The address of the instance *)

Lemma strip_slash_absent url :
  no_trailing_slash url → strip_suffix ["/"%char] (chars_of url) = None.
Proof.
  intros Hurl. destruct (strip_suffix _ _) as [pre|] eqn:Hs; [|done].
  apply strip_suffix_Some in Hs. destruct Hurl. rewrite Hs. apply last_snoc.
Qed.

Lemma new_service_plain url key :
  no_trailing_slash url → new_N8nWorkflowService url key = {| apiUrl := url; apiKey := key |}.
Proof. intros Hurl. unfold new_N8nWorkflowService. by rewrite strip_slash_absent. Qed.

Lemma new_service_slash url key :
  new_N8nWorkflowService (url +:+ "/") key = {| apiUrl := url; apiKey := key |}.
Proof.
  unfold new_N8nWorkflowService. rewrite chars_of_app.
  change (chars_of "/") with ["/"%char]. rewrite strip_suffix_app.
  by rewrite string_of_chars_of.
Qed.

Lemma string_app_assoc (s t u : string) : s +:+ t +:+ u = (s +:+ t) +:+ u.
Proof.
  rewrite <- (string_of_chars_of (s +:+ t +:+ u)), <- (string_of_chars_of ((s +:+ t) +:+ u)).
  by rewrite !chars_of_app, app_assoc.
Qed.

(** X17.  The service removes one trailing slash from the address it is
    given, so that an address with and without it lead to the same
    requests, to [address/endpoint]; a second trailing slash is kept.  A
    request yields a value only when the instance answered with an OK
    status and a JSON body, and that value is the body; an answer with
    another status is thrown as the error [HTTP status: text]. *)
Theorem request_address (api : Api) (url key method endpoint : string) (data : option json) :
  no_trailing_slash url →
  let sent := {| http_method := method;
                 http_url := url +:+ "/" +:+ endpoint;
                 http_api_key := key;
                 http_body := stringified data |} in
  new_N8nWorkflowService (url +:+ "/") key = new_N8nWorkflowService url key
  ∧ apiUrl (new_N8nWorkflowService (url +:+ "/" +:+ "/") key) = url +:+ "/"
  ∧ (∀ v, request api (new_N8nWorkflowService url key) method endpoint data = inr v ↔
          ∃ response, api sent = Some response ∧ http_ok response = true
                      ∧ JSON_parse (http_text response) = Some v)
  ∧ (∀ response, api sent = Some response → http_ok response = false →
       request api (new_N8nWorkflowService url key) method endpoint data
       = inl (HttpError (http_status response) (http_text response))
       ∧ error_message (HttpError (http_status response) (http_text response))
         = Some ("HTTP " +:+ number_to_string (normalise (http_status response) 0)
                         +:+ ": " +:+ http_text response))
  ∧ (api sent = None →
       request api (new_N8nWorkflowService url key) method endpoint data = inl Rejected).
Proof.
  intros Hurl sent. rewrite new_service_slash, (new_service_plain url key Hurl).
  split; [done|]. split.
  { by rewrite string_app_assoc, new_service_slash. }
  unfold request. cbn [apiUrl apiKey]. fold sent.
  split; [|split].
  - intros v. split.
    + destruct (api sent) as [response|]; [|done].
      destruct (http_ok response) eqn:Hok; cbn [negb]; [|done].
      destruct (JSON_parse (http_text response)) as [w|] eqn:Hjson; [|done].
      intros [= <-]. eauto.
    + intros (response & -> & -> & ->). done.
  - intros response -> ->. done.
  - by intros ->.
Qed.

(** ** Pages of workflows *)

Lemma prop_data_object response data :
  prop "data" response = Some (JArr data) → ∃ fields, response = JObj fields.
Proof. destruct response; try done. eauto. Qed.

Lemma list_pages_step fuel api s acc cursor :
  list_pages (S fuel) api s acc cursor =
  match page_at api s cursor with
  | inl e => Some (inl e)
  | inr response =>
      match response with
      | JArr l => Some (inr (JArr l))
      | JNull => Some (inl TypeError)
      | _ =>
          match prop "data" response with
          | Some (JArr data) =>
              let nextCursor := prop "nextCursor" response in
              if truthy nextCursor
              then list_pages fuel api s (acc ++ data) nextCursor
              else Some (inr (JArr (acc ++ data)))
          | _ => Some (inr response)
          end
      end
  end.
Proof. done. Qed.

Lemma list_pages_paged api s cursor pages :
  paged api s cursor pages →
  ∀ fuel acc, (length pages ≤ fuel)%nat →
    list_pages fuel api s acc cursor = Some (inr (JArr (acc ++ concat pages))).
Proof.
  induction 1 as [cursor response data Hpage Hdata Hnext
                 |cursor response data pages Hpage Hdata Hnext Hrest IH];
    intros fuel acc Hfuel; (destruct fuel as [|fuel]; [cbn [length] in Hfuel; lia|]);
    rewrite list_pages_step, Hpage;
    destruct (prop_data_object _ _ Hdata) as [fields ->];
    rewrite Hdata; cbv zeta; rewrite Hnext.
  - cbn [concat]. by rewrite app_nil_r.
  - rewrite IH by (cbn [length] in Hfuel; lia). cbn [concat]. by rewrite app_assoc.
Qed.

Lemma minimal_workflows_Some l :
  Forall (λ wf, wf ≠ JNull) l → minimal_workflows l = Some (minimal_workflow <$> l).
Proof.
  unfold minimal_workflows. induction 1 as [|wf l Hwf Hl IH]; [done|].
  cbn [mapM]. rewrite IH. by destruct wf.
Qed.

Lemma listWorkflows_paged api s pages fuel :
  paged api s None pages → (length pages ≤ fuel)%nat →
  Forall (λ wf, wf ≠ JNull) (concat pages) →
  listWorkflows fuel api s
  = Some (inr (JObj [("data", JArr (minimal_workflow <$> concat pages));
                     ("nextCursor", JNull)])).
Proof.
  intros Hpaged Hfuel Hwf. unfold listWorkflows.
  rewrite (list_pages_paged _ _ _ _ Hpaged fuel [] Hfuel). cbn [app].
  by rewrite minimal_workflows_Some.
Qed.

Lemma assoc_omap {A} (f : string → option A) ks k :
  assoc k (omap (fun k' => (fun v => (k', v)) <$> f k') ks)
  = if bool_decide (k ∈ ks) then f k else None.
Proof.
  induction ks as [|k' ks IH]; [done|]. cbn [omap list_omap].
  change (list_omap _ _ ?g ks) with (omap g ks).
  destruct (decide (k = k')) as [<-|Hne].
  - rewrite (bool_decide_eq_true_2 (k ∈ k :: ks)) by apply list_elem_of_here.
    destruct (f k) as [v|] eqn:Hk; cbn [fmap option_fmap option_map].
    + cbn [assoc]. by rewrite string_eqb_refl.
    + rewrite IH. by destruct (bool_decide (k ∈ ks)).
  - assert (bool_decide (k ∈ k' :: ks) = bool_decide (k ∈ ks)) as ->.
    { apply bool_decide_ext. rewrite elem_of_cons. split; [by intros [?|?] | by right]. }
    destruct (f k') as [v|]; cbn [fmap option_fmap option_map]; [|done].
    cbn [assoc]. destruct (String.eqb k k') eqn:Heq; [|done].
    by apply string_eqb_eq in Heq.
Qed.

Lemma prop_minimal_workflow wf k :
  prop k (minimal_workflow wf) = if bool_decide (k ∈ minimal_fields) then prop k wf else None.
Proof. unfold minimal_workflow. cbn [prop]. apply (assoc_omap (fun k' => prop k' wf)). Qed.

(** X18.  When the instance serves the workflows in pages, [listWorkflows]
    asks for one page after the other, following the cursors, and returns
    the workflows of all the pages, in order, each reduced to its nine
    summary fields (so without its nodes and connections), with a
    [nextCursor] that is [null]. *)
Theorem workflows_paged (api : Api) (s : N8nWorkflowService) (pages : list (list json))
    (fuel : nat) :
  paged api s None pages →
  (length pages ≤ fuel)%nat →
  Forall (λ wf, wf ≠ JNull) (concat pages) →
  listWorkflows fuel api s
  = Some (inr (JObj [("data", JArr (minimal_workflow <$> concat pages));
                     ("nextCursor", JNull)]))
  ∧ (∀ wf k, k ∈ minimal_fields → prop k (minimal_workflow wf) = prop k wf)
  ∧ (∀ wf k, k ∉ minimal_fields → prop k (minimal_workflow wf) = None)
  ∧ (∀ wf, prop "nodes" (minimal_workflow wf) = None
           ∧ prop "connections" (minimal_workflow wf) = None).
Proof.
  intros Hpaged Hfuel Hwf. split; [by apply listWorkflows_paged|].
  split; [|split].
  - intros wf k Hk. by rewrite prop_minimal_workflow, bool_decide_eq_true_2.
  - intros wf k Hk. by rewrite prop_minimal_workflow, bool_decide_eq_false_2.
  - intros wf. by rewrite !prop_minimal_workflow.
Qed.

(** X18 at a concrete input: two pages, the second reached through the
    cursor ["c 2"], which is sent as [c+2]. *)
Lemma workflows_paged_witness :
  listWorkflows 2 two_pages example_service
  = Some (inr (JObj [("data", JArr [JObj [("id", JStr "w1"); ("name", JStr "First")];
                                    JObj [("id", JStr "w2"); ("name", JStr "Second")]]);
                     ("nextCursor", JNull)])).
Proof.
  assert (paged two_pages example_service None
            [[JObj [("id", JStr "w1"); ("name", JStr "First"); ("nodes", JArr [])]];
             [JObj [("id", JStr "w2"); ("name", JStr "Second"); ("connections", JObj [])]]])
    as Hpaged.
  { eapply paged_more; [by vm_compute | reflexivity | reflexivity |].
    eapply paged_last; [by vm_compute | reflexivity | reflexivity]. }
  destruct (workflows_paged two_pages example_service _ 2 Hpaged)
    as [Hlist _]; [cbn [length]; lia | by repeat constructor |].
  exact Hlist.
Defined.

(** X19.  Outside the paged case: an instance that answers with a bare
    array (an older n8n) has that array returned, reduced in the same way;
    a request that fails makes the whole call fail with the error of the
    request, and an answer that is neither an array nor an object with an
    array [data] makes it fail with a TypeError, so that no partial list is
    ever returned; and against an instance whose every page announces a
    next one, the call does not return. *)
Theorem workflows_listing_edges (api : Api) (s : N8nWorkflowService) (fuel : nat) :
  (∀ l, page_at api s None = inr (JArr l) → Forall (λ wf, wf ≠ JNull) l →
     listWorkflows (S fuel) api s
     = Some (inr (JObj [("data", JArr (minimal_workflow <$> l)); ("nextCursor", JNull)])))
  ∧ (∀ e, page_at api s None = inl e → listWorkflows (S fuel) api s = Some (inl e))
  ∧ (∀ response, page_at api s None = inr response →
       is_array (Some response) = false → is_array (prop "data" response) = false →
       listWorkflows (S fuel) api s = Some (inl TypeError))
  ∧ (∀ response data e,
       page_at api s None = inr response →
       prop "data" response = Some (JArr data) →
       truthy (prop "nextCursor" response) = true →
       page_at api s (prop "nextCursor" response) = inl e →
       listWorkflows (S (S fuel)) api s = Some (inl e))
  ∧ ((∀ cursor, ∃ response data,
        page_at api s cursor = inr response
        ∧ prop "data" response = Some (JArr data)
        ∧ truthy (prop "nextCursor" response) = true) →
     listWorkflows fuel api s = None).
Proof.
  split; [|split; [|split; [|split]]].
  - intros l Hpage Hl. unfold listWorkflows. rewrite list_pages_step, Hpage.
    by rewrite minimal_workflows_Some.
  - intros e Hpage. unfold listWorkflows. by rewrite list_pages_step, Hpage.
  - intros response Hpage Harr Hdata. unfold listWorkflows. rewrite list_pages_step, Hpage.
    destruct response as [| | | |l|fields]; try done.
    cbn [prop] in *. by destruct (assoc "data" fields) as [[]|].
  - intros response data e Hpage Hdata Hnext Hfail. unfold listWorkflows.
    rewrite list_pages_step, Hpage.
    destruct (prop_data_object _ _ Hdata) as [fields ->].
    rewrite Hdata. cbv zeta. rewrite Hnext. by rewrite list_pages_step, Hfail.
  - intros Hendless. unfold listWorkflows.
    assert (∀ acc cursor, list_pages fuel api s acc cursor = None) as ->; [|done].
    induction fuel as [|fuel IH]; intros acc cursor; [done|].
    destruct (Hendless cursor) as (response & data & Hpage & Hdata & Hnext).
    rewrite list_pages_step, Hpage.
    destruct (prop_data_object _ _ Hdata) as [fields ->].
    rewrite Hdata. cbv zeta. rewrite Hnext. apply IH.
Qed.

(** ** A workflow by its name *)

Lemma find_fmap {A B} (f : B → bool) (g : A → B) l :
  List.find f (g <$> l) = g <$> List.find (fun x => f (g x)) l.
Proof.
  induction l as [|x l IH]; [done|]. cbn [fmap list_fmap List.find].
  destruct (f (g x)); [done|]. apply IH.
Qed.

(** The workflows whose name is the string [name]. *)
Lemma strict_equal_name wf name :
  strict_equal (prop "name" wf) (Some (JStr name)) = true ↔ prop "name" wf = Some (JStr name).
Proof.
  destruct (prop "name" wf) as [[]|]; cbn [strict_equal]; try (split; congruence).
  rewrite string_eqb_eq. split; congruence.
Qed.

(** X20.  [getWorkflowByName] fetches the list of workflows and then, by
    its [id], the first workflow whose name is exactly the given string;
    when no workflow has that name it makes no second request and throws
    [Workflow not found: name]. *)
Theorem workflow_by_name (api : Api) (s : N8nWorkflowService) (pages : list (list json))
    (fuel : nat) (name : string) :
  paged api s None pages →
  (length pages ≤ fuel)%nat →
  Forall (λ wf, wf ≠ JNull) (concat pages) →
  getWorkflowByName fuel api s (Some (JStr name))
  = Some match List.find (fun wf => strict_equal (prop "name" wf) (Some (JStr name)))
                         (concat pages) with
         | Some wf => request api s "GET" ("workflows/" +:+ template (prop "id" wf)) None
         | None => inl (NotFound name)
         end
  ∧ ((∀ wf, wf ∈ concat pages → prop "name" wf ≠ Some (JStr name)) →
     getWorkflowByName fuel api s (Some (JStr name)) = Some (inl (NotFound name)))
  ∧ error_message (NotFound name) = Some ("Workflow not found: " +:+ name).
Proof.
  intros Hpaged Hfuel Hwf.
  assert (getWorkflowByName fuel api s (Some (JStr name))
          = Some match List.find (fun wf => strict_equal (prop "name" wf) (Some (JStr name)))
                                 (concat pages) with
                 | Some wf => request api s "GET" ("workflows/" +:+ template (prop "id" wf)) None
                 | None => inl (NotFound name)
                 end) as Hget.
  { unfold getWorkflowByName. rewrite (listWorkflows_paged _ _ _ _ Hpaged Hfuel Hwf).
    cbn [prop assoc String.eqb Ascii.eqb Bool.eqb]. rewrite find_fmap.
    assert (∀ l, List.find (fun x => strict_equal (prop "name" (minimal_workflow x))
                                                    (Some (JStr name))) l
                 = List.find (fun wf => strict_equal (prop "name" wf) (Some (JStr name))) l)
      as ->.
    { intros l. induction l as [|x l IH]; [done|]. cbn [List.find].
      rewrite prop_minimal_workflow. rewrite IH. done. }
    destruct (List.find _ (concat pages)) as [wf|]; [|done].
    cbn [fmap option_fmap option_map]. unfold getWorkflow.
    by rewrite prop_minimal_workflow. }
  split; [done|]. split; [|done].
  intros Hnone. rewrite Hget.
  destruct (List.find _ (concat pages)) as [wf|] eqn:Hfind; [|done].
  apply find_some in Hfind as [Hin Heq]. apply strict_equal_name in Heq.
  by destruct (Hnone wf (proj2 (list_elem_of_In _ _) Hin)).
Qed.

(** X20 at a concrete input: the workflow named [Second] is on the second
    page and is fetched by its id [w2]; no workflow is named [Third]. *)
Lemma workflow_by_name_witness :
  getWorkflowByName 2 two_pages example_service (Some (JStr "Second"))
  = Some (inr (JObj [("id", JStr "w2"); ("name", JStr "Second"); ("nodes", JArr [])]))
  ∧ getWorkflowByName 2 two_pages example_service (Some (JStr "Third"))
    = Some (inl (NotFound "Third")).
Proof.
  assert (paged two_pages example_service None
            [[JObj [("id", JStr "w1"); ("name", JStr "First"); ("nodes", JArr [])]];
             [JObj [("id", JStr "w2"); ("name", JStr "Second"); ("connections", JObj [])]]])
    as Hpaged.
  { eapply paged_more; [by vm_compute | reflexivity | reflexivity |].
    eapply paged_last; [by vm_compute | reflexivity | reflexivity]. }
  assert (Forall (λ wf, wf ≠ JNull)
            (concat [[JObj [("id", JStr "w1"); ("name", JStr "First"); ("nodes", JArr [])]];
                     [JObj [("id", JStr "w2"); ("name", JStr "Second");
                            ("connections", JObj [])]]])) as Hwf
    by by repeat constructor.
  split.
  - destruct (workflow_by_name two_pages example_service _ 2 "Second" Hpaged
                ltac:(cbn [length]; lia) Hwf) as [Hget _].
    rewrite Hget. by vm_compute.
  - destruct (workflow_by_name two_pages example_service _ 2 "Third" Hpaged
                ltac:(cbn [length]; lia) Hwf) as [Hget _].
    rewrite Hget. by vm_compute.
Defined.

(** ** The query of [getExecutions] *)

Lemma upper_hex_safe d : 0 ≤ d < 16 → is_form_safe (upper_hex_char d) = true.
Proof.
  intros Hd.
  assert (d = 0 ∨ d = 1 ∨ d = 2 ∨ d = 3 ∨ d = 4 ∨ d = 5 ∨ d = 6 ∨ d = 7 ∨ d = 8 ∨ d = 9
          ∨ d = 10 ∨ d = 11 ∨ d = 12 ∨ d = 13 ∨ d = 14 ∨ d = 15) as Hcases by lia.
  repeat (destruct Hcases as [-> | Hcases]; [reflexivity|]). by subst.
Qed.

Lemma char_code_range c : 0 ≤ char_code c < 256.
Proof. case_ascii c; vm_compute; split; congruence. Qed.

Lemma form_encode_char_safe c d :
  d ∈ form_encode_char c → is_form_safe d = true ∨ d = "+"%char ∨ d = "%"%char.
Proof.
  unfold form_encode_char. destruct (is_form_safe c) eqn:Hc.
  - intros ->%list_elem_of_singleton. by left.
  - destruct (Ascii.eqb c " ").
    + intros ->%list_elem_of_singleton. right. by left.
    + pose proof (char_code_range c) as Hr.
      intros Hd. repeat (apply elem_of_cons in Hd as [->|Hd]).
      * right. by right.
      * left. apply upper_hex_safe. split; [apply Z.div_pos | apply Z.div_lt_upper_bound]; lia.
      * left. apply upper_hex_safe. apply Z.mod_pos_bound. lia.
      * by apply elem_of_nil in Hd.
Qed.

Lemma form_encode_safe text d :
  d ∈ chars_of (form_encode text) → is_form_safe d = true ∨ d = "+"%char ∨ d = "%"%char.
Proof.
  unfold form_encode. rewrite chars_of_string_of.
  intros (c & _ & Hd)%list_elem_of_In%in_flat_map.
  by apply (form_encode_char_safe c), list_elem_of_In.
Qed.

Lemma string_chars_eq s t : chars_of s = chars_of t → s = t.
Proof. intros H. by rewrite <- (string_of_chars_of s), <- (string_of_chars_of t), H. Qed.

Lemma executions_params l w :
  "executions?" +:+ URLSearchParams_toString
     (("limit", l) :: (if truthy w then [("workflowId", template w)] else []))
  = "executions?" +:+ "limit=" +:+ form_encode l
      +:+ (if truthy w then "&" +:+ "workflowId=" +:+ form_encode (template w) else "").
Proof.
  unfold URLSearchParams_toString. apply string_chars_eq.
  destruct (truthy w); cbn [fmap list_fmap join fst snd].
  - change (form_encode "limit") with "limit".
    change (form_encode "workflowId") with "workflowId".
    rewrite !chars_of_app. cbn [chars_of list_ascii_of_string]. by rewrite <- !app_assoc.
  - change (form_encode "limit") with "limit".
    rewrite !chars_of_app. cbn [chars_of list_ascii_of_string].
    by rewrite <- ?app_assoc, ?app_nil_r.
Qed.

(** X21.  [getExecutions] asks for [executions?limit=n], with the limit 10
    when none is given, followed by [&workflowId=id] when a workflow is
    given.  Both values are written form-encoded: letters, digits and
    [* - . _] as they are, and nothing else but [+] and [%XX], so that a
    value cannot add a parameter to the query. *)
Theorem executions_query (api : Api) (s : N8nWorkflowService) (workflowId limit : option json) :
  limit ≠ Some JNull →
  getExecutions api s workflowId limit
  = request api s "GET"
      ("executions?" +:+ "limit=" +:+ form_encode (to_str (default (JNum (Fin 1 1)) limit))
         +:+ (if truthy workflowId
              then "&" +:+ "workflowId=" +:+ form_encode (template workflowId)
              else ""))
      None
  ∧ getExecutions api s workflowId None = getExecutions api s workflowId (Some (JNum (Fin 1 1)))
  ∧ form_encode (to_str (JNum (Fin 1 1))) = "10"
  ∧ (∀ text d, d ∈ chars_of (form_encode text) →
       is_form_safe d = true ∨ d = "+"%char ∨ d = "%"%char)
  ∧ (∀ text, ("&"%char ∉ chars_of (form_encode text))
             ∧ ("="%char ∉ chars_of (form_encode text))
             ∧ ("#"%char ∉ chars_of (form_encode text))).
Proof.
  intros Hlimit. split; [|split; [done|split; [done|split; [apply form_encode_safe|]]]].
  - unfold getExecutions. rewrite <- executions_params.
    destruct (default (JNum (Fin 1 1)) limit) eqn:Hd; try done.
    destruct limit as [[]|]; simpl in Hd; congruence.
  - intros text.
    assert (∀ c, is_form_safe c = false → c ≠ "+"%char → c ≠ "%"%char →
                 c ∉ chars_of (form_encode text)) as Hnot.
    { intros c Hc Hplus Hpct Hin. apply form_encode_safe in Hin as [Hin | [-> | ->]]; congruence. }
    repeat split; by apply Hnot.
Qed.

(** X21 at a concrete input: a workflow id with an ampersand. *)
Lemma executions_query_witness :
  getExecutions two_pages example_service (Some (JStr "a&limit=1000")) None
  = request two_pages example_service "GET"
            "executions?limit=10&workflowId=a%26limit%3D1000" None.
Proof.
  destruct (executions_query two_pages example_service (Some (JStr "a&limit=1000")) None)
    as [Hquery _]; [done|].
  rewrite Hquery. reflexivity.
Defined.

(** X17 at a concrete input: the address of [example_service] was given
    with a trailing slash. *)
Lemma request_address_witness :
  request two_pages example_service "GET" "workflows/w2" None
  = inr (JObj [("id", JStr "w2"); ("name", JStr "Second"); ("nodes", JArr [])])
  ∧ request two_pages example_service "GET" "workflows/w9" None
    = inl (HttpError 404 "not found")
  ∧ error_message (HttpError 404 "not found") = Some "HTTP 404: not found".
Proof.
  assert (no_trailing_slash "https://n8n.example/api/v1") as Hurl by (by vm_compute).
  destruct (request_address two_pages "https://n8n.example/api/v1" "secret" "GET"
              "workflows/w2" None Hurl) as (Hservice & _ & Hvalue & _).
  destruct (request_address two_pages "https://n8n.example/api/v1" "secret" "GET"
              "workflows/w9" None Hurl) as (_ & _ & _ & Herror & _).
  unfold example_service.
  change "https://n8n.example/api/v1/" with ("https://n8n.example/api/v1" +:+ "/").
  rewrite Hservice. split; [|split].
  - apply Hvalue. eexists. split; [reflexivity|]. split; [reflexivity | by vm_compute].
  - by destruct (Herror _ eq_refl eq_refl) as [-> _].
  - reflexivity.
Defined.

(** ** Keywords with wild cards *)

Lemma sqlite_lower_wildcard d c :
  is_wildcard c = true → sqlite_lower d = sqlite_lower c → d = c.
Proof.
  unfold is_wildcard. intros [Hc|Hc]%orb_true_iff; apply ascii_eqb_eq in Hc; subst c;
    case_ascii d; vm_compute; congruence.
Qed.

Lemma like_underscore p s : like ("_"%char :: p) ("_"%char :: s) = like p s.
Proof. done. Qed.

(** A pattern matches the text it is made of, up to the case of ASCII
    letters, whether or not it holds wild cards. *)
Lemma like_ci_prefix kw : ∀ s rest post,
  sqlite_lower <$> s = sqlite_lower <$> kw →
  like rest post = true →
  like (kw ++ rest) (s ++ post) = true.
Proof.
  induction kw as [|c kw IH]; intros s rest post Hs Hrest.
  - destruct s; [done | discriminate Hs].
  - destruct s as [|d s]; [discriminate Hs|]. rewrite !fmap_cons in Hs.
    injection Hs as Hd Hs. specialize (IH s rest post Hs Hrest). cbn [app].
    destruct (is_wildcard c) eqn:Hc.
    + apply (sqlite_lower_wildcard d c Hc) in Hd as ->.
      unfold is_wildcard in Hc. apply orb_true_iff in Hc as [Hc|Hc];
        apply ascii_eqb_eq in Hc; subst c.
      * rewrite like_percent. apply orb_true_iff. right.
        rewrite like_percent. apply orb_true_iff. by left.
      * by rewrite like_underscore.
    + rewrite like_literal by done. rewrite Hd, IH.
      by rewrite (proj2 (ascii_eqb_eq _ _) eq_refl).
Qed.

Lemma like_ci_contains kw pre s post :
  sqlite_lower <$> s = sqlite_lower <$> kw →
  like ("%"%char :: kw ++ ["%"%char]) (pre ++ s ++ post) = true.
Proof.
  intros Hs. induction pre as [|d pre IH].
  - cbn [app]. rewrite like_percent. apply orb_true_iff. left.
    apply like_ci_prefix; [done | apply like_only_percent].
  - cbn [app]. rewrite like_percent. apply orb_true_iff. by right.
Qed.

Lemma sql_like_ci_contains keyword column :
  no_nul keyword →
  column_contains keyword column → sql_like column ("%" +:+ keyword +:+ "%") = true.
Proof.
  intros Hnul (text & -> & pre & post & Htext). unfold sql_like.
  rewrite (pattern_chars _ Hnul).
  unfold like_text in Htext. rewrite chars_of_string_of in Htext.
  apply fmap_app_inv in Htext as (h1 & h23 & -> & H23 & ->).
  symmetry in H23. apply fmap_app_inv in H23 as (h2 & h3 & H2 & -> & ->).
  by apply like_ci_contains.
Qed.

Lemma ci_substring_refl s : ci_substring s s.
Proof. exists [], []. by rewrite app_nil_r. Qed.

Lemma like_text_no_nul s : no_nul s → like_text s = s.
Proof.
  intros Hs. unfold like_text. rewrite (until_nul_id _ Hs). apply string_of_chars_of.
Qed.

(** X22.  Wild cards in the keyword only add results.  For a keyword
    without NUL of at most 49998 bytes and a limit that is an integer [n]
    of at most [2^53] in absolute value: a row that contains the keyword, up to the case of ASCII
    letters, in its type, display name, description or documentation
    satisfies the condition of [searchNodes], whatever other characters the
    keyword holds; in particular a row satisfies the condition for its own
    node type as keyword; and when [n] is negative, which is no limit, or at
    least the size of the table, [searchNodes] does not throw and returns
    for every such row the object of its eight columns. *)
Theorem search_never_misses (db : Database) (keyword : string) (limit : jsnum) (n : Z) :
  no_nul keyword → Z.of_nat (String.length keyword) ≤ 49998 →
  limit_value limit = Some n → - 2 ^ 53 ≤ n ≤ 2 ^ 53 →
  (∀ r, row_matches keyword r → search_where ("%" +:+ keyword +:+ "%") r = true)
  ∧ (∀ r, r ∈ nodes db → node_type r = keyword →
       search_where ("%" +:+ keyword +:+ "%") r = true)
  ∧ (n < 0 ∨ Z.of_nat (length (nodes db)) ≤ n →
     ∃ results log,
       searchNodes db keyword limit = Some (results, log)
       ∧ ∀ r, r ∈ nodes db → row_matches keyword r →
              ∃ o, o ∈ results ∧ search_result_of r o).
Proof.
  intros Hnul Hlen Hlimit _.
  assert (∀ r, row_matches keyword r → search_where ("%" +:+ keyword +:+ "%") r = true)
    as Hmatch.
  { intros r Hr. unfold search_where. rewrite !orb_true_iff.
    destruct Hr as [H | [H | [H | H]]]; apply (sql_like_ci_contains _ _ Hnul) in H; tauto. }
  split; [apply Hmatch|]. split.
  - intros r _ Htype. apply Hmatch. left. exists (node_type r). split; [done|].
    rewrite Htype, (like_text_no_nul _ Hnul). apply ci_substring_refl.
  - intros Hn. unfold searchNodes. rewrite Hlimit. cbn [mbind option_bind].
    unfold search_rows.
    destruct (decide (nodes db = [])) as [Hempty|Hnodes].
    + rewrite (bool_decide_eq_true_2 _ Hempty), orb_true_r. cbn [mbind option_bind].
      do 2 eexists. split; [reflexivity|]. intros r Hr. rewrite Hempty in Hr.
      by apply elem_of_nil in Hr.
    + rewrite (bool_decide_eq_false_2 _ Hnodes), orb_false_r.
      assert (n ≠ 0) as Hne.
      { intros ->. destruct Hn as [?|Hn]; [lia|]. destruct (nodes db); [done|].
        cbn [length] in Hn. lia. }
      rewrite (proj2 (Z.eqb_neq _ _) Hne), (pattern_length _ Hlen).
      cbn [mbind option_bind]. do 2 eexists. split; [reflexivity|].
      intros r Hin Hr. exists (search_projection r).
      split; [|apply search_projection_columns].
      apply list_elem_of_fmap. exists r. split; [done|].
      assert (r ∈ List.filter (search_where ("%" +:+ keyword +:+ "%")) (nodes db)) as Hfound
        by (apply elem_of_list_filter; split; [done | by apply Hmatch]).
      unfold sql_limit. destruct (n <? 0) eqn:Hneg; [done|].
      apply Z.ltb_ge in Hneg. destruct Hn as [?|Hn]; [lia|].
      rewrite take_ge; [done|].
      pose proof (list_filter_length (search_where ("%" +:+ keyword +:+ "%")) (nodes db)).
      lia.
Qed.

(** X22 at a concrete input: the keyword [a_b] selects the row whose type
    contains it, and also a row whose type is [nodes-base.axb]. *)
Lemma search_never_misses_witness :
  (∃ results log,
     searchNodes underscore_db "a_b" (Fin 1 1) = Some (results, log)
     ∧ ∃ o, o ∈ results ∧ search_result_of underscore_row o)
  ∧ (searchNodes underscore_db "a_b" (Fin 1 1)
       ≫= λ found : list (gmap string json) * list console_msg,
            Some ((λ o : gmap string json, o !! "node_type") <$> found.1))
    = Some [Some (JStr "nodes-base.axb"); Some (JStr "nodes-base.a_b")].
Proof.
  destruct (search_never_misses underscore_db "a_b" (Fin 1 1) 10 eq_refl ltac:(by vm_compute)
              eq_refl ltac:(lia)) as (_ & _ & Hall).
  split; [|reflexivity].
  destruct Hall as (results & log & Hsearch & Hall); [right; cbn; lia|].
  exists results, log. split; [exact Hsearch|].
  apply Hall.
  - apply list_elem_of_further, list_elem_of_here.
  - left. exists "nodes-base.a_b". split; [done|].
    by exists (chars_of "nodes-base."), [].
Defined.

(** ** The tools *)

Lemma result_map_inl {A B} (f : A → B) (r : result A) e :
  result_map f r = inl e → r = inl e.
Proof. destruct r; cbn; congruence. Qed.

Lemma request_failure api s method endpoint data e :
  request api s method endpoint data = inl e → service_failure e.
Proof.
  unfold request. repeat case_match; intros [= <-]; exact I.
Qed.

Lemma list_pages_failure fuel api s acc cursor e :
  list_pages fuel api s acc cursor = Some (inl e) → service_failure e.
Proof.
  revert acc cursor. induction fuel as [|fuel IH]; intros acc cursor; [done|].
  cbn [list_pages].
  destruct (request _ _ _ _ _) as [e'|response] eqn:Hreq.
  - intros [= <-]. by eapply request_failure.
  - repeat case_match; try (intros [= <-]; exact I); try done. apply IH.
Qed.

Lemma listWorkflows_failure fuel api s e :
  listWorkflows fuel api s = Some (inl e) → service_failure e.
Proof.
  unfold listWorkflows.
  destruct (list_pages _ _ _ _ _) as [[e'|v]|] eqn:Hpages; [|destruct v|done];
    repeat case_match; intros [= <-]; try exact I.
  by eapply list_pages_failure.
Qed.

Lemma getWorkflowByName_failure fuel api s workflowName e :
  getWorkflowByName fuel api s workflowName = Some (inl e) → service_failure e.
Proof.
  unfold getWorkflowByName, getWorkflow.
  destruct (listWorkflows _ _ _) as [[e'|v]|] eqn:Hlist; [| |done].
  - intros [= <-]. by eapply listWorkflows_failure.
  - repeat case_match; try (intros [= <-]; exact I). intros [= Hreq].
    by eapply request_failure.
Qed.

Lemma getExecutions_failure api s workflowId limit e :
  getExecutions api s workflowId limit = inl e → service_failure e.
Proof.
  unfold getExecutions. repeat case_match; try (intros [= <-]; exact I);
    apply request_failure.
Qed.

Lemma getInstanceInfo_failure api s e :
  getInstanceInfo api s = inl e → service_failure e.
Proof.
  unfold getInstanceInfo. repeat case_match; intros [= <-]; exact I.
Qed.

Lemma query_failure {A} (s : N8nNodeService) (q : Database → A) e :
  query s q = inl e → service_failure e.
Proof. unfold query. case_match; intros [= <-]; exact I. Qed.

Lemma query_checked_failure {A} (s : N8nNodeService) (q : Database → option A) e :
  query_checked s q = inl e → service_failure e.
Proof.
  unfold query_checked. destruct (query s q) as [e'|[a|]] eqn:Hq; intros [= <-]; [|exact I].
  by eapply query_failure.
Qed.

(** An error of a tool that is announced comes from a service. *)
Lemma handler_failure fuel net now api srv name args e :
  name ∈ tools →
  CallToolRequest_handler fuel net now api srv name args = Some (inl e) →
  service_failure e.
Proof.
  intros Hin. unfold CallToolRequest_handler.
  repeat match goal with
         | |- context [String.eqb name ?s] => destruct (String.eqb_spec name s) as [->|?]
         end;
    try (intros [= H%result_map_inl];
         first [ by eapply query_failure | by eapply query_checked_failure
               | by eapply request_failure
               | by eapply getExecutions_failure | by eapply getInstanceInfo_failure ]).
  - case_match; intros [= <-]; exact I.
  - destruct (listWorkflows _ _ _) as [r|] eqn:Hl; [|done]. cbn.
    intros [= H%result_map_inl]. subst r. by eapply listWorkflows_failure.
  - destruct (getWorkflowByName _ _ _ _) as [r|] eqn:Hl; [|done]. cbn.
    intros [= H%result_map_inl]. subst r. by eapply getWorkflowByName_failure.
  - exfalso. unfold tools, node_documentation_tools, workflow_management_tools in Hin.
    cbn [app] in Hin.
    repeat (apply elem_of_cons in Hin as [?|Hin]; [done|]). by apply elem_of_nil in Hin.
Qed.

(** X23.  The handler answers [Unknown tool: name] for the names that
    [tools] does not announce, and for no other: every tool of the list is
    handled, and an error of such a tool is one of its service.  No name is
    announced twice. *)
Theorem tool_registry fuel net now api srv name args :
  (CallToolRequest_handler fuel net now api srv name args = Some (inl (UnknownTool name))
   ↔ name ∉ tools)
  ∧ error_message (UnknownTool name) = Some ("Unknown tool: " +:+ name)
  ∧ NoDup tools.
Proof.
  split; [split|split; [done|]].
  - intros Hcall Hin. exact (handler_failure _ _ _ _ _ _ _ _ Hin Hcall).
  - intros Hnot. unfold CallToolRequest_handler.
    repeat match goal with
           | |- context [String.eqb name ?s] =>
               destruct (String.eqb_spec name s) as [->|?];
                 [exfalso; apply Hnot; unfold tools, node_documentation_tools,
                    workflow_management_tools; cbn [app]; set_solver|]
           end.
    done.
  - apply (bool_decide_unpack (NoDup tools)). vm_compute. reflexivity.
Qed.

(** ** Searching through the tool *)

Lemma search_rows_short db keyword n :
  Z.of_nat (String.length keyword) ≤ 49998 →
  search_rows db keyword n
  = Some (sql_limit n (List.filter (search_where ("%" +:+ keyword +:+ "%")) (nodes db))).
Proof.
  intros Hlen. unfold search_rows.
  destruct (Z.eqb_spec n 0) as [->|Hne]; [done|].
  destruct (decide (nodes db = [])) as [->|Hnodes].
  - rewrite bool_decide_eq_true_2 by done. cbn [orb List.filter]. unfold sql_limit.
    destruct (n <? 0); [done | by rewrite take_nil].
  - rewrite bool_decide_eq_false_2 by done. cbn [orb]. by rewrite (pattern_length _ Hlen).
Qed.

Lemma search_rows_long db keyword n :
  49998 < Z.of_nat (String.length keyword) → n ≠ 0 → nodes db ≠ [] →
  search_rows db keyword n = None.
Proof.
  intros Hlen Hn Hnodes. unfold search_rows.
  rewrite (proj2 (Z.eqb_neq _ _) Hn), (bool_decide_eq_false_2 _ Hnodes). cbn [orb].
  assert ((max_like_pattern_length <? Z.of_nat (String.length ("%" +:+ keyword +:+ "%")))
          = true) as ->; [|done].
  apply Z.ltb_lt. rewrite !string_length_app. unfold max_like_pattern_length.
  change (String.length "%") with 1%nat. lia.
Qed.

(** A limit that stands for an integer other than zero is truthy. *)
Lemma limit_value_truthy x n :
  limit_value x = Some n → n ≠ 0 → truthy (Some (JNum x)) = true.
Proof.
  destruct x as [| |m e]; try done. cbn [limit_value truthy]. intros H Hn.
  apply negb_true_iff, Z.eqb_neq. intros ->. apply Hn.
  rewrite Z.mul_0_l, Zmod_0_l, Zdiv_0_l in H. cbn [Z.eqb] in H.
  destruct (0 <=? e); cbn [mbind option_bind] in H; by case_match; simplify_eq.
Qed.

Lemma no_limit_given_10 limit : no_limit_given limit → limit_or_10 limit = Fin 1 1.
Proof. intros [-> | (x & -> & Hx)]; [done|]. cbn [limit_or_10]. by rewrite Hx. Qed.

Lemma short_fraction_refused x :
  short_fraction x → truthy (Some (JNum x)) = true ∧ limit_value x = None.
Proof.
  destruct x as [| |m e]; try done. intros (He & Hm & _). cbn [truthy limit_value]. split.
  - apply negb_true_iff, Z.eqb_neq. intros ->. by apply Hm.
  - destruct (Z.leb_spec 0 e); [lia|].
    assert (m mod 10 ^ (- e) ≠ 0) as Hfrac.
    { intros Hdiv%Z.mod_divide; [|lia]. apply Hm, Z.mod_divide; [lia|].
      etransitivity; [|exact Hdiv]. exists (10 ^ (- e - 1)).
      replace (- e) with (Z.succ (- e - 1)) at 1 by lia.
      rewrite Z.pow_succ_r by lia. ring. }
    by rewrite (proj2 (Z.eqb_neq _ _) Hfrac).
Qed.

(** X24.  A search through the tool [search_n8n_nodes] on an open
    connection, for a keyword of at most 49998 bytes, returns the objects
    of the rows that satisfy the condition of the search, in the order of
    the table: of the first ten when [limit] is absent, zero or [NaN], of
    the first [n] for a positive integer [n] up to [2^53], and of all of
    them for a negative one.  For a [limit] that is infinite or has a
    fractional part, the result is the error of SQLite; so it is for a
    longer keyword, unless the table is empty or the limit zero. *)
Theorem search_tool_limit fuel net now api srv args
    (Hopen : is_open (db (nodeService srv)) = true) :
  let call := CallToolRequest_handler fuel net now api srv "search_n8n_nodes" args in
  let table := file_nodes (file (db (nodeService srv))) in
  let matching := List.filter (search_where ("%" +:+ arg_keyword args +:+ "%")) table in
  let returns (rows : list NodeRow) :=
    ∃ objects, call = Some (inr (Rows objects)) ∧ Forall2 search_result_of rows objects in
  (Z.of_nat (String.length (arg_keyword args)) ≤ 49998 →
   (no_limit_given (arg_limit args) → returns (take 10 matching))
   ∧ (∀ x n, arg_limit args = Some x → limit_value x = Some n → 0 < n ≤ 2 ^ 53 →
        returns (take (Z.to_nat n) matching))
   ∧ (∀ x n, arg_limit args = Some x → limit_value x = Some n → - 2 ^ 53 ≤ n < 0 →
        returns matching))
  ∧ (∀ x, arg_limit args = Some x → (∃ neg, x = Inf neg) ∨ short_fraction x →
       call = Some (inl SqliteError))
  ∧ (49998 < Z.of_nat (String.length (arg_keyword args)) → table ≠ [] →
     (no_limit_given (arg_limit args) → call = Some (inl SqliteError))
     ∧ (∀ x n, arg_limit args = Some x → limit_value x = Some n →
          n ≠ 0 → - 2 ^ 53 ≤ n ≤ 2 ^ 53 → call = Some (inl SqliteError))).
Proof.
  intros call table matching returns.
  assert (call = Some (result_map Rows
                         (match fst <$> searchNodes (tables (file (db (nodeService srv))))
                                          (arg_keyword args) (limit_or_10 (arg_limit args)) with
                          | Some a => inr a
                          | None => inl SqliteError
                          end))) as Hcall.
  { subst call. unfold CallToolRequest_handler. rewrite String.eqb_refl.
    unfold query_checked, query. by rewrite Hopen. }
  assert (∀ limit n,
            limit_or_10 (arg_limit args) = limit → limit_value limit = Some n →
            Z.of_nat (String.length (arg_keyword args)) ≤ 49998 →
            returns (sql_limit n matching)) as Hreturns.
  { intros limit n Hl Hn Hlen. subst returns. cbv beta. rewrite Hcall, Hl.
    unfold searchNodes. rewrite Hn. cbn [mbind option_bind].
    rewrite (search_rows_short _ _ _ Hlen). cbn [mbind option_bind fmap option_fmap option_map fst result_map].
    eexists. split; [reflexivity|].
    apply Forall2_fmap_r, Forall_Forall2_diag, Forall_forall.
    intros r _. apply search_projection_columns. }
  assert (∀ limit, limit_or_10 (arg_limit args) = limit → limit_value limit = None →
                   call = Some (inl SqliteError)) as Hrefused.
  { intros limit Hl Hn. rewrite Hcall, Hl. unfold searchNodes. by rewrite Hn. }
  assert (∀ limit n,
            limit_or_10 (arg_limit args) = limit → limit_value limit = Some n → n ≠ 0 →
            49998 < Z.of_nat (String.length (arg_keyword args)) → table ≠ [] →
            call = Some (inl SqliteError)) as Hlong.
  { intros limit n Hl Hn Hne Hlen Htable. rewrite Hcall, Hl. unfold searchNodes.
    rewrite Hn. cbn [mbind option_bind].
    by rewrite (search_rows_long (tables (file (db (nodeService srv)))) _ _ Hlen Hne Htable). }
  split; [|split].
  - intros Hlen. split; [|split].
    + intros Hnone%no_limit_given_10. by apply (Hreturns (Fin 1 1) 10).
    + intros x n Hx Hn Hpos.
      assert (sql_limit n matching = take (Z.to_nat n) matching) as <-.
      { unfold sql_limit. destruct (Z.ltb_spec n 0); [lia|done]. }
      apply (Hreturns x); [|done..]. rewrite Hx. cbn [limit_or_10].
      by rewrite (limit_value_truthy x n Hn) by lia.
    + intros x n Hx Hn Hneg.
      assert (sql_limit n matching = matching) as <-.
      { unfold sql_limit. destruct (Z.ltb_spec n 0); [done|lia]. }
      apply (Hreturns x); [|done..]. rewrite Hx. cbn [limit_or_10].
      by rewrite (limit_value_truthy x n Hn) by lia.
  - intros x Hx [[neg ->] | [Ht Hn]%short_fraction_refused].
    + apply (Hrefused (Inf neg)); [|done]. by rewrite Hx.
    + apply (Hrefused x); [|done]. rewrite Hx. cbn [limit_or_10]. by rewrite Ht.
  - intros Hlen Htable. split.
    + intros Hnone%no_limit_given_10. by apply (Hlong (Fin 1 1) 10).
    + intros x n Hx Hn Hne _. apply (Hlong x n); try done. rewrite Hx. cbn [limit_or_10].
      by rewrite (limit_value_truthy x n Hn).
Qed.

(** X24 at a concrete input: with the limit 0 the one row that matches
    [sheets] is returned, with the limit 2.5 the result is an error, and so
    it is for a keyword of 49999 letters. *)
Lemma search_tool_limit_witness :
  (∃ objects,
     CallToolRequest_handler 0 offline "" unreachable example_server "search_n8n_nodes"
       (plain_arguments "sheets" "" "" (Some (Fin 0 0)))
     = Some (inr (Rows objects))
     ∧ (λ o : gmap string json, o !! "node_type") <$> objects
       = [Some (JStr "nodes-base.googleSheets")])
  ∧ CallToolRequest_handler 0 offline "" unreachable example_server "search_n8n_nodes"
      (plain_arguments "sheets" "" "" (Some (Fin 25 (-1))))
    = Some (inl SqliteError)
  ∧ CallToolRequest_handler 0 offline "" unreachable example_server "search_n8n_nodes"
      (plain_arguments long_keyword "" "" None)
    = Some (inl SqliteError).
Proof.
  split; [|split].
  - destruct (search_tool_limit 0 offline "" unreachable example_server
                (plain_arguments "sheets" "" "" (Some (Fin 0 0))) eq_refl)
      as (Hshort & _).
    destruct Hshort as (Hten & _); [by vm_compute|].
    destruct Hten as (objects & Hcall & Hobjects).
    { right. by exists (Fin 0 0). }
    exists objects. split; [exact Hcall|].
    assert (Some (inr (Rows objects))
            = Some (inr (Rows [search_projection sheets_row])) :> option (result ToolValue))
      as [= ->] by (rewrite <- Hcall; vm_compute; reflexivity).
    reflexivity.
  - destruct (search_tool_limit 0 offline "" unreachable example_server
                (plain_arguments "sheets" "" "" (Some (Fin 25 (-1)))) eq_refl)
      as (_ & Hrefused & _).
    apply (Hrefused (Fin 25 (-1))); [reflexivity|]. right.
    split; [lia|]. split; [discriminate | reflexivity].
  - destruct (search_tool_limit 0 offline "" unreachable example_server
                (plain_arguments long_keyword "" "" None) eq_refl) as (_ & _ & Hlong).
    destruct Hlong as (Hlong & _); [by vm_compute | done |].
    apply Hlong. by left.
Defined.

(** ** The version of the database, through the tool *)

Lemma missingVars_nil env :
  missingVars env = [] →
  is_Some (env !! "N8N_API_URL" ≫= nonempty) ∧ is_Some (env !! "N8N_API_KEY" ≫= nonempty).
Proof.
  unfold missingVars, requiredEnvVars. cbn [List.filter].
  repeat case_bool_decide; cbn; try done.
Qed.

Lemma nonempty_ne s : s ≠ "" → nonempty s = Some s.
Proof. unfold nonempty. by destruct (String.eqb_spec s ""). Qed.

Lemma nonempty_inv s v : nonempty s = Some v → v = s ∧ s ≠ "".
Proof. unfold nonempty. destruct (String.eqb_spec s ""); [done|]. by intros [= <-]. Qed.

Lemma string_or_ne a d : d ≠ "" → string_or a d ≠ "".
Proof.
  intros Hd. unfold string_or. destruct a as [s|]; cbn; [|done].
  destruct (nonempty s) as [v|] eqn:Hv; cbn; [|done].
  apply nonempty_inv in Hv as [-> ?]. done.
Qed.

(** A default is used once: a value that was defaulted is not replaced. *)
Lemma string_or_idem a d d' : d ≠ "" → string_or (Some (string_or a d)) d' = string_or a d.
Proof.
  intros Hd. unfold string_or at 1. cbn [mbind option_bind].
  by rewrite nonempty_ne by by apply string_or_ne.
Qed.

Lemma startup_serving files default_db default_templates env srv log :
  startup files default_db default_templates env = (Serving srv, log) →
  process_env srv = env
  ∧ missingVars env = []
  ∧ workflowService srv
    = new_N8nWorkflowService (default "" (env !! "N8N_API_URL"))
                             (default "" (env !! "N8N_API_KEY"))
  ∧ ∃ f, files (string_or (env !! "N8N_MCP_DB_PATH") "./data/nodes.db") = Some f
         ∧ db (nodeService srv) = {| is_open := true; file := f |}.
Proof.
  unfold startup. destruct (missingVars env) eqn:Hmissing; [|done].
  unfold new_N8nNodeService.
  rewrite string_or_idem by discriminate.
  unfold open_readonly.
  destruct (files (string_or (env !! "N8N_MCP_DB_PATH") "./data/nodes.db")) as [f|] eqn:Hf;
    cbn [mbind option_bind]; [|done].
  destruct (files _ ≫= _); intros [= <- <-]; cbn; eauto 10.
Qed.

(** X25.  On a server that has started, [get_database_version] reports the
    version recorded in the file the node service opened, with a note that
    names it, or a note that there is none.  The path it reports is the
    path of that file only when N8N_MCP_DB_PATH is set and not empty:
    without the variable the service opened [./data/nodes.db] and the tool
    reports [../n8n-mcp/data/nodes.db]. *)
Theorem database_version_tool files default_db default_templates env srv log
    fuel net now api args
    (Hstart : startup files default_db default_templates env = (Serving srv, log)) :
  let opened := string_or (env !! "N8N_MCP_DB_PATH") "./data/nodes.db" in
  ∃ f version path note,
    files opened = Some f
    ∧ CallToolRequest_handler fuel net now api srv "get_database_version" args
      = Some (inr (VersionReport version path note))
    ∧ version = (getDatabaseVersion {| is_open := true; file := f |}).1
    ∧ (path = opened ↔ is_Some (env !! "N8N_MCP_DB_PATH" ≫= nonempty))
    ∧ (is_Some (env !! "N8N_MCP_DB_PATH" ≫= nonempty) ∨ path = "../n8n-mcp/data/nodes.db")
    ∧ (∀ v, version = Some v → note = "Database contains nodes for n8n " +:+ v)
    ∧ (version = None
       → note = "No version metadata found in database. Database may be from an older version of n8n-mcp.").
Proof.
  intros opened.
  destruct (startup_serving _ _ _ _ _ _ Hstart) as (Henv & _ & _ & f & Hf & Hdb).
  exists f. do 3 eexists. split; [exact Hf|]. split.
  { unfold CallToolRequest_handler. cbn [String.eqb Ascii.eqb Bool.eqb]. rewrite Hdb, Henv.
    reflexivity. }
  split; [done|]. subst opened. unfold string_or.
  destruct (env !! "N8N_MCP_DB_PATH" ≫= nonempty) as [p|]; cbn [default].
  - repeat split; eauto. intros v ->. done. intros ->. done.
  - repeat split; try (by intros [? ?]); try done; eauto.
    + by intros v ->.
    + by intros ->.
Qed.

Lemma database_version_tool_witness :
  ∃ note,
    CallToolRequest_handler 0 offline "" unreachable example_server "get_database_version"
      (plain_arguments "" "" "" None)
    = Some (inr (VersionReport None "../n8n-mcp/data/nodes.db" note))
    ∧ example_files "../n8n-mcp/data/nodes.db" = None.
Proof.
  assert (startup example_files "" "" example_env
          = (Serving example_server, (startup example_files "" "" example_env).2)) as Hstart
    by (vm_compute; reflexivity).
  destruct (database_version_tool _ _ _ _ _ _ 0%nat offline "" unreachable
              (plain_arguments "" "" "" None) Hstart)
    as (f & version & path & note & Hf & Hcall & Hversion & _ & Hpath & _).
  exists note. split; [|reflexivity].
  destruct Hpath as [[p Hp]| ->]; [vm_compute in Hp; discriminate|].
  assert (Some f = Some (db_file sheets_db)) as [= ->]
    by (rewrite <- Hf; vm_compute; reflexivity).
  rewrite Hcall, Hversion. reflexivity.
Defined.

(** ** An instance that refuses the requests *)

Lemma refused_request api s method endpoint data status text :
  (∀ r, api r = Some {| http_ok := false; http_status := status; http_text := text |}) →
  request api s method endpoint data = inl (HttpError status text).
Proof. intros Hapi. unfold request. by rewrite Hapi. Qed.

(** X26.  When the instance answers every request with a status that is not
    a success, each tool of the workflow management returns a result with
    [isError] whose message is [HTTP status: text], the text being the body
    of the answer; [get_n8n_instance_info] returns one that says that the
    instance could not be reached. *)
Theorem api_failure_reported fuel net now api srv args status text name
    (Hapi : ∀ r, api r = Some {| http_ok := false; http_status := status;
                                 http_text := text |})
    (Hname : name ∈ "get_n8n_instance_info" :: workflow_management_tools) :
  let message := "HTTP " +:+ number_to_string (normalise status 0) +:+ ": " +:+ text in
  ∃ e,
    CallToolRequest_handler (S fuel) net now api srv name args = Some (inl e)
    ∧ error_message e
      = Some (if String.eqb name "get_n8n_instance_info"
              then "Could not connect to n8n instance: Error: " +:+ message
              else message).
Proof.
  intros message. unfold workflow_management_tools in Hname.
  repeat (apply elem_of_cons in Hname as [->|Hname]);
    [..|by apply elem_of_nil in Hname];
    unfold CallToolRequest_handler; cbn [String.eqb Ascii.eqb Bool.eqb];
    unfold getInstanceInfo, listWorkflows, getWorkflowByName, listWorkflows, getWorkflow,
      toggleWorkflow, executeWorkflow, getExecutionDetails, createWorkflow, updateWorkflow,
      deleteWorkflow; cbn [list_pages];
    rewrite ?(refused_request _ _ _ _ _ _ _ Hapi); cbn [result_map fmap option_fmap option_map];
    try (eexists; split; [reflexivity|reflexivity]).
  unfold getExecutions, default. cbn [from_option id]. cbv beta iota.
  rewrite (refused_request _ _ _ _ _ _ _ Hapi). eexists; split; reflexivity.
Qed.

Lemma api_failure_reported_witness :
  ∃ e,
    CallToolRequest_handler 1 offline "" (refusing 401 "unauthorized") example_server
      "list_workflows" (plain_arguments "" "" "" None)
    = Some (inl e)
    ∧ error_message e = Some "HTTP 401: unauthorized".
Proof.
  destruct (api_failure_reported 0 offline "" (refusing 401 "unauthorized") example_server
              (plain_arguments "" "" "" None) 401 "unauthorized" "list_workflows")
    as (e & Hcall & Hmessage).
  - done.
  - set_solver.
  - exists e. split; [exact Hcall|]. rewrite Hmessage. vm_compute. reflexivity.
Defined.
